(* ===== verification/_CoqProject ===== *)
-Q . S2P
Prelude.v
CText.v
Civil.v
CFloat.v
Json.v
RefJson.v
Mms.v
RefMms.v
GooseCommon.v
GooseCommonSpec.v
SvCommon.v
L2Frame.v
StdinLines.v
JsonLines.v
Args.v
GoosePublisher.v
RefGoose.v
GoosePublisherSpec.v
GooseSubscriber.v
GooseSubscriberSpec.v
SvSubscriber.v
RefSv.v
SvSubscriberSpec.v
SvPublisher.v
RefSvPub.v
SvPublisherSpec.v
Fixture.v
FixtureSpec.v
MmsServer.v
RefMmsServer.v
MmsServerSpec.v
Interact.v
MmsServerRun.v
RefFileTree.v
MmsServerRunSpec.v
IedCommon.v
IedController.v
IedControllerSpec.v
IedReporter.v
IedReporterSpec.v
IedClient.v
IedClientSpec.v
IedServer.v
IedServerSpec.v
IedSystem.v
JsonText.v
JsonRender.v
JsonNumbers.v
MmsClientCommon.v
ServiceText.v
ServiceTextSpec.v
RefMmsClient.v
MmsServices.v
ServiceLines.v
MmsServicesSpec.v
ServicesRunSpec.v
FileServicesSpec.v
MmsClient.v
MmsClientSpec.v
