(* ===== verification/Prelude.v ===== *)
(** * Verification of the libiec61850 adapters

    The repository tests implementations of IEC 61850 against each other: an
    adapter per implementation turns a command line, JSON lines on the
    standard input and frames or MMS services into JSON lines on the standard
    output.  This development verifies the adapters written in C around
    libiec61850, adapters/libiec61850/src.

    ** Parts of the program, and the files that model them

    - goose_common.c: typed JSON values, times, APPID and MAC texts, events.
      [GooseCommon.v], theorems in [GooseCommonSpec.v].
    - sv_common.c: SV member types, smpMod names, quality.  [SvCommon.v].
    - goose_publisher.c: retransmission schedule, counters, commands.
      [GoosePublisher.v], theorems in [GoosePublisherSpec.v]; the option loop
      it shares with the SV programs in [Args.v], the line buffer in
      [StdinLines.v].
    - goose_subscriber.c: frame filter, stream table, supervision, events.
      [GooseSubscriber.v], [GooseSubscriberSpec.v]; the frame header it shares
      with sv_subscriber.c in [L2Frame.v].
    - sv_publisher.c: ASDU values, sample counters, reports.
      [SvPublisher.v], [SvPublisherSpec.v].
    - sv_subscriber.c: loss accounting, noASDU, decoding of seqData.
      [SvSubscriber.v], [SvSubscriberSpec.v].
    - jsonlines.h: readiness line, meta flags.  [JsonLines.v].
    - fixture.c: loader of the MMS fixtures.  [Fixture.v], [FixtureSpec.v].
    - mms_server.c: write handler, reports, journals, file store, start.
      [MmsServer.v], [MmsServerSpec.v]; the main loop and the end in
      [MmsServerRun.v], [MmsServerRunSpec.v].
    - mms_client.c: connections, sequence, lines.  [MmsClient.v],
      [MmsClientSpec.v].
    - mms_client_services.c: the string builder and the JSON texts in
      [ServiceText.v] and [ServiceTextSpec.v]; the services in
      [MmsServices.v], with [ServiceLines.v] (what a line is),
      [MmsServicesSpec.v] (each service writes such lines),
      [ServicesRunSpec.v] (the sequence, the wait for reports) and
      [FileServicesSpec.v] (directories and files).  [MmsClientCommon.v] has
      the calls of the client library and the names of its errors.
    - ied_client.c, ied_controller.c, ied_reporter.c, ied_server.c:
      [IedClient.v], [IedController.v], [IedReporter.v], [IedServer.v], each
      with its [*Spec.v]; [IedCommon.v] has what they share, the calls of the
      library among it, and [IedSystem.v] puts the controller and the reporter
      on the server.

    The names are the ones of the code: a function [f] of a file is the
    definition [f] of its Rocq file, a [struct] the record of its name, a loop
    a [Fixpoint] beside the function that has it ([populate_file] is the body
    of the loop of [populate_filestore]), [main] and [start] the program.

    ** How the code is represented

    A C integer is the [Z] it denotes and arithmetic on unsigned types wraps
    through [u8] .. [u64] (below); a string is a [string] without NUL
    ([CText.v] has the conversions of printf, strtol, sscanf and strchr,
    [Civil.v] timegm, gmtime_r, strftime and strptime of glibc, [CFloat.v]
    binary32 and binary64 on [spec_float], ["%g"] and strtod).  Octets are
    [list Z].  A function that can fail returns an [option] or a sum with the
    error text; [res] (below) adds the two ways not to return: [Exit], a call
    that ends the process, and [Undef], undefined behaviour (a null pointer
    handed to strcmp, a division by zero, a buffer overflow).  State is passed
    explicitly: a record for the static variables of a file, the list of the
    lines written for the standard output, the list of the frames for the
    wire.  Input is a sequence of events, one for each turn of a main loop, so
    that a theorem about all sequences is one about all interleavings of
    timers, frames and typed lines.

    The clients, the IED server and the run of the MMS server are
    programs that call and wait for answers ([Interact.v]): a [prog] is
    a tree of calls of the library, lines and loops. [runs p t a]
    relates a program to the events of a run and its result, for every
    answer the environment may give; a loop has the runs of its turns,
    so that a run that does not end has no trace; [undefined] is a
    program that follows a null pointer, which has none either. [exec] runs a program
    against a handler that computes the answers, with a bound on the
    turns of each loop, and [exec_runs] shows that it computes runs.
    Safety is proved of all [runs]; that a program ends, and what it
    then has written, of [exec] ([ends], [gives]).

    ** Libraries

    Code that is not in the repository is a class of operations and a class of
    laws, which state what its documentation promises: json-c ([Json.v]), MMS
    values ([Mms.v]), the GOOSE and SV publishers and receivers (in the files
    of the programs that use them), the value cache of the MMS server and the
    file system ([MmsServer.v], [RefMmsServer.v]), removing and walking
    directories ([MmsServerRun.v], [RefFileTree.v]).  The files [Ref*.v]
    implement the classes by concrete functions and prove the laws, so that
    every theorem with such a hypothesis is also applied to a concrete input.
    An object the C code changes in place is passed on; the MMS cache, where
    a write reaches a part of a value through a pointer, has references.
    A path of the file system leads to a place, the list of its components with
    empty ones, ["."] and [".."] taken out; there are no symbolic links.
    [IedSystem.ControlPath] is such an interface for the way between the IED
    controller and the IED server, against which their cycle is proved.

    What the libraries do with a server without asking the program is part of
    its runs: an index-range write to the MMS server changes the cache and
    passes the write handler by ([MmsServer.RangeWrite]), the file services
    change the file store, and a client of the IED server writes the status
    attributes the program opens ([IedServer.AttributeWrite]).

    ** What is shown

    - Values and texts ([GooseCommonSpec], [SvCommon]): typed JSON and MMS
      values are inverse to each other, the reader is total but for a null
      type name, texts of times, addresses and quality are read back.
    - GOOSE publisher: the shape of the schedule, stNum and sqNum over every
      run, the frames after a state change with the times between them, what a
      line on standard input can do, the simulation patch.
    - GOOSE subscriber: the stream table, strictly alternating supervision
      events, recognition of simulated frames.
    - SV publisher: consecutive sample counters, reports, lines, invariants of
      the main loop.
    - SV subscriber: exact loss accounting, no read outside a frame by either
      subscriber's header checks or by the reader of noASDU, faithful reading
      of noASDU and seqData, totality on every frame.
    - Fixtures: values and specifications agree, nothing of the document is
      lost, what is written is served, the loader returns.
    - MMS server: read-only variables keep the fixture's value under every
      sequence of requests unless an index-range write addresses them, writes
      the handler accepts are stored and reported, journal queries, file store,
      start; a run is the writes it is sent in order, ends on a signal, and
      leaves the file system as it was when no file of the fixture leads out of
      the store.
    - MMS client: calls in order on its connections ([MmsClientSpec]), lines
      that are JSON whatever the server sends, values that read back
      ([JsonText.v] is a reader of JSON, [JsonRender.v] and [JsonNumbers.v]
      relate printing to it), the builder as appending, bounded waiting,
      directories and files read to their end.
    - IED programs: the controller operates once and as the control model
      permits, and says what it did; on the server it goes through the control
      cycle and reads back what it operated; the client performs its table of
      operations; the reporter describes a report, with a value that an
      earlier one left where it has none, and disables what it enabled; the
      server starts with the fixture, follows its control calls and the client
      writes to its status, and ends on a signal.
    - Lemmas beside the theorems show where the code does something else than
      it means: [goose_null_command], [goose_schedule_wraps],
      [goose_appid_octal], [sv_every_zero], [sv_loss_wraps],
      [sv_no_asdu_negative], [fixture_time_fraction], [fixture_null_type],
      [journal_overflow], [controller_ctlval_true],
      [reporter_default_is_no_change], [denied_read_reported],
      [control_character_kept], [sb_value_nan], [goose_step_overflows],
      [range_write_unguarded], [file_leaks], [report_value_stale].

    ** Bounds and fuel

    [goose_value_from_json] and [goose_value_to_json] recur on the depth of a
    document: the programs call them with [json_depth], beyond the nesting
    json-c accepts (32), and the theorems hold for every depth a document has.
    [StdinLines.run_lines] has the length of the buffer as fuel, which every
    line shortens.  The loops of the schedule, of printf's precisions and of
    the tables have the bounds the code gives them.  [step] of the GOOSE
    publisher is an [int]: a frame that would take it past [INT_MAX] is
    [Undef].  [sb_printf_loop] has two turns, which are enough
    ([sb_printf_appends]) while the text stays below 2^60 characters: its
    capacity is a [size_t] that doubles, and vsnprintf returns -1 for a piece
    longer than [INT_MAX], which is then left out; what is said of the lines
    of mms_client_services.c is said of lines shorter than 2^59.  [sb_value]
    recurs on a bound on the nesting of the values a server sends, a parameter
    of the client's definitions, and a value nested deeper has no run.  The
    loops of [exec] have a bound that the theorems relate to what the server
    does: one turn more than the pages or blocks it sends, or than the turns
    before the signal; 61 for the wait of 60 sleeps.

    ** Not modelled

    The log on standard error, deallocation and failing allocations, sockets
    and process scheduling.  Signals end the input of the GOOSE and SV
    programs, and are the answer to the reading of a flag in the IED server and
    the MMS server.
    Threads: a handler the library calls on its own thread runs, in the model,
    while its program waits for an answer, in a sleep or a request, which is
    where the program can observe it.  Lines are written whole: emit_line of
    mms_client_services.c holds a lock, and that a report could come between
    the printf calls of one line of mms_client.c, which takes no lock, is not
    represented.  The file store of the MMS server is a set of places with
    contents, without permissions and links, and what the library does to it is
    an activity of a turn.  The adapters in Go, Java and Rust, the fixtures and
    the scripts are outside this development. *)

From Stdlib Require Import ZArith Lia String Ascii.
From stdpp Require Export base tactics list strings numbers option.

#[export] Set Default Goal Selector "!".

(** [lia] sees through [Z.div] and [Z.modulo] in the whole development. *)
Ltac Zify.zify_post_hook ::= Z.to_euclidean_division_equations.

(** ** Machine integers

    A [w]-bit C integer is the [Z] it denotes.  Arithmetic on the unsigned
    types wraps; the [u..] functions are the C conversions to those types, the
    [i..] functions the (two's complement) conversions to the signed ones. *)

Declare Scope c_scope.
Delimit Scope c_scope with C.

Definition u8 (z : Z) : Z := (z mod 256)%Z.

Definition u16 (z : Z) : Z := (z mod 65536)%Z.

Definition u32 (z : Z) : Z := (z mod 4294967296)%Z.

Definition u64 (z : Z) : Z := (z mod 18446744073709551616)%Z.

Definition i32 (z : Z) : Z := ((z + 2147483648) mod 4294967296 - 2147483648)%Z.

Definition i64 (z : Z) : Z :=
  ((z + 9223372036854775808) mod 18446744073709551616 - 9223372036854775808)%Z.

Abbreviation is_u8 z := (0 <= z < 256)%Z.
Abbreviation is_u16 z := (0 <= z < 65536)%Z.
Abbreviation is_u32 z := (0 <= z < 4294967296)%Z.
Abbreviation is_u64 z := (0 <= z < 18446744073709551616)%Z.
Abbreviation is_i32 z := (-2147483648 <= z < 2147483648)%Z.
Abbreviation is_i64 z := (-9223372036854775808 <= z < 9223372036854775808)%Z.

(** [a +u32 b]: addition of two [uint32_t]; likewise for the others. *)
Notation "a +u32 b" := (u32 (a + b)) (at level 50, left associativity) : c_scope.
Notation "a -u32 b" := (u32 (a - b)) (at level 50, left associativity) : c_scope.
Notation "a *u32 b" := (u32 (a * b)) (at level 40, left associativity) : c_scope.
Notation "a +u64 b" := (u64 (a + b)) (at level 50, left associativity) : c_scope.
Notation "a *u64 b" := (u64 (a * b)) (at level 40, left associativity) : c_scope.

(** The largest [int]. *)
Definition INT_MAX : Z := 2147483647.

(** ** Results of program code

    [Undef] is C undefined behaviour (a null pointer handed to [strcmp], a
    division by zero); [Exit] is a call that ends the process with a code. *)

Inductive res (A : Type) : Type :=
| Ret (a : A)
| Exit (code : Z)
| Undef.
Arguments Ret {A} a.
Arguments Exit {A} code.
Arguments Undef {A}.

Definition res_bind {A B} (m : res A) (f : A → res B) : res B :=
  match m with
  | Ret a => f a
  | Exit c => Exit c
  | Undef => Undef
  end.

Notation "'let*' x ':=' m 'in' k" := (res_bind m (fun x => k))
  (at level 10, x pattern, m at level 100, k at level 200) : c_scope.

Definition res_of_option {A} (o : option A) : res A :=
  match o with Some a => Ret a | None => Undef end.

Lemma res_bind_ret {A B} (m : res A) (f : A → res B) b :
  res_bind m f = Ret b ↔ ∃ a, m = Ret a ∧ f a = Ret b.
Proof. split; [destruct m; simpl; try done; eauto|]. by intros (a & -> & ?). Qed.

(** ** Facts on machine integers *)

Create HintDb cint.

Lemma u8_id z : is_u8 z → u8 z = z.
Proof. unfold u8. lia. Qed.

Lemma u16_id z : is_u16 z → u16 z = z.
Proof. unfold u16. lia. Qed.

Lemma u32_id z : is_u32 z → u32 z = z.
Proof. unfold u32. lia. Qed.

Lemma u64_id z : is_u64 z → u64 z = z.
Proof. unfold u64. lia. Qed.

Lemma i32_id z : is_i32 z → i32 z = z.
Proof. unfold i32. lia. Qed.

Lemma i64_id z : is_i64 z → i64 z = z.
Proof. unfold i64. lia. Qed.

Lemma u8_range z : is_u8 (u8 z).
Proof. unfold u8. lia. Qed.

Lemma u16_range z : is_u16 (u16 z).
Proof. unfold u16. lia. Qed.

Lemma u32_range z : is_u32 (u32 z).
Proof. unfold u32. lia. Qed.

Lemma u64_range z : is_u64 (u64 z).
Proof. unfold u64. lia. Qed.

#[export] Hint Resolve u8_id u16_id u32_id u64_id i32_id i64_id : cint.
#[export] Hint Resolve u8_range u16_range u32_range u64_range : cint.

(** Arithmetic goals about wrapped values. *)
Ltac cint :=
  repeat match goal with
    | H : context [u8 _] |- _ => unfold u8 in H
    | H : context [u16 _] |- _ => unfold u16 in H
    | H : context [u32 _] |- _ => unfold u32 in H
    | H : context [u64 _] |- _ => unfold u64 in H
    | H : context [i32 _] |- _ => unfold i32 in H
    end; unfold u8, u16, u32, u64, i32, i64; lia.

(** Case analysis on the boolean tests of a goal, each with its meaning. *)
Ltac cases_if :=
  repeat match goal with
    | |- context [if ?b then _ else _] =>
        lazymatch type of b with
        | bool => let E := fresh "E" in destruct b eqn:E
        end
    end.

(** Turn boolean comparisons of [Z] in the context into propositions. *)
Ltac bool_hyps :=
  repeat match goal with
    | H : (_ && _)%bool = true |- _ => apply andb_true_iff in H as [? ?]
    | H : (_ || _)%bool = false |- _ => apply orb_false_iff in H as [? ?]
    | H : negb _ = true |- _ => apply negb_true_iff in H
    | H : negb _ = false |- _ => apply negb_false_iff in H
    | H : (_ =? _)%Z = true |- _ => apply Z.eqb_eq in H
    | H : (_ =? _)%Z = false |- _ => apply Z.eqb_neq in H
    | H : (_ <? _)%Z = true |- _ => apply Z.ltb_lt in H
    | H : (_ <? _)%Z = false |- _ => apply Z.ltb_ge in H
    | H : (_ <=? _)%Z = true |- _ => apply Z.leb_le in H
    | H : (_ <=? _)%Z = false |- _ => apply Z.leb_gt in H
    | H : String.eqb _ _ = true |- _ => apply String.eqb_eq in H
    | H : String.eqb _ _ = false |- _ => apply String.eqb_neq in H
    end.

(** ** Lists *)

Lemma existsb_false_iff {A} (f : A → bool) (l : list A) :
  existsb f l = false ↔ ∀ x, x ∈ l → f x = false.
Proof.
  induction l as [|x l IH]; simpl.
  - split; [intros _ y Hy; by apply elem_of_nil in Hy|done].
  - rewrite orb_false_iff, IH. split.
    + intros [? ?] y [->|?]%elem_of_cons; auto.
    + intros Hf. split; [|intros y ?]; apply Hf, elem_of_cons; auto.
Qed.

(** Indices [0 .. n-1] of a C [for] loop. *)
Definition range (n : Z) : list Z := seqZ 0 n.

(** ** Octets *)

(** The [n] low octets of [z], most significant first. *)
Fixpoint be_octets (n : nat) (z : Z) : list Z :=
  match n with
  | O => []
  | S n' => be_octets n' (z / 256) ++ [z mod 256]%Z
  end.

Lemma length_be_octets n z : length (be_octets n z) = n.
Proof. revert z. induction n as [|n IH]; intros z; simpl; [done|]. rewrite length_app, IH. simpl. lia. Qed.

Lemma be_octets_octets n z : Forall (λ b, is_u8 b) (be_octets n z).
Proof.
  revert z. induction n as [|n IH]; intros z; simpl; [constructor|].
  apply Forall_app. split; [apply IH|]. constructor; [lia|constructor].
Qed.

(** [(a << n) | b] puts [b] in the low [n] bits. *)
Lemma lor_shiftl a b n :
  (0 <= n)%Z → (0 <= b < 2 ^ n)%Z → Z.lor (Z.shiftl a n) b = (a * 2 ^ n + b)%Z.
Proof.
  intros Hn Hb. rewrite <- Z.shiftl_mul_pow2 by done.
  rewrite <- Z.add_lor_land.
  assert (Z.land (Z.shiftl a n) b = 0)%Z as ->; [|lia].
  apply Z.bits_inj'. intros k Hk. rewrite Z.land_spec, Z.bits_0.
  destruct (Z.ltb_spec k n).
  - rewrite Z.shiftl_spec_low by done. done.
  - rewrite <- (Z.mod_small b (2 ^ n)) by done. rewrite Z.mod_pow2_bits_high by lia.
    apply andb_false_r.
Qed.

Lemma be_octets_2 z : is_u16 z → be_octets 2 z = [z / 256; z mod 256]%Z.
Proof. intros. simpl. repeat f_equal. lia. Qed.

(** [a | b] when the bits of [b] are below those of [a]. *)
Lemma lor_low a b n :
  (0 <= n)%Z → (a mod 2 ^ n = 0)%Z → (0 <= b < 2 ^ n)%Z → Z.lor a b = (a + b)%Z.
Proof.
  intros Hn Ha Hb. assert (0 < 2 ^ n)%Z by (apply Z.pow_pos_nonneg; lia).
  assert (a = a / 2 ^ n * 2 ^ n)%Z as Hd by (pose proof (Z_div_mod_eq_full a (2 ^ n)); lia).
  rewrite Hd at 1. rewrite <- Z.shiftl_mul_pow2, lor_shiftl by done. lia.
Qed.
