(* ===== verification/CText.v ===== *)
(** * C text

    Characters, numbers printed and scanned the way the C library functions
    the adapters call do it ([printf] conversions, [strtol], [strtoul],
    [sscanf] of ["%2x"], [snprintf] truncation, [strchr]), with the facts on
    them the components share.  A C string is a Rocq [string] (no NUL). *)

From Stdlib Require Import ZArith Lia String Ascii.
From stdpp Require Import base tactics list strings numbers option.
From S2P Require Import Prelude.

Local Open Scope Z_scope.

(** ** Characters *)

Definition code (c : ascii) : Z := Z.of_N (N_of_ascii c).

(** [(char) n] *)
Definition chr (n : Z) : ascii := ascii_of_N (Z.to_N (u8 n)).

Definition isdigit (c : ascii) : bool := (48 <=? code c) && (code c <=? 57).

(** [isspace] of the C locale *)
Definition isspace (c : ascii) : bool :=
  (code c =? 32) || ((9 <=? code c) && (code c <=? 13)).

(** A double quote. *)
Definition dquote : string := String "034" "".

(** The value of a hexadecimal digit, -1 for another character: the body
    [hexval] of goose_common.c and [hex_char] of fixture.c share. *)
Definition hex_value (c : ascii) : Z :=
  if (48 <=? code c) && (code c <=? 57) then code c - 48
  else if (97 <=? code c) && (code c <=? 102) then code c - 97 + 10
  else if (65 <=? code c) && (code c <=? 70) then code c - 65 + 10
  else -1.

(** A lower-case digit of base up to 16. *)
Definition digit (n : Z) : ascii := if n <? 10 then chr (48 + n) else chr (87 + n).

(** ** Printing *)

(** The last [w] digits of [n] in base [b], most significant first. *)
Fixpoint fmt_fixed (b : Z) (w : nat) (n : Z) : string :=
  match w with
  | O => ""
  | S w' => fmt_fixed b w' (n / b) +:+ String (digit (n mod b)) ""
  end.

(** Number of decimal digits of [n >= 0], at most 20 (a 64-bit value). *)
Fixpoint ndigits (fuel : nat) (n : Z) : nat :=
  match fuel with
  | O => 1
  | S f => if n <? 10 then 1 else S (ndigits f (n / 10))
  end.

(** ["%u"], ["%llu"] of a value of at most 64 bits *)
Definition fmt_u (n : Z) : string := fmt_fixed 10 (ndigits 19 n) n.

(** ["%d"], ["%lld"] of a value of at most 64 bits *)
Definition fmt_d (n : Z) : string :=
  if n <? 0 then "-" +:+ fmt_u (- n) else fmt_u n.

(** ["%0wu"]: at least [w] digits. *)
Definition fmt_pad (w : nat) (n : Z) : string :=
  if n <? 10 ^ Z.of_nat w then fmt_fixed 10 w n else fmt_u n.

(** ["%02x"] of a [uint8_t] *)
Definition fmt_02x (b : Z) : string := fmt_fixed 16 2 b.

(** ["%04x"] of a 16-bit value *)
Definition fmt_04x (n : Z) : string := fmt_fixed 16 4 n.

(** [snprintf(buf, size, "%s", s)]: what [buf] holds. *)
Definition snprintf_s (size : nat) (s : string) : string := String.substring 0 (size - 1) s.

(** ** Scanning *)

Fixpoint skip_spaces (s : string) : string :=
  match s with
  | String c s' => if isspace c then skip_spaces s' else s
  | EmptyString => s
  end.

(** The value of a digit in base [b], if it is one. *)
Definition digit_value (b : Z) (c : ascii) : option Z :=
  let v := if (48 <=? code c) && (code c <=? 57) then code c - 48
           else if (97 <=? code c) && (code c <=? 122) then code c - 87
           else if (65 <=? code c) && (code c <=? 90) then code c - 55
           else 99 in
  if v <? b then Some v else None.

(** The digits of base [b] at the start of [s], accumulated on [acc]. *)
Fixpoint scan_digits (b acc : Z) (s : string) : Z * string :=
  match s with
  | String c s' =>
      match digit_value b c with
      | Some v => scan_digits b (acc * b + v) s'
      | None => (acc, s)
      end
  | EmptyString => (acc, s)
  end.

Definition is_x (c : ascii) : bool := (code c =? 120) || (code c =? 88).

(** The sign, the magnitude and the rest of the longest number at the start of
    [s] in the base [strtol] takes, [None] when there is none.  Base 0 reads
    the base off the prefix; ["0x"] without a digit after it is the number 0
    followed by ["x"]. *)
Definition sign_of (s : string) : bool * string :=
  match s with
  | String c s' => if code c =? 45 then (true, s')
                   else if code c =? 43 then (false, s') else (false, s)
  | EmptyString => (false, s)
  end.

Definition strto (base : Z) (s : string) : option (bool * Z * string) :=
  let '(neg, s) := sign_of (skip_spaces s) in
  let plain b :=
    match s with
    | String c _ =>
        match digit_value b c with
        | Some _ => let '(v, r) := scan_digits b 0 s in Some (neg, v, r)
        | None => None
        end
    | EmptyString => None
    end in
  match s with
  | String z (String x s' as xs) =>
      if (base =? 0) && (code z =? 48) && is_x x then
        match s' with
        | String c _ =>
            match digit_value 16 c with
            | Some _ => let '(v, r) := scan_digits 16 0 s' in Some (neg, v, r)
            | None => Some (neg, 0, xs)
            end
        | EmptyString => Some (neg, 0, xs)
        end
      else if base =? 0 then plain (if code z =? 48 then 8 else 10)
      else plain base
  | String z EmptyString =>
      if base =? 0 then plain (if code z =? 48 then 8 else 10) else plain base
  | EmptyString => None
  end.

(** [strtoul(s, &end, base)]: the value and what [end] points to. *)
Definition strtoul (base : Z) (s : string) : Z * string :=
  match strto base s with
  | None => (0, s)
  | Some (neg, v, r) =>
      (if 18446744073709551615 <? v then 18446744073709551615
       else if neg then u64 (- v) else v, r)
  end.

(** [strtol(s, NULL, base)] *)
Definition strtol (base : Z) (s : string) : Z :=
  match strto base s with
  | None => 0
  | Some (neg, v, _) =>
      if neg then Z.max (- v) (-9223372036854775808) else Z.min v 9223372036854775807
  end.

(** [atoi(s)] as glibc computes it: [(int) strtol(s, NULL, 10)] *)
Definition atoi (s : string) : Z := i32 (strtol 10 s).

(** [sscanf] of ["%2x"] (glibc): leading white space is skipped, the sign and a
    ["0x"] prefix count against the width of two, no digit is a failure. *)
Definition scan_2x (s : string) : option (Z * string) :=
  let '(neg, s1) := sign_of (skip_spaces s) in
  let signed := negb (String.eqb s1 (skip_spaces s)) in
  let val v := u32 (if neg then - v else v) in
  match s1 with
  | EmptyString => None
  | String c s2 =>
      if hex_value c <? 0 then None
      else if signed then Some (val (hex_value c), s2)
      else match s2 with
           | String d s3 =>
               if (code c =? 48) && is_x d then Some (0, s3)
               else if hex_value d <? 0 then Some (val (hex_value c), s2)
               else Some (val (hex_value c * 16 + hex_value d), s3)
           | EmptyString => Some (val (hex_value c), s2)
           end
  end.

(** At most [w] decimal digits at the start of [s]. *)
Fixpoint scan_width (w : nat) (acc : Z) (s : string) : Z * string :=
  match w, s with
  | S w', String c s' =>
      if isdigit c then scan_width w' (acc * 10 + (code c - 48)) s' else (acc, s)
  | _, _ => (acc, s)
  end.

(** [sscanf] of ["%wd"] (glibc), with [w > 1]: white space is skipped, a sign
    counts against the width, no digit is a failure. *)
Definition scan_dec (w : nat) (s : string) : option (Z * string) :=
  let '(neg, s1) := sign_of (skip_spaces s) in
  let w1 := if String.eqb s1 (skip_spaces s) then w else (w - 1)%nat in
  match s1 with
  | String c _ =>
      if isdigit c then
        let '(v, r) := scan_width w1 0 s1 in Some ((if neg then - v else v), r)
      else None
  | EmptyString => None
  end.

(** [sscanf] of ["%c"] *)
Definition scan_c (s : string) : option (ascii * string) :=
  match s with
  | String c s' => Some (c, s')
  | EmptyString => None
  end.

(** [strchr(s, c)]: the text before the first [c] and the text after it. *)
Fixpoint strchr (c : ascii) (s : string) : option (string * string) :=
  match s with
  | EmptyString => None
  | String d s' =>
      if Ascii.eqb d c then Some (EmptyString, s')
      else match strchr c s' with
           | Some (a, b) => Some (String d a, b)
           | None => None
           end
  end.

(** The characters [c] does not occur in [s]. *)
Definition lacks (c : ascii) (s : string) : bool :=
  match strchr c s with None => true | Some _ => false end.

Definition slen (s : string) : Z := Z.of_nat (String.length s).

(** ** Facts *)

Lemma code_range c : is_u8 (code c).
Proof. unfold code. pose proof (N_ascii_bounded c). lia. Qed.

Lemma code_chr n : is_u8 n → code (chr n) = n.
Proof.
  intros. unfold code, chr. rewrite N_ascii_embedding; rewrite u8_id by lia; lia.
Qed.

Lemma code_inj c d : code c = code d → c = d.
Proof.
  unfold code. intros H. apply N2Z.inj in H.
  by rewrite <- (ascii_N_embedding c), <- (ascii_N_embedding d), H.
Qed.

Lemma chr_code c : chr (code c) = c.
Proof. apply code_inj. apply code_chr, code_range. Qed.

Lemma code_digit n : 0 <= n < 16 → code (digit n) = if n <? 10 then 48 + n else 87 + n.
Proof. intros. unfold digit. destruct (n <? 10) eqn:E; bool_hyps; apply code_chr; lia. Qed.

Ltac solve_digit :=
  repeat match goal with
    | |- context [code (digit ?n)] => rewrite (code_digit n) by lia
    | |- context [if ?a <? ?b then _ else _] => destruct (Z.ltb_spec a b); try lia
    | |- context [if ?a && ?b then _ else _] => destruct (a && b) eqn:?; bool_hyps; try lia
    end.

Lemma hex_value_digit n : 0 <= n < 16 → hex_value (digit n) = n.
Proof.
  intros. unfold hex_value. rewrite code_digit by lia.
  destruct (n <? 10) eqn:E; bool_hyps; cases_if; bool_hyps; lia.
Qed.

Lemma hex_value_range c : -1 <= hex_value c < 16.
Proof. unfold hex_value. cases_if; bool_hyps; lia. Qed.

Lemma isspace_digit n : 0 <= n < 16 → isspace (digit n) = false.
Proof. intros. unfold isspace. rewrite code_digit by lia. cases_if; lia. Qed.

Lemma isdigit_digit n : 0 <= n < 10 → isdigit (digit n) = true.
Proof. intros. unfold isdigit. rewrite code_digit by lia. cases_if; lia. Qed.

Lemma digit_value_digit b n : 0 <= n < b → b <= 16 → digit_value b (digit n) = Some n.
Proof.
  intros. unfold digit_value. cbv zeta.
  match goal with |- (if ?v <? b then _ else _) = _ => assert (v = n) as -> end.
  - rewrite code_digit by lia. destruct (n <? 10) eqn:E; bool_hyps; cases_if; bool_hyps; lia.
  - cases_if; bool_hyps; [done|lia].
Qed.

Lemma string_app_cons c (a b : string) : String c a +:+ b = String c (a +:+ b).
Proof. done. Qed.

Lemma string_app_nil_l (a : string) : "" +:+ a = a.
Proof. done. Qed.

Lemma string_app_assoc (a b c : string) : (a +:+ b) +:+ c = a +:+ (b +:+ c).
Proof. induction a as [|x a IH]; [done|]. by rewrite !string_app_cons, IH. Qed.

Lemma string_app_nil_r (a : string) : a +:+ "" = a.
Proof. induction a as [|x a IH]; [done|]. by rewrite string_app_cons, IH. Qed.

Lemma string_length_app (a b : string) :
  String.length (a +:+ b) = (String.length a + String.length b)%nat.
Proof. induction a as [|x a IH]; [done|]. rewrite string_app_cons. simpl. by rewrite IH. Qed.

Create Rewrite HintDb text.
#[export] Hint Rewrite string_app_cons string_app_nil_l string_app_assoc string_app_nil_r string_length_app : text.

Lemma length_fmt_fixed b w n : String.length (fmt_fixed b w n) = w.
Proof.
  revert n. induction w as [|w IH]; intros n; simpl; [done|].
  rewrite string_length_app, IH. simpl. lia.
Qed.

Lemma slen_nonneg s : 0 <= slen s.
Proof. unfold slen. lia. Qed.

Lemma slen_app a b : slen (a +:+ b) = slen a + slen b.
Proof. unfold slen. rewrite string_length_app. lia. Qed.

Lemma slen_cons c s : slen (String c s) = 1 + slen s.
Proof. unfold slen. simpl. lia. Qed.

(** Text that does not start with a digit of base [b]. *)
Definition no_digit (b : Z) (s : string) : Prop :=
  match s with
  | EmptyString => True
  | String c _ => digit_value b c = None
  end.

Lemma scan_digits_stop b acc s : no_digit b s → scan_digits b acc s = (acc, s).
Proof. destruct s as [|c s]; simpl; [done|]. by intros ->. Qed.

Lemma scan_digits_app b w n acc rest :
  2 <= b <= 16 → 0 <= n →
  scan_digits b acc (fmt_fixed b w n +:+ rest)
  = scan_digits b (acc * b ^ Z.of_nat w + n mod b ^ Z.of_nat w) rest.
Proof.
  intros Hb. revert n acc rest. induction w as [|w IH]; intros n acc rest Hn.
  - simpl. by rewrite string_app_nil_l, Z.mod_1_r, Z.mul_1_r, Z.add_0_r.
  - simpl fmt_fixed. rewrite string_app_assoc, IH by (apply Z.div_pos; lia).
    rewrite string_app_cons, string_app_nil_l. simpl.
    rewrite digit_value_digit by (try apply Z.mod_pos_bound; lia). f_equal.
    rewrite Nat2Z.inj_succ, Z.pow_succ_r by lia.
    assert (0 < b ^ Z.of_nat w) by (apply Z.pow_pos_nonneg; lia).
    rewrite (Z.rem_mul_r n b (b ^ Z.of_nat w)) by lia. lia.
Qed.

(** Scanning printed digits reads the number back. *)
Lemma scan_digits_fmt b w n rest :
  2 <= b <= 16 → no_digit b rest → 0 <= n < b ^ Z.of_nat w →
  scan_digits b 0 (fmt_fixed b w n +:+ rest) = (n, rest).
Proof.
  intros. rewrite scan_digits_app, Z.mod_small by lia.
  by rewrite scan_digits_stop.
Qed.

Lemma ndigits_bound f n : 0 <= n < 10 ^ (Z.of_nat f + 1) → n < 10 ^ Z.of_nat (ndigits f n).
Proof.
  revert n. induction f as [|f IH]; intros n Hn; simpl ndigits; [lia|].
  destruct (Z.ltb_spec n 10); [lia|].
  rewrite Nat2Z.inj_succ, Z.pow_succ_r by lia.
  rewrite Nat2Z.inj_succ, Z.add_succ_l, Z.pow_succ_r in Hn by lia.
  specialize (IH (n / 10)). lia.
Qed.

Lemma ndigits_pos f n : (1 <= ndigits f n)%nat.
Proof. destruct f; simpl; [lia|]. destruct (n <? 10); lia. Qed.

(** Printing in decimal and scanning back. *)
Lemma scan_digits_fmt_u n rest :
  is_u64 n → no_digit 10 rest → scan_digits 10 0 (fmt_u n +:+ rest) = (n, rest).
Proof.
  intros. apply scan_digits_fmt; [lia|done|]. split; [lia|].
  apply ndigits_bound. simpl. lia.
Qed.

(** A character that is no digit of base [b] ends the digits. *)
Lemma no_digit_cons b c s : digit_value b c = None → no_digit b (String c s).
Proof. done. Qed.

Lemma fmt_fixed_S b w n rest :
  fmt_fixed b (S w) n +:+ rest = fmt_fixed b w (n / b) +:+ String (digit (n mod b)) rest.
Proof. simpl fmt_fixed. by rewrite string_app_assoc. Qed.

Lemma fmt_fixed_2 b n rest :
  fmt_fixed b 2 n +:+ rest
  = String (digit (n / b mod b)) (String (digit (n mod b)) rest).
Proof. by rewrite !fmt_fixed_S. Qed.

Lemma get_app_length a c b : String.get (String.length a) (a +:+ String c b) = Some c.
Proof. induction a as [|x a IH]; [done|]. rewrite string_app_cons. simpl. done. Qed.

Lemma substring_app_length a b : String.substring 0 (String.length a) (a +:+ b) = a.
Proof.
  induction a as [|x a IH]; [by destruct b|]. rewrite string_app_cons. simpl. by rewrite IH.
Qed.

Lemma eqb_digit_ne n (c : ascii) :
  0 <= n < 16 → code c < 48 ∨ 57 < code c < 97 ∨ 102 < code c → Ascii.eqb (digit n) c = false.
Proof.
  intros Hn Hc. apply Ascii.eqb_neq. intros <-. rewrite code_digit in Hc by lia.
  destruct (n <? 10) eqn:E; bool_hyps; lia.
Qed.

Lemma get_fmt_last b i n : String.get i (fmt_fixed b (S i) n) = Some (digit (n mod b)).
Proof.
  simpl fmt_fixed. rewrite <- (length_fmt_fixed b i (n / b)) at 1. apply get_app_length.
Qed.

Lemma substring_fmt_init b i n :
  String.substring 0 i (fmt_fixed b (S i) n) = fmt_fixed b i (n / b).
Proof.
  simpl fmt_fixed. rewrite <- (length_fmt_fixed b i (n / b)) at 1. apply substring_app_length.
Qed.

Lemma digit_zero_iff n : 0 <= n < 16 → digit n = "0"%char ↔ n = 0.
Proof.
  intros Hn. split; [|by intros ->]. intros Hd. apply (f_equal code) in Hd.
  rewrite code_digit in Hd by lia. change (code "0") with 48 in Hd.
  destruct (Z.ltb_spec n 10); lia.
Qed.

Lemma skip_spaces_digit n s :
  0 <= n < 16 → skip_spaces (String (digit n) s) = String (digit n) s.
Proof. intros. simpl. by rewrite isspace_digit. Qed.

Lemma sign_of_digit n s :
  0 <= n < 16 → sign_of (String (digit n) s) = (false, String (digit n) s).
Proof.
  intros. simpl. rewrite code_digit by lia.
  destruct (Z.ltb_spec n 10); cases_if; bool_hyps; by try lia.
Qed.

(** A positive number is printed with a leading digit that is not zero. *)
Lemma fmt_u_head n :
  0 < n < 18446744073709551616 → ∃ d s, fmt_u n = String (digit d) s ∧ 0 < d < 10.
Proof.
  intros Hn. unfold fmt_u.
  assert (0 < n < 10 ^ (Z.of_nat 19 + 1)) as Hb by (simpl; lia). clear Hn. revert n Hb.
  generalize 19%nat. intros f. induction f as [|f IH]; intros n Hb; simpl ndigits.
  - exists n, "". simpl. rewrite Z.mod_small by lia. split; [done|lia].
  - destruct (Z.ltb_spec n 10).
    + exists n, "". simpl. rewrite Z.mod_small by lia. split; [done|lia].
    + rewrite Nat2Z.inj_succ, Z.add_succ_l, Z.pow_succ_r in Hb by lia.
      destruct (IH (n / 10)) as (d & s & Hf & ?); [lia|].
      simpl fmt_fixed. rewrite Hf. eexists d, _. by rewrite string_app_cons.
Qed.

(** [strtoul] in base 0 (and 10) reads a printed decimal number to its end. *)
Lemma strto_fmt_u base n :
  base = 0 ∨ base = 10 → 0 < n < 18446744073709551616 → strto base (fmt_u n) = Some (false, n, "").
Proof.
  intros Hbase Hn.
  assert (scan_digits 10 0 (fmt_u n) = (n, "")) as Hs.
  { rewrite <- (string_app_nil_r (fmt_u n)). by rewrite scan_digits_fmt_u by (done || lia). }
  destruct (fmt_u_head n Hn) as (d & s & Hf & Hd). rewrite Hf in Hs |- *.
  unfold strto. rewrite skip_spaces_digit, sign_of_digit by lia. cbv beta iota zeta.
  assert ((code (digit d) =? 48) = false) as Hz.
  { rewrite code_digit by lia. destruct (Z.ltb_spec d 10), (Z.eqb_spec (48 + d) 48); lia. }
  assert (match digit_value 10 (digit d) with
          | Some _ => let '(v, r) := scan_digits 10 0 (String (digit d) s) in Some (false, v, r)
          | None => None
          end = Some (false, n, "")) as Hp by (rewrite digit_value_digit, Hs by lia; done).
  destruct Hbase as [-> | ->], s; rewrite ?Hz, ?andb_false_r; exact Hp.
Qed.

(** [strtoul] in base 0 reads ["0x"] and printed hexadecimal digits. *)
Lemma strto_hex w n :
  (1 <= w)%nat → 0 <= n < 16 ^ Z.of_nat w →
  strto 0 ("0x" +:+ fmt_fixed 16 w n) = Some (false, n, "").
Proof.
  intros Hw Hn. rewrite !string_app_cons, string_app_nil_l.
  assert (scan_digits 16 0 (fmt_fixed 16 w n) = (n, "")) as Hs.
  { rewrite <- (string_app_nil_r (fmt_fixed 16 w n)). by rewrite scan_digits_fmt by (done || lia). }
  assert (∃ d s, fmt_fixed 16 w n = String (digit d) s ∧ 0 <= d < 16) as (d & s & Hf & Hd).
  { clear Hs Hn. revert n. induction w as [|w IH]; intros n; [lia|].
    destruct w as [|w].
    - exists (n mod 16), "". split; [done|lia].
    - destruct (IH ltac:(lia) (n / 16)) as (d & s & E & ?).
      change (fmt_fixed 16 (S (S w)) n)
        with (fmt_fixed 16 (S w) (n / 16) +:+ String (digit (n mod 16)) "").
      rewrite E. eexists d, _. by rewrite string_app_cons. }
  unfold strto. simpl skip_spaces. simpl sign_of. cbv beta iota zeta. simpl.
  rewrite Hf in Hs |- *. rewrite digit_value_digit by lia. by rewrite Hs.
Qed.
