(* ===== verification/Civil.v ===== *)
(** * Calendar time

    The parts of [<time.h>] the adapters use, in UTC: [struct tm], [timegm],
    [gmtime_r], [strftime] and [strptime] with the format
    ["%Y-%m-%dT%H:%M:%S"].  [timegm] and [gmtime_r] are inverse to each other
    ([timegm_gmtime]), and [strptime] reads what [strftime] prints. *)

From Stdlib Require Import ZArith Lia String Ascii.
From stdpp Require Import base tactics list strings numbers option.
From S2P Require Import Prelude CText.

Local Open Scope Z_scope.

(** [struct tm]: years since 1900, months 0 to 11, days from 1. *)
Record tm := mk_tm {
  tm_year : Z; tm_mon : Z; tm_mday : Z;
  tm_hour : Z; tm_min : Z; tm_sec : Z
}.

(** [memset(&tm, 0, sizeof(tm))] *)
Definition tm_zero : tm := mk_tm 0 0 0 0 0 0.

(** Days since 1970-01-01 of day [d] of month [m] (1 to 12) of year [y] of the
    proleptic Gregorian calendar, counting years from March. *)
Definition days_from_civil (y m d : Z) : Z :=
  let y := if m <=? 2 then y - 1 else y in
  let era := y / 400 in
  let yoe := y mod 400 in
  let doy := (153 * (if 2 <? m then m - 3 else m + 9) + 2) / 5 + d - 1 in
  era * 146097 + (yoe * 365 + yoe / 4 - yoe / 100 + doy) - 719468.

(** The civil date of a day number. *)
Definition civil_from_days (z : Z) : Z * Z * Z :=
  let z := z + 719468 in
  let era := z / 146097 in
  let doe := z mod 146097 in
  let yoe := (doe - doe / 1460 + doe / 36524 - doe / 146096) / 365 in
  let doy := doe - (365 * yoe + yoe / 4 - yoe / 100) in
  let mp := (5 * doy + 2) / 153 in
  let d := doy - (153 * mp + 2) / 5 + 1 in
  let m := if mp <? 10 then mp + 3 else mp - 9 in
  ((if m <=? 2 then yoe + era * 400 + 1 else yoe + era * 400), m, d).

(** [timegm]: the fields need not be in range. *)
Definition timegm (t : tm) : Z :=
  86400 * (days_from_civil (1900 + tm_year t + tm_mon t / 12) (tm_mon t mod 12 + 1) 1
           + tm_mday t - 1)
  + 3600 * tm_hour t + 60 * tm_min t + tm_sec t.

(** [gmtime_r] *)
Definition gmtime (t : Z) : tm :=
  let '(y, m, d) := civil_from_days (t / 86400) in
  let r := t mod 86400 in
  mk_tm (y - 1900) (m - 1) d (r / 3600) (r / 60 mod 60) (r mod 60).

(** [strftime(base, sizeof(base), "%Y-%m-%dT%H:%M:%S", &tm)], of years with at
    least four digits *)
Definition strftime_iso (t : tm) : string :=
  fmt_pad 4 (1900 + tm_year t) +:+ "-" +:+ fmt_pad 2 (tm_mon t + 1) +:+ "-"
  +:+ fmt_pad 2 (tm_mday t) +:+ "T" +:+ fmt_pad 2 (tm_hour t) +:+ ":"
  +:+ fmt_pad 2 (tm_min t) +:+ ":" +:+ fmt_pad 2 (tm_sec t).

(** The numeric fields of glibc's [strptime]: white space, then at most [n]
    digits, read while the value can still stay within [hi]. *)
Fixpoint more_digits (n : nat) (hi val : Z) (s : string) : Z * string :=
  match n, s with
  | S n', String c s' =>
      if (val * 10 <=? hi) && isdigit c
      then more_digits n' hi (val * 10 + (code c - 48)) s'
      else (val, s)
  | _, _ => (val, s)
  end.

Definition get_number (lo hi : Z) (n : nat) (s : string) : option (Z * string) :=
  match skip_spaces s with
  | String c s' =>
      if isdigit c then
        let '(v, r) := more_digits (n - 1) hi (code c - 48) s' in
        if (v <? lo) || (hi <? v) then None else Some (v, r)
      else None
  | EmptyString => None
  end.

(** A literal character of the format. *)
Definition expect (c : ascii) (s : string) : option string :=
  match s with
  | String d s' => if Ascii.eqb c d then Some s' else None
  | EmptyString => None
  end.

(** [strptime(s, "%Y-%m-%dT%H:%M:%S", &tm)]: the fields and the rest of [s]. *)
Definition strptime_iso (s : string) : option (tm * string) :=
  '(y, s) ← get_number 0 9999 4 s; s ← expect "-" s;
  '(mo, s) ← get_number 1 12 2 s; s ← expect "-" s;
  '(d, s) ← get_number 1 31 2 s; s ← expect "T" s;
  '(h, s) ← get_number 0 23 2 s; s ← expect ":" s;
  '(mi, s) ← get_number 0 59 2 s; s ← expect ":" s;
  '(sec, s) ← get_number 0 61 2 s;
  Some (mk_tm (y - 1900) (mo - 1) d h mi sec, s).

(** ** [gmtime_r] and [timegm] are inverse *)

(** Day of the era to year of the era: the year starts at or before the day. *)
Lemma yoe_bounds doe yoe :
  0 <= doe < 146097 →
  yoe = (doe - doe / 1460 + doe / 36524 - doe / 146096) / 365 →
  0 <= yoe < 400 ∧ 0 <= doe - (365 * yoe + yoe / 4 - yoe / 100) <= 365.
Proof. intros ? ->. lia. Qed.

Lemma civil_fields z :
  let '(y, m, d) := civil_from_days z in
  1 <= m <= 12 ∧ 1 <= d <= 31 ∧ days_from_civil y m d = z.
Proof.
  unfold civil_from_days. cbv zeta.
  set (doe := (z + 719468) mod 146097). set (era := (z + 719468) / 146097).
  assert (Hz : z = era * 146097 + doe - 719468) by (subst era doe; lia).
  assert (Hdoe : 0 <= doe < 146097) by (subst doe; lia).
  clearbody doe era.
  set (yoe := (_ - _ + _ - _) / 365).
  destruct (yoe_bounds doe yoe Hdoe eq_refl) as [Hy Hd]. clearbody yoe.
  set (doy := doe - _) in *.
  assert (Hdoy : doe = doy + (365 * yoe + yoe / 4 - yoe / 100)) by (subst doy; lia).
  clearbody doy. subst doe.
  set (mp := (5 * doy + 2) / 153). assert (0 <= mp <= 11) by (subst mp; lia).
  assert (Hdd : 0 <= doy - (153 * mp + 2) / 5 < 31) by (subst mp; lia).
  clearbody mp. unfold days_from_civil.
  destruct (Z.ltb_spec mp 10); cases_if; bool_hyps; repeat split; try lia.
  all: replace (mp + 3 - 3) with mp by lia || replace (mp - 9 + 9) with mp by lia.
  all: replace (yoe + era * 400 + 1 - 1) with (yoe + era * 400) by lia || idtac.
  all: rewrite Z.div_add, Z.mod_add, (Z.div_small yoe), (Z.mod_small yoe) by lia.
  all: lia.
Qed.

Lemma days_from_civil_day y m d : days_from_civil y m d = days_from_civil y m 1 + (d - 1).
Proof. unfold days_from_civil. lia. Qed.

Lemma timegm_gmtime t : timegm (gmtime t) = t.
Proof.
  unfold gmtime, timegm. pose proof (civil_fields (t / 86400)) as Hc.
  destruct (civil_from_days (t / 86400)) as [[y m] d]. destruct Hc as (Hm & Hd & Hc). simpl.
  rewrite (Z.div_small (m - 1)), (Z.mod_small (m - 1)) by lia.
  replace (1900 + (y - 1900) + 0) with y by lia. replace (m - 1 + 1) with m by lia.
  rewrite days_from_civil_day in Hc. lia.
Qed.

(** ** Printing and reading back *)

Lemma get_number_head lo hi n d s :
  0 <= d < 10 →
  get_number lo hi n (String (digit d) s)
  = let '(v, r) := more_digits (n - 1) hi d s in
    if (v <? lo) || (hi <? v) then None else Some (v, r).
Proof.
  intros. unfold get_number. simpl. rewrite isspace_digit, isdigit_digit, code_digit by lia.
  destruct (d <? 10) eqn:E; bool_hyps; [|lia]. by replace (48 + d - 48) with d by lia.
Qed.

Lemma more_digits_cons n hi v d s :
  0 <= d < 10 →
  more_digits (S n) hi v (String (digit d) s)
  = if v * 10 <=? hi then more_digits n hi (v * 10 + d) s else (v, String (digit d) s).
Proof.
  intros. simpl. rewrite isdigit_digit, andb_true_r, code_digit by lia.
  destruct (d <? 10) eqn:E; bool_hyps; [|lia]. by replace (48 + d - 48) with d by lia.
Qed.

Lemma more_digits_0 hi v s : more_digits 0 hi v s = (v, s).
Proof. by destruct s. Qed.

(** A two-digit field is read back. *)
Lemma get_number_2 lo hi v rest :
  0 <= lo <= v → v <= hi <= 99 → get_number lo hi 2 (fmt_pad 2 v +:+ rest) = Some (v, rest).
Proof.
  intros. unfold fmt_pad. change (10 ^ Z.of_nat 2) with 100.
  destruct (Z.ltb_spec v 100); [|lia]. rewrite !fmt_fixed_S. simpl fmt_fixed.
  rewrite string_app_nil_l, get_number_head by lia. cbn [Nat.sub].
  rewrite more_digits_cons, more_digits_0 by lia.
  destruct (Z.leb_spec (v / 10 mod 10 * 10) hi); [|lia].
  replace (v / 10 mod 10 * 10 + v mod 10) with v by lia.
  cases_if; bool_hyps; [|done]. lia.
Qed.

(** The four-digit year is read back. *)
Lemma get_number_4 v rest :
  0 <= v <= 9999 → get_number 0 9999 4 (fmt_pad 4 v +:+ rest) = Some (v, rest).
Proof.
  intros. unfold fmt_pad. change (10 ^ Z.of_nat 4) with 10000.
  destruct (Z.ltb_spec v 10000); [|lia]. rewrite !fmt_fixed_S. simpl fmt_fixed.
  rewrite string_app_nil_l, get_number_head by lia. cbn [Nat.sub].
  rewrite !more_digits_cons, more_digits_0 by lia.
  repeat (match goal with |- context [?a <=? 9999] => destruct (Z.leb_spec a 9999); [|lia] end).
  match goal with |- context [Some (?x, _)] => replace x with v by lia end.
  cases_if; bool_hyps; [|done]. lia.
Qed.

Lemma expect_cons c s : expect c (String c s) = Some s.
Proof. simpl. by rewrite Ascii.eqb_refl. Qed.

(** Fields that [strftime] prints and [strptime] accepts. *)
Definition tm_ok (t : tm) : Prop :=
  0 <= 1900 + tm_year t <= 9999 ∧ 0 <= tm_mon t < 12 ∧ 1 <= tm_mday t <= 31
  ∧ 0 <= tm_hour t < 24 ∧ 0 <= tm_min t < 60 ∧ 0 <= tm_sec t <= 61.

Lemma strptime_strftime t rest :
  tm_ok t → strptime_iso (strftime_iso t +:+ rest) = Some (t, rest).
Proof.
  destruct t as [y mo d h mi s]. unfold tm_ok, strptime_iso, strftime_iso. simpl.
  intros (?&?&?&?&?&?). rewrite !string_app_assoc.
  rewrite get_number_4 by lia. cbn [mbind option_bind].
  do 5 (rewrite string_app_cons, string_app_nil_l, expect_cons; cbn [mbind option_bind];
    rewrite get_number_2 by lia; cbn [mbind option_bind]).
  repeat f_equal; lia.
Qed.

(** The last second of the year 9999. *)
Definition max_time : Z := 253402300799.

Lemma gmtime_ok t : 0 <= t <= max_time → tm_ok (gmtime t).
Proof.
  unfold max_time, gmtime, tm_ok. intros.
  pose proof (civil_fields (t / 86400)) as Hc.
  destruct (civil_from_days (t / 86400)) as [[y m] d]. destruct Hc as (Hm & Hd & Hc). simpl.
  assert (1970 <= y <= 9999) by 
    (unfold days_from_civil in Hc; destruct (m <=? 2) eqn:?, (2 <? m) eqn:?; bool_hyps; lia).
  lia.
Qed.
