(* ===== verification/CFloat.v ===== *)
(** * C floating point

    [float] and [double] as the binary32 and binary64 values of [SpecFloat]:
    conversions, the arithmetic the sources use, ["%.*g"] and [strtod].  The
    decimal conversions are exact rational computations rounded once, to
    nearest with ties to even. *)

From Stdlib Require Import ZArith Lia String Ascii SpecFloat.
From stdpp Require Import base tactics list strings numbers option.
From S2P Require Import Prelude CText.

Local Open Scope Z_scope.

(** ** Conversions and arithmetic *)

Definition round_to (prec emax : Z) (x : spec_float) : spec_float :=
  match x with
  | S754_finite s m e => binary_normalize prec emax (cond_Zopp s (Zpos m)) e s
  | _ => x
  end.

(** [(float) d] *)
Definition to_float : spec_float → spec_float := round_to 24 128.

(** [(double) f] *)
Definition to_double : spec_float → spec_float := round_to 53 1024.

(** [(double) n] *)
Definition double_of_Z (n : Z) : spec_float := binary_normalize 53 1024 n 0 false.

Definition dmul : spec_float → spec_float → spec_float := SFmul 53 1024.

Definition ddiv : spec_float → spec_float → spec_float := SFdiv 53 1024.

(** [a > b] *)
Definition dgt (a b : spec_float) : bool := SFltb b a.

(** Truncation towards zero; [None] for infinities and NaN. *)
Definition trunc (d : spec_float) : option Z :=
  match d with
  | S754_zero _ => Some 0
  | S754_finite s m e =>
      Some (cond_Zopp s (if 0 <=? e then Zpos m * 2 ^ e else Zpos m / 2 ^ (- e)))
  | _ => None
  end.

(** ** Printing with ["%.*g"] *)

(** Division rounded to nearest, ties to even. *)
Definition div_rne (a b : Z) : Z :=
  let q := a / b in
  match 2 * (a mod b) ?= b with
  | Lt => q
  | Gt => q + 1
  | Eq => q + q mod 2
  end.

(** [num / den] times a power of ten, as a fraction. *)
Definition scale10 (num den k : Z) : Z * Z :=
  if 0 <=? k then (num * 10 ^ k, den) else (num, den * 10 ^ (- k)).

(** Number of decimal digits; the values here have at most 400. *)
Fixpoint dlen (fuel : nat) (n : Z) : Z :=
  match fuel with
  | O => 1
  | S f => if n <? 10 then 1 else 1 + dlen f (n / 10)
  end.

(** The decimal exponent: 10 ^ X <= num / den < 10 ^ (X + 1). *)
Definition log10_floor (num den : Z) : Z :=
  let k := dlen 400 num - dlen 400 den in
  let '(a, b) := scale10 num den (- k) in
  if b <=? a then k else k - 1.

(** [p] significant digits and the decimal exponent of the first. *)
Definition sig_digits (num den : Z) (p : Z) : Z * Z :=
  let x := log10_floor num den in
  let '(a, b) := scale10 num den (p - 1 - x) in
  let d := div_rne a b in
  if d =? 10 ^ p then (10 ^ (p - 1), x + 1) else (d, x).

(** The fraction part of [w] digits without its trailing zeros, with the point. *)
Fixpoint fraction (w : nat) (n : Z) : string :=
  match w with
  | O => EmptyString
  | S w' => if n mod 10 =? 0 then fraction w' (n / 10) else "." +:+ fmt_fixed 10 w n
  end.

Definition fmt_g_pos (p num den : Z) : string :=
  let '(d, x) := sig_digits num den p in
  if (-4 <=? x) && (x <? p) then
    let w := p - 1 - x in
    fmt_u (d / 10 ^ w) +:+ fraction (Z.to_nat w) (d mod 10 ^ w)
  else
    fmt_u (d / 10 ^ (p - 1)) +:+ fraction (Z.to_nat (p - 1)) (d mod 10 ^ (p - 1))
    +:+ "e" +:+ (if x <? 0 then "-" else "+") +:+ fmt_pad 2 (Z.abs x).

(** [printf("%.*g", p, d)] *)
Definition fmt_g (p : Z) (d : spec_float) : string :=
  match d with
  | S754_zero s => if s then "-0" else "0"
  | S754_infinity s => if s then "-inf" else "inf"
  | S754_nan => "nan"
  | S754_finite s m e =>
      (if s then "-" else "") +:+
      (if 0 <=? e then fmt_g_pos p (Zpos m * 2 ^ e) 1
       else fmt_g_pos p (Zpos m) (2 ^ (- e)))
  end.

(** ** Reading with [strtod] *)

(** [m * 10 ^ k] rounded to binary64. *)
Definition double_of_decimal (s : bool) (m k : Z) : spec_float :=
  if m =? 0 then S754_zero s
  else if 0 <=? k then binary_normalize 53 1024 (cond_Zopp s (m * 10 ^ k)) 0 s
  else let '(mz, ez, lz) := SFdiv_core_binary 53 1024 m 0 (10 ^ (- k)) 0 in
       binary_round_aux 53 1024 s mz ez lz.

(** [strtod] of a decimal number as ["%g"] prints it. *)
Definition strtod (t : string) : spec_float :=
  let '(s, t) := sign_of t in
  if String.eqb t "inf" then S754_infinity s
  else if String.eqb t "nan" then S754_nan
  else
    let '(i, t) := scan_digits 10 0 t in
    let '(m, k, t) :=
      match t with
      | String "." f =>
          let '(m, r) := scan_digits 10 i f in (m, slen r - slen f, r)
      | _ => (i, 0, t)
      end in
    match t with
    | String "e" u =>
        let '(neg, u) := sign_of u in
        let '(e, _) := scan_digits 10 0 u in
        double_of_decimal s m (k + (if neg then - e else e))
    | _ => double_of_decimal s m k
    end.

Example fmt_g_tenth : fmt_g 9 (to_double (to_float (strtod "0.1"))) = "0.100000001".
Proof. reflexivity. Qed.

Example fmt_g_small : fmt_g 3 (strtod "1.5e-07") = "1.5e-07".
Proof. reflexivity. Qed.

Example strtod_rate : trunc (dmul (double_of_Z 80) (double_of_Z 50)) = Some 4000.
Proof. reflexivity. Qed.
