(* ===== verification/Json.v ===== *)
(** * JSON objects

    The interface the adapters use of json-c, which is not part of the
    repository: a class of its functions ([JsonC]), the documented behaviour
    the proofs rely on ([JsonLaws]), and a concrete implementation
    ([RefJson.v]) that witnesses both.  A null pointer to a json object is the
    JSON value null. *)

From Stdlib Require Import ZArith Lia String Ascii SpecFloat.
From stdpp Require Import base tactics list strings numbers option.
From S2P Require Import Prelude CText.

Local Open Scope Z_scope.

Inductive json_type : Set :=
| json_type_null
| json_type_boolean
| json_type_double
| json_type_int
| json_type_object
| json_type_array
| json_type_string.

#[export] Instance json_type_eq_dec : EqDecision json_type.
Proof. solve_decision. Defined.

(** The functions of json-c the sources call.  [json_object_get_string] of the
    null value is a null pointer; [json_tokener_parse] of a text that is not
    JSON is the null value; the text of [json_object_to_json_string_ext] is
    the one for the flags PLAIN and NOSLASHESCAPE. *)
Class JsonC := {
  json : Type;
  json_null : json;
  json_object_get_type : json → json_type;
  json_object_new_object : json;
  json_object_new_array : json;
  json_object_new_string : string → json;
  json_object_new_boolean : bool → json;
  json_object_new_int64 : Z → json;
  json_object_new_int : Z → json;
  json_object_new_double : spec_float → json;
  json_object_new_double_s : spec_float → string → json;
  json_object_object_add : json → string → json → json;
  json_object_array_add : json → json → json;
  json_object_object_get_ex : json → string → option json;
  json_object_object_foreach : json → list (string * json);
  json_object_array_length : json → Z;
  json_object_array_get_idx : json → Z → json;
  json_object_get_string : json → option string;
  json_object_get_boolean : json → bool;
  json_object_get_int64 : json → Z;
  json_object_get_int : json → Z;
  json_object_get_double : json → spec_float;
  json_object_to_json_string_ext : json → string;
  json_tokener_parse : string → json
}.

(** [json_object_is_type(j, t)] *)
Definition json_object_is_type `{JsonC} (j : json) (t : json_type) : bool :=
  bool_decide (json_object_get_type j = t).

(** The documented behaviour the adapters rely on. *)
Class JsonLaws `{JsonC} : Prop := {
  type_null : json_object_get_type json_null = json_type_null;
  type_object : json_object_get_type json_object_new_object = json_type_object;
  type_array : json_object_get_type json_object_new_array = json_type_array;
  type_string s : json_object_get_type (json_object_new_string s) = json_type_string;
  type_boolean b : json_object_get_type (json_object_new_boolean b) = json_type_boolean;
  type_int64 n : json_object_get_type (json_object_new_int64 n) = json_type_int;
  type_double d : json_object_get_type (json_object_new_double d) = json_type_double;
  type_double_s d s : json_object_get_type (json_object_new_double_s d s) = json_type_double;
  type_object_add o k v :
    json_object_get_type o = json_type_object →
    json_object_get_type (json_object_object_add o k v) = json_type_object;
  type_array_add a v :
    json_object_get_type a = json_type_array →
    json_object_get_type (json_object_array_add a v) = json_type_array;
  get_string_new s : json_object_get_string (json_object_new_string s) = Some s;
  get_string_null j :
    json_object_get_string j = None → json_object_get_type j = json_type_null;
  get_boolean_new b : json_object_get_boolean (json_object_new_boolean b) = b;
  get_int64_new n : is_i64 n → json_object_get_int64 (json_object_new_int64 n) = n;
  get_double_new d : json_object_get_double (json_object_new_double d) = d;
  get_double_new_s d s : json_object_get_double (json_object_new_double_s d s) = d;
  get_int64_range j : is_i64 (json_object_get_int64 j);
  get_int_range j : is_i32 (json_object_get_int j);
  get_ex_new k : json_object_object_get_ex json_object_new_object k = None;
  get_ex_add o k v k' :
    json_object_get_type o = json_type_object →
    json_object_object_get_ex (json_object_object_add o k v) k'
    = if String.eqb k k' then Some v else json_object_object_get_ex o k';
  get_ex_not_object j k :
    json_object_get_type j ≠ json_type_object → json_object_object_get_ex j k = None;
  array_length_new : json_object_array_length json_object_new_array = 0;
  array_length_nonneg a : 0 <= json_object_array_length a;
  array_length_add a v :
    json_object_get_type a = json_type_array →
    json_object_array_length (json_object_array_add a v) = json_object_array_length a + 1;
  array_get_idx_add a v i :
    json_object_get_type a = json_type_array → 0 <= i <= json_object_array_length a →
    json_object_array_get_idx (json_object_array_add a v) i
    = if i =? json_object_array_length a then v else json_object_array_get_idx a i
}.

Create Rewrite HintDb json.
#[export] Hint Rewrite @type_null @type_object @type_array @type_string @type_boolean
  @type_int64 @type_double @type_double_s @get_double_new @get_double_new_s @get_string_new
  @get_boolean_new @get_ex_new @array_length_new
  using typeclasses eauto : json.

(** The elements of an array, as the [for] loops over it visit them. *)
Definition json_elements `{JsonC} (a : json) : list json :=
  json_object_array_get_idx a <$> range (json_object_array_length a).

(** An array built by appending elements. *)
Definition json_array_of `{JsonC} (l : list json) : json :=
  fold_left json_object_array_add l json_object_new_array.

(** Nested less than [n] deep. *)
Fixpoint json_within `{JsonC} (n : nat) (j : json) : Prop :=
  match n with
  | O => False
  | S n' => (∀ k c, json_object_object_get_ex j k = Some c → json_within n' c)
            ∧ (json_object_get_type j = json_type_array →
               ∀ c, c ∈ json_elements j → json_within n' c)
  end.

Section arrays.
Context `{JsonLaws}.

Lemma is_type_iff j t : json_object_is_type j t = true ↔ json_object_get_type j = t.
Proof. unfold json_object_is_type. by rewrite bool_decide_eq_true. Qed.

Lemma is_type_false j t t' :
  json_object_get_type j = t → t ≠ t' → json_object_is_type j t' = false.
Proof. intros. apply bool_decide_eq_false. congruence. Qed.

Lemma elements_new : json_elements json_object_new_array = [].
Proof. unfold json_elements. by rewrite array_length_new. Qed.

Lemma elements_add a v :
  json_object_get_type a = json_type_array →
  json_elements (json_object_array_add a v) = json_elements a ++ [v].
Proof.
  intros Ha. unfold json_elements, range. rewrite array_length_add by done.
  pose proof (array_length_nonneg a). rewrite seqZ_app, fmap_app by lia.
  f_equal.
  - apply list_fmap_ext. intros i x Hx. apply list_elem_of_lookup_2, elem_of_seqZ in Hx.
    rewrite array_get_idx_add by (done || lia). destruct (Z.eqb_spec x (json_object_array_length a)); [lia|done].
  - simpl. rewrite array_get_idx_add by (done || lia). by rewrite Z.eqb_refl.
Qed.

Lemma array_of_type l : json_object_get_type (json_array_of l) = json_type_array.
Proof.
  unfold json_array_of. pose proof type_array as Ha. revert Ha.
  generalize json_object_new_array. induction l as [|x l IH]; simpl; intros a Ha; [done|].
  by apply IH, type_array_add.
Qed.

Lemma elements_array_of l : json_elements (json_array_of l) = l.
Proof.
  unfold json_array_of. pose proof type_array as Ha.
  change l with ([] ++ l) at 2. rewrite <- elements_new. revert Ha.
  generalize json_object_new_array. induction l as [|x l IH]; simpl; intros a Ha.
  - by rewrite app_nil_r.
  - rewrite IH, elements_add by (done || by apply type_array_add).
    by rewrite <- app_assoc.
Qed.

Lemma array_length_elements a : json_object_array_length a = Z.of_nat (length (json_elements a)).
Proof.
  unfold json_elements, range. rewrite length_fmap, length_seqZ.
  pose proof (array_length_nonneg a). lia.
Qed.
End arrays.
