(* ===== verification/RefJson.v ===== *)
(** * A concrete JSON library

    An implementation of [Json.JsonC] that satisfies [Json.JsonLaws]: the
    witnesses of the theorems about JSON run on it.  Its parser reads JSON
    without escapes, fractions or exponents; it stands for no code of the
    repository. *)

From Stdlib Require Import ZArith Lia String Ascii SpecFloat.
From stdpp Require Import base tactics list strings numbers option.
From S2P Require Import Prelude CText Json.

Local Open Scope Z_scope.

Inductive rjson : Type :=
| RNull
| RBool (b : bool)
| RInt (n : Z)
| RDouble (d : spec_float) (text : string)
| RString (s : string)
| RArray (l : list rjson)
| RObject (l : list (string * rjson)).

Definition rtype (j : rjson) : json_type :=
  match j with
  | RNull => json_type_null
  | RBool _ => json_type_boolean
  | RInt _ => json_type_int
  | RDouble _ _ => json_type_double
  | RString _ => json_type_string
  | RArray _ => json_type_array
  | RObject _ => json_type_object
  end.

(** Replace the value of a key, or append the member. *)
Fixpoint rset (l : list (string * rjson)) (k : string) (v : rjson) : list (string * rjson) :=
  match l with
  | [] => [(k, v)]
  | (k', v') :: l' => if String.eqb k' k then (k, v) :: l' else (k', v') :: rset l' k v
  end.

Fixpoint rget (l : list (string * rjson)) (k : string) : option rjson :=
  match l with
  | [] => None
  | (k', v') :: l' => if String.eqb k' k then Some v' else rget l' k
  end.

Definition radd (o : rjson) (k : string) (v : rjson) : rjson :=
  match o with RObject l => RObject (rset l k v) | _ => o end.

Definition rpush (a v : rjson) : rjson :=
  match a with RArray l => RArray (l ++ [v]) | _ => a end.

Definition rget_ex (o : rjson) (k : string) : option rjson :=
  match o with RObject l => rget l k | _ => None end.

Definition rlength (a : rjson) : Z :=
  match a with RArray l => Z.of_nat (length l) | _ => 0 end.

Definition ridx (a : rjson) (i : Z) : rjson :=
  match a with RArray l => default RNull (l !! Z.to_nat i) | _ => RNull end.

Definition quote : ascii := "034".

Definition quoted (s : string) : string := String quote s +:+ String quote "".

(** The compact text of a value. *)
Fixpoint rprint (j : rjson) : string :=
  match j with
  | RNull => "null"
  | RBool b => if b then "true" else "false"
  | RInt n => fmt_d n
  | RDouble _ t => t
  | RString s => quoted s
  | RArray l => "[" +:+ String.concat "," (rprint <$> l) +:+ "]"
  | RObject l =>
      "{" +:+ String.concat "," ((λ '(k, v), quoted k +:+ ":" +:+ rprint v) <$> l) +:+ "}"
  end.

Fixpoint scan_until (c : ascii) (s : string) : option (string * string) :=
  match s with
  | EmptyString => None
  | String d s' => if Ascii.eqb c d then Some (EmptyString, s')
                   else '(a, r) ← scan_until c s'; Some (String d a, r)
  end.

(** A value at the start of the text, and the rest of the text. *)
Fixpoint rparse (fuel : nat) (s : string) : option (rjson * string) :=
  match fuel with
  | O => None
  | S f =>
      match skip_spaces s with
      | String c s' =>
          if Ascii.eqb c quote then '(t, r) ← scan_until quote s'; Some (RString t, r)
          else if Ascii.eqb c "[" then
            match skip_spaces s' with
            | String "]" r => Some (RArray [], r)
            | _ => '(l, r) ← relements f s'; Some (RArray l, r)
            end
          else if Ascii.eqb c "{" then
            match skip_spaces s' with
            | String "}" r => Some (RObject [], r)
            | _ => '(l, r) ← rmembers f s'; Some (RObject l, r)
            end
          else if String.prefix "true" (String c s') then
            Some (RBool true, String.substring 3 (String.length s') s')
          else if String.prefix "false" (String c s') then
            Some (RBool false, String.substring 4 (String.length s') s')
          else if String.prefix "null" (String c s') then
            Some (RNull, String.substring 3 (String.length s') s')
          else if Ascii.eqb c "-" then
            match s' with
            | String d _ => if isdigit d then
                let '(v, r) := scan_digits 10 0 s' in Some (RInt (- v), r) else None
            | EmptyString => None
            end
          else if isdigit c then
            let '(v, r) := scan_digits 10 0 (String c s') in Some (RInt v, r)
          else None
      | EmptyString => None
      end
  end
with relements (fuel : nat) (s : string) : option (list rjson * string) :=
  match fuel with
  | O => None
  | S f =>
      '(x, r) ← rparse f s;
      match skip_spaces r with
      | String "]" r' => Some ([x], r')
      | String "," r' => '(l, r'') ← relements f r'; Some (x :: l, r'')
      | _ => None
      end
  end
with rmembers (fuel : nat) (s : string) : option (list (string * rjson) * string) :=
  match fuel with
  | O => None
  | S f =>
      match skip_spaces s with
      | String c s' =>
          if Ascii.eqb c quote then
            '(k, r) ← scan_until quote s';
            match skip_spaces r with
            | String ":" r' =>
                '(x, r) ← rparse f r';
                match skip_spaces r with
                | String "}" r' => Some ([(k, x)], r')
                | String "," r' => '(l, r'') ← rmembers f r'; Some ((k, x) :: l, r'')
                | _ => None
                end
            | _ => None
            end
          else None
      | EmptyString => None
      end
  end.

Definition rtokener (s : string) : rjson :=
  match rparse (S (String.length s)) s with
  | Some (j, r) => if String.eqb (skip_spaces r) "" then j else RNull
  | None => RNull
  end.

Definition rstring (j : rjson) : option string :=
  match j with RNull => None | RString s => Some s | _ => Some (rprint j) end.

#[export] Instance ref_json : JsonC := {|
  json := rjson;
  json_null := RNull;
  json_object_get_type := rtype;
  json_object_new_object := RObject [];
  json_object_new_array := RArray [];
  json_object_new_string := RString;
  json_object_new_boolean := RBool;
  json_object_new_int64 := RInt;
  json_object_new_int := RInt;
  json_object_new_double d := RDouble d "0.5";
  json_object_new_double_s := RDouble;
  json_object_object_add := radd;
  json_object_array_add := rpush;
  json_object_object_get_ex := rget_ex;
  json_object_object_foreach j := match j with RObject l => l | _ => [] end;
  json_object_array_length := rlength;
  json_object_array_get_idx := ridx;
  json_object_get_string := rstring;
  json_object_get_boolean j := match j with RBool b => b | _ => false end;
  json_object_get_int64 j := match j with RInt n => i64 n | _ => 0 end;
  json_object_get_int j := match j with RInt n => i32 n | _ => 0 end;
  json_object_get_double j := match j with RDouble d _ => d | _ => S754_zero false end;
  json_object_to_json_string_ext := rprint;
  json_tokener_parse := rtokener
|}.

Lemma rget_rset l k v k' :
  rget (rset l k v) k' = if String.eqb k k' then Some v else rget l k'.
Proof.
  induction l as [|[k1 v1] l IH]; simpl; [done|].
  destruct (String.eqb_spec k1 k) as [->|]; simpl.
  - by destruct (String.eqb k k').
  - rewrite IH. destruct (String.eqb_spec k1 k'), (String.eqb_spec k k'); congruence.
Qed.

#[export] Instance ref_json_laws : JsonLaws.
Proof.
  split; simpl; try done.
  - by intros [].
  - by intros [].
  - by intros [].
  - intros n ?. by apply i64_id.
  - intros []; unfold i64; lia.
  - intros []; unfold i32; lia.
  - intros [] k v k'; simpl; try done. intros _. apply rget_rset.
  - intros [] k; simpl; done.
  - intros []; simpl; lia.
  - intros [] v; simpl; try done. intros _. rewrite length_app. simpl. lia.
  - intros [] v i; simpl; try done. intros _ Hi.
    destruct (Z.eqb_spec i (Z.of_nat (length l))) as [->|].
    + by rewrite Nat2Z.id, lookup_app_r, Nat.sub_diag by lia.
    + by rewrite lookup_app_l by lia.
Qed.

Example rtokener_object :
  rtokener (rprint (RObject [("cmd", RString "set"); ("values", RArray [RInt (-7); RBool true])]))
  = RObject [("cmd", RString "set"); ("values", RArray [RInt (-7); RBool true])].
Proof. reflexivity. Qed.
