(* ===== verification/Mms.v ===== *)
(** * MMS values

    The interface the adapters use of libiec61850's [mms_value.h], which is
    not part of the repository: a class of its functions ([MmsApi]) and the
    documented behaviour the proofs rely on ([MmsLaws]): a value has the type
    it was created with, and reading returns what was stored. *)

From Stdlib Require Import ZArith Lia String Ascii SpecFloat.
From stdpp Require Import base tactics list strings numbers option.
From S2P Require Import Prelude CText.

Local Open Scope Z_scope.

(** [MmsType]; the types the adapters do not distinguish are [MMS_OTHER]. *)
Inductive MmsType : Set :=
| MMS_ARRAY
| MMS_STRUCTURE
| MMS_BOOLEAN
| MMS_BIT_STRING
| MMS_INTEGER
| MMS_UNSIGNED
| MMS_FLOAT
| MMS_OCTET_STRING
| MMS_VISIBLE_STRING
| MMS_BINARY_TIME
| MMS_STRING
| MMS_UTC_TIME
| MMS_DATA_ACCESS_ERROR
| MMS_OTHER.

#[export] Instance MmsType_eq_dec : EqDecision MmsType.
Proof. solve_decision. Defined.

(** The functions of [mms_value.h] the sources call.  Setters return the
    changed value; octet buffers are lists of octets; [formatWidth] is the
    private member [value.floatingPoint.formatWidth]. *)
Class MmsApi := {
  MmsValue : Type;
  MmsValue_getType : MmsValue → MmsType;
  MmsValue_newBoolean : bool → MmsValue;
  MmsValue_getBoolean : MmsValue → bool;
  MmsValue_newIntegerFromInt64 : Z → MmsValue;
  MmsValue_newIntegerFromInt32 : Z → MmsValue;
  MmsValue_toInt64 : MmsValue → Z;
  MmsValue_toInt32 : MmsValue → Z;
  MmsValue_newUnsignedFromUint32 : Z → MmsValue;
  MmsValue_toUint32 : MmsValue → Z;
  MmsValue_newFloat : spec_float → MmsValue;
  MmsValue_newDouble : spec_float → MmsValue;
  MmsValue_toFloat : MmsValue → spec_float;
  MmsValue_toDouble : MmsValue → spec_float;
  formatWidth : MmsValue → Z;
  MmsValue_newVisibleString : string → MmsValue;
  MmsValue_newMmsString : string → MmsValue;
  MmsValue_toString : MmsValue → string;
  MmsValue_newOctetString : Z → Z → MmsValue;
  MmsValue_setOctetString : MmsValue → list Z → MmsValue;
  MmsValue_getOctetStringBuffer : MmsValue → list Z;
  MmsValue_newBitString : Z → MmsValue;
  MmsValue_setBitStringBit : MmsValue → Z → bool → MmsValue;
  MmsValue_getBitStringSize : MmsValue → Z;
  MmsValue_getBitStringBit : MmsValue → Z → bool;
  MmsValue_newUtcTimeByMsTime : Z → MmsValue;
  MmsValue_getUtcTimeBuffer : MmsValue → list Z;
  MmsValue_getUtcTimeInMs : MmsValue → Z;
  MmsValue_newBinaryTime : MmsValue;
  MmsValue_setBinaryTime : MmsValue → Z → MmsValue;
  MmsValue_getBinaryTimeAsUtcMs : MmsValue → Z;
  MmsValue_createEmptyArray : Z → MmsValue;
  MmsValue_createEmptyStructure : Z → MmsValue;
  MmsValue_setElement : MmsValue → Z → MmsValue → MmsValue;
  MmsValue_getArraySize : MmsValue → Z;
  MmsValue_getElement : MmsValue → Z → option MmsValue;
  MmsValue_getDataAccessError : MmsValue → Z
}.

(** Arrays and structures. *)
Definition mms_compound `{MmsApi} (v : MmsValue) : Prop :=
  MmsValue_getType v = MMS_ARRAY ∨ MmsValue_getType v = MMS_STRUCTURE.

(** The documented behaviour the adapters rely on. *)
Class MmsLaws `{MmsApi} : Prop := {
  type_newBoolean b : MmsValue_getType (MmsValue_newBoolean b) = MMS_BOOLEAN;
  type_newInteger64 n : MmsValue_getType (MmsValue_newIntegerFromInt64 n) = MMS_INTEGER;
  type_newInteger32 n : MmsValue_getType (MmsValue_newIntegerFromInt32 n) = MMS_INTEGER;
  type_newUnsigned n : MmsValue_getType (MmsValue_newUnsignedFromUint32 n) = MMS_UNSIGNED;
  type_newFloat f : MmsValue_getType (MmsValue_newFloat f) = MMS_FLOAT;
  type_newDouble d : MmsValue_getType (MmsValue_newDouble d) = MMS_FLOAT;
  type_newVisibleString s :
    MmsValue_getType (MmsValue_newVisibleString s) = MMS_VISIBLE_STRING;
  type_newMmsString s : MmsValue_getType (MmsValue_newMmsString s) = MMS_STRING;
  type_newOctetString n m : MmsValue_getType (MmsValue_newOctetString n m) = MMS_OCTET_STRING;
  type_newBitString n : MmsValue_getType (MmsValue_newBitString n) = MMS_BIT_STRING;
  type_newUtcTime ms : MmsValue_getType (MmsValue_newUtcTimeByMsTime ms) = MMS_UTC_TIME;
  type_newBinaryTime : MmsValue_getType MmsValue_newBinaryTime = MMS_BINARY_TIME;
  type_newArray n : MmsValue_getType (MmsValue_createEmptyArray n) = MMS_ARRAY;
  type_newStructure n : MmsValue_getType (MmsValue_createEmptyStructure n) = MMS_STRUCTURE;
  type_setOctets v l : MmsValue_getType (MmsValue_setOctetString v l) = MmsValue_getType v;
  type_setBit v i b : MmsValue_getType (MmsValue_setBitStringBit v i b) = MmsValue_getType v;
  type_setTime v t : MmsValue_getType (MmsValue_setBinaryTime v t) = MmsValue_getType v;
  type_setElement v i c : MmsValue_getType (MmsValue_setElement v i c) = MmsValue_getType v;
  getBoolean_new b : MmsValue_getBoolean (MmsValue_newBoolean b) = b;
  toInt64_new n : is_i64 n → MmsValue_toInt64 (MmsValue_newIntegerFromInt64 n) = n;
  toInt32_new n : is_i32 n → MmsValue_toInt32 (MmsValue_newIntegerFromInt32 n) = n;
  toInt64_range v : is_i64 (MmsValue_toInt64 v);
  toUint32_new n : is_u32 n → MmsValue_toUint32 (MmsValue_newUnsignedFromUint32 n) = n;
  toUint32_range v : is_u32 (MmsValue_toUint32 v);
  toFloat_new f : MmsValue_toFloat (MmsValue_newFloat f) = f;
  toDouble_new d : MmsValue_toDouble (MmsValue_newDouble d) = d;
  formatWidth_float f : formatWidth (MmsValue_newFloat f) = 32;
  formatWidth_double d : formatWidth (MmsValue_newDouble d) = 64;
  toString_visible s : MmsValue_toString (MmsValue_newVisibleString s) = s;
  toString_mms s : MmsValue_toString (MmsValue_newMmsString s) = s;
  octets_set n l :
    Z.of_nat (length l) = n →
    MmsValue_getOctetStringBuffer (MmsValue_setOctetString (MmsValue_newOctetString n n) l) = l;
  bitSize_new n : 0 <= n → MmsValue_getBitStringSize (MmsValue_newBitString n) = n;
  bitSize_set v i b :
    MmsValue_getBitStringSize (MmsValue_setBitStringBit v i b) = MmsValue_getBitStringSize v;
  bitSize_nonneg v : 0 <= MmsValue_getBitStringSize v;
  getBit_set v i b j :
    MmsValue_getType v = MMS_BIT_STRING → 0 <= i < MmsValue_getBitStringSize v →
    MmsValue_getBitStringBit (MmsValue_setBitStringBit v i b) j
    = if i =? j then b else MmsValue_getBitStringBit v j;
  arraySize_newArray n : 0 <= n → MmsValue_getArraySize (MmsValue_createEmptyArray n) = n;
  arraySize_newStructure n :
    0 <= n → MmsValue_getArraySize (MmsValue_createEmptyStructure n) = n;
  arraySize_set v i c : MmsValue_getArraySize (MmsValue_setElement v i c) = MmsValue_getArraySize v;
  arraySize_nonneg v : 0 <= MmsValue_getArraySize v;
  getElement_set v i c j :
    mms_compound v → 0 <= i < MmsValue_getArraySize v →
    MmsValue_getElement (MmsValue_setElement v i c) j
    = if i =? j then Some c else MmsValue_getElement v j;
  getBinary_set ms :
    441763200000 <= ms < 441763200000 + 65536 * 86400000 →
    MmsValue_getBinaryTimeAsUtcMs (MmsValue_setBinaryTime MmsValue_newBinaryTime ms) = ms;
  utcBuffer_length v : length (MmsValue_getUtcTimeBuffer v) = 8%nat;
  utcBuffer_new ms :
    is_u32 (ms / 1000) →
    ∃ q, MmsValue_getUtcTimeBuffer (MmsValue_newUtcTimeByMsTime ms)
         = be_octets 4 (ms / 1000) ++ be_octets 3 (ms mod 1000 * 16777216 / 1000) ++ [q];
  utcBuffer_octets v : Forall (λ b, is_u8 b) (MmsValue_getUtcTimeBuffer v)
}.

Create Rewrite HintDb mms.
#[export] Hint Rewrite @type_newBoolean @type_newInteger64 @type_newInteger32 @type_newUnsigned
  @type_newFloat @type_newDouble @type_newVisibleString @type_newMmsString
  @type_newOctetString @type_newBitString @type_newUtcTime @type_newBinaryTime
  @type_newArray @type_newStructure @type_setOctets @type_setBit @type_setTime
  @type_setElement @getBoolean_new @toFloat_new @toDouble_new @formatWidth_float
  @formatWidth_double @toString_visible @toString_mms @bitSize_set @arraySize_set
  using typeclasses eauto : mms.

(** The elements of an array or structure, as the [for] loops visit them. *)
Definition mms_elements `{MmsApi} (v : MmsValue) : list (option MmsValue) :=
  MmsValue_getElement v <$> range (MmsValue_getArraySize v).

(** The bits of a bit string, in the order the loops read them. *)
Definition mms_bits `{MmsApi} (v : MmsValue) : list bool :=
  MmsValue_getBitStringBit v <$> range (MmsValue_getBitStringSize v).

(** [for (i = from; ...) MmsValue_setBitStringBit(v, i, bits[i])] *)
Fixpoint set_bits `{MmsApi} (from : Z) (v : MmsValue) (bits : list bool) : MmsValue :=
  match bits with
  | [] => v
  | b :: bits' => set_bits (from + 1) (MmsValue_setBitStringBit v from b) bits'
  end.

(** [for (i = from; ...) MmsValue_setElement(v, i, l[i])] *)
Fixpoint set_elements `{MmsApi} (from : Z) (v : MmsValue) (l : list MmsValue) : MmsValue :=
  match l with
  | [] => v
  | c :: l' => set_elements (from + 1) (MmsValue_setElement v from c) l'
  end.

Section loops.
Context `{MmsLaws}.

Lemma set_bits_type from v bits : MmsValue_getType (set_bits from v bits) = MmsValue_getType v.
Proof. revert from v. induction bits as [|b l IH]; intros; simpl; [done|]. by rewrite IH, type_setBit. Qed.

Lemma set_bits_size from v bits :
  MmsValue_getBitStringSize (set_bits from v bits) = MmsValue_getBitStringSize v.
Proof. revert from v. induction bits as [|b l IH]; intros; simpl; [done|]. by rewrite IH, bitSize_set. Qed.

Lemma set_bits_get from v bits j :
  MmsValue_getType v = MMS_BIT_STRING → 0 <= from →
  from + Z.of_nat (length bits) <= MmsValue_getBitStringSize v → 0 <= j →
  MmsValue_getBitStringBit (set_bits from v bits) j
  = default (MmsValue_getBitStringBit v j)
      (if from <=? j then bits !! Z.to_nat (j - from) else None).
Proof.
  revert from v. induction bits as [|b l IH]; intros from v Ht Hf Hl Hj; simpl.
  - by destruct (from <=? j).
  - simpl in Hl. rewrite IH; rewrite ?type_setBit, ?bitSize_set; try done; try lia.
    rewrite getBit_set by (done || lia).
    destruct (Z.leb_spec (from + 1) j), (Z.leb_spec from j), (Z.eqb_spec from j); try lia.
    + replace (Z.to_nat (j - from)) with (S (Z.to_nat (j - (from + 1)))) by lia. done.
    + subst. by rewrite Z.sub_diag.
    + done.
Qed.

Lemma bits_of_set_bits bits :
  mms_bits (set_bits 0 (MmsValue_newBitString (Z.of_nat (length bits))) bits) = bits.
Proof.
  unfold mms_bits. rewrite set_bits_size, bitSize_new by lia.
  apply list_eq. intros i. rewrite list_lookup_fmap. unfold range.
  destruct (decide (i < length bits)%nat) as [Hi|Hi].
  - rewrite lookup_seqZ_lt by lia. rewrite Z.add_0_l. simpl.
    rewrite set_bits_get; rewrite ?type_newBitString, ?bitSize_new; try done; try lia.
    destruct (Z.leb_spec 0 (Z.of_nat i)); [|lia]. rewrite Z.sub_0_r, Nat2Z.id.
    by destruct (lookup_lt_is_Some_2 bits i Hi) as [b ->].
  - rewrite lookup_seqZ_ge by lia. simpl. symmetry. apply lookup_ge_None. lia.
Qed.

Lemma set_elements_type from v l : MmsValue_getType (set_elements from v l) = MmsValue_getType v.
Proof. revert from v. induction l as [|b l IH]; intros; simpl; [done|]. by rewrite IH, type_setElement. Qed.

Lemma set_elements_size from v l :
  MmsValue_getArraySize (set_elements from v l) = MmsValue_getArraySize v.
Proof. revert from v. induction l as [|b l IH]; intros; simpl; [done|]. by rewrite IH, arraySize_set. Qed.

Lemma set_elements_get from v l j :
  mms_compound v → 0 <= from →
  from + Z.of_nat (length l) <= MmsValue_getArraySize v → from <= j →
  j < from + Z.of_nat (length l) →
  MmsValue_getElement (set_elements from v l) j = l !! Z.to_nat (j - from).
Proof.
  assert (Hkeep : ∀ l' from' w k, mms_compound w → 0 <= from' → k < from' →
    from' + Z.of_nat (length l') <= MmsValue_getArraySize w →
    MmsValue_getElement (set_elements from' w l') k = MmsValue_getElement w k).
  { induction l' as [|c l' IH]; intros from' w k Hc Hf Hk Hl; simpl; [done|]. simpl in Hl.
    rewrite IH; rewrite ?arraySize_set; try lia.
    - rewrite getElement_set by (done || lia). destruct (Z.eqb_spec from' k); [lia|done].
    - unfold mms_compound. by rewrite type_setElement. }
  revert from v. induction l as [|c l IH]; intros from v Hc Hf Hl H1 H2; simpl in *; [lia|].
  assert (mms_compound (MmsValue_setElement v from c)).
  { unfold mms_compound. by rewrite type_setElement. }
  destruct (decide (from = j)) as [->|Hne].
  - rewrite Hkeep; rewrite ?arraySize_set; try done; try lia.
    rewrite getElement_set, Z.eqb_refl, Z.sub_diag by (done || lia). done.
  - rewrite IH; rewrite ?arraySize_set; try done; try lia.
    replace (Z.to_nat (j - from)) with (S (Z.to_nat (j - (from + 1)))) by lia. done.
Qed.

Lemma elements_of_set_elements v l :
  mms_compound v → MmsValue_getArraySize v = Z.of_nat (length l) →
  mms_elements (set_elements 0 v l) = Some <$> l.
Proof.
  intros Hc Hl. unfold mms_elements, range. rewrite set_elements_size, Hl.
  apply list_eq. intros i. rewrite !list_lookup_fmap.
  destruct (decide (i < length l)%nat) as [Hi|Hi].
  - rewrite lookup_seqZ_lt by lia. simpl.
    rewrite set_elements_get by (done || lia). rewrite Z.sub_0_r, Z.add_0_l, Nat2Z.id.
    destruct (lookup_lt_is_Some_2 l i Hi) as [b ->]. done.
  - rewrite lookup_seqZ_ge by lia. simpl.
    assert (l !! i = None) as -> by (apply lookup_ge_None; lia). done.
Qed.
End loops.
