(* ===== verification/RefMms.v ===== *)
(** * Concrete MMS values

    An implementation of [Mms.MmsApi] that satisfies [Mms.MmsLaws]: the
    witnesses of the theorems about MMS values run on it.  It stands for no
    code of the repository. *)

From Stdlib Require Import ZArith Lia String Ascii SpecFloat.
From stdpp Require Import base tactics list strings numbers option.
From S2P Require Import Prelude CText CFloat Mms.

Local Open Scope Z_scope.

Inductive rmms : Type :=
| VBool (b : bool)
| VInt (n : Z)
| VUns (n : Z)
| VFloat (width : Z) (f : spec_float)
| VVisible (s : string)
| VString (s : string)
| VOctets (l : list Z)
| VBits (size : Z) (bits : list (Z * bool))
| VUtc (buf : list Z)
| VBinary (ms : Z)
| VArray (size : Z) (l : list (Z * rmms))
| VStruct (size : Z) (l : list (Z * rmms))
| VError (e : Z).

Definition vtype (v : rmms) : MmsType :=
  match v with
  | VBool _ => MMS_BOOLEAN
  | VInt _ => MMS_INTEGER
  | VUns _ => MMS_UNSIGNED
  | VFloat _ _ => MMS_FLOAT
  | VVisible _ => MMS_VISIBLE_STRING
  | VString _ => MMS_STRING
  | VOctets _ => MMS_OCTET_STRING
  | VBits _ _ => MMS_BIT_STRING
  | VUtc _ => MMS_UTC_TIME
  | VBinary _ => MMS_BINARY_TIME
  | VArray _ _ => MMS_ARRAY
  | VStruct _ _ => MMS_STRUCTURE
  | VError _ => MMS_DATA_ACCESS_ERROR
  end.

(** The latest write to an index. *)
Fixpoint vlookup {A} (l : list (Z * A)) (i : Z) : option A :=
  match l with
  | [] => None
  | (k, x) :: l' => if k =? i then Some x else vlookup l' i
  end.

Definition vutc (ms : Z) : list Z :=
  be_octets 4 (ms / 1000) ++ be_octets 3 (ms mod 1000 * 16777216 / 1000) ++ [10].

Definition vbuffer (v : rmms) : list Z :=
  match v with VUtc b => b | _ => replicate 8 0 end.

Definition utc_ms (b : list Z) : Z :=
  let s := fold_left (λ a x, a * 256 + x) (take 4 b) 0 in
  let f := fold_left (λ a x, a * 256 + x) (take 3 (drop 4 b)) 0 in
  s * 1000 + f * 1000 / 16777216.

#[export] Instance ref_mms : MmsApi := {|
  MmsValue := rmms;
  MmsValue_getType := vtype;
  MmsValue_newBoolean := VBool;
  MmsValue_getBoolean v := match v with VBool b => b | _ => false end;
  MmsValue_newIntegerFromInt64 := VInt;
  MmsValue_newIntegerFromInt32 := VInt;
  MmsValue_toInt64 v := match v with VInt n | VUns n => i64 n | _ => 0 end;
  MmsValue_toInt32 v := match v with VInt n | VUns n => i32 n | _ => 0 end;
  MmsValue_newUnsignedFromUint32 := VUns;
  MmsValue_toUint32 v := match v with VInt n | VUns n => u32 n | _ => 0 end;
  MmsValue_newFloat := VFloat 32;
  MmsValue_newDouble := VFloat 64;
  MmsValue_toFloat v :=
    match v with VFloat w f => if w =? 32 then f else to_float f | _ => S754_zero false end;
  MmsValue_toDouble v :=
    match v with VFloat w f => if w =? 32 then to_double f else f | _ => S754_zero false end;
  formatWidth v := match v with VFloat w _ => w | _ => 0 end;
  MmsValue_newVisibleString := VVisible;
  MmsValue_newMmsString := VString;
  MmsValue_toString v := match v with VVisible s | VString s => s | _ => EmptyString end;
  MmsValue_newOctetString n _ := VOctets (replicate (Z.to_nat n) 0);
  MmsValue_setOctetString v l := match v with VOctets _ => VOctets l | _ => v end;
  MmsValue_getOctetStringBuffer v := match v with VOctets l => l | _ => [] end;
  MmsValue_newBitString n := VBits (Z.max 0 n) [];
  MmsValue_setBitStringBit v i b :=
    match v with VBits n l => VBits n ((i, b) :: l) | _ => v end;
  MmsValue_getBitStringSize v := match v with VBits n _ => Z.max 0 n | _ => 0 end;
  MmsValue_getBitStringBit v i :=
    match v with VBits _ l => default false (vlookup l i) | _ => false end;
  MmsValue_newUtcTimeByMsTime ms := VUtc (vutc ms);
  MmsValue_getUtcTimeBuffer v :=
    let b := vbuffer v in
    if decide (length b = 8%nat ∧ Forall (λ x, is_u8 x) b) then b else replicate 8 0;
  MmsValue_getUtcTimeInMs v := utc_ms (vbuffer v);
  MmsValue_newBinaryTime := VBinary 0;
  MmsValue_setBinaryTime v t := match v with VBinary _ => VBinary t | _ => v end;
  MmsValue_getBinaryTimeAsUtcMs v := match v with VBinary t => t | _ => 0 end;
  MmsValue_createEmptyArray n := VArray (Z.max 0 n) [];
  MmsValue_createEmptyStructure n := VStruct (Z.max 0 n) [];
  MmsValue_setElement v i c :=
    match v with
    | VArray n l => VArray n ((i, c) :: l)
    | VStruct n l => VStruct n ((i, c) :: l)
    | _ => v
    end;
  MmsValue_getArraySize v := match v with VArray n _ | VStruct n _ => Z.max 0 n | _ => 0 end;
  MmsValue_getElement v i :=
    match v with VArray _ l | VStruct _ l => vlookup l i | _ => None end;
  MmsValue_getDataAccessError v := match v with VError e => e | _ => -1 end
|}.

Lemma vutc_ok ms : is_u32 (ms / 1000) → length (vutc ms) = 8%nat ∧ Forall (λ x, is_u8 x) (vutc ms).
Proof.
  intros. unfold vutc. split.
  - by rewrite !length_app, !length_be_octets.
  - apply Forall_app; split; [apply be_octets_octets|].
    apply Forall_app; split; [apply be_octets_octets|]. by repeat constructor.
Qed.

#[export] Instance ref_mms_laws : MmsLaws.
Proof.
  split; simpl; try done; try lia.
  all: try (intros v; destruct v; simpl; try done; unfold i64, u32; lia).
  - intros n ?. by apply i32_id.
  - intros v i b j Ht _. destruct v; try done. simpl. by destruct (i =? j).
  - intros v. case_decide as Hd; [apply Hd|done].
  - intros ms Hms. exists 10. case_decide as Hd; [done|]. by destruct Hd; apply vutc_ok.
  - intros v. case_decide as Hd; [apply Hd|]. by repeat constructor.
Qed.
