(* ===== verification/GooseCommon.v ===== *)
(** * goose_common.c

    The shared helpers of the GOOSE and SV adapters: typed JSON to and from
    MMS values, the time texts, APPID and MAC parsing, and the emission of
    events, with the facts on the time texts.  The theorems about them are in
    [GooseCommonSpec.v]. *)

From Stdlib Require Import ZArith Lia String Ascii SpecFloat.
From stdpp Require Import base tactics list strings numbers option.
From S2P Require Import Prelude CText Civil CFloat Json Mms.

Local Open Scope Z_scope.

Definition hexval (c : ascii) : Z := hex_value c.

(** ** Times *)

(** [while ( *p >= '0' && *p <= '9')]: the digit count, the number of the
    first nine digits and the rest. *)
Fixpoint fraction_digits (digits ns : Z) (p : string) : Z * Z * string :=
  match p with
  | String c p' =>
      if isdigit c then
        if digits <? 9 then fraction_digits (digits + 1) (u64 (ns * 10 + (code c - 48))) p'
        else fraction_digits digits ns p'
      else (digits, ns, p)
  | EmptyString => (digits, ns, p)
  end.

(** [while (digits++ < 9) ns *= 10;] *)
Fixpoint scale_ns (k : nat) (ns : Z) : Z :=
  match k with
  | O => ns
  | S k' => scale_ns k' (u64 (ns * 10))
  end.

(** ["2024-01-01T00:00:01.500Z"] to milliseconds since the epoch. *)
Definition parse_time_ms (s : string) : option Z :=
  match strptime_iso s with
  | None => None
  | Some (t, p) =>
      let '(ms, p) :=
        match p with
        | String "." p' =>
            let '(digits, ns, r) := fraction_digits 0 0 p' in
            let ns := scale_ns (Z.to_nat (9 - digits)) ns in
            (u64 (ns + 500000) / 1000000, r)
        | _ => (0, p)
        end in
      if String.eqb p "Z" then Some (u64 (u64 (timegm t) * 1000 + ms)) else None
  end.

Definition format_time_ms (ms : Z) : string :=
  let secs := ms / 1000 in
  strftime_iso (gmtime secs) +:+ "." +:+ fmt_pad 3 (ms mod 1000) +:+ "Z".

Definition octet (raw : list Z) (i : nat) : Z := default 0 (raw !! i).

(** The seconds and the 24-bit fraction of a UtcTime. *)
Definition utc_secs (raw : list Z) : Z :=
  Z.lor (Z.lor (Z.lor (u32 (Z.shiftl (octet raw 0) 24)) (Z.shiftl (octet raw 1) 16))
           (Z.shiftl (octet raw 2) 8)) (octet raw 3).

Definition utc_frac (raw : list Z) : Z :=
  Z.lor (Z.lor (Z.shiftl (octet raw 4) 16) (Z.shiftl (octet raw 5) 8)) (octet raw 6).

Definition utc_frac_ns (raw : list Z) : Z := Z.shiftr (u64 (utc_frac raw * 1000000000)) 24.

(** [for (int i = 8; i > 0 && frac_s[i] == '0'; i--) frac_s[i] = '\0';] *)
Fixpoint drop_zeros (i : nat) (frac_s : string) : string :=
  match i with
  | O => frac_s
  | S i' =>
      match String.get i frac_s with
      | Some "0"%char => drop_zeros i' (String.substring 0 i frac_s)
      | _ => frac_s
      end
  end.

(** The text of a time in seconds and nanoseconds. *)
Definition format_ns (secs ns : Z) : string :=
  let base := strftime_iso (gmtime secs) in
  if ns =? 0 then base +:+ "Z"
  else base +:+ "." +:+ drop_zeros 8 (fmt_pad 9 ns) +:+ "Z".

Definition goose_format_utc_ns (raw : list Z) : string :=
  format_ns (utc_secs raw) (utc_frac_ns raw).

(** UtcTime octets to milliseconds, rounded to the nearest. *)
Definition utc_ms_rounded (raw : list Z) : Z :=
  u64 (utc_secs raw * 1000 + (utc_frac_ns raw + 500000) / 1000000).

(** ** APPID and MAC addresses *)

Definition goose_parse_appid (s : string) : option Z :=
  let '(n, end_) := strtoul 0 s in
  if String.eqb s "" || negb (String.eqb end_ "") || (65535 <? n) then None
  else Some (u16 n).

(** [sscanf(s, "%2x%c...%2x%c")] returning 11: five octets each with the
    character after it, then one octet and no character. *)
Fixpoint scan_mac (k : nat) (s : string) : option (list Z) :=
  match scan_2x s with
  | None => None
  | Some (b, s) =>
      match k with
      | O => if String.eqb s "" then Some [u8 b] else None
      | S k' =>
          match scan_c s with
          | None => None
          | Some (_, s) =>
              match scan_mac k' s with
              | None => None
              | Some l => Some (u8 b :: l)
              end
          end
      end
  end.

Definition goose_parse_mac (s : string) : option (list Z) := scan_mac 5 s.

Definition goose_format_mac (mac : list Z) : string :=
  fmt_02x (octet mac 0) +:+ ":" +:+ fmt_02x (octet mac 1) +:+ ":" +:+
  fmt_02x (octet mac 2) +:+ ":" +:+ fmt_02x (octet mac 3) +:+ ":" +:+
  fmt_02x (octet mac 4) +:+ ":" +:+ fmt_02x (octet mac 5).

(** ** Values *)

(** The octets of a text of hexadecimal digit pairs. *)
Fixpoint hex_octets (s : string) : option (list Z) :=
  match s with
  | EmptyString => Some []
  | String a (String b r) =>
      let hi := hexval a in
      let lo := hexval b in
      if (hi <? 0) || (lo <? 0) then None
      else match hex_octets r with
           | Some l => Some (u8 (Z.lor (Z.shiftl hi 4) lo) :: l)
           | None => None
           end
  | String _ EmptyString => None
  end.

(** [for (prec = 1; prec <= 9; prec++)]: the text of a float32, from
    precision [prec], [n] precisions left. *)
Fixpoint shortest_text (n : nat) (prec : Z) (buf : string) (f : spec_float) : string :=
  match n with
  | O => buf
  | S n' =>
      let buf := fmt_g prec (to_double f) in
      if SFeqb (to_float (strtod buf)) f then buf else shortest_text n' (prec + 1) buf f
  end.

Section values.
Context `{JsonC} `{MmsApi}.

(** [for (i = 0; i < n; i++)] over the characters of a bit string; [None] at
    the first character that is no binary digit. *)
Fixpoint bits_from_text (i : Z) (v : MmsValue) (s : string) : option MmsValue :=
  match s with
  | EmptyString => Some v
  | String c r =>
      if Ascii.eqb c "0" || Ascii.eqb c "1"
      then bits_from_text (i + 1) (MmsValue_setBitStringBit v i (Ascii.eqb c "1")) r
      else None
  end.

(** [for (i = 0; i < n; i++)] over the elements of an array or structure. *)
Fixpoint elements_from_json (rec : json → res (string + MmsValue)) (i : Z) (v : MmsValue)
    (l : list json) : res (string + MmsValue) :=
  match l with
  | [] => Ret (inr v)
  | j :: l' =>
      match rec j with
      | Ret (inr c) => elements_from_json rec (i + 1) (MmsValue_setElement v i c) l'
      | r => r
      end
  end.

Definition err_typed : string :=
  "value is not {" +:+ dquote +:+ "type" +:+ dquote +:+ ":..,"
  +:+ dquote +:+ "value" +:+ dquote +:+ ":..}".

(** Typed JSON to an MMS value; [inl] is a null result with [*err] set.
    [fuel] bounds the depth of the recursion. *)
Fixpoint goose_value_from_json (fuel : nat) (typed : json) : res (string + MmsValue) :=
  match fuel with
  | O => Undef
  | S fuel =>
  if negb (json_object_is_type typed json_type_object) then Ret (inl err_typed) else
  match json_object_object_get_ex typed "type", json_object_object_get_ex typed "value" with
  | Some jt, Some jv =>
    match json_object_get_string jt with
    | None => Undef
    | Some type =>
      if String.eqb type "boolean" then
        if negb (json_object_is_type jv json_type_boolean)
        then Ret (inl "boolean: not a JSON boolean")
        else Ret (inr (MmsValue_newBoolean (json_object_get_boolean jv)))
      else if String.eqb type "integer" then
        if negb (json_object_is_type jv json_type_int)
        then Ret (inl "integer: not a JSON integer")
        else Ret (inr (MmsValue_newIntegerFromInt64 (json_object_get_int64 jv)))
      else if String.eqb type "unsigned" then
        if negb (json_object_is_type jv json_type_int)
           || (json_object_get_int64 jv <? 0) || (4294967295 <? json_object_get_int64 jv)
        then Ret (inl "unsigned: not a 32-bit unsigned integer")
        else Ret (inr (MmsValue_newUnsignedFromUint32 (u32 (json_object_get_int64 jv))))
      else if String.eqb type "float32" || String.eqb type "float64" then
        if negb (json_object_is_type jv json_type_double)
           && negb (json_object_is_type jv json_type_int)
        then Ret (inl "float: not a JSON number")
        else
          let d := json_object_get_double jv in
          Ret (inr (if String.eqb type "float32" then MmsValue_newFloat (to_float d)
                    else MmsValue_newDouble d))
      else if String.eqb type "visible-string" || String.eqb type "mms-string" then
        if negb (json_object_is_type jv json_type_string)
        then Ret (inl "string: not a JSON string")
        else
          match json_object_get_string jv with
          | None => Undef
          | Some s => Ret (inr (if String.eqb type "visible-string"
                                then MmsValue_newVisibleString s else MmsValue_newMmsString s))
          end
      else if String.eqb type "octet-string" then
        let s := default EmptyString (json_object_get_string jv) in
        let n := slen s in
        if negb (json_object_is_type jv json_type_string) || negb (n mod 2 =? 0)
        then Ret (inl "octet-string: not hex")
        else
          match hex_octets s with
          | None => Ret (inl "octet-string: not hex")
          | Some buf =>
              let n2 := i32 (n / 2) in
              Ret (inr (MmsValue_setOctetString (MmsValue_newOctetString n2 n2) buf))
          end
      else if String.eqb type "bit-string" then
        if negb (json_object_is_type jv json_type_string)
        then Ret (inl "bit-string: not a string")
        else
          match json_object_get_string jv with
          | None => Undef
          | Some s =>
              match bits_from_text 0 (MmsValue_newBitString (i32 (slen s))) s with
              | None => Ret (inl "bit-string: not binary digits")
              | Some v => Ret (inr v)
              end
          end
      else if String.eqb type "utc-time" || String.eqb type "binary-time" then
        if negb (json_object_is_type jv json_type_string)
        then Ret (inl "time: not YYYY-MM-DDThh:mm:ss[.fff]Z")
        else
          match json_object_get_string jv with
          | None => Undef
          | Some s =>
              match parse_time_ms s with
              | None => Ret (inl "time: not YYYY-MM-DDThh:mm:ss[.fff]Z")
              | Some ms =>
                  Ret (inr (if String.eqb type "utc-time" then MmsValue_newUtcTimeByMsTime ms
                            else MmsValue_setBinaryTime MmsValue_newBinaryTime ms))
              end
          end
      else if String.eqb type "array" || String.eqb type "structure" then
        if negb (json_object_is_type jv json_type_array)
        then Ret (inl "array/structure: not a JSON array")
        else
          let n := i32 (json_object_array_length jv) in
          let v := if String.eqb type "array" then MmsValue_createEmptyArray n
                   else MmsValue_createEmptyStructure n in
          elements_from_json (goose_value_from_json fuel) 0 v (json_elements jv)
      else Ret (inl "unsupported type")
    end
  | _, _ => Ret (inl err_typed)
  end
  end.

(** The loop of [goose_values_from_json]. *)
Fixpoint values_loop (fuel : nat) (l : list json) (list_ : list MmsValue)
  : res (string + list MmsValue) :=
  match l with
  | [] => Ret (inr list_)
  | j :: l' =>
      match goose_value_from_json fuel j with
      | Ret (inr v) => values_loop fuel l' (list_ ++ [v])
      | Ret (inl e) => Ret (inl e)
      | Exit c => Exit c
      | Undef => Undef
      end
  end.

(** A JSON array of typed values to a list of values; [array] is [None] for a
    null pointer. *)
Definition goose_values_from_json (fuel : nat) (array : option json)
  : res (string + list MmsValue) :=
  match array with
  | Some a =>
      if json_object_is_type a json_type_array then values_loop fuel (json_elements a) []
      else Ret (inl "values is not a JSON array")
  | None => Ret (inl "values is not a JSON array")
  end.

Definition typed (type : string) (value : json) : json :=
  json_object_object_add
    (json_object_object_add json_object_new_object "type" (json_object_new_string type))
    "value" value.

(** [for (i = 0; i < n; i++) json_object_array_add(arr, ...)] *)
Fixpoint elements_to_json (rec : option MmsValue → res json) (arr : json)
    (l : list (option MmsValue)) : res json :=
  match l with
  | [] => Ret arr
  | v :: l' =>
      match rec v with
      | Ret j => elements_to_json rec (json_object_array_add arr j) l'
      | r => r
      end
  end.

Fixpoint hex_text (l : list Z) : string :=
  match l with
  | [] => EmptyString
  | b :: l' => fmt_02x b +:+ hex_text l'
  end.

Fixpoint bit_text (l : list bool) : string :=
  match l with
  | [] => EmptyString
  | b :: l' => String (if b then "1" else "0") (bit_text l')
  end.

(** An MMS value to typed JSON; [fuel] bounds the depth of the recursion. *)
Fixpoint goose_value_to_json (fuel : nat) (v : option MmsValue) : res json :=
  match fuel with
  | O => Undef
  | S fuel =>
  match v with
  | None => Ret (typed "none" json_null)
  | Some v =>
  match MmsValue_getType v with
  | MMS_BOOLEAN => Ret (typed "boolean" (json_object_new_boolean (MmsValue_getBoolean v)))
  | MMS_INTEGER => Ret (typed "integer" (json_object_new_int64 (MmsValue_toInt64 v)))
  | MMS_UNSIGNED => Ret (typed "unsigned" (json_object_new_int64 (MmsValue_toUint32 v)))
  | MMS_FLOAT =>
      if formatWidth v =? 64
      then Ret (typed "float64" (json_object_new_double (MmsValue_toDouble v)))
      else
        let f := MmsValue_toFloat v in
        Ret (typed "float32" (json_object_new_double_s (to_double f) (shortest_text 9 1 "" f)))
  | MMS_VISIBLE_STRING =>
      Ret (typed "visible-string" (json_object_new_string (MmsValue_toString v)))
  | MMS_STRING => Ret (typed "mms-string" (json_object_new_string (MmsValue_toString v)))
  | MMS_OCTET_STRING =>
      Ret (typed "octet-string"
             (json_object_new_string (hex_text (MmsValue_getOctetStringBuffer v))))
  | MMS_BIT_STRING =>
      Ret (typed "bit-string" (json_object_new_string (bit_text (mms_bits v))))
  | MMS_UTC_TIME =>
      Ret (typed "utc-time"
             (json_object_new_string
                (format_time_ms (utc_ms_rounded (MmsValue_getUtcTimeBuffer v)))))
  | MMS_BINARY_TIME =>
      Ret (typed "binary-time"
             (json_object_new_string (format_time_ms (MmsValue_getBinaryTimeAsUtcMs v))))
  | MMS_ARRAY | MMS_STRUCTURE =>
      match elements_to_json (goose_value_to_json fuel) json_object_new_array (mms_elements v) with
      | Ret arr =>
          Ret (typed (if bool_decide (MmsValue_getType v = MMS_ARRAY) then "array"
                      else "structure") arr)
      | r => r
      end
  | MMS_DATA_ACCESS_ERROR =>
      Ret (typed "data-access-error" (json_object_new_int (MmsValue_getDataAccessError v)))
  | MMS_OTHER => Ret (typed "unknown" json_null)
  end
  end
  end.

End values.

(** ** Events

    Standard output is the list of the lines written to it. *)

Section emit.
Context `{JsonC}.

Definition goose_emit (obj : json) (out : list string) : list string :=
  out ++ [json_object_to_json_string_ext obj +:+ String "010" ""].

(** A JSON object with the given members, added in order. *)
Definition json_event (l : list (string * json)) : json :=
  fold_left (λ o '(k, v), json_object_object_add o k v) l json_object_new_object.

Definition GOOSE_FIXTURE_REVISION : string := "goose-v1".

(** [version] is the environment variable [ADAPTER_VERSION]. *)
Definition goose_emit_ready (version : option string) (role iface : string) (src : list Z)
    (gocb_ref : option string) (out : list string) : list string :=
  goose_emit (json_event
    ([ ("event", json_object_new_string "ready");
       ("address", json_object_new_string iface);
       ("fixture", json_object_new_string GOOSE_FIXTURE_REVISION);
       ("adapter", json_object_new_string "libiec61850");
       ("version", json_object_new_string (default "dev" version));
       ("role", json_object_new_string role);
       ("iface", json_object_new_string iface);
       ("src", json_object_new_string (goose_format_mac src)) ] ++
     match gocb_ref with
     | Some r => if String.eqb r "" then [] else [("gocbRef", json_object_new_string r)]
     | None => []
     end)) out.

Definition error_event (msg : string) : json :=
  json_event [ ("event", json_object_new_string "error");
               ("error", json_object_new_string msg) ].

Definition goose_emit_error (msg : string) (out : list string) : list string :=
  goose_emit (error_event msg) out.

End emit.

(** ** Facts on times *)

Lemma fraction_digits_fmt w n digits ns rest :
  digits + Z.of_nat w <= 9 → 0 <= n → 0 <= ns < 10 ^ digits → 0 <= digits →
  fraction_digits digits ns (fmt_fixed 10 w n +:+ rest)
  = fraction_digits (digits + Z.of_nat w) (ns * 10 ^ Z.of_nat w + n mod 10 ^ Z.of_nat w) rest.
Proof.
  revert n digits ns rest. induction w as [|w IH]; intros n digits ns rest Hw Hn Hns Hd.
  - simpl. by rewrite string_app_nil_l, Z.mod_1_r, Z.mul_1_r, !Z.add_0_r.
  - rewrite fmt_fixed_S, IH by lia.
    set (p := 10 ^ Z.of_nat w). assert (0 < p) by (apply Z.pow_pos_nonneg; lia).
    simpl. rewrite isdigit_digit by lia. destruct (Z.ltb_spec (digits + Z.of_nat w) 9); [|lia].
    rewrite code_digit by lia. destruct (Z.ltb_spec (n mod 10) 10); [|lia].
    rewrite Nat2Z.inj_succ, Z.pow_succ_r by lia. fold p.
    rewrite (Z.rem_mul_r n 10 p) by lia.
    pose proof (Z.mod_pos_bound (n / 10) p). rewrite u64_id; [f_equal; lia|].
    assert (10 ^ digits * p <= 10 ^ 9).
    { subst p. rewrite <- Z.pow_add_r by lia. apply Z.pow_le_mono_r; lia. }
    change (10 ^ 9) with 1000000000 in *. nia.
Qed.

Lemma fraction_digits_stop digits ns c rest :
  isdigit c = false → fraction_digits digits ns (String c rest) = (digits, ns, String c rest).
Proof. simpl. by intros ->. Qed.

Lemma scale_ns_pow k ns :
  0 <= ns → ns * 10 ^ Z.of_nat k < 10 ^ 9 → scale_ns k ns = ns * 10 ^ Z.of_nat k.
Proof.
  revert ns. induction k as [|k IH]; intros ns H0 Hk; simpl; [lia|].
  rewrite Nat2Z.inj_succ, Z.pow_succ_r in Hk |- * by lia.
  assert (0 < 10 ^ Z.of_nat k) by (apply Z.pow_pos_nonneg; lia).
  change (10 ^ 9) with 1000000000 in *.
  rewrite u64_id by nia. rewrite IH by (change (10 ^ 9) with 1000000000; nia). lia.
Qed.

(** A fraction of [w] digits is read as nanoseconds. *)
Lemma read_fraction w n :
  (1 <= w <= 9)%nat → 0 <= n < 10 ^ Z.of_nat w →
  fraction_digits 0 0 (fmt_fixed 10 w n +:+ "Z") = (Z.of_nat w, n, "Z")
  ∧ scale_ns (Z.to_nat (9 - Z.of_nat w)) n = n * 10 ^ (9 - Z.of_nat w).
Proof.
  intros Hw Hn. split.
  - rewrite fraction_digits_fmt, fraction_digits_stop by (done || lia).
    rewrite Z.mod_small by lia. by rewrite Z.mul_0_l, !Z.add_0_l.
  - rewrite scale_ns_pow; rewrite ?Z2Nat.id; try lia.
    replace (10 ^ 9) with (10 ^ Z.of_nat w * 10 ^ (9 - Z.of_nat w))
      by (rewrite <- Z.pow_add_r by lia; f_equal; lia).
    assert (0 < 10 ^ (9 - Z.of_nat w)) by (apply Z.pow_pos_nonneg; lia). nia.
Qed.

(** The reader on a time with a fraction of [w] digits, and without. *)
Lemma parse_time_fraction secs w n :
  0 <= secs <= max_time → (1 <= w <= 9)%nat → 0 <= n < 10 ^ Z.of_nat w →
  parse_time_ms (strftime_iso (gmtime secs) +:+ "." +:+ fmt_fixed 10 w n +:+ "Z")
  = Some (secs * 1000 + (n * 10 ^ (9 - Z.of_nat w) + 500000) / 1000000).
Proof.
  intros Hs Hw Hn. unfold parse_time_ms.
  rewrite strptime_strftime by (by apply gmtime_ok).
  rewrite string_app_cons, string_app_nil_l.
  destruct (read_fraction w n Hw Hn) as [-> Hsc]. cbv beta iota zeta. rewrite Hsc.
  rewrite String.eqb_refl, timegm_gmtime. unfold max_time in Hs.
  assert (n * 10 ^ (9 - Z.of_nat w) < 10 ^ 9).
  { replace (10 ^ 9) with (10 ^ Z.of_nat w * 10 ^ (9 - Z.of_nat w))
      by (rewrite <- Z.pow_add_r by lia; f_equal; lia).
    assert (0 < 10 ^ (9 - Z.of_nat w)) by (apply Z.pow_pos_nonneg; lia). nia. }
  assert (0 <= n * 10 ^ (9 - Z.of_nat w)) by (apply Z.mul_nonneg_nonneg; lia).
  change (10 ^ 9) with 1000000000 in *.
  rewrite (u64_id secs), (u64_id (_ + 500000)) by lia. by rewrite u64_id by lia.
Qed.

Lemma parse_time_whole secs :
  0 <= secs <= max_time →
  parse_time_ms (strftime_iso (gmtime secs) +:+ "Z") = Some (secs * 1000).
Proof.
  intros Hs. unfold parse_time_ms. rewrite strptime_strftime by (by apply gmtime_ok).
  rewrite timegm_gmtime. unfold max_time in Hs. simpl.
  rewrite (u64_id secs) by lia. rewrite u64_id by lia. f_equal. lia.
Qed.

Lemma parse_format_ms ms :
  0 <= ms / 1000 <= max_time → parse_time_ms (format_time_ms ms) = Some ms.
Proof.
  intros Hms. unfold format_time_ms, fmt_pad. change (10 ^ Z.of_nat 3) with 1000.
  destruct (Z.ltb_spec (ms mod 1000) 1000); [|lia].
  rewrite parse_time_fraction by (simpl; lia). simpl. f_equal. lia.
Qed.

Lemma drop_zeros_step i n :
  drop_zeros (S i) (fmt_fixed 10 (S (S i)) n)
  = if n mod 10 =? 0 then drop_zeros i (fmt_fixed 10 (S i) (n / 10))
    else fmt_fixed 10 (S (S i)) n.
Proof.
  cbn [drop_zeros]. rewrite get_fmt_last, substring_fmt_init.
  pose proof (digit_zero_iff (n mod 10)) as Hz.
  destruct (Z.eqb_spec (n mod 10) 0) as [->|Hne]; [done|].
  destruct (digit (n mod 10)) as [[] [] [] [] [] [] [] []] eqn:E; try done.
  destruct Hne. apply Hz; [lia|done].
Qed.

(** What [drop_zeros] leaves of printed digits: the number without its
    trailing zeros. *)
Lemma drop_zeros_fmt i n :
  0 < n < 10 ^ Z.of_nat (S i) →
  ∃ w m, (1 <= w <= S i)%nat ∧ drop_zeros i (fmt_fixed 10 (S i) n) = fmt_fixed 10 w m
    ∧ 0 < m < 10 ^ Z.of_nat w ∧ m mod 10 ≠ 0 ∧ n = m * 10 ^ Z.of_nat (S i - w).
Proof.
  revert n. induction i as [|i IH]; intros n Hn.
  - exists 1%nat, n. simpl. simpl in Hn. repeat split; lia.
  - rewrite drop_zeros_step. destruct (Z.eqb_spec (n mod 10) 0) as [Hz|Hz].
    + rewrite Nat2Z.inj_succ, Z.pow_succ_r in Hn by lia.
      destruct (IH (n / 10)) as (w & m & Hw & -> & Hm & Hm0 & Hd); [lia|].
      exists w, m. repeat split; try lia.
      replace (S (S i) - w)%nat with (S (S i - w)) by lia.
      rewrite Nat2Z.inj_succ, Z.pow_succ_r by lia. lia.
    + exists (S (S i)), n. rewrite Nat.sub_diag. simpl Z.of_nat at 1. repeat split; try done; lia.
Qed.
