(* ===== verification/GooseCommonSpec.v ===== *)
(** * Theorems about goose_common.c

    The addresses, the time texts and the typed values of the GOOSE and SV
    adapters: printing and reading are inverse, and reading reports errors
    rather than failing. *)

From Stdlib Require Import ZArith Lia String Ascii SpecFloat.
From stdpp Require Import base tactics list strings numbers option.
From S2P Require Import Prelude CText Civil CFloat Json Mms RefJson RefMms GooseCommon.

Local Open Scope Z_scope.

(** ** Addresses *)

(** [sscanf("%2x")] reads back what [printf("%02x")] printed. *)
Lemma scan_2x_fmt b rest : is_u8 b → scan_2x (fmt_02x b +:+ rest) = Some (b, rest).
Proof.
  intros Hb. unfold fmt_02x. rewrite fmt_fixed_2. unfold scan_2x.
  rewrite skip_spaces_digit, sign_of_digit by lia. cbv beta iota zeta.
  rewrite String.eqb_refl. simpl negb. cbv iota.
  rewrite !hex_value_digit by lia.
  destruct (Z.ltb_spec (b / 16 mod 16) 0); [lia|].
  assert (is_x (digit (b mod 16)) = false) as ->.
  { unfold is_x. rewrite code_digit by lia.
    destruct (Z.ltb_spec (b mod 16) 10); cases_if; lia. }
  rewrite andb_false_r. destruct (Z.ltb_spec (b mod 16) 0); [lia|].
  rewrite u32_id by lia. do 2 f_equal. lia.
Qed.

Lemma scan_mac_step k b c rest :
  is_u8 b →
  scan_mac (S k) (fmt_02x b +:+ String c rest) = (λ l, b :: l) <$> scan_mac k rest.
Proof.
  intros Hb. cbn [scan_mac]. rewrite scan_2x_fmt by done. simpl. rewrite u8_id by done.
  by destruct (scan_mac k rest).
Qed.

Lemma scan_mac_last b : is_u8 b → scan_mac 0 (fmt_02x b) = Some [b].
Proof.
  intros Hb. rewrite <- (string_app_nil_r (fmt_02x b)). cbn [scan_mac].
  rewrite scan_2x_fmt by done. simpl. by rewrite u8_id.
Qed.

Lemma six_octets (mac : list Z) :
  length mac = 6%nat → ∃ a b c d e f, mac = [a; b; c; d; e; f].
Proof. intros Hl. destruct mac as [|a [|b [|c [|d [|e [|f [|]]]]]]]; try done. eauto 10. Qed.

(** A MAC address of six octets printed by the adapters is read back as the
    same six octets. *)
Theorem goose_mac_roundtrip mac :
  length mac = 6%nat → Forall (λ b, is_u8 b) mac →
  goose_parse_mac (goose_format_mac mac) = Some mac.
Proof.
  intros Hl Hm. destruct (six_octets mac Hl) as (a & b & c & d & e & f & ->).
  rewrite !list.Forall_cons in Hm. destruct Hm as (? & ? & ? & ? & ? & ? & _).
  unfold goose_parse_mac, goose_format_mac, octet. simpl lookup. simpl default.
  repeat rewrite ?string_app_assoc, ?string_app_cons, ?string_app_nil_l.
  rewrite !scan_mac_step, scan_mac_last by done. done.
Qed.

Lemma goose_mac_roundtrip_witness :
  goose_parse_mac (goose_format_mac [1; 12; 205; 1; 0; 255]) = Some [1; 12; 205; 1; 0; 255].
Proof. apply (goose_mac_roundtrip [1; 12; 205; 1; 0; 255]); repeat constructor; lia. Defined.

(** How the reader takes a decimal and a hexadecimal APPID. *)
Theorem goose_appid_notations n :
  0 < n < 18446744073709551616 →
  goose_parse_appid (fmt_u n) = (if n <=? 65535 then Some n else None)
  ∧ (n <= 65535 → goose_parse_appid ("0x" +:+ fmt_04x n) = Some n).
Proof.
  intros Hn. unfold goose_parse_appid, strtoul. split.
  - rewrite strto_fmt_u by auto. destruct (Z.ltb_spec 18446744073709551615 n); [lia|].
    destruct (fmt_u_head n Hn) as (d & s & -> & _).
    destruct (Z.ltb_spec 65535 n), (Z.leb_spec n 65535); try lia; simpl; [done|].
    by rewrite u16_id by lia.
  - intros Hle. unfold fmt_04x. rewrite strto_hex by (simpl; lia).
    destruct (Z.ltb_spec 18446744073709551615 n); [lia|].
    destruct (Z.ltb_spec 65535 n); [lia|]. rewrite u16_id by lia. done.
Qed.

Lemma goose_appid_notations_witness :
  goose_parse_appid (fmt_u 4096) = Some 4096
  ∧ (4096 <= 65535 → goose_parse_appid ("0x" +:+ fmt_04x 4096) = Some 4096).
Proof. apply (goose_appid_notations 4096). lia. Defined.

Lemma goose_appid_octal : goose_parse_appid "010" = Some 8.
Proof. reflexivity. Qed.

(** ** Times *)

Lemma format_ns_parse secs ns :
  0 <= secs <= max_time → 0 <= ns < 10 ^ 9 →
  parse_time_ms (format_ns secs ns) = Some (secs * 1000 + (ns + 500000) / 1000000).
Proof.
  intros Hs Hn. unfold format_ns. change (10 ^ 9) with 1000000000 in *.
  destruct (Z.eqb_spec ns 0) as [->|Hne].
  - rewrite parse_time_whole by done. f_equal. change ((0 + 500000) / 1000000) with 0. lia.
  - unfold fmt_pad. change (10 ^ Z.of_nat 9) with 1000000000.
    destruct (Z.ltb_spec ns 1000000000); [|lia].
    destruct (drop_zeros_fmt 8 ns) as (w & m & Hw & -> & Hm & _ & Hd).
    { change (10 ^ Z.of_nat 9) with 1000000000. lia. }
    rewrite parse_time_fraction by lia. subst ns. by rewrite Nat2Z.inj_sub by lia.
Qed.

(** What is stored in the octets of a UtcTime. *)
Lemma utc_octets raw a b c d e f g h :
  raw = [a; b; c; d; e; f; g; h] → Forall (λ b, is_u8 b) raw →
  utc_secs raw = a * 16777216 + b * 65536 + c * 256 + d
  ∧ utc_frac raw = e * 65536 + f * 256 + g.
Proof.
  intros -> Ho. rewrite !list.Forall_cons in Ho. destruct Ho as (? & ? & ? & ? & ? & ? & ? & ? & _).
  unfold utc_secs, utc_frac, octet. simpl lookup. simpl default.
  rewrite !Z.shiftl_mul_pow2 by lia.
  change (2 ^ 24) with 16777216. change (2 ^ 16) with 65536. change (2 ^ 8) with 256.
  rewrite u32_id by lia. split.
  - rewrite (lor_low (a * 16777216) _ 24), (lor_low _ (c * 256) 16), (lor_low _ d 8)
      by (change (2 ^ 24) with 16777216; change (2 ^ 16) with 65536; change (2 ^ 8) with 256; lia).
    done.
  - rewrite (lor_low (e * 65536) _ 16), (lor_low _ g 8)
      by (change (2 ^ 16) with 65536; change (2 ^ 8) with 256; lia).
    done.
Qed.

Lemma eight_octets (raw : list Z) :
  length raw = 8%nat → ∃ a b c d e f g h, raw = [a; b; c; d; e; f; g; h].
Proof.
  intros Hl. destruct raw as [|a [|b [|c [|d [|e [|f [|g [|h [|]]]]]]]]]; try done. eauto 20.
Qed.

Lemma utc_ranges raw :
  length raw = 8%nat → Forall (λ b, is_u8 b) raw →
  is_u32 (utc_secs raw) ∧ 0 <= utc_frac raw < 16777216
  ∧ utc_frac_ns raw = utc_frac raw * 1000000000 / 16777216
  ∧ 0 <= utc_frac_ns raw < 1000000000.
Proof.
  intros Hl Ho. destruct (eight_octets raw Hl) as (a & b & c & d & e & f & g & h & Hr).
  destruct (utc_octets raw _ _ _ _ _ _ _ _ Hr Ho) as [Hs Hf]. subst raw.
  rewrite !list.Forall_cons in Ho. destruct Ho as (? & ? & ? & ? & ? & ? & ? & ? & _).
  unfold utc_frac_ns. rewrite Hs, Hf, u64_id by lia.
  rewrite Z.shiftr_div_pow2 by lia. change (2 ^ 24) with 16777216. repeat split; lia.
Qed.

Lemma utc_ms_rounded_value raw :
  length raw = 8%nat → Forall (λ b, is_u8 b) raw →
  utc_ms_rounded raw = utc_secs raw * 1000 + (utc_frac_ns raw + 500000) / 1000000.
Proof.
  intros Hl Ho. destruct (utc_ranges raw Hl Ho) as (? & ? & _ & ?).
  unfold utc_ms_rounded. apply u64_id. lia.
Qed.

Lemma utc_secs_max s : is_u32 s → 0 <= s <= max_time.
Proof. unfold max_time. lia. Qed.

(** The text of the eight octets of a UtcTime, read back, is its time
    rounded to the nearest millisecond. *)
Theorem goose_utc_text raw :
  length raw = 8%nat → Forall (λ b, is_u8 b) raw →
  parse_time_ms (goose_format_utc_ns raw) = Some (utc_ms_rounded raw).
Proof.
  intros Hl Ho. destruct (utc_ranges raw Hl Ho) as (? & ? & _ & ?).
  unfold goose_format_utc_ns. rewrite format_ns_parse by (by try apply utc_secs_max).
  by rewrite utc_ms_rounded_value.
Qed.

Lemma goose_utc_text_witness :
  parse_time_ms (goose_format_utc_ns [101; 146; 56; 0; 128; 0; 0; 10])
  = Some (utc_ms_rounded [101; 146; 56; 0; 128; 0; 0; 10]).
Proof.
  apply (goose_utc_text [101; 146; 56; 0; 128; 0; 0; 10]); [reflexivity|repeat constructor; lia].
Defined.

(** ** Values

    The typed values of the JSON contract, as data of their own. *)

Inductive gdata : Type :=
| GBoolean (b : bool)
| GInteger (n : Z)
| GUnsigned (n : Z)
| GFloat32 (f : spec_float)
| GFloat64 (d : spec_float)
| GVisible (s : string)
| GMmsString (s : string)
| GOctets (l : list Z)
| GBits (l : list bool)
| GUtc (ms : Z)
| GBinary (ms : Z)
| GArray (l : list gdata)
| GStructure (l : list gdata).

Definition gleaf (d : gdata) : Prop :=
  match d with GArray _ | GStructure _ => False | _ => True end.

Lemma gdata_ind' (P : gdata → Prop) (Hleaf : ∀ d, gleaf d → P d)
    (Ha : ∀ l, Forall P l → P (GArray l)) (Hs : ∀ l, Forall P l → P (GStructure l)) :
  ∀ d, P d.
Proof.
  fix IH 1. intros d. destruct d; try (by apply Hleaf); [apply Ha|apply Hs];
    induction l as [|x l IHl]; constructor; auto.
Qed.

Definition binary_time_ok (ms : Z) : Prop :=
  441763200000 <= ms < 441763200000 + 65536 * 86400000.

(** What the contract can carry: integers of their width, binary32 values,
    octets, lengths of an [int], times in milliseconds the types can hold. *)
Fixpoint gvalid (d : gdata) : Prop :=
  match d with
  | GInteger n => is_i64 n
  | GUnsigned n => is_u32 n
  | GFloat32 f => to_float (to_double f) = f
  | GOctets l => Forall (λ b, is_u8 b) l ∧ Z.of_nat (length l) < 1073741824
  | GBits l => Z.of_nat (length l) < 2147483648
  | GUtc ms => is_u32 (ms / 1000)
  | GBinary ms => binary_time_ok ms
  | GArray l | GStructure l =>
      Z.of_nat (length l) < 2147483648 ∧ fold_right (λ d P, gvalid d ∧ P) True l
  | _ => True
  end.

Fixpoint gdepth (d : gdata) : nat :=
  match d with
  | GArray l | GStructure l => S (fold_right (λ d m, Nat.max (gdepth d) m) 0%nat l)
  | _ => 1
  end.

(** The MMS value of the data. *)
Fixpoint gbuild `{MmsApi} (d : gdata) : MmsValue :=
  match d with
  | GBoolean b => MmsValue_newBoolean b
  | GInteger n => MmsValue_newIntegerFromInt64 n
  | GUnsigned n => MmsValue_newUnsignedFromUint32 n
  | GFloat32 f => MmsValue_newFloat f
  | GFloat64 d => MmsValue_newDouble d
  | GVisible s => MmsValue_newVisibleString s
  | GMmsString s => MmsValue_newMmsString s
  | GOctets l =>
      MmsValue_setOctetString
        (MmsValue_newOctetString (Z.of_nat (length l)) (Z.of_nat (length l))) l
  | GBits l => set_bits 0 (MmsValue_newBitString (Z.of_nat (length l))) l
  | GUtc ms => MmsValue_newUtcTimeByMsTime ms
  | GBinary ms => MmsValue_setBinaryTime MmsValue_newBinaryTime ms
  | GArray l => set_elements 0 (MmsValue_createEmptyArray (Z.of_nat (length l))) (map gbuild l)
  | GStructure l =>
      set_elements 0 (MmsValue_createEmptyStructure (Z.of_nat (length l))) (map gbuild l)
  end.

(** Reading the text of octets and of bits. *)
Lemma hex_octets_text l : Forall (λ b, is_u8 b) l → hex_octets (hex_text l) = Some l.
Proof.
  induction 1 as [|b l Hb Hl IH]; [done|]. simpl hex_text. unfold fmt_02x.
  rewrite fmt_fixed_2. cbn [hex_octets]. unfold hexval. rewrite !hex_value_digit by lia.
  destruct (Z.ltb_spec (b / 16 mod 16) 0); [lia|]. destruct (Z.ltb_spec (b mod 16) 0); [lia|].
  simpl orb. cbv iota. rewrite IH. do 2 f_equal.
  rewrite lor_shiftl by (change (2 ^ 4) with 16; lia). change (2 ^ 4) with 16.
  rewrite u8_id by lia. lia.
Qed.

Lemma slen_hex_text l : slen (hex_text l) = 2 * Z.of_nat (length l).
Proof.
  induction l as [|b l IH]; [done|]. simpl hex_text. rewrite slen_app, IH.
  unfold fmt_02x, slen. rewrite length_fmt_fixed. simpl length. lia.
Qed.

Lemma slen_bit_text l : slen (bit_text l) = Z.of_nat (length l).
Proof. induction l as [|b l IH]; [done|]. simpl bit_text. rewrite slen_cons, IH. simpl length. lia. Qed.

Section values.
Context `{JsonLaws} `{MmsLaws}.

Lemma bits_from_bit_text i v l : bits_from_text i v (bit_text l) = Some (set_bits i v l).
Proof. revert i v. induction l as [|[] l IH]; intros i v; simpl; [done|apply IH..]. Qed.

(** Reading the octets [MmsValue_newUtcTimeByMsTime] stores. *)
Lemma utc_ms_new ms :
  is_u32 (ms / 1000) →
  utc_ms_rounded (MmsValue_getUtcTimeBuffer (MmsValue_newUtcTimeByMsTime ms)) = ms.
Proof.
  intros Hms. destruct (utcBuffer_new ms Hms) as [q Hq].
  pose proof (utcBuffer_octets (MmsValue_newUtcTimeByMsTime ms)) as Ho.
  pose proof (utcBuffer_length (MmsValue_newUtcTimeByMsTime ms)) as Hl.
  rewrite Hq in Ho, Hl |- *. simpl be_octets in Ho, Hl |- *. simpl app in Ho, Hl |- *.
  rewrite utc_ms_rounded_value by done.
  destruct (utc_ranges _ Hl Ho) as (_ & _ & -> & _).
  destruct (utc_octets _ _ _ _ _ _ _ _ _ eq_refl Ho) as [-> ->]. lia.
Qed.

Lemma typed_type t v : json_object_get_type (typed t v) = json_type_object.
Proof. unfold typed. do 2 apply type_object_add. apply type_object. Qed.

Lemma typed_get_type t v :
  json_object_object_get_ex (typed t v) "type" = Some (json_object_new_string t).
Proof. unfold typed. rewrite !get_ex_add by (try apply type_object_add; apply type_object). done. Qed.

Lemma typed_get_value t v : json_object_object_get_ex (typed t v) "value" = Some v.
Proof. unfold typed. rewrite !get_ex_add by (try apply type_object_add; apply type_object). done. Qed.

(** Both loops over the elements, given what they do on each. *)
Lemma elements_to_json_ok rec arr vs js :
  Forall2 (λ v j, rec v = Ret j) vs js →
  elements_to_json rec arr vs = Ret (fold_left json_object_array_add js arr).
Proof. intros Hf. revert arr. induction Hf as [|v j vs js Hv _ IH]; intros arr; simpl; [done|]. by rewrite Hv. Qed.

Lemma elements_from_json_ok rec i v js vs :
  Forall2 (λ j v, rec j = Ret (inr v)) js vs →
  elements_from_json rec i v js = Ret (inr (set_elements i v vs)).
Proof.
  intros Hf. revert i v. induction Hf as [|j w js vs Hj _ IH]; intros i v; simpl; [done|].
  by rewrite Hj, IH.
Qed.

(** The value of a leaf, and of an array or structure whose elements are read back. *)
Lemma leaf_roundtrip d n :
  gleaf d → gvalid d →
  ∃ j, goose_value_to_json (S n) (Some (gbuild d)) = Ret j
       ∧ goose_value_from_json (S n) j = Ret (inr (gbuild d)).
Proof.
  intros Hd Hv.
  destruct d; try done; cbn [goose_value_to_json gbuild gvalid] in *;
    autorewrite with mms; rewrite ?set_bits_type; autorewrite with mms; cbn [Z.eqb Pos.eqb];
    (eexists; split; [reflexivity|]); cbn [goose_value_from_json];
    rewrite (proj2 (is_type_iff _ _) (typed_type _ _)), typed_get_type, typed_get_value,
      get_string_new; simpl; unfold json_object_is_type; autorewrite with json.
    all: rewrite bool_decide_true by reflexivity; cbn [negb andb orb]; autorewrite with json.
  - done.
  - rewrite toInt64_new, get_int64_new by done. done.
  - rewrite toUint32_new, get_int64_new by (lia || done).
    destruct (Z.ltb_spec n0 0), (Z.ltb_spec 4294967295 n0); try lia. simpl.
    by rewrite u32_id.
  - by rewrite Hv.
  - done.
  - done.
  - done.
  - destruct Hv as [Ho Hl]. rewrite octets_set by done. cbn [default from_option id].
    rewrite slen_hex_text, hex_octets_text by done.
    destruct (Z.eqb_spec (2 * Z.of_nat (length l) mod 2) 0); [|lia]. simpl.
    replace (2 * Z.of_nat (length l) / 2) with (Z.of_nat (length l)) by lia.
    by rewrite i32_id by lia.
  - rewrite bits_of_set_bits, slen_bit_text, i32_id by lia. by rewrite bits_from_bit_text.
  - rewrite utc_ms_new by done. by rewrite parse_format_ms by (by apply utc_secs_max).
  - rewrite getBinary_set by done.
    rewrite parse_format_ms by (unfold binary_time_ok, max_time in *; lia). done.
Qed.

(** The elements of an array or structure that are each read back. *)
Definition reads_back (n : nat) (d : gdata) : Prop :=
  ∃ j, goose_value_to_json n (Some (gbuild d)) = Ret j
       ∧ goose_value_from_json n j = Ret (inr (gbuild d)).

Lemma elements_read_back n l :
  Forall (reads_back n) l →
  ∃ js, Forall2 (λ v j, goose_value_to_json n v = Ret j) (Some <$> map gbuild l) js
        ∧ Forall2 (λ j v, goose_value_from_json n j = Ret (inr v)) js (map gbuild l).
Proof.
  induction 1 as [|d l (j & Ht & Hf) _ (js & Hts & Hfs)].
  - exists []. split; constructor.
  - exists (j :: js). split; by constructor.
Qed.

Lemma compound_roundtrip d l n :
  d = GArray l ∨ d = GStructure l → Z.of_nat (length l) < 2147483648 →
  Forall (reads_back n) l → reads_back (S n) d.
Proof.
  intros Hd Hl (js & Ht & Hf)%elements_read_back.
  assert (length js = length l) as Hjs by (by rewrite (Forall2_length Hf), length_map).
  assert (elements_to_json (goose_value_to_json n) json_object_new_array (Some <$> map gbuild l)
          = Ret (json_array_of js)) as Hto by (by apply elements_to_json_ok).
  unfold reads_back. cbn [goose_value_to_json].
  destruct Hd as [-> | ->]; cbn [gbuild]; rewrite set_elements_type; autorewrite with mms;
    (rewrite elements_of_set_elements;
     [|unfold mms_compound; autorewrite with mms; by auto
      |rewrite length_map; first [apply arraySize_newArray|apply arraySize_newStructure]; lia]);
    rewrite Hto; (eexists; split; [reflexivity|]); cbn [goose_value_from_json];
    rewrite (proj2 (is_type_iff _ _) (typed_type _ _)), typed_get_type, typed_get_value,
      get_string_new; simpl;
    rewrite (proj2 (is_type_iff _ _) (array_of_type _)), elements_array_of,
      array_length_elements, elements_array_of, Hjs, i32_id by lia;
    simpl; by apply elements_from_json_ok.
Qed.

(** C7: Every value of the contract (booleans, integers, floats, strings,
    octets, bits, times, arrays and structures, nested) written to typed JSON is
    read back as the same MMS value. *)
Theorem goose_value_roundtrip d n :
  gvalid d → (gdepth d <= n)%nat →
  ∃ j, goose_value_to_json n (Some (gbuild d)) = Ret j
       ∧ goose_value_from_json n j = Ret (inr (gbuild d)).
Proof.
  revert n. induction d as [d Hd|l IH|l IH] using gdata_ind'; intros n Hv Hn.
  - destruct n as [|n]; [destruct d; simpl in Hn; lia|]. by apply leaf_roundtrip.
  - destruct n as [|n]; simpl in Hn; [lia|]. destruct Hv as [Hl Hv].
    apply (compound_roundtrip _ l); [by left|done|].
    induction IH as [|x l Hx IH IHl]; constructor; simpl in *; [apply Hx|apply IHl]; try tauto; lia.
  - destruct n as [|n]; simpl in Hn; [lia|]. destruct Hv as [Hl Hv].
    apply (compound_roundtrip _ l); [by right|done|].
    induction IH as [|x l Hx IH IHl]; constructor; simpl in *; [apply Hx|apply IHl]; try tauto; lia.
Qed.

End values.

Definition sample_data : gdata :=
  GStructure [GBoolean true; GInteger (-5); GArray [GOctets [1; 255]; GBits [true; false]];
              GUtc 1704067201500; GVisible "on"].

Lemma goose_value_roundtrip_witness :
  ∃ j : json, goose_value_to_json 3 (Some (gbuild sample_data)) = Ret j
       ∧ goose_value_from_json 3 j = Ret (inr (gbuild sample_data)).
Proof.
  refine (goose_value_roundtrip sample_data 3 _ _); [|simpl; lia].
  simpl. repeat split; try lia. repeat constructor; lia.
Defined.

(** ** Errors *)

(** The MMS type of the name a typed value gives. *)
Definition named_type (name : string) : option MmsType :=
  if String.eqb name "boolean" then Some MMS_BOOLEAN
  else if String.eqb name "integer" then Some MMS_INTEGER
  else if String.eqb name "unsigned" then Some MMS_UNSIGNED
  else if String.eqb name "float32" || String.eqb name "float64" then Some MMS_FLOAT
  else if String.eqb name "visible-string" then Some MMS_VISIBLE_STRING
  else if String.eqb name "mms-string" then Some MMS_STRING
  else if String.eqb name "octet-string" then Some MMS_OCTET_STRING
  else if String.eqb name "bit-string" then Some MMS_BIT_STRING
  else if String.eqb name "utc-time" then Some MMS_UTC_TIME
  else if String.eqb name "binary-time" then Some MMS_BINARY_TIME
  else if String.eqb name "array" then Some MMS_ARRAY
  else if String.eqb name "structure" then Some MMS_STRUCTURE
  else None.

Lemma json_within_S `{JsonC} n j : json_within n j → json_within (S n) j.
Proof.
  revert j. induction n as [|n IH]; intros j Hw; [done|]. destruct Hw as [Hm Ha].
  split; [intros k c Hc; by apply IH, (Hm k)|intros Ht c Hc; by apply IH, Ha].
Qed.

Lemma json_within_le `{JsonC} n m j : (n <= m)%nat → json_within n j → json_within m j.
Proof. induction 1; auto using json_within_S. Qed.

Section errors.
Context `{JsonLaws} `{MmsLaws}.

(** A null ["type"] member, at the top or in an element on the way down. *)
Inductive null_type : json → Prop :=
| null_type_here j jt :
    json_object_object_get_ex j "type" = Some jt → json_object_get_string jt = None → null_type j
| null_type_element j jv c :
    json_object_object_get_ex j "value" = Some jv → c ∈ json_elements jv → null_type c →
    null_type j.

Lemma elements_from_json_type rec i v l w :
  elements_from_json rec i v l = Ret (inr w) → MmsValue_getType w = MmsValue_getType v.
Proof.
  revert i v. induction l as [|j l IH]; intros i v Hw; simpl in Hw; [congruence|].
  destruct (rec j) as [[e|c]| |]; try done. rewrite (IH _ _ Hw). apply type_setElement.
Qed.

Lemma elements_from_json_total rec i v l :
  (∀ c, c ∈ l → (∃ r, rec c = Ret r) ∨ null_type c) →
  (∃ r, elements_from_json rec i v l = Ret r) ∨ ∃ c, c ∈ l ∧ null_type c.
Proof.
  revert i v. induction l as [|j l IH]; intros i v Hl; simpl; [by eauto|].
  destruct (Hl j) as [[[e|c] ->]|Hn]; [by left| | |].
  - left. eauto.
  - destruct (IH (i + 1) (MmsValue_setElement v i c)) as [?|(c' & Hc & ?)]; [|by left|].
    + intros c' Hc. apply Hl. by right.
    + right. exists c'. split; [by right|done].
  - right. exists j. split; [by left|done].
Qed.

Lemma bits_from_text_type i v s w :
  bits_from_text i v s = Some w → MmsValue_getType w = MmsValue_getType v.
Proof.
  revert i v. induction s as [|c s IH]; intros i v Hw; simpl in Hw; [congruence|].
  destruct (_ || _); [|done]. rewrite (IH _ _ Hw). apply type_setBit.
Qed.

(** Case analysis on the tests of the reader, in hypothesis [H]. *)
Ltac reader_cases H :=
  repeat (match type of H with
    | context [if ?b then _ else _] => let E := fresh "E" in destruct b eqn:E
    | context [match ?o with Some _ => _ | None => _ end] =>
        let E := fresh "E" in destruct o eqn:E
    end; try discriminate H).

(** A value read from typed JSON has the MMS type its type name names. *)
Theorem goose_value_type n j v :
  goose_value_from_json n j = Ret (inr v) →
  ∃ jt name, json_object_object_get_ex j "type" = Some jt
             ∧ json_object_get_string jt = Some name
             ∧ named_type name = Some (MmsValue_getType v).
Proof.
  destruct n as [|n]; [done|]. cbn [goose_value_from_json]. intros Hv.
  destruct (negb _); [done|].
  destruct (json_object_object_get_ex j "type") as [jt|]; [|done].
  destruct (json_object_object_get_ex j "value") as [jv|]; [|done].
  destruct (json_object_get_string jt) as [name|] eqn:Hname; [|done].
  exists jt, name. repeat (split; [done|]). unfold named_type.
  reader_cases Hv;
    repeat match goal with E : (_ || _)%bool = true |- _ => apply orb_true_iff in E as [E|E] end;
    bool_hyps; subst; try congruence; simpl; f_equal.
  all: try match goal with
    | H : elements_from_json _ _ _ _ = _ |- _ => rewrite (elements_from_json_type _ _ _ _ _ H)
    | H : bits_from_text _ _ _ = _ |- _ => apply bits_from_text_type in H
    end.
  all: try injection Hv as Hv; subst; symmetry;
    try match goal with H : MmsValue_getType _ = _ |- _ => rewrite H end;
    autorewrite with mms; done.
Qed.

Lemma value_no_crash n j :
  json_within n j →
  (∃ r, goose_value_from_json n j = Ret r) ∨ null_type j.
Proof.
  revert j. induction n as [|n IH]; intros j Hw; [done|]. destruct Hw as [Hm Ha].
  cbn [goose_value_from_json].
  destruct (negb _); [by eauto|].
  destruct (json_object_object_get_ex j "type") as [jt|] eqn:Et; [|by eauto].
  destruct (json_object_object_get_ex j "value") as [jv|] eqn:Ev; [|by eauto].
  destruct (json_object_get_string jt) as [name|] eqn:Hname;
    [|by right; apply (null_type_here j jt)].
  assert (json_object_is_type jv json_type_string = true → json_object_get_string jv ≠ None) as Hs.
  { intros Hs%is_type_iff Hnull%get_string_null. congruence. }
  assert (json_object_is_type jv json_type_array = true → ∀ v,
    (∃ r, elements_from_json (goose_value_from_json n) 0 v (json_elements jv) = Ret r)
    ∨ null_type j) as Hall.
  { intros Hjv%is_type_iff v.
    destruct (elements_from_json_total (goose_value_from_json n) 0 v (json_elements jv))
      as [?|(c & Hc & ?)]; [|by left|right; by apply (null_type_element j jv c)].
    intros c Hc. apply IH. destruct n as [|n]; [by destruct (Hm _ _ Ev)|].
    by apply json_within_S, (Hm _ _ Ev). }
  repeat (case_match; try by eauto); bool_hyps; [exfalso; by apply Hs..|by apply Hall|by apply Hall].
Qed.

(** C33: The reader of typed JSON returns, a value or an error, on every
    document of bounded depth, unless the document has a null where a type name
    belongs. *)
Theorem goose_value_total n j :
  json_within n j →
  (∃ r, goose_value_from_json n j = Ret r) ∨ null_type j.
Proof. apply value_no_crash. Qed.

(** The same for the list of values of a command. *)
Lemma values_no_crash n a :
  json_within (S n) a →
  (∃ r, goose_values_from_json n (Some a) = Ret r) ∨ ∃ c, c ∈ json_elements a ∧ null_type c.
Proof.
  intros [_ Ha]. unfold goose_values_from_json.
  destruct (json_object_is_type a json_type_array) eqn:Ht; [|by eauto].
  apply is_type_iff in Ht. specialize (Ha Ht). revert Ha. generalize (@nil MmsValue).
  induction (json_elements a) as [|j l IH]; intros acc Ha; simpl; [by eauto|].
  destruct (value_no_crash n j) as [[[e|v] ->]|Hn]; [apply Ha; by left|by eauto| |].
  - destruct (IH (acc ++ [v])) as [?|(c & Hc & ?)]; [|by left|].
    + intros c Hc. apply Ha. by right.
    + right. exists c. split; [by right|done].
  - right. exists j. split; [by left|done].
Qed.

(** A null ["type"] is read by [strcmp]. *)
Lemma goose_value_null_type n j jt jv :
  json_object_get_type j = json_type_object →
  json_object_object_get_ex j "type" = Some jt → json_object_object_get_ex j "value" = Some jv →
  json_object_get_string jt = None → goose_value_from_json (S n) j = Undef.
Proof.
  intros Hj Ht Hv Hn. cbn [goose_value_from_json].
  by rewrite (proj2 (is_type_iff _ _) Hj), Ht, Hv, Hn.
Qed.

End errors.

Lemma goose_value_type_witness :
  goose_value_from_json 2 (typed "float32" (RDouble (S754_zero false) "0.0"))
    = Ret (inr (MmsValue_newFloat (S754_zero false)))
  ∧ ∃ jt name, json_object_object_get_ex (typed "float32" (RDouble (S754_zero false) "0.0")) "type" = Some jt
      ∧ json_object_get_string jt = Some name
      ∧ named_type name = Some (MmsValue_getType (MmsValue_newFloat (S754_zero false))).
Proof.
  split; [reflexivity|].
  refine (goose_value_type 2 (typed "float32" (RDouble (S754_zero false) "0.0")) _ _). reflexivity.
Defined.

Lemma goose_value_total_witness :
  (∃ r, goose_value_from_json 2 (RString "x") = Ret r) ∨ null_type (RString "x").
Proof.
  refine (goose_value_total 2 (RString "x") _). split; [discriminate|intros; discriminate].
Defined.

(** ** The text of a float32 *)

Definition reads_as (q : Z) (f : spec_float) : bool :=
  SFeqb (to_float (strtod (fmt_g q (to_double f)))) f.

Lemma shortest_text_spec n prec buf f :
  (0 < n)%nat →
  ∃ p, prec <= p < prec + Z.of_nat n ∧ shortest_text n prec buf f = fmt_g p (to_double f)
       ∧ (∀ q, prec <= q < p → reads_as q f = false)
       ∧ (p < prec + Z.of_nat n - 1 → reads_as p f = true).
Proof.
  revert prec buf. induction n as [|n IH]; intros prec buf Hn; [lia|]. cbn [shortest_text].
  change (SFeqb _ f) with (reads_as prec f). destruct (reads_as prec f) eqn:E.
  - exists prec. repeat split; try done; lia.
  - destruct n as [|n].
    + exists prec. repeat split; try done; lia.
    + destruct (IH (prec + 1) (fmt_g prec (to_double f))) as (p & Hp & -> & Hq & Hlast); [lia|].
      exists p. repeat split; try lia.
      * intros q Hq'. destruct (decide (q = prec)) as [->|]; [done|]. apply Hq. lia.
      * intros ?. apply Hlast. lia.
Qed.

(** The text of a float32 has the least precision, of at most nine digits,
    whose text reads back as the same float32. *)
Theorem goose_float32_shortest f :
  ∃ p, 1 <= p <= 9 ∧ shortest_text 9 1 "" f = fmt_g p (to_double f)
       ∧ (∀ q, 1 <= q < p → reads_as q f = false) ∧ (p < 9 → reads_as p f = true).
Proof.
  destruct (shortest_text_spec 9 1 "" f) as (p & Hp & Ht & Hq & Hl); [lia|].
  exists p. repeat split; try done; lia.
Qed.
