(* ===== verification/SvCommon.v ===== *)
(** * sv_common.c

    What the Sampled Values adapters share: the table of the member types, the
    names of smpMod, the 13-bit quality, the nanosecond texts and the ready
    event.  A quality read from the wire and written back is the same word. *)

From Stdlib Require Import ZArith Lia String Ascii SpecFloat.
From stdpp Require Import base tactics list strings numbers option.
From S2P Require Import Prelude CText Civil Json Mms RefMms GooseCommon GooseCommonSpec.

Local Open Scope Z_scope.

(** seqData member types. *)
Inductive SvType : Set :=
| SV_INT32
| SV_INT32U
| SV_FLOAT32
| SV_FLOAT64
| SV_BOOLEAN
| SV_QUALITY
| SV_TIMESTAMP.

#[export] Instance SvType_eq_dec : EqDecision SvType.
Proof. solve_decision. Defined.

Definition k_types : list (string * SvType * Z) :=
  [ ("integer", SV_INT32, 4); ("unsigned", SV_INT32U, 4); ("float32", SV_FLOAT32, 4);
    ("float64", SV_FLOAT64, 8); ("boolean", SV_BOOLEAN, 1); ("bit-string", SV_QUALITY, 4);
    ("utc-time", SV_TIMESTAMP, 8) ].

Definition sv_type_from_name (name : string) : option SvType :=
  (λ '(_, t, _), t) <$> find (λ '(n, _, _), String.eqb name n) k_types.

Definition sv_type_size (t : SvType) : Z :=
  match find (λ '(_, t', _), bool_decide (t' = t)) k_types with
  | Some (_, _, size) => size
  | None => 0
  end.

Definition k_smp_mods : list string :=
  ["samples-per-period"; "samples-per-second"; "seconds-per-sample"].

(** The index the loop over [k_smp_mods] stops at. *)
Fixpoint index_of (name : string) (i : Z) (l : list string) : option Z :=
  match l with
  | [] => None
  | n :: l' => if String.eqb name n then Some i else index_of name (i + 1) l'
  end.

Definition sv_smp_mod_from_name (name : string) : option Z := index_of name 0 k_smp_mods.

Definition sv_smp_mod_name (v : Z) : option string :=
  if v <? 3 then k_smp_mods !! Z.to_nat v else None.

Section quality.
Context `{MmsApi}.

Definition sv_quality_from_value (bits : MmsValue) : Z :=
  fold_left (λ q i, if MmsValue_getBitStringBit bits i then Z.lor q (u16 (Z.shiftl 1 i)) else q)
    (range (Z.min (MmsValue_getBitStringSize bits) 13)) 0.

Definition sv_quality_to_value (word : Z) : MmsValue :=
  fold_left (λ v i, MmsValue_setBitStringBit v i (negb (Z.land (Z.shiftr word i) 1 =? 0)))
    (range 13) (MmsValue_newBitString 13).

End quality.

Definition sv_format_ns (ns : Z) : string := format_ns (ns / 1000000000) (ns mod 1000000000).

Definition SV_FIXTURE_REVISION : string := "sv-v1".

Definition sv_emit_ready `{JsonC} (version : option string) (role iface : string) (src : list Z)
    (sv_id : option string) (out : list string) : list string :=
  goose_emit (json_event
    ([ ("event", json_object_new_string "ready");
       ("address", json_object_new_string iface);
       ("fixture", json_object_new_string SV_FIXTURE_REVISION);
       ("adapter", json_object_new_string "libiec61850");
       ("version", json_object_new_string (default "dev" version));
       ("role", json_object_new_string role);
       ("iface", json_object_new_string iface);
       ("src", json_object_new_string (goose_format_mac src)) ] ++
     match sv_id with
     | Some r => if String.eqb r "" then [] else [("svID", json_object_new_string r)]
     | None => []
     end)) out.

(** ** Facts *)

Lemma sv_type_size_pos t : 1 <= sv_type_size t <= 8.
Proof. by destruct t. Qed.

Section facts.
Context `{MmsLaws}.

Lemma quality_to_value_bits word :
  sv_quality_to_value word
  = set_bits 0 (MmsValue_newBitString (Z.of_nat (length (Z.testbit word <$> range 13))))
      (Z.testbit word <$> range 13).
Proof.
  assert (∀ i, negb (Z.land (Z.shiftr word i) 1 =? 0) = Z.testbit word i) as Hb.
  { intros i. rewrite (Z.land_ones _ 1) by lia. change (2 ^ 1) with 2.
    rewrite Zmod_odd, <- Z.bit0_odd. rewrite Z.shiftr_spec by lia. rewrite Z.add_0_l.
    by destruct (Z.testbit word i). }
  unfold sv_quality_to_value. simpl. by rewrite !Hb.
Qed.

(** Bits collected from the least significant one up. *)
Lemma fold_bits_testbit (f : Z → bool) l q k :
  0 <= k → Forall (λ i, 0 <= i < 16) l →
  Z.testbit (fold_left (λ q i, if f i then Z.lor q (u16 (Z.shiftl 1 i)) else q) l q) k
  = Z.testbit q k || existsb (λ i, (i =? k) && f i) l.
Proof.
  intros Hk. revert q. induction l as [|i l IH]; intros q Hl; simpl; [by rewrite orb_false_r|].
  apply list.Forall_cons in Hl as [Hi Hl]. rewrite IH by done.
  assert (u16 (Z.shiftl 1 i) = 2 ^ i) as Hu.
  { rewrite Z.shiftl_mul_pow2, Z.mul_1_l by lia. apply u16_id.
    assert (2 ^ i < 2 ^ 16) by (apply Z.pow_lt_mono_r; lia).
    assert (0 < 2 ^ i) by (apply Z.pow_pos_nonneg; lia). change (2 ^ 16) with 65536 in *. lia. }
  destruct (f i) eqn:E.
  - rewrite Hu, Z.lor_spec, Z.pow2_bits_eqb by lia. by rewrite andb_true_r, orb_assoc.
  - by rewrite andb_false_r.
Qed.

Lemma quality_get_bit word i :
  0 <= i < 13 →
  MmsValue_getBitStringBit (sv_quality_to_value word) i = Z.testbit word i.
Proof.
  intros Hi. rewrite quality_to_value_bits.
  rewrite set_bits_get; rewrite ?type_newBitString, ?bitSize_new; try done; try lia.
  destruct (Z.leb_spec 0 i); [|lia]. rewrite Z.sub_0_r, list_lookup_fmap.
  unfold range. rewrite lookup_seqZ_lt by lia. simpl. f_equal. lia.
Qed.

(** A quality word written as a bit string and read back keeps its 13 bits. *)
Theorem sv_quality_roundtrip word :
  sv_quality_from_value (sv_quality_to_value word) = word mod 8192.
Proof.
  assert (MmsValue_getBitStringSize (sv_quality_to_value word) = 13) as Hsz.
  { rewrite quality_to_value_bits, set_bits_size, bitSize_new; done. }
  unfold sv_quality_from_value. rewrite Hsz. change 8192 with (2 ^ 13).
  apply Z.bits_inj'. intros k Hk.
  rewrite fold_bits_testbit; [|done|by repeat constructor].
  rewrite Z.bits_0, orb_false_l. destruct (Z.ltb_spec k 13).
  - rewrite Z.mod_pow2_bits_low by lia. apply eq_true_iff_eq. rewrite existsb_exists. split.
    + intros (i & Hi & [->%Z.eqb_eq Hb]%andb_true_iff).
      by rewrite quality_get_bit in Hb by lia.
    + intros Hb. exists k. split.
      * apply list_elem_of_In, elem_of_seqZ. lia.
      * by rewrite Z.eqb_refl, quality_get_bit by lia.
  - rewrite Z.mod_pow2_bits_high by lia. apply existsb_false_iff. intros i Hi%elem_of_seqZ.
    destruct (Z.eqb_spec i k); [lia|done].
Qed.

End facts.

Lemma sv_quality_roundtrip_witness :
  sv_quality_from_value (sv_quality_to_value 4294967295) = 4294967295 mod 8192.
Proof. apply (sv_quality_roundtrip 4294967295). Defined.

(** The two directions of the smpMod names. *)
Theorem sv_smp_mod_names name v :
  sv_smp_mod_from_name name = Some v ↔ 0 <= v ∧ sv_smp_mod_name v = Some name.
Proof.
  unfold sv_smp_mod_from_name, sv_smp_mod_name, k_smp_mods. simpl index_of. split.
  - intros Hn. repeat case_match; bool_hyps; simplify_eq; done.
  - intros [Hv Hn]. destruct (Z.ltb_spec v 3); [|done].
    assert (v = 0 ∨ v = 1 ∨ v = 2) as [-> | [-> | ->]] by lia; simpl in Hn; by simplify_eq.
Qed.

(** Every member type has exactly one name, and its table size is its width. *)
Theorem sv_types_table t :
  ∃ name, (∀ name', sv_type_from_name name' = Some t ↔ name' = name)
          ∧ sv_type_size t = match t with
                             | SV_FLOAT64 | SV_TIMESTAMP => 8
                             | SV_BOOLEAN => 1
                             | _ => 4
                             end.
Proof.
  exists (match t with
          | SV_INT32 => "integer" | SV_INT32U => "unsigned" | SV_FLOAT32 => "float32"
          | SV_FLOAT64 => "float64" | SV_BOOLEAN => "boolean" | SV_QUALITY => "bit-string"
          | SV_TIMESTAMP => "utc-time" end).
  split; [|by destruct t]. intros name'. split; [|intros ->; by destruct t].
  unfold sv_type_from_name, k_types. simpl find.
  intros Hn. repeat case_match; bool_hyps; simplify_eq; done.
Qed.

(** The text of a time in nanoseconds names that time, to the millisecond. *)
Theorem sv_time_text ns :
  is_u64 ns → parse_time_ms (sv_format_ns ns) = Some ((ns + 500000) / 1000000).
Proof.
  intros Hns. unfold sv_format_ns. change (10 ^ 9) with 1000000000.
  rewrite format_ns_parse by (unfold max_time; change (10 ^ 9) with 1000000000; lia).
  f_equal. lia.
Qed.

Lemma sv_time_text_witness :
  parse_time_ms (sv_format_ns 1704067200123456789) = Some ((1704067200123456789 + 500000) / 1000000).
Proof. apply (sv_time_text 1704067200123456789). lia. Defined.
