(* ===== verification/L2Frame.v ===== *)
(** * Ethernet frames

    The checks on a received frame the two subscribers make before they hand
    it to libiec61850 (the receive loops of goose_subscriber.c and
    sv_subscriber.c, which differ in the EtherType).  An octet is read at an
    index that must be in the frame: a read outside is [Undef]. *)

From Stdlib Require Import ZArith Lia String Ascii.
From stdpp Require Import base tactics list strings numbers option.
From S2P Require Import Prelude CText GooseCommon.

Local Open Scope Z_scope.
Local Open Scope c_scope.

(** The Edition 2 S bit: the top bit of octet 4 of the APDU. *)
Definition GOOSE_SIM_OCTET : nat := 4.
Definition GOOSE_SIM_MASK : Z := 128.

(** [frame[i]] *)
Definition at_index (frame : list Z) (i : Z) : res Z :=
  if i <? 0 then Undef else res_of_option (frame !! Z.to_nat i).

(** The [n] octets from [i] on, as [memcmp] and [memcpy] read them. *)
Definition slice (frame : list Z) (i n : nat) : res (list Z) :=
  if (length frame <? i + n)%nat then Undef else Ret (firstn n (skipn i frame)).

(** The Ethernet header of the frame being decoded, its APPID and the offset of
    the APPID. *)
Record header := {
  g_dst : list Z;
  g_src : list Z;
  g_app_id : Z;
  g_simulation : bool;
  g_hdr : Z
}.

(** The checks of the receive loop; [None] for a frame that is skipped.
    [low] is the second octet of the EtherType, [app_id] and [dst] are the
    filters given. *)
Definition l2_header (low : Z) (app_id : option Z) (dst : option (list Z)) (frame : list Z)
  : res (option header) :=
  let n := Z.of_nat (length frame) in
  if n <? 14 then Ret None else
  let* b12 := at_index frame 12 in
  let* b13 := at_index frame 13 in
  let off := if (b12 =? 129) && (b13 =? 0) then 16 else 12 in
  if n <? off + 10 then Ret None else
  let* t0 := at_index frame off in
  let* t1 := at_index frame (off + 1) in
  if negb (t0 =? 136) || negb (t1 =? low) then Ret None else
  let hdr := off + 2 in
  let* a0 := at_index frame hdr in
  let* a1 := at_index frame (hdr + 1) in
  let frame_app_id := u16 (Z.lor (Z.shiftl a0 8) a1) in
  if match app_id with Some a => negb (frame_app_id =? a) | None => false end then Ret None else
  let* other := match dst with
                | Some d => let* m := slice frame 0 6 in Ret (negb (bool_decide (m = d)))
                | None => Ret false
                end in
  if other : bool then Ret None else
  let* to := slice frame 0 6 in
  let* from := slice frame 6 6 in
  let* flags := at_index frame (hdr + Z.of_nat GOOSE_SIM_OCTET) in
  Ret (Some {| g_dst := to; g_src := from;
               g_app_id := frame_app_id;
               g_simulation := negb (Z.land flags GOOSE_SIM_MASK =? 0); g_hdr := hdr |}).

(** ** Facts *)

Lemma at_index_ok frame i :
  0 <= i < Z.of_nat (length frame) → at_index frame i = Ret (octet frame (Z.to_nat i)).
Proof.
  intros Hi. unfold at_index, octet. destruct (Z.ltb_spec i 0); [lia|].
  destruct (lookup_lt_is_Some_2 frame (Z.to_nat i)) as [b ->]; [lia|done].
Qed.

Lemma slice_ok frame i n :
  (i + n <= length frame)%nat → slice frame i n = Ret (firstn n (skipn i frame)).
Proof. intros Hi. unfold slice. destruct (Nat.ltb_spec (length frame) (i + n)); [lia|done]. Qed.

(** Runs of octets that agree. *)
Lemma take_octets n k k' l l' :
  (k + n <= length l)%nat → (k' + n <= length l')%nat →
  (∀ i, (i < n)%nat → octet l (k + i) = octet l' (k' + i)) →
  take n (drop k l) = take n (drop k' l').
Proof.
  intros Hl Hl' Ho. apply list_eq. intros i. destruct (decide (i < n)%nat) as [Hi|Hi].
  - specialize (Ho i Hi). unfold octet in Ho. rewrite !lookup_take_lt, !lookup_drop by done.
    destruct (lookup_lt_is_Some_2 l (k + i)) as [a Ha]; [lia|].
    destruct (lookup_lt_is_Some_2 l' (k' + i)) as [b Hb]; [lia|].
    rewrite Ha, Hb in *. simpl in Ho. congruence.
  - by rewrite !lookup_take_ge by lia.
Qed.

Lemma sim_bit_set x : (Z.land (Z.lor x GOOSE_SIM_MASK) GOOSE_SIM_MASK =? 0) = false.
Proof.
  rewrite Z.land_lor_distr_l, Z.land_diag. apply Z.eqb_neq. intros [_ ?]%Z.lor_eq_0_iff. done.
Qed.

(** An accepted frame has the EtherType and room for the header, and passes
    the filters. *)
Lemma l2_header_some low app_id dst frame h :
  l2_header low app_id dst frame = Ret (Some h) →
  (g_hdr h = 14 ∨ g_hdr h = 18) ∧ g_hdr h + 8 <= Z.of_nat (length frame)
  ∧ octet frame (Z.to_nat (g_hdr h - 2)) = 136 ∧ octet frame (Z.to_nat (g_hdr h - 1)) = low
  ∧ g_dst h = firstn 6 frame ∧ (∀ a, app_id = Some a → g_app_id h = a)
  ∧ (∀ d, dst = Some d → g_dst h = d).
Proof.
  unfold l2_header. cbv zeta. destruct (Z.ltb_spec (Z.of_nat (length frame)) 14); [done|].
  rewrite !at_index_ok by lia. cbn [res_bind].
  set (off := if _ && _ then 16 else 12).
  assert (off = 12 ∨ off = 16) as Hoff by (subst off; destruct (_ && _); lia). clearbody off.
  destruct (Z.ltb_spec (Z.of_nat (length frame)) (off + 10)); [done|].
  unfold GOOSE_SIM_OCTET. rewrite !at_index_ok by lia. cbn [res_bind].
  destruct (_ || _) eqn:Et; [done|]. bool_hyps.
  destruct (match app_id with Some _ => _ | None => _ end) eqn:Ea; [done|].
  rewrite !slice_ok by lia. cbn [res_bind]. rewrite drop_0.
  destruct (match dst with Some _ => _ | None => _ end) as [[]| |] eqn:Ed; [done| |done..].
  cbn [res_bind]. intros [= <-]. simpl. split; [lia|]. split; [lia|].
  replace (off + 2 - 2) with off by lia. replace (off + 2 - 1) with (off + 1) by lia.
  split; [done|]. split; [done|]. split; [done|]. split.
  - intros a ->. bool_hyps. done.
  - intros d ->. cbn [res_bind] in Ed. injection Ed as Ed. bool_hyps. by apply bool_decide_eq_true in Ed.
Qed.

Lemma l2_header_total low app_id dst frame : ∃ r, l2_header low app_id dst frame = Ret r.
Proof.
  unfold l2_header. cbv zeta. destruct (Z.ltb_spec (Z.of_nat (length frame)) 14); [by eauto|].
  rewrite !at_index_ok by lia. cbn [res_bind].
  set (off := if _ && _ then 16 else 12). assert (12 <= off <= 16) by (subst off; by destruct (_ && _)).
  destruct (Z.ltb_spec (Z.of_nat (length frame)) (off + 10)); [by eauto|].
  unfold GOOSE_SIM_OCTET. rewrite !at_index_ok by lia. rewrite !slice_ok by lia. cbn [res_bind].
  destruct (_ || _); [by eauto|]. destruct (match app_id with Some _ => _ | None => _ end); [by eauto|].
  destruct dst as [d|]; cbn [res_bind]; [|by eauto]. destruct (negb _); by eauto.
Qed.

(** An accepted frame has the EtherType at the place the tag leaves it, room
    for the header, and passes the filters. *)
Theorem l2_header_accepts low app_id dst frame h :
  l2_header low app_id dst frame = Ret (Some h) →
  (g_hdr h = 14 ∨ g_hdr h = 18) ∧ g_hdr h + 8 <= Z.of_nat (length frame)
  ∧ octet frame (Z.to_nat (g_hdr h - 2)) = 136 ∧ octet frame (Z.to_nat (g_hdr h - 1)) = low
  ∧ g_dst h = firstn 6 frame ∧ (∀ a, app_id = Some a → g_app_id h = a)
  ∧ (∀ d, dst = Some d → g_dst h = d).
Proof. apply l2_header_some. Qed.

(** A tagged frame with EtherType 0x88b8 and APPID 0x1000. *)
Definition sample_frame : list Z :=
  replicate 6 1 ++ replicate 6 2 ++ [129; 0; 128; 0; 136; 184; 16; 0] ++ replicate 8 0.

Lemma l2_header_accepts_witness :
  ∃ h, l2_header 184 (Some 4096) None sample_frame = Ret (Some h)
  ∧ (g_hdr h = 14 ∨ g_hdr h = 18) ∧ g_hdr h + 8 <= Z.of_nat (length sample_frame)
  ∧ octet sample_frame (Z.to_nat (g_hdr h - 2)) = 136
  ∧ octet sample_frame (Z.to_nat (g_hdr h - 1)) = 184
  ∧ g_dst h = firstn 6 sample_frame ∧ (∀ a, Some 4096 = Some a → g_app_id h = a)
  ∧ (∀ d, None = Some d → g_dst h = d).
Proof.
  eexists. split; [reflexivity|].
  apply (l2_header_accepts 184 (Some 4096) None sample_frame). reflexivity.
Defined.
