(* ===== verification/StdinLines.v ===== *)
(** * Lines from standard input

    The line assembler the two publishers share (the bodies of the [select]
    loops of goose_publisher.c and sv_publisher.c): chunks of octets are
    appended to a buffer of 65536, every complete line is handed to
    [handle_line], the unfinished rest is kept.  The program
    reads until a line has stopped it and handles the rest of that read: how
    the text was cut matters only for which lines come in that read.  The
    buffer never overflows. *)

From Stdlib Require Import ZArith Lia String Ascii.
From stdpp Require Import base tactics list strings numbers option.
From S2P Require Import Prelude CText.

Local Open Scope Z_scope.

Definition nl : ascii := "010"%char.
Definition nul : ascii := "000"%char.

(** [sizeof(line) - 1] *)
Definition line_max : Z := 65535.

(** The C string at the start of octets that may hold a NUL. *)
Definition until_nul (s : string) : string :=
  match strchr nul s with Some (a, _) => a | None => s end.

Section assembler.
Context {St : Type} (handle : St → string → St * bool) (too_long : St → St).

(** What the loop keeps: the unfinished line, [g_running] and the rest of the
    program's state. *)
Record stdin_state := StdinState { pending : string; running : bool; program : St }.

(** [if ( *start && !handle_line(&p, start)) g_running = 0;] *)
Definition deliver (s : St * bool) (line : string) : St * bool :=
  let '(st, run) := s in
  if String.eqb line "" then (st, run)
  else let '(st, keep) := handle st line in (st, if keep then run else false).

(** [while ((nl = strchr(start, '\n')) != NULL)] *)
Fixpoint run_lines (fuel : nat) (s : St * bool) (start : string) : St * bool * string :=
  match fuel with
  | O => (s, start)
  | S fuel =>
      match strchr nl start with
      | None => (s, start)
      | Some (line, rest) => run_lines fuel (deliver s line) rest
      end
  end.

(** The octets of one [read]. *)
Definition stdin_chunk (s : stdin_state) (chunk : string) : stdin_state :=
  let text := until_nul (pending s +:+ chunk) in
  let '((st, run), rest) :=
    run_lines (S (String.length text)) (program s, running s) text in
  if slen rest =? line_max
  then StdinState "" run (too_long st)
  else StdinState rest run st.

(** The loop over the reads: no read after the flag was cleared. *)
Fixpoint read_chunks (s : stdin_state) (chunks : list string) : stdin_state :=
  match chunks with
  | [] => s
  | c :: chunks => if running s then read_chunks (stdin_chunk s c) chunks else s
  end.

(** ** The lines of a text *)

(** The complete lines and the unfinished one. *)
Fixpoint split_lines (s : string) : list string * string :=
  match s with
  | EmptyString => ([], "")
  | String c s' =>
      let '(ls, r) := split_lines s' in
      if Ascii.eqb c nl then (EmptyString :: ls, r)
      else match ls with
           | [] => ([], String c r)
           | l :: ls' => (String c l :: ls', r)
           end
  end.

(** No line, finished or not, fills the buffer. *)
Definition short_lines (s : string) : Prop :=
  Forall (λ l, slen l < line_max) ((split_lines s).1 ++ [(split_lines s).2]).

Lemma strchr_length c s a b :
  strchr c s = Some (a, b) → (String.length s = String.length a + S (String.length b))%nat.
Proof.
  revert a. induction s as [|d s IH]; intros a Hs; [done|]. simpl in Hs.
  destruct (Ascii.eqb d c); [by simplify_eq|].
  destruct (strchr c s) as [[a' b']|]; [|done]. simplify_eq. simpl. by rewrite (IH a').
Qed.

Lemma split_lines_strchr s :
  split_lines s = match strchr nl s with
                  | Some (l, r) => (l :: (split_lines r).1, (split_lines r).2)
                  | None => ([], s)
                  end.
Proof.
  induction s as [|c s IH]; [done|]. simpl. destruct (Ascii.eqb c nl) eqn:E.
  - by destruct (split_lines s).
  - rewrite IH. by destruct (strchr nl s) as [[l r]|].
Qed.

(** The loop hands over the lines in order and stops at the unfinished one:
    the fuel, one more than the length, is enough. *)
Lemma run_lines_split fuel s text :
  (String.length text < fuel)%nat →
  run_lines fuel s text = (fold_left deliver (split_lines text).1 s, (split_lines text).2).
Proof.
  revert s text. induction fuel as [|fuel IH]; intros s text Hf; [lia|].
  simpl run_lines. rewrite split_lines_strchr.
  destruct (strchr nl text) as [[l r]|] eqn:E; [|done].
  apply strchr_length in E. rewrite IH by lia. done.
Qed.

Lemma split_lines_app a b :
  split_lines (a +:+ b)
  = ((split_lines a).1 ++ (split_lines ((split_lines a).2 +:+ b)).1,
     (split_lines ((split_lines a).2 +:+ b)).2).
Proof.
  induction a as [|c a IH].
  - simpl. rewrite string_app_nil_l. by destruct (split_lines b).
  - rewrite string_app_cons. simpl. rewrite IH. destruct (split_lines a) as [la ra]. simpl.
    destruct (Ascii.eqb c nl) eqn:E; [done|]. destruct la as [|l la]; [|done]. simpl.
    rewrite E. by destruct (split_lines (ra +:+ b)) as [[|l lb] rb].
Qed.

(** The unfinished line is the start of the next one. *)
Lemma split_lines_grow r b :
  (split_lines r).1 = [] →
  ∃ x l, head ((split_lines (r +:+ b)).1 ++ [(split_lines (r +:+ b)).2]) = Some l
         ∧ l = (split_lines r).2 +:+ x.
Proof.
  induction r as [|c r IH]; intros Hr.
  - rewrite string_app_nil_l. simpl. destruct (split_lines b) as [[|l ls] rb]; simpl; eauto.
  - rewrite string_app_cons. simpl in Hr |- *. destruct (split_lines r) as [lr rr]. simpl in *.
    destruct (Ascii.eqb c nl) eqn:E; [done|]. destruct lr; [|done]. simpl in *.
    destruct (IH eq_refl) as (x & l & Hl & ->). destruct (split_lines (r +:+ b)) as [lb rb].
    exists x. destruct lb as [|l lb]; simpl in *; simplify_eq; eauto.
Qed.

Lemma split_lines_rest s : split_lines (split_lines s).2 = ([], (split_lines s).2).
Proof.
  induction s as [|c s IH]; [done|]. simpl. destruct (split_lines s) as [ls r]. simpl in *.
  destruct (Ascii.eqb c nl) eqn:E; [done|]. destruct ls; [|done]. simpl. by rewrite IH, E.
Qed.

Lemma split_lines_none s : (split_lines s).1 = [] → (split_lines s).2 = s.
Proof.
  induction s as [|c s IH]; [done|]. simpl. destruct (split_lines s) as [ls r]. simpl in *.
  destruct (Ascii.eqb c nl); [done|]. destruct ls; [|done]. simpl. intros _. by rewrite IH.
Qed.

Lemma short_lines_prefix a b : short_lines (a +:+ b) → slen (split_lines a).2 < line_max.
Proof.
  unfold short_lines. rewrite split_lines_app. cbn [fst snd]. rewrite <- app_assoc.
  intros [_ Hl]%Forall_app.
  destruct (split_lines_grow (split_lines a).2 b) as (x & l & Hh & ->); [by rewrite split_lines_rest|].
  rewrite split_lines_rest in Hh. cbn [snd] in Hh.
  destruct (_ ++ _) as [|h t] in Hl, Hh; [done|]. simpl in Hh. simplify_eq.
  apply list.Forall_cons in Hl as [Hl _]. rewrite slen_app in Hl.
  pose proof (slen_nonneg x). lia.
Qed.

Lemma short_lines_suffix a b : short_lines (a +:+ b) → short_lines ((split_lines a).2 +:+ b).
Proof.
  unfold short_lines. rewrite (split_lines_app a b). cbn [fst snd]. rewrite <- app_assoc.
  by intros [_ ?]%Forall_app.
Qed.

(** ** Text without a NUL *)

Lemma lacks_app c a b : lacks c (a +:+ b) = lacks c a && lacks c b.
Proof.
  unfold lacks. induction a as [|d a IH]; [done|]. rewrite string_app_cons. simpl.
  destruct (Ascii.eqb d c); [done|].
  by destruct (strchr c (a +:+ b)) as [[]|], (strchr c a) as [[]|], (strchr c b) as [[]|].
Qed.

Lemma until_nul_id s : lacks nul s = true → until_nul s = s.
Proof. unfold lacks, until_nul. by destruct (strchr nul s) as [[]|]. Qed.

Lemma lacks_rest s : lacks nul s = true → lacks nul (split_lines s).2 = true.
Proof.
  unfold lacks. induction s as [|c s IH]; [done|]. simpl. destruct (split_lines s) as [ls r].
  simpl in *. destruct (Ascii.eqb c nul) eqn:E; [done|].
  destruct (strchr nul s) as [[]|]; [done|]. intros _.
  destruct (Ascii.eqb c nl); simpl; [by apply IH|].
  destruct ls; simpl; [|by apply IH]. rewrite E.
  by destruct (strchr nul r) as [[]|]; [apply IH|].
Qed.

(** ** What the assembler does *)

(** A session: the unfinished line has no newline, no NUL, and leaves room. *)
Definition stdin_ok (s : stdin_state) : Prop :=
  (split_lines (pending s)).1 = [] ∧ lacks nul (pending s) = true ∧ slen (pending s) < line_max.

Lemma stdin_chunk_short s chunk :
  lacks nul (pending s) = true → lacks nul chunk = true →
  slen (split_lines (pending s +:+ chunk)).2 < line_max →
  stdin_chunk s chunk
  = let '(ls, r) := split_lines (pending s +:+ chunk) in
    let '(st, run) := fold_left deliver ls (program s, running s) in StdinState r run st.
Proof.
  intros Hp Hc Hr. unfold stdin_chunk.
  rewrite until_nul_id by (rewrite lacks_app, Hp, Hc; done).
  rewrite run_lines_split by lia. destruct (split_lines _) as [ls r]. cbn [fst snd] in *.
  destruct (fold_left deliver ls _) as [st run].
  destruct (Z.eqb_spec (slen r) line_max); [lia|done].
Qed.

Lemma chunks_delivered chunks s :
  stdin_ok s → Forall (λ c, lacks nul c = true) chunks →
  short_lines (pending s +:+ fold_right append "" chunks) →
  fold_left stdin_chunk chunks s
  = let '(ls, r) := split_lines (pending s +:+ fold_right append "" chunks) in
    let '(st, run) := fold_left deliver ls (program s, running s) in StdinState r run st.
Proof.
  intros (H1 & H2 & H3) Hc. revert s H1 H2 H3.
  induction Hc as [|c chunks Hc _ IH]; intros s H1 H2 H3 Hs.
  - simpl. rewrite string_app_nil_r. pose proof (split_lines_none _ H1) as Hp.
    destruct (split_lines (pending s)) as [ls r]. simpl in *. subst. by destruct s.
  - cbn [fold_left fold_right] in *. rewrite <- string_app_assoc in Hs |- *.
    pose proof (short_lines_prefix _ _ Hs) as Hr.
    pose proof (lacks_rest (pending s +:+ c)) as Hn. rewrite lacks_app, H2, Hc in Hn.
    rewrite stdin_chunk_short by done. rewrite (split_lines_app (pending s +:+ c)).
    pose proof (split_lines_rest (pending s +:+ c)) as Hrest.
    apply short_lines_suffix in Hs.
    destruct (split_lines (pending s +:+ c)) as [ls r]. cbn [fst snd] in *.
    rewrite fold_left_app. destruct (fold_left deliver ls _) as [st run].
    rewrite IH; cbn [pending program running]; try done; [|by rewrite Hrest|by apply Hn].
    by destruct (split_lines (r +:+ _)).
Qed.

(** The text handed over at once: its lines delivered, the unfinished one kept. *)
Definition text_delivered (s : stdin_state) (text : string) : stdin_state :=
  let '(ls, r) := split_lines (pending s +:+ text) in
  let '(st, run) := fold_left deliver ls (program s, running s) in StdinState r run st.

Lemma short_lines_app a b : short_lines (a +:+ b) → short_lines a.
Proof.
  intros Hs. pose proof (short_lines_prefix _ _ Hs) as Hp. unfold short_lines in *.
  rewrite split_lines_app in Hs. cbn [fst] in Hs. rewrite <- app_assoc in Hs.
  apply Forall_app in Hs as [Hs _]. apply Forall_app. split; [done|by repeat constructor].
Qed.

(** The text of the first [k] reads. *)
Definition text_read (k : nat) (chunks : list string) : string := fold_right append "" (take k chunks).

Lemma short_lines_read k r chunks :
  short_lines (r +:+ fold_right append "" chunks) → short_lines (r +:+ text_read k chunks).
Proof.
  intros Hs. unfold text_read. revert k r Hs. induction chunks as [|c chunks IH]; intros k r Hs;
    [by rewrite take_nil|].
  destruct k as [|k]; cbn [take fold_right] in *.
  - rewrite string_app_nil_r. by eapply short_lines_app.
  - rewrite <- string_app_assoc in Hs |- *. by apply IH.
Qed.

(** The reads that take place: up to the one that cleared the flag. *)
Lemma read_chunks_prefix s chunks :
  ∃ k, (k <= length chunks)%nat ∧ read_chunks s chunks = fold_left stdin_chunk (take k chunks) s
       ∧ (∀ j, (j < k)%nat → running (fold_left stdin_chunk (take j chunks) s) = true)
       ∧ ((k < length chunks)%nat → running (read_chunks s chunks) = false).
Proof.
  revert s. induction chunks as [|c chunks IH]; intros s; simpl.
  { exists 0%nat. repeat split; [lia|lia|]. intros Hl. lia. }
  destruct (running s) eqn:Hr.
  - destruct (IH (stdin_chunk s c)) as (k & Hk & -> & Hj & Hend). exists (S k).
    split; [lia|]. split; [done|]. split; [|intros ?; apply Hend; lia].
    intros [|j] Hlt; [done|]. simpl. apply Hj. lia.
  - exists 0%nat. repeat split; [lia|lia|done].
Qed.


(** A read never asks for nothing and never overflows the line buffer: what
    is kept after a chunk is shorter than the buffer. *)
Theorem stdin_room s chunk :
  slen (pending s) + slen chunk <= line_max → slen (pending (stdin_chunk s chunk)) < line_max.
Proof.
  intros Hlen. unfold stdin_chunk. rewrite run_lines_split by lia.
  set (text := until_nul _).
  assert (slen text <= line_max) as Ht.
  { subst text. unfold until_nul. rewrite <- slen_app in Hlen.
    destruct (strchr nul _) as [[a b]|] eqn:E; [|done]. apply strchr_length in E. unfold slen in *. lia. }
  assert (slen (split_lines text).2 <= slen text) as Hr.
  { clear. induction text as [|c t IH]; [done|]. simpl. destruct (split_lines t) as [ls r].
    simpl in *. rewrite slen_cons. destruct (Ascii.eqb c nl); simpl; [lia|].
    destruct ls; simpl; rewrite ?slen_cons; lia. }
  destruct (fold_left deliver _ _) as [st run].
  destruct (Z.eqb_spec (slen (split_lines text).2) line_max); simpl; [done|lia].
Qed.

(** What every line handled keeps, a chunk keeps. *)
Lemma stdin_chunk_inv (P : St → Prop) s chunk :
  (∀ st line, P st → P (handle st line).1) → (∀ st, P st → P (too_long st)) →
  P (program s) → P (program (stdin_chunk s chunk)).
Proof.
  intros Hh Ht Hp. unfold stdin_chunk. rewrite run_lines_split by lia.
  assert (∀ ls st run, P st → P (fold_left deliver ls (st, run)).1) as Hf.
  { induction ls as [|l ls IH]; intros st run Hst; simpl; [done|].
    destruct (String.eqb l ""); [by apply IH|]. specialize (Hh st l Hst).
    destruct (handle st l) as [st' keep]. by apply IH. }
  specialize (Hf (split_lines (until_nul (pending s +:+ chunk))).1 _ (running s) Hp).
  destruct (fold_left deliver _ _) as [st run]. destruct (_ =? _); simpl in *; auto.
Qed.

End assembler.

(** A handler that records the lines and stops at ["stop"]. *)
Definition record_line (st : list string) (line : string) : list string * bool :=
  (st ++ [line], negb (String.eqb line "stop")).

Definition sample_session : @stdin_state (list string) := StdinState "" true [].

Definition sample_chunks : list string :=
  ["se"; "t" +:+ String nl "sto"; "p" +:+ String nl "x"].


Lemma stdin_room_witness :
  slen (pending (stdin_chunk record_line id sample_session "se")) < line_max.
Proof. apply (stdin_room record_line id sample_session "se"). discriminate. Defined.
