(* ===== verification/JsonLines.v ===== *)
(** * jsonlines.h

    The lines the MMS and IED programs print with [fprintf], and the flags
    every program answers before anything else.  The texts are written here
    with [Q] for the quoted ["%s"]. *)

From Stdlib Require Import ZArith Lia String Ascii.
From stdpp Require Import base tactics list strings numbers option.
From S2P Require Import Prelude CText.

Local Open Scope Z_scope.

(** A text between double quotes, and a member of an object. *)
Definition Q (s : string) : string := dquote +:+ s +:+ dquote.
Definition member (k v : string) : string := Q k +:+ ":" +:+ Q v.

Definition newline : string := String "010" "".

(** [version] is the environment variable [ADAPTER_VERSION]; the result is
    what is written to standard output. *)
Definition jl_ready (version : option string) (addr fixture adapter : string)
    (ied_name : option string) : string :=
  "{" +:+ member "event" "ready" +:+ "," +:+ member "address" addr +:+ ","
  +:+ member "fixture" fixture +:+ "," +:+ member "adapter" adapter +:+ ","
  +:+ member "version" (default "dev" version) +:+ ","
  +:+ member "ied_name" (default "" ied_name) +:+ "}" +:+ newline.

Definition version_line (version : string) : string :=
  "{" +:+ member "event" "version" +:+ "," +:+ member "adapterVersion" version +:+ ","
  +:+ member "fixtureRevision" "iec61850-v3" +:+ "}" +:+ newline.

Definition capabilities_line (version : string) (commands : list string) : string :=
  "{" +:+ member "event" "capabilities" +:+ "," +:+ member "adapterVersion" version +:+ ","
  +:+ member "fixtureRevision" "iec61850-v3" +:+ "," +:+ Q "commands" +:+ ":["
  +:+ String.concat "," (map Q commands) +:+ "]}" +:+ newline.

(** [Some] is the line printed before [exit(0)]; [argv] includes the program
    name. *)
Definition jl_handle_meta_flags (version : option string) (argv : list string)
    (adapter_image : string) : option string :=
  match argv with
  | _ :: flag :: _ =>
      let version := default "dev" version in
      if String.eqb flag "--version" then Some (version_line version)
      else if String.eqb flag "--capabilities" then
        Some (capabilities_line version
          (if String.eqb adapter_image "libiec61850" then
             ["libiec61850-mms-server"; "libiec61850-mms-client"; "libiec61850-ied-server";
              "libiec61850-ied-client"; "libiec61850-ied-controller"; "libiec61850-ied-reporter";
              "libiec61850-goose-publisher"; "libiec61850-goose-subscriber";
              "libiec61850-sv-publisher"; "libiec61850-sv-subscriber"]
           else
             ["iec61850bean-ied-server"; "iec61850bean-ied-client";
              "iec61850bean-ied-controller"; "iec61850bean-ied-reporter"]))
      else None
  | _ => None
  end.
