(* ===== verification/Args.v ===== *)
(** * Command lines

    The option loop of the GOOSE and SV programs ([for (int i = 1; i < argc;
    i++)] with [arg]): options with a value, flags, and an exit with code 1 for
    anything else.  What the loop has assigned is kept as the list of the
    options given, the last one first; a variable of the program is the last
    value given or its default. *)

From Stdlib Require Import ZArith Lia String Ascii.
From stdpp Require Import base tactics list strings numbers option.
From S2P Require Import Prelude CText.

Local Open Scope Z_scope.

Definition given := list (string * string).

Definition one_of (a : string) (l : list string) : bool := existsb (String.eqb a) l.

(** [valued] are the options that take [arg(argc, argv, &i)], [flags] the
    others. *)
Fixpoint parse_args (valued flags args : list string) (m : given) : res given :=
  match args with
  | [] => Ret m
  | a :: rest =>
      if one_of a valued then
        match rest with
        | v :: rest' => parse_args valued flags rest' ((a, v) :: m)
        | [] => Exit 1
        end
      else if one_of a flags then parse_args valued flags rest ((a, EmptyString) :: m)
      else Exit 1
  end.

(** The last value of an option. *)
Fixpoint option_value (m : given) (k : string) : option string :=
  match m with
  | [] => None
  | (k', v) :: m' => if String.eqb k' k then Some v else option_value m' k
  end.

Definition option_string (m : given) (k d : string) : string := default d (option_value m k).

(** [strtol(arg(argc, argv, &i), NULL, 0)], [d] when not given. *)
Definition option_long (m : given) (k : string) (d : Z) : Z :=
  match option_value m k with Some v => strtol 0 v | None => d end.

Definition option_flag (m : given) (k : string) : bool :=
  match option_value m k with Some _ => true | None => false end.

(** The command line that gives the options of [l], in order. *)
Fixpoint command_line (flags : list string) (l : given) : list string :=
  match l with
  | [] => []
  | (k, v) :: l' => if one_of k flags then k :: command_line flags l'
                    else k :: v :: command_line flags l'
  end.

(** ** Facts *)

Definition well_formed (valued flags : list string) (kv : string * string) : Prop :=
  (one_of kv.1 valued = true ∧ one_of kv.1 flags = false)
  ∨ (one_of kv.1 valued = false ∧ one_of kv.1 flags = true ∧ kv.2 = EmptyString).

(** The loop reads a command line of known options, each with its value. *)
Theorem parse_command_line valued flags l m :
  Forall (well_formed valued flags) l →
  parse_args valued flags (command_line flags l) m = Ret (rev l ++ m).
Proof.
  intros Hl. revert m. induction Hl as [|[k v] l Hk _ IH]; intros m; [done|]. simpl.
  rewrite <- app_assoc. destruct Hk as [[Hv Hf]|(Hv & Hf & He)]; simpl in *.
  - rewrite Hf. simpl. by rewrite Hv, IH.
  - rewrite Hf. simpl. by rewrite Hv, Hf, IH, He.
Qed.

Lemma parse_command_line_witness :
  parse_args ["--iface"] ["--test"]
    (command_line ["--test"] [("--iface", "lo"); ("--test", "")]) []
  = Ret (rev [("--iface", "lo"); ("--test", "")] ++ []).
Proof.
  apply (parse_command_line ["--iface"] ["--test"] [("--iface", "lo"); ("--test", "")] []).
  constructor; [by left|constructor; [by right|constructor]].
Defined.
