(* ===== verification/GoosePublisher.v ===== *)
(** * goose_publisher.c

    The GOOSE publisher: the retransmission schedule, the sending of a frame
    and of a state change, the handling of a line of standard input, the
    options and the main loop.  libiec61850's publisher object is the class
    [GooseApi]; the library's counters, which the program mirrors, are
    described by [GooseLaws]. *)

From Stdlib Require Import ZArith Lia String Ascii SpecFloat.
From stdpp Require Import base tactics list strings numbers option.
From S2P Require Import Prelude CText Json Mms GooseCommon L2Frame StdinLines JsonLines Args.

Local Open Scope Z_scope.
Local Open Scope c_scope.

Definition MAX_STEPS : nat := 17.
Definition FRAME_MAX : Z := 1600.

(** ** The schedule *)

(** [for (d = min_ms; d < max_ms && n < MAX_STEPS - 1; d *= 2) out[n++] = d;],
    [k] steps left before [MAX_STEPS - 1]. *)
Fixpoint doubling (k : nat) (d max_ms : Z) : list Z :=
  match k with
  | O => []
  | S k' => if d <? max_ms then d :: doubling k' (d *u32 2) max_ms else []
  end.

(** The bounds after the defaults. *)
Definition schedule_bounds (min_ms max_ms : Z) : Z * Z :=
  let '(min_ms, max_ms) :=
    if (min_ms =? 0) && (max_ms =? 0) then (4, 1000) else (min_ms, max_ms) in
  let min_ms :=
    if min_ms =? 0 then (if negb (max_ms / 64 =? 0) then max_ms / 64 else 1) else min_ms in
  let max_ms := if max_ms <? min_ms then min_ms else max_ms in
  (min_ms, max_ms).

Definition build_schedule (min_ms max_ms : Z) : list Z :=
  let '(min_ms, max_ms) := schedule_bounds min_ms max_ms in
  doubling (MAX_STEPS - 1) min_ms max_ms ++ [max_ms].

(** ** libiec61850's publisher *)

Record CommParameters := {
  vlanPriority : Z;
  vlanId : Z;
  appId : Z;
  dstAddress : list Z
}.

(** The functions of goose_publisher.h and hal_ethernet.h the program calls.
    [publish] gives its return code, the publisher after it and the frames it
    put on the wire; [publishAndDump] the dumped frame instead. *)
Class GooseApi `{MmsApi} := {
  GPub : Type;
  GoosePublisher_createEx : CommParameters → string → bool → option GPub;
  GoosePublisher_setGoCbRef : GPub → string → GPub;
  GoosePublisher_setGoID : GPub → string → GPub;
  GoosePublisher_setDataSetRef : GPub → string → GPub;
  GoosePublisher_setConfRev : GPub → Z → GPub;
  GoosePublisher_setSimulation : GPub → bool → GPub;
  GoosePublisher_setNeedsCommission : GPub → bool → GPub;
  GoosePublisher_setStNum : GPub → Z → GPub;
  GoosePublisher_increaseStNum : GPub → GPub;
  GoosePublisher_setTimeAllowedToLive : GPub → Z → GPub;
  GoosePublisher_publish : GPub → list MmsValue → Z * GPub * list (list Z);
  GoosePublisher_publishAndDump : GPub → list MmsValue → Z → Z * GPub * list Z;
  Ethernet_getInterfaceMACAddress : string → list Z;
  Ethernet_createSocket : string → list Z → bool;
  (* what the counters of a publisher are, and its time allowed to live *)
  pub_stNum : GPub → Z;
  pub_sqNum : GPub → Z;
  pub_timeAllowedToLive : GPub → Z
}.

(** The number after [n], as the counters of IEC 61850-8-1 count: 0 is left out
    when a counter wraps. *)
Definition next_num (n : Z) : Z := let n := n +u32 1 in if n =? 0 then 1 else n.

Class GooseLaws `{GooseApi} : Prop := {
  increase_stNum p : pub_stNum (GoosePublisher_increaseStNum p) = next_num (pub_stNum p);
  increase_sqNum p : pub_sqNum (GoosePublisher_increaseStNum p) = 0;
  set_stNum p n : pub_stNum (GoosePublisher_setStNum p n) = n;
  tal_stNum p t : pub_stNum (GoosePublisher_setTimeAllowedToLive p t) = pub_stNum p;
  tal_sqNum p t : pub_sqNum (GoosePublisher_setTimeAllowedToLive p t) = pub_sqNum p;
  set_tal p t : pub_timeAllowedToLive (GoosePublisher_setTimeAllowedToLive p t) = t;
  publish_nums p v rc p' l :
    GoosePublisher_publish p v = (rc, p', l) →
    pub_stNum p' = pub_stNum p
    ∧ pub_sqNum p' = (if rc =? 0 then next_num (pub_sqNum p) else pub_sqNum p);
  dump_nums p v n rc p' l :
    GoosePublisher_publishAndDump p v n = (rc, p', l) →
    pub_stNum p' = pub_stNum p
    ∧ pub_sqNum p' = (if rc =? 0 then next_num (pub_sqNum p) else pub_sqNum p)
}.

Section publisher.
Context `{JsonC} `{GooseApi}.

(** The value of the [n]-th call of [Hal_getMonotonicTimeInMs]. *)
Context (clock : nat → Z).

Record Publisher := {
  pub : GPub;
  values : list MmsValue;
  st_num : Z;
  sq_num : Z;
  steps : list Z;
  step_count : Z;
  step : Z;
  next_ms : Z;
  raw : bool;
  src : list Z;
  vlan : bool
}.

(** The program's surroundings: what it wrote to standard output, the frames
    it put on the wire and the number of clock readings. *)
Record world := {
  out : list string;
  wire : list (list Z);
  ticks : nat
}.

Definition emit (f : list string → list string) (w : world) : world :=
  {| out := f (out w); wire := wire w; ticks := ticks w |}.

Definition emit_published (st sq tal : Z) : list string → list string :=
  goose_emit (json_event
    [ ("event", json_object_new_string "published");
      ("stNum", json_object_new_int64 st);
      ("sqNum", json_object_new_int64 sq);
      ("timeAllowedToLive", json_object_new_int64 tal) ]).

(** The interval the next frame announces. *)
Definition interval (p : Publisher) : Z :=
  let idx := if step p <? step_count p then step p else step_count p - 1 in
  nth (Z.to_nat idx) (steps p) 0.

(** The source address and the S bit, written into a dumped frame. *)
Definition patch_frame (src : list Z) (vlan : bool) (frame : list Z) : list Z :=
  let frame := list_inserts 6 src frame in
  let apdu := (12 + (if vlan then 4 else 0) + 2)%nat in
  <[(apdu + GOOSE_SIM_OCTET)%nat :=
      Z.lor (octet frame (apdu + GOOSE_SIM_OCTET)) GOOSE_SIM_MASK]> frame.

(** The call that publishes: its return code, the publisher, the frames. *)
Definition publish_frame (p : Publisher) (g : GPub) : Z * GPub * list (list Z) :=
  if raw p then
    let '(rc, g, frame) := GoosePublisher_publishAndDump g (values p) FRAME_MAX in
    (rc, g, if rc =? 0 then [patch_frame (src p) (vlan p) frame] else [])
  else GoosePublisher_publish g (values p).

(** Send the current state once and schedule the next frame.  [step] is an
    [int] that counts the frames since the last change; its increment overflows
    at [INT_MAX]. *)
Definition send_frame (p : Publisher) (w : world) : res (Publisher * world) :=
  let i := interval p in
  let tal := 2 *u32 i in
  let '(rc, g, frames) := publish_frame p (GoosePublisher_setTimeAllowedToLive (pub p) tal) in
  let w := {| out := out w; wire := wire w ++ frames; ticks := ticks w |} in
  let '(sq, w) :=
    if negb (rc =? 0)
    then (sq_num p, emit (goose_emit_error "publish: data set does not fit a GOOSE frame") w)
    else (next_num (sq_num p), emit (emit_published (st_num p) (sq_num p) tal) w) in
  if step p =? INT_MAX then Undef
  else
    Ret ({| pub := g; values := values p; st_num := st_num p; sq_num := sq; steps := steps p;
            step_count := step_count p; step := step p + 1; next_ms := clock (ticks w) +u64 i;
            raw := raw p; src := src p; vlan := vlan p |},
         {| out := out w; wire := wire w; ticks := S (ticks w) |}).

Definition state_change (p : Publisher) (new_values : list MmsValue) (w : world)
  : res (Publisher * world) :=
  send_frame
    {| pub := GoosePublisher_increaseStNum (pub p); values := new_values;
       st_num := next_num (st_num p); sq_num := 0; steps := steps p;
       step_count := step_count p; step := 0; next_ms := next_ms p; raw := raw p;
       src := src p; vlan := vlan p |} w.

(** The deepest value the parser builds is 32 levels ([json_tokener_parse] uses
    the default depth of json-c). *)
Definition json_depth : nat := 33.

(** One stdin line; the [bool] is false on [{"cmd":"stop"}]. *)
Definition handle_line (p : Publisher) (line : string) (w : world)
  : res (Publisher * world * bool) :=
  let cmd := json_tokener_parse line in
  if json_object_is_type cmd json_type_null
  then Ret (p, emit (goose_emit_error "stdin: not JSON") w, true)
  else
    match match json_object_object_get_ex cmd "cmd" with
          | Some jc => json_object_get_string jc
          | None => Some ""
          end with
    | None => Undef
    | Some c =>
        if String.eqb c "set" then
          let* r := goose_values_from_json json_depth (json_object_object_get_ex cmd "values") in
          match r with
          | inl err =>
              Ret (p, emit (goose_emit_error (snprintf_s 160 ("set: " +:+ err))) w, true)
          | inr new_values => let* s := state_change p new_values w in Ret (s.1, s.2, true)
          end
        else if String.eqb c "stop" then Ret (p, w, false)
        else
          Ret (p, emit (goose_emit_error (snprintf_s 160
                 ("stdin: unknown cmd " +:+ dquote +:+ String.substring 0 100 c +:+ dquote))) w, true)
    end.

(** ** The main loop *)

(** What happened at a turn of the loop that does not send: nothing was read
    (a timeout or a signal), octets were read, or the end of the input. *)
Inductive input :=
| Nothing
| Octets (chunk : string)
| Eof.

Record loop_state := {
  stdin : @stdin_state (res (Publisher * world));
  stdin_open : bool
}.

(** [handle_line] on the state of the program; undefined behaviour stays. *)
Definition on_line (st : res (Publisher * world)) (line : string)
  : res (Publisher * world) * bool :=
  match st with
  | Ret (p, w) =>
      match handle_line p line w with
      | Ret (p, w, keep) => (Ret (p, w), keep)
      | Exit c => (Exit c, true)
      | Undef => (Undef, true)
      end
  | r => (r, true)
  end.

Definition line_too_long (st : res (Publisher * world)) : res (Publisher * world) :=
  match st with
  | Ret (p, w) => Ret (p, emit (goose_emit_error "stdin: line too long") w)
  | r => r
  end.

(** One turn of [while (g_running)], with what [select] and [read] give if no
    frame is due. *)
Definition loop_turn (i : input) (l : loop_state) : loop_state :=
  match program (stdin l) with
  | Ret (p, w) =>
      let now := clock (ticks w) in
      let w := {| out := out w; wire := wire w; ticks := S (ticks w) |} in
      if next_ms p <=? now then
        {| stdin := StdinState (pending (stdin l)) (running (stdin l)) (send_frame p w);
           stdin_open := stdin_open l |}
      else
        let here := StdinState (pending (stdin l)) (running (stdin l)) (Ret (p, w)) in
        match i with
        | Octets chunk =>
            if stdin_open l
            then {| stdin := stdin_chunk on_line line_too_long here chunk; stdin_open := true |}
            else {| stdin := here; stdin_open := false |}
        | Eof => {| stdin := here; stdin_open := false |}
        | Nothing => {| stdin := here; stdin_open := stdin_open l |}
        end
  | _ => l
  end.

(** [while (g_running)] *)
Fixpoint main_loop (l : loop_state) (inputs : list input) : loop_state :=
  match inputs with
  | [] => l
  | i :: inputs' => if running (stdin l) then main_loop (loop_turn i l) inputs' else l
  end.

(** ** Start-up *)

Definition valued_options : list string :=
  ["--iface"; "--gocb-ref"; "--go-id"; "--dataset"; "--app-id"; "--dst"; "--vlan-id";
   "--vlan-prio"; "--conf-rev"; "--min-time"; "--max-time"; "--values"].

Definition flag_options : list string := ["--test"; "--simulation"; "--nds-com"].

(** The check of the numeric options. *)
Definition bad_numbers (m : given) : bool :=
  let vlan_id := option_long m "--vlan-id" 0 in
  let vlan_prio := option_long m "--vlan-prio" 4 in
  (vlan_id <? 0) || (4095 <? vlan_id) || (vlan_prio <? 0) || (7 <? vlan_prio)
  || (option_long m "--conf-rev" 1 <? 0) || (option_long m "--min-time" 10 <? 0)
  || (option_long m "--max-time" 1000 <? 0).

(** The publisher object with its settings, in state 1. *)
Definition configure (m : given) (gocb_ref : string) (g : GPub) : GPub :=
  let g := GoosePublisher_setGoCbRef g gocb_ref in
  let g := GoosePublisher_setGoID g (option_string m "--go-id" gocb_ref) in
  let g := GoosePublisher_setDataSetRef g (option_string m "--dataset" "") in
  let g := GoosePublisher_setConfRev g (u32 (option_long m "--conf-rev" 1)) in
  let g := GoosePublisher_setSimulation g (option_flag m "--test") in
  let g := GoosePublisher_setNeedsCommission g (option_flag m "--nds-com") in
  GoosePublisher_increaseStNum (GoosePublisher_setStNum g 0).

(** What [main] does before its loop, from the options given: the publisher
    and the surroundings after the first frame. *)
Definition start (version : option string) (m : given) : res (Publisher * world) :=
  match option_value m "--gocb-ref", option_value m "--values" with
  | Some gocb_ref, Some values_json =>
      if bad_numbers m then Exit 1 else
      let steps := build_schedule (u32 (option_long m "--min-time" 10))
                                  (u32 (option_long m "--max-time" 1000)) in
      let* r := goose_values_from_json json_depth (Some (json_tokener_parse values_json)) in
      match r with
      | inl _ => Exit 1
      | inr values =>
          match goose_parse_appid (option_string m "--app-id" "0x0000"),
                goose_parse_mac (option_string m "--dst" "01:0c:cd:01:00:00") with
          | Some app_id, Some dst =>
              let iface := option_string m "--iface" "eth0" in
              let simulation := option_flag m "--simulation" in
              let params :=
                {| vlanPriority := u8 (option_long m "--vlan-prio" 4);
                   vlanId := u16 (option_long m "--vlan-id" 0);
                   appId := app_id; dstAddress := dst |} in
              if simulation && negb (Ethernet_createSocket iface dst) then Exit 1 else
              match GoosePublisher_createEx params (if simulation then "lo" else iface) true with
              | None => Exit 1
              | Some g =>
                  let src := Ethernet_getInterfaceMACAddress iface in
                  send_frame
                    {| pub := configure m gocb_ref g; values := values; st_num := 1;
                       sq_num := 0; steps := steps; step_count := Z.of_nat (length steps);
                       step := 0; next_ms := 0; raw := simulation; src := src; vlan := true |}
                    {| out := goose_emit_ready version "publisher" iface src (Some gocb_ref) [];
                       wire := []; ticks := 0 |}
              end
          | _, _ => Exit 1
          end
      end
  | _, _ => Exit 1
  end.

Definition main (version : option string) (argv : list string) (inputs : list input)
  : res loop_state :=
  match jl_handle_meta_flags version argv "libiec61850" with
  | Some _ => Exit 0
  | None =>
      let* m := parse_args valued_options flag_options (tail argv) [] in
      let* s := start version m in
      Ret (main_loop {| stdin := StdinState "" true (Ret s); stdin_open := true |} inputs)
  end.

End publisher.
