(* ===== verification/RefGoose.v ===== *)
(** * A reference GOOSE publisher

    A concrete publisher object for the interface [GooseApi]: it counts as
    IEC 61850-8-1 says and puts a frame of fixed layout on the wire (header,
    VLAN tag, APPID, counters).  It shows that [GooseLaws] can hold. *)

From Stdlib Require Import ZArith Lia String Ascii SpecFloat.
From stdpp Require Import base tactics list strings numbers option.
From S2P Require Import Prelude CText Mms RefMms GoosePublisher.

Local Open Scope Z_scope.

Record rpub := { r_st : Z; r_sq : Z; r_tal : Z; r_params : CommParameters }.

Definition rset (p : rpub) (st sq tal : Z) : rpub :=
  {| r_st := st; r_sq := sq; r_tal := tal; r_params := r_params p |}.

(** Destination, source, 802.1Q tag, EtherType, APPID, length, reserved, the
    counters. *)
Definition rframe (p : rpub) : list Z :=
  dstAddress (r_params p) ++ replicate 6 0 ++ [129; 0; 128; 0; 136; 184]
  ++ be_octets 2 (appId (r_params p)) ++ replicate 6 0
  ++ be_octets 4 (r_st p) ++ be_octets 4 (r_sq p) ++ be_octets 4 (r_tal p).

Definition rpublish (p : rpub) : rpub := rset p (r_st p) (next_num (r_sq p)) (r_tal p).

#[export] Instance ref_goose : GooseApi := {|
  GPub := rpub;
  GoosePublisher_createEx c _ _ := Some {| r_st := 0; r_sq := 0; r_tal := 0; r_params := c |};
  GoosePublisher_setGoCbRef p _ := p;
  GoosePublisher_setGoID p _ := p;
  GoosePublisher_setDataSetRef p _ := p;
  GoosePublisher_setConfRev p _ := p;
  GoosePublisher_setSimulation p _ := p;
  GoosePublisher_setNeedsCommission p _ := p;
  GoosePublisher_setStNum p n := rset p n (r_sq p) (r_tal p);
  GoosePublisher_increaseStNum p := rset p (next_num (r_st p)) 0 (r_tal p);
  GoosePublisher_setTimeAllowedToLive p t := rset p (r_st p) (r_sq p) t;
  GoosePublisher_publish p _ := (0, rpublish p, [rframe p]);
  GoosePublisher_publishAndDump p _ _ := (0, rpublish p, rframe p);
  Ethernet_getInterfaceMACAddress _ := [2; 0; 0; 0; 0; 1];
  Ethernet_createSocket _ _ := true;
  pub_stNum := r_st;
  pub_sqNum := r_sq;
  pub_timeAllowedToLive := r_tal
|}.

#[export] Instance ref_goose_laws : GooseLaws.
Proof. split; intros; simpl in *; try done; by simplify_eq. Qed.
