(* ===== verification/GoosePublisherSpec.v ===== *)
(** * Theorems about goose_publisher.c

    The schedule, the numbers the frames carry, the sequence of events after a
    state change, the handling of the lines of standard input and the frames
    of the simulation path. *)

From Stdlib Require Import ZArith Lia String Ascii SpecFloat.
From stdpp Require Import base tactics list strings numbers option.
From S2P Require Import Prelude CText Json Mms GooseCommon GooseCommonSpec L2Frame StdinLines.
From S2P Require Import JsonLines Args GoosePublisher RefJson RefMms RefGoose.

Local Open Scope Z_scope.
Local Open Scope c_scope.

(** ** The schedule *)

Lemma doubling_spec k d max_ms :
  0 < d → max_ms <= 2147483648 →
  ∃ n, (n <= k)%nat ∧ doubling k d max_ms = (λ i, d * 2 ^ i) <$> seqZ 0 (Z.of_nat n)
       ∧ (∀ i, 0 <= i < Z.of_nat n → d * 2 ^ i < max_ms)
       ∧ (n = k ∨ max_ms <= d * 2 ^ Z.of_nat n).
Proof.
  revert d. induction k as [|k IH]; intros d Hd Hmax; simpl.
  - exists 0%nat. repeat split; [done|lia|by left].
  - destruct (Z.ltb_spec d max_ms).
    + rewrite u32_id by lia. destruct (IH (d * 2)) as (n & Hn & -> & Hlt & Hend); [lia..|].
      exists (S n). repeat split; [lia| | |].
      * rewrite Nat2Z.inj_succ, <- Z.add_1_l, seqZ_app by lia. simpl. f_equal; [lia|].
        rewrite <- (fmap_add_seqZ 1 0), <- list_fmap_compose.
        apply list_fmap_ext. intros _ i [Hi _]%list_elem_of_lookup_2%elem_of_seqZ. simpl.
        rewrite Z.pow_add_r by lia. lia.
      * intros i Hi. destruct (decide (i = 0)) as [->|]; [lia|].
        replace i with (1 + (i - 1)) by lia. rewrite Z.pow_add_r by lia.
        specialize (Hlt (i - 1)). lia.
      * destruct Hend as [->|]; [by left|right].
        rewrite Nat2Z.inj_succ, Z.pow_succ_r by lia. lia.
    + exists 0%nat. repeat split; [lia|lia|right; simpl; lia].
Qed.

Lemma doubling_stop k d : doubling k d d = [].
Proof. destruct k; simpl; [done|]. by rewrite Z.ltb_irrefl. Qed.

Lemma schedule_bounds_ok min_ms max_ms lo hi :
  is_u32 min_ms → is_u32 max_ms → schedule_bounds min_ms max_ms = (lo, hi) →
  0 < lo <= hi ∧ hi < 4294967296 ∧ (max_ms <= 2147483648 → lo = hi ∨ hi <= 2147483648).
Proof.
  intros Hmin Hmax. unfold schedule_bounds. intros Hb.
  repeat case_match; bool_hyps; simplify_eq; lia.
Qed.

(** The retransmission schedule starts at the (defaulted) MinTime and
    doubles while it is below MaxTime, which is the last interval; at most
    sixteen intervals come before it. *)
Theorem goose_schedule min_ms max_ms lo hi :
  is_u32 min_ms → 0 <= max_ms <= 2147483648 → schedule_bounds min_ms max_ms = (lo, hi) →
  0 < lo <= hi ∧
  ∃ n, 0 <= n <= 16 ∧ build_schedule min_ms max_ms = ((λ i, lo * 2 ^ i) <$> seqZ 0 n) ++ [hi]
       ∧ (∀ i, 0 <= i < n → lo * 2 ^ i < hi) ∧ (n = 16 ∨ hi <= lo * 2 ^ n).
Proof.
  intros Hmin Hmax Hb. destruct (schedule_bounds_ok min_ms max_ms lo hi) as (Hlo & _ & Hhi); [lia..|done|].
  split; [done|]. unfold build_schedule. rewrite Hb.
  destruct (Hhi ltac:(lia)) as [->|Hle].
  - exists 0. rewrite doubling_stop. repeat split; lia || reflexivity.
  - destruct (doubling_spec (MAX_STEPS - 1) lo hi) as (n & Hn & -> & Hlt & Hend); [lia..|].
    unfold MAX_STEPS in *.
    exists (Z.of_nat n). repeat split; try done; lia.
Qed.

Lemma goose_schedule_witness :
  0 < 10 <= 1000 ∧
  ∃ n, 0 <= n <= 16 ∧ build_schedule 10 1000 = ((λ i, 10 * 2 ^ i) <$> seqZ 0 n) ++ [1000]
       ∧ (∀ i, 0 <= i < n → 10 * 2 ^ i < 1000) ∧ (n = 16 ∨ 1000 <= 10 * 2 ^ n).
Proof. apply (goose_schedule 10 1000 10 1000); [lia..|reflexivity]. Defined.

(** The schedule fits the array of [MAX_STEPS] intervals, whatever the options. *)
Lemma doubling_length k d max_ms :
  0 <= d → (length (doubling k d max_ms) <= k)%nat
  ∧ Forall (λ i, 0 <= i < max_ms) (doubling k d max_ms).
Proof.
  revert d. induction k as [|k IH]; intros d Hd; simpl; [by split; [lia|constructor]|].
  destruct (Z.ltb_spec d max_ms); [|by split; [simpl; lia|constructor]].
  destruct (IH (d *u32 2)) as [? ?]; [cint|]. split; [simpl; lia|by constructor].
Qed.

Lemma schedule_fits min_ms max_ms :
  is_u32 min_ms → is_u32 max_ms →
  (1 <= length (build_schedule min_ms max_ms) <= MAX_STEPS)%nat
  ∧ Forall (λ i, is_u32 i) (build_schedule min_ms max_ms).
Proof.
  intros Hmin Hmax. unfold build_schedule.
  destruct (schedule_bounds min_ms max_ms) as [lo hi] eqn:Hb.
  destruct (schedule_bounds_ok _ _ _ _ Hmin Hmax Hb) as (? & ? & _).
  destruct (doubling_length (MAX_STEPS - 1) lo hi) as [Hl Hf]; [lia|].
  rewrite length_app. change (length [hi]) with 1%nat. unfold MAX_STEPS in *. split; [lia|].
  apply Forall_app. split; [|by repeat constructor; lia].
  revert Hf. apply List.Forall_impl. intros x Hx. lia.
Qed.

Theorem goose_schedule_fits min_ms max_ms :
  is_u32 min_ms → is_u32 max_ms →
  (1 <= length (build_schedule min_ms max_ms) <= MAX_STEPS)%nat
  ∧ Forall (λ i, is_u32 i) (build_schedule min_ms max_ms).
Proof. apply schedule_fits. Qed.

Lemma goose_schedule_fits_witness :
  (1 <= length (build_schedule 0 4294967295) <= MAX_STEPS)%nat
  ∧ Forall (λ i, is_u32 i) (build_schedule 0 4294967295).
Proof. apply (goose_schedule_fits 0 4294967295); lia. Defined.

(** A MinTime beyond half of the range: the doubling wraps to zero. *)
Lemma goose_schedule_wraps :
  build_schedule 2147483648 4294967295 = 2147483648 :: replicate 15 0 ++ [4294967295].
Proof. reflexivity. Qed.

(** ** Frames and events *)

Lemma next_num_pos n : 0 <= n → 0 < next_num n < 4294967296.
Proof. unfold next_num. intros. cases_if; bool_hyps; cint. Qed.

Lemma next_num_succ n : 0 <= n < 4294967295 → next_num n = n + 1.
Proof. unfold next_num. intros. rewrite u32_id by lia. destruct (Z.eqb_spec (n + 1) 0); lia. Qed.

Section publisher.
Context `{JsonLaws} `{GooseLaws} (clock : nat → Z).

(** The program's numbers are the publisher's, and the schedule is well formed. *)
Record publisher_ok (p : Publisher) : Prop := {
  ok_st : st_num p = pub_stNum (pub p);
  ok_sq : sq_num p = pub_sqNum (pub p);
  ok_st_pos : 0 < st_num p < 4294967296;
  ok_sq_range : is_u32 (sq_num p);
  ok_count : step_count p = Z.of_nat (length (steps p));
  ok_steps : (1 <= length (steps p) <= MAX_STEPS)%nat;
  ok_step : 0 <= step p <= INT_MAX
}.

Lemma publish_frame_nums p g rc g' frames :
  publish_frame p g = (rc, g', frames) →
  pub_stNum g' = pub_stNum g
  ∧ pub_sqNum g' = (if rc =? 0 then next_num (pub_sqNum g) else pub_sqNum g).
Proof.
  unfold publish_frame. destruct (raw p).
  - destruct (GoosePublisher_publishAndDump _ _ _) as [[r g1] f] eqn:E. intros [= <- <- <-].
    by apply dump_nums in E.
  - apply publish_nums.
Qed.

Lemma send_frame_ok p w p' w' :
  publisher_ok p → send_frame clock p w = Ret (p', w') → publisher_ok p'.
Proof.
  intros [Hst Hsq Hpos Hr Hc Hl Hs]. unfold send_frame.
  destruct (publish_frame _ _) as [[rc g] frames] eqn:E.
  apply publish_frame_nums in E as [Est Esq]. rewrite tal_stNum in Est. rewrite tal_sqNum in Esq.
  destruct (Z.eqb_spec rc 0); cbn [negb]; (destruct (Z.eqb_spec (step p) INT_MAX); [done|]);
    intros [= <- <-]; split; simpl; try done; try congruence; try lia.
  pose proof (next_num_pos (sq_num p)). lia.
Qed.

(** The publisher as a state change hands it to [send_frame]. *)
Definition changed (p : Publisher) (v : list MmsValue) : Publisher :=
  {| pub := GoosePublisher_increaseStNum (pub p); values := v;
     st_num := next_num (st_num p); sq_num := 0; steps := steps p;
     step_count := step_count p; step := 0; next_ms := next_ms p; raw := raw p;
     src := src p; vlan := vlan p |}.

Lemma changed_ok p v : publisher_ok p → publisher_ok (changed p v).
Proof.
  intros [Hst Hsq Hpos Hr Hc Hl Hs]. unfold INT_MAX in *. split; simpl; try done; try lia.
  - by rewrite increase_stNum, Hst.
  - by rewrite increase_sqNum.
  - apply next_num_pos. lia.
Qed.

Lemma state_change_ok p v w p' w' :
  publisher_ok p → state_change clock p v w = Ret (p', w') → publisher_ok p'.
Proof. intros Hok. by apply (send_frame_ok (changed p v)), changed_ok. Qed.

(** ** What a line says *)

(** The command of a line; [None] when the line is not JSON. *)
Definition line_command (line : string) : option string :=
  let cmd := json_tokener_parse line in
  if json_object_is_type cmd json_type_null then None
  else
    match json_object_object_get_ex cmd "cmd" with
    | Some jc => json_object_get_string jc
    | None => Some ""
    end.

(** The values of a line: the elements of an array, each a typed value. *)
Definition line_values (line : string) (v : list MmsValue) : Prop :=
  ∃ a, json_object_object_get_ex (json_tokener_parse line) "values" = Some a
       ∧ json_object_is_type a json_type_array = true
       ∧ Forall2 (λ j x, goose_value_from_json json_depth j = Ret (inr x)) (json_elements a) v.

Lemma values_loop_forall d l acc vs :
  values_loop d l acc = Ret (inr vs) ↔
  ∃ v, vs = acc ++ v ∧ Forall2 (λ j x, goose_value_from_json d j = Ret (inr x)) l v.
Proof.
  revert acc. induction l as [|j l IH]; intros acc; simpl.
  - split.
    + intros [= <-]. exists []. by rewrite app_nil_r.
    + intros (v & -> & Hv). inversion Hv; subst. by rewrite app_nil_r.
  - split.
    + destruct (goose_value_from_json d j) as [[e|x]| |] eqn:E; try done. rewrite IH.
      intros (v & -> & Hv). exists (x :: v). rewrite <- app_assoc. split; [done|by constructor].
    + intros (v & -> & Hv). inversion Hv as [|? x ? v' Hx Hv']; subst. rewrite Hx, IH.
      exists v'. by rewrite <- app_assoc.
Qed.

Lemma values_from_json_line line v :
  goose_values_from_json json_depth (json_object_object_get_ex (json_tokener_parse line) "values")
  = Ret (inr v) ↔ line_values line v.
Proof.
  unfold goose_values_from_json, line_values.
  destruct (json_object_object_get_ex _ "values") as [a|]; [|split; [done|by intros (? & [=] & _)]].
  destruct (json_object_is_type a json_type_array) eqn:Ea.
  - rewrite values_loop_forall. split.
    + intros (v' & -> & Hv). by exists a.
    + intros (a' & [= <-] & _ & Hv). by exists v.
  - split; [done|]. intros (a' & [= <-] & Ha & _). congruence.
Qed.

(** One error was printed and nothing else happened. *)
Definition error_only (w w' : world) : Prop :=
  ∃ msg, w' = {| out := out w ++ [json_object_to_json_string_ext (error_event msg) +:+ newline];
                 wire := wire w; ticks := ticks w |}.

(** A set with good values. *)
Definition sets (line : string) (v : list MmsValue) : Prop :=
  line_command line = Some "set"%string ∧ line_values line v.

Lemma handle_line_effect p line w p' w' keep :
  handle_line clock p line w = Ret (p', w', keep) →
  (keep = false ↔ line_command line = Some "stop"%string)
  ∧ (keep = false → p' = p ∧ w' = w)
  ∧ (keep = true →
     (∃ v, sets line v ∧ state_change clock p v w = Ret (p', w'))
     ∨ (p' = p ∧ error_only w w' ∧ ∀ v, ¬ sets line v)).
Proof.
  unfold handle_line, sets, line_command. intros Hr.
  destruct (json_object_is_type _ json_type_null).
  { injection Hr as <- <- <-. split_and!; [naive_solver|done|]. intros _. right.
    split_and!; [done|by eexists|naive_solver]. }
  destruct (match json_object_object_get_ex _ "cmd" with Some _ => _ | None => _ end) as [c|];
    [|done].
  destruct (String.eqb_spec c "set") as [Hc|Hset].
  - apply res_bind_ret in Hr as ([err|v] & Hv & Hr).
    + injection Hr as <- <- <-. split_and!; [naive_solver|done|]. intros _. right.
      split_and!; [done|by eexists|]. intros v [_ Hv']. apply values_from_json_line in Hv'. congruence.
    + apply res_bind_ret in Hr as ([q x] & Hs & Hr). injection Hr as <- <- <-.
      split_and!; [naive_solver|done|]. intros _. left. exists v.
      rewrite <- values_from_json_line. by rewrite Hc.
  - destruct (String.eqb_spec c "stop") as [Hc|Hstop].
    + injection Hr as <- <- <-. by rewrite Hc.
    + injection Hr as <- <- <-. split_and!; [naive_solver|done|]. intros _. right.
      split_and!; [done|by eexists|naive_solver].
Qed.

Lemma handle_line_ok p line w p' w' keep :
  publisher_ok p → handle_line clock p line w = Ret (p', w', keep) → publisher_ok p'.
Proof.
  intros Hp Hl%handle_line_effect. destruct Hl as (_ & Hf & Ht). destruct keep.
  - destruct (Ht eq_refl) as [(v & _ & Hs)|[-> _]]; [by eapply state_change_ok|done].
  - by destruct (Hf eq_refl) as [-> _].
Qed.

(** ** The whole run *)

Definition state_ok (st : res (Publisher * world)) : Prop :=
  match st with Ret (p, _) => publisher_ok p | _ => True end.

Lemma loop_turn_ok i l :
  state_ok (program (stdin l)) → state_ok (program (stdin (loop_turn clock i l))).
Proof.
  unfold loop_turn. destruct (program (stdin l)) as [[p w]| |] eqn:E;
    [|by rewrite E|by rewrite E]. intros Hp. cbv zeta.
  set (w' := {| out := _ |}). destruct (_ <=? _); simpl.
  - destruct (send_frame clock p w') as [[p1 w1]| |] eqn:Es; [|done..]. by eapply send_frame_ok.
  - destruct i as [|chunk|]; [done| |done]. destruct (stdin_open l); [|done]. simpl.
    apply stdin_chunk_inv; [| |done].
    + intros [[q v]| |] line Hq; simpl; try done.
      destruct (handle_line clock q line v) as [[[q' v'] keep]| |] eqn:Hl; simpl; try done.
      by eapply handle_line_ok.
    + by intros [[q v]| |].
Qed.

Lemma main_loop_ok l inputs :
  state_ok (program (stdin l)) → state_ok (program (stdin (main_loop clock l inputs))).
Proof.
  revert l. induction inputs as [|i inputs IH]; intros l Hl; simpl; [done|].
  destruct (running (stdin l)); [|done]. by apply IH, loop_turn_ok.
Qed.

Lemma start_ok version m p w : start clock version m = Ret (p, w) → publisher_ok p.
Proof.
  unfold start. intros Hs.
  destruct (option_value m "--gocb-ref") as [gocb_ref|]; [|done].
  destruct (option_value m "--values") as [values_json|]; [|done].
  destruct (bad_numbers m); [done|]. apply res_bind_ret in Hs as ([e|v] & _ & Hs); [done|].
  destruct (goose_parse_appid _); [|done]. destruct (goose_parse_mac _); [|done].
  destruct (_ && _); [done|]. destruct (GoosePublisher_createEx _ _ _) as [g|]; [|done].
  eapply send_frame_ok; [|exact Hs].
  destruct (schedule_fits (u32 (option_long m "--min-time" 10)) (u32 (option_long m "--max-time" 1000)))
    as [Hl _]; [cint..|].
  split; cbn [pub st_num sq_num steps step_count step]; try done; unfold configure.
  - by rewrite increase_stNum, set_stNum.
  - by rewrite increase_sqNum.
Qed.

(** C5: In every run of the GOOSE publisher that has a defined result, whatever
    is typed and however the timers fall, stNum and sqNum as the program reports
    them are the counters of the publisher object, stNum is never 0, and the
    step, an int, and the schedule stay in bounds. (A run of 2^31 frames without
    a change of state overflows the step and has none.) *)
Theorem goose_counters version argv inputs l p w :
  main clock version argv inputs = Ret l → program (stdin l) = Ret (p, w) → publisher_ok p.
Proof.
  unfold main. intros Hm Hp. destruct (jl_handle_meta_flags _ _ _); [done|].
  apply res_bind_ret in Hm as (m & _ & Hm). apply res_bind_ret in Hm as ([q v] & Hq & Hm).
  injection Hm as <-. apply start_ok in Hq.
  pose proof (main_loop_ok {| stdin := StdinState "" true (Ret (q, v)); stdin_open := true |} inputs Hq)
    as Ho. by rewrite Hp in Ho.
Qed.

(** ** The sequence of frames *)

(** [n] frames sent one after the other. *)
Fixpoint sends (n : nat) (p : Publisher) (w : world) : res (Publisher * world) :=
  match n with
  | O => Ret (p, w)
  | S n => let* s := send_frame clock p w in sends n s.1 s.2
  end.

(** The data set fits a frame. *)
Definition fits (v : list MmsValue) : Prop :=
  ∀ g, (GoosePublisher_publish g v).1.1 = 0 ∧ (GoosePublisher_publishAndDump g v FRAME_MAX).1.1 = 0.

Definition published_line (st sq tal : Z) : string := List.hd "" (emit_published st sq tal []).

(** The [k]-th interval from the current step on. *)
Definition interval_from (p : Publisher) (k : Z) : Z :=
  nth (Z.to_nat (Z.min (step p + k) (step_count p - 1))) (steps p) 0.

Lemma interval_now p : interval p = interval_from p 0.
Proof. unfold interval, interval_from. destruct (Z.ltb_spec (step p) (step_count p)); do 2 f_equal; lia. Qed.

(** What the library puts on the wire for a publisher object with these
    numbers, as the publisher [p] hands it its data set. *)
Definition frame_of (p : Publisher) (st sq tal : Z) (frames : list (list Z)) : Prop :=
  ∃ g, pub_stNum g = st ∧ pub_sqNum g = sq ∧ pub_timeAllowedToLive g = tal
       ∧ frames = (publish_frame p g).2.

(** Intervals whose double is a 32-bit number, and a clock that does not wrap. *)
Definition plain_times (p : Publisher) : Prop :=
  Forall (λ i, 0 <= i <= 2147483647) (steps p) ∧ ∀ k, 0 <= clock k < 9223372036854775808.

Lemma interval_range p k : plain_times p → 0 <= interval_from p k <= 2147483647.
Proof.
  intros [Hs _]. unfold interval_from.
  destruct (nth_in_or_default (Z.to_nat (Z.min (step p + k) (step_count p - 1))) (steps p) 0)
    as [Hin| ->]; [|lia].
  rewrite Forall_forall in Hs. by apply Hs.
Qed.

(** What sending leaves alone. *)
Definition same_setup (p q : Publisher) : Prop :=
  st_num q = st_num p ∧ values q = values p ∧ steps q = steps p ∧ step_count q = step_count p
  ∧ raw q = raw p ∧ src q = src p ∧ vlan q = vlan p.

Lemma same_setup_frames p q g : same_setup p q → publish_frame q g = publish_frame p g.
Proof. intros (_ & Hv & _ & _ & Hr & Hs & Hl). unfold publish_frame. by rewrite Hv, Hr, Hs, Hl. Qed.

Lemma same_setup_times p q : same_setup p q → plain_times p → plain_times q.
Proof. intros (_ & _ & Hs & _). unfold plain_times. by rewrite Hs. Qed.

Lemma send_frame_fits p w :
  publisher_ok p → fits (values p) → plain_times p → step p < INT_MAX →
  ∃ p' frames,
    send_frame clock p w
    = Ret (p', {| out := out w ++ [published_line (st_num p) (sq_num p) (2 * interval p)];
                  wire := wire w ++ frames; ticks := S (ticks w) |})
    ∧ frame_of p (st_num p) (sq_num p) (2 * interval p) frames
    ∧ same_setup p p' ∧ sq_num p' = next_num (sq_num p) ∧ step p' = step p + 1
    ∧ next_ms p' = clock (ticks w) + interval p.
Proof.
  intros Hok Hf Ht Hstep. pose proof (interval_range p 0 Ht) as Hi. rewrite <- interval_now in Hi.
  unfold send_frame. rewrite u32_id by lia.
  destruct (publish_frame p _) as [[rc g] frames] eqn:E.
  assert (rc = 0) as ->.
  { unfold publish_frame in E.
    specialize (Hf (GoosePublisher_setTimeAllowedToLive (pub p) (2 * interval p))) as [Hp1 Hp2].
    destruct (raw p); [|by rewrite E in Hp1].
    destruct (GoosePublisher_publishAndDump _ _ _) as [[r q] f]. by simplify_eq. }
  cbn [negb Z.eqb]. destruct (Z.eqb_spec (step p) INT_MAX); [lia|].
  eexists _, frames. split; [reflexivity|]. split.
  { exists (GoosePublisher_setTimeAllowedToLive (pub p) (2 * interval p)).
    by rewrite tal_stNum, tal_sqNum, set_tal, E, (ok_st p Hok), (ok_sq p Hok). }
  split; [done|]. simpl. split_and!; [done|done|].
  destruct Ht as [_ Hclock]. specialize (Hclock (ticks w)). by rewrite u64_id by lia.
Qed.

Lemma sends_trace n p w :
  publisher_ok p → fits (values p) → plain_times p →
  sq_num p + Z.of_nat n <= 4294967295 → step p + Z.of_nat n <= INT_MAX →
  ∃ p' w' frames,
    sends n p w = Ret (p', w')
    ∧ out w' = out w ++ ((λ k, published_line (st_num p) (sq_num p + k) (2 * interval_from p k))
                         <$> seqZ 0 (Z.of_nat n))
    ∧ wire w' = wire w ++ mjoin frames
    ∧ Forall2 (λ k, frame_of p (st_num p) (sq_num p + k) (2 * interval_from p k))
        (seqZ 0 (Z.of_nat n)) frames
    ∧ ∀ m, n = S m → next_ms p' = clock (ticks w + m) + interval_from p (Z.of_nat m).
Proof.
  revert p w. induction n as [|n IH]; intros p w Hok Hf Ht Hsq Hstep; simpl sends.
  - exists p, w, []. rewrite !app_nil_r. split_and!; try done.
  - pose proof (ok_sq_range p Hok) as Hr.
    destruct (send_frame_fits p w Hok Hf Ht ltac:(lia)) as (p1 & fs & Hsend & Hfs & Hsame & Hsq1 & Hst1 & Hms).
    pose proof (send_frame_ok _ _ _ _ Hok Hsend) as Hok1. rewrite next_num_succ in Hsq1 by lia.
    rewrite Hsend. cbn [res_bind fst snd].
    assert (values p1 = values p) as Hv by apply Hsame.
    destruct (IH p1 {| out := out w ++ [published_line (st_num p) (sq_num p) (2 * interval p)];
                       wire := wire w ++ fs; ticks := S (ticks w) |} Hok1)
      as (p2 & w2 & frames & Hs2 & Ho & Hw & Hfr & Hnext);
      [by rewrite Hv|by eapply same_setup_times|lia|lia|].
    assert (∀ k, interval_from p1 k = interval_from p (1 + k)) as Hint.
    { intros k. destruct Hsame as (_ & _ & Hss & Hc & _). unfold interval_from.
      rewrite Hss, Hc, Hst1. by rewrite Z.add_assoc. }
    assert (seqZ 0 (Z.of_nat (S n)) = 0 :: ((λ k, 1 + k) <$> seqZ 0 (Z.of_nat n))) as Hseq.
    { rewrite Nat2Z.inj_succ, <- Z.add_1_l, seqZ_app by lia. simpl. f_equal.
      by rewrite <- (fmap_add_seqZ 1 0). }
    exists p2, w2, (fs :: frames). split; [exact Hs2|]. rewrite Hseq. split_and!.
    + rewrite Ho. cbn [out]. rewrite <- app_assoc. f_equal. csimpl. rewrite Z.add_0_r, interval_now.
      f_equal. rewrite <- list_fmap_compose. apply list_fmap_ext. intros _ k _. simpl.
      destruct Hsame as (Hst & _). rewrite Hst, Hsq1, Hint. f_equal. lia.
    + rewrite Hw. cbn [wire]. by rewrite <- app_assoc.
    + constructor; [by rewrite Z.add_0_r, <- interval_now|]. apply Forall2_fmap_l.
      eapply List.Forall2_impl; [|exact Hfr]. intros k x (g & Hg1 & Hg2 & Hg3 & ->). exists g.
      destruct Hsame as (Hst & Hrest). rewrite Hg1, Hg2, Hg3, Hst, Hsq1, Hint.
      split_and!; [done|lia|done|]. by rewrite (same_setup_frames p p1).
    + intros m [= <-]. destruct n as [|n].
      * simpl in Hs2. injection Hs2 as -> _. rewrite Nat.add_0_r, Hms. by rewrite interval_now.
      * rewrite (Hnext n eq_refl), Hint. cbn [ticks]. f_equal; [f_equal; lia|]. f_equal. lia.
Qed.

(** The interval after the frame number [k] of a state: the last one repeats. *)
Definition scheduled (p : Publisher) (k : Z) : Z :=
  nth (Z.to_nat (Z.min k (step_count p - 1))) (steps p) 0.

(** C9: After a state change, when the frames fit, the schedule has intervals
    below 2^31 ms, the clock is below 2^63 ms and fewer than 2^31
    retransmissions follow, each of the frames on the wire and each of the lines
    that report them carries the next stNum, sqNum 0, 1, 2, .., the new values,
    and as time allowed to live twice the interval of the schedule up to the
    next frame, the last interval repeating; the next frame is due that interval
    after the last one. *)
Theorem goose_retransmission n p v w :
  publisher_ok p → fits v → plain_times p → Z.of_nat n < INT_MAX →
  ∃ p' w' frames,
    (let* s := state_change clock p v w in sends n s.1 s.2) = Ret (p', w')
    ∧ out w' = out w ++ ((λ k, published_line (next_num (st_num p)) k (2 * scheduled p k))
                         <$> seqZ 0 (Z.of_nat n + 1))
    ∧ wire w' = wire w ++ mjoin frames
    ∧ Forall2 (λ k, frame_of (changed p v) (next_num (st_num p)) k (2 * scheduled p k))
        (seqZ 0 (Z.of_nat n + 1)) frames
    ∧ next_ms p' = clock (ticks w + n) + scheduled p (Z.of_nat n).
Proof.
  intros Hok Hf Ht Hn. unfold INT_MAX in Hn.
  change (let* s := state_change clock p v w in sends n s.1 s.2) with (sends (S n) (changed p v) w).
  destruct (sends_trace (S n) (changed p v) w) as (p' & w' & frames & Hs & Ho & Hw & Hfr & Hms);
    [by apply changed_ok|done|done|simpl; lia|unfold INT_MAX; simpl; lia|].
  rewrite Nat2Z.inj_succ in Ho, Hfr. exists p', w', frames. split_and!; try done.
  by rewrite (Hms n eq_refl).
Qed.

(** A frame is sent as long as its count is a number. *)
Lemma send_frame_returns p w : step p ≠ INT_MAX → ∃ r, send_frame clock p w = Ret r.
Proof.
  intros Hs. unfold send_frame. destruct (publish_frame _ _) as [[rc g] frames].
  destruct (if negb _ then _ else _) as [sq w']. destruct (Z.eqb_spec (step p) INT_MAX); [done|].
  by eauto.
Qed.

(** The counter of the frames of a state overflows. *)
Lemma goose_step_overflows p w : step p = INT_MAX → send_frame clock p w = Undef.
Proof.
  intros Hs. unfold send_frame. destruct (publish_frame _ _) as [[rc g] frames]. rewrite Hs.
  by destruct (negb (rc =? 0)).
Qed.

(** ** Lines of standard input *)


(** The texts the program hands to [strcmp] are null. *)
Definition null_command (cmd : json) : Prop :=
  (∃ jc, json_object_object_get_ex cmd "cmd" = Some jc ∧ json_object_get_string jc = None)
  ∨ (∃ vs c, json_object_object_get_ex cmd "values" = Some vs ∧ c ∈ json_elements vs ∧ null_type c).

Theorem goose_line_total p line w :
  json_within json_depth (json_tokener_parse line) →
  (∃ r, handle_line clock p line w = Ret r) ∨ null_command (json_tokener_parse line).
Proof.
  unfold handle_line. generalize json_depth as d. intros d Hw.
  destruct (json_object_is_type _ json_type_null); [by eauto|].
  destruct (json_object_object_get_ex _ "cmd") as [jc|] eqn:Ec; [|by eauto].
  destruct (json_object_get_string jc) as [c|] eqn:Es; [|right; left; by eauto].
  destruct (String.eqb c "set"); [|destruct (String.eqb c "stop"); by eauto].
  destruct (json_object_object_get_ex _ "values") as [vs|] eqn:Ev; [|by eauto].
  destruct (values_no_crash d vs) as [[[e|v] Hr]|(c' & Hc & Hn)].
  - destruct d as [|d]; [done|]. destruct Hw as [Hm _].
    eapply json_within_le; [|by apply (Hm _ _ Ev)]. lia.
  - rewrite Hr. by eauto.
  - rewrite Hr. unfold state_change.
    destruct (send_frame_returns (changed p v) w) as [[q x] Hs]; [done|].
    unfold changed in Hs. simpl. rewrite Hs. simpl. by eauto.
  - right. right. by eauto.
Qed.

End publisher.

(** ** The simulation path *)

(** The position of the octet with the S bit. *)
Definition sim_octet (vlan : bool) : nat := (12 + (if vlan then 4 else 0) + 2 + GOOSE_SIM_OCTET)%nat.

Lemma patch_octet src vlan frame i :
  length src = 6%nat → (sim_octet vlan < length frame)%nat →
  length (patch_frame src vlan frame) = length frame
  ∧ octet (patch_frame src vlan frame) i
    = if decide (6 <= i < 12)%nat then octet src (i - 6)
      else if decide (i = sim_octet vlan) then Z.lor (octet frame i) GOOSE_SIM_MASK
      else octet frame i.
Proof.
  intros Hs Hl. unfold patch_frame. split; [by rewrite length_insert, length_inserts|].
  fold (sim_octet vlan). unfold octet at 1.
  assert (18 <= sim_octet vlan)%nat by (unfold sim_octet, GOOSE_SIM_OCTET; destruct vlan; lia).
  rewrite list_lookup_insert. rewrite length_inserts.
  destruct (decide (6 <= i < 12)%nat) as [Hi|Hi].
  - rewrite decide_False by lia. by rewrite list_lookup_inserts by lia.
  - destruct (decide (i = sim_octet vlan)) as [->|Hne].
    + rewrite decide_True by done. simpl. unfold octet. by rewrite list_lookup_inserts_ge by lia.
    + rewrite decide_False by lia. unfold octet.
      destruct (decide (i < 6)%nat); [rewrite list_lookup_inserts_lt|rewrite list_lookup_inserts_ge];
        done || lia.
Qed.

Lemma list_inserts_middle (a b x c : list Z) :
  length x = length b → list_inserts (length a) x (a ++ b ++ c) = a ++ x ++ c.
Proof.
  revert a b. induction x as [|z x IH]; intros a b Hl; (destruct b as [|y b]; [|try done]); [done|done|].
  simpl in Hl |- *. specialize (IH (a ++ [y]) b ltac:(lia)).
  rewrite length_app in IH. simpl in IH. rewrite Nat.add_1_r, <- !app_assoc in IH. simpl in IH.
  rewrite IH, insert_app_r_alt, Nat.sub_diag by done. done.
Qed.

(** C27: Of a frame laid out as destination, source, an optional tag, EtherType,
    APPID, length and Reserved1, the patch for simulation replaces the source by
    the address given and sets the top bit (0x80, the S bit) of the first octet
    of Reserved1; every other octet is the one the library made. *)
Theorem goose_patch (src : list Z) (vlan : bool) (dst sender tag type appid len : list Z) reserved rest :
  length dst = 6%nat → length sender = 6%nat → length src = 6%nat →
  length tag = (if vlan then 4 else 0)%nat →
  length type = 2%nat → length appid = 2%nat → length len = 2%nat →
  patch_frame src vlan (dst ++ sender ++ tag ++ type ++ appid ++ len ++ reserved :: rest)
  = dst ++ src ++ tag ++ type ++ appid ++ len ++ Z.lor reserved 128 :: rest.
Proof.
  intros Hd Hse Hs Ht Hty Ha Hl. unfold patch_frame.
  pose proof (list_inserts_middle dst sender src
    (tag ++ type ++ appid ++ len ++ reserved :: rest)) as Hins.
  rewrite Hd in Hins. rewrite Hins by lia.
  assert (∀ x, dst ++ src ++ tag ++ type ++ appid ++ len ++ x :: rest
    = (dst ++ src ++ tag ++ type ++ appid ++ len) ++ x :: rest) as Happ by (intros; by rewrite !app_assoc).
  rewrite !Happ. unfold octet.
  assert (12 + (if vlan then 4 else 0) + 2 + GOOSE_SIM_OCTET
    = length (dst ++ src ++ tag ++ type ++ appid ++ len))%nat as ->.
  { rewrite !length_app, Hd, Hs, Ht, Hty, Ha, Hl. unfold GOOSE_SIM_OCTET. by destruct vlan. }
  rewrite list_lookup_middle by done. rewrite insert_app_r_alt by lia. by rewrite Nat.sub_diag.
Qed.

(** ** Witnesses *)

Definition sample_args : list string :=
  ["goose-publisher"; "--iface"; "lo"; "--gocb-ref"; "A/LLN0$GO$g"; "--values"; "[]"].

Definition sample_clock (n : nat) : Z := 10 * Z.of_nat n.

Definition sample_run : res loop_state :=
  main sample_clock None sample_args [Nothing; Octets ("x" +:+ newline); Nothing].

Lemma sample_run_runs :
  match sample_run with
  | Ret l => match program (stdin l) with Ret _ => true | _ => false end
  | _ => false
  end = true.
Proof. vm_compute. reflexivity. Qed.

Lemma goose_counters_witness :
  ∃ l p w, sample_run = Ret l ∧ program (stdin l) = Ret (p, w) ∧ publisher_ok p.
Proof.
  pose proof sample_run_runs as Hok. destruct sample_run as [l| |] eqn:Hm; [|discriminate Hok..].
  destruct (program (stdin l)) as [[p w]| |] eqn:Hp; [|discriminate Hok..].
  exists l, p, w. split; [done|]. split; [done|].
  exact (goose_counters sample_clock None sample_args _ l p w Hm Hp).
Defined.

Definition sample_publisher : Publisher :=
  {| pub := {| r_st := 1; r_sq := 0; r_tal := 0;
               r_params := {| vlanPriority := 4; vlanId := 0; appId := 4096; dstAddress := [1; 12; 205; 1; 0; 1] |} |};
     values := []; st_num := 1; sq_num := 0; steps := build_schedule 10 1000; step_count := 8;
     step := 0; next_ms := 0; raw := false; src := [2; 0; 0; 0; 0; 1]; vlan := true |}.

Definition sample_world : world := {| out := []; wire := []; ticks := 0 |}.

Lemma sample_publisher_ok : publisher_ok sample_publisher.
Proof. split; simpl; try done; unfold INT_MAX, MAX_STEPS; simpl; lia. Qed.

Definition finite_clock (n : nat) : Z := 10 * (Z.of_nat n mod 1000000).

Lemma goose_retransmission_witness :
  ∃ p' w' frames,
    (let* s := state_change finite_clock sample_publisher [] sample_world in
     sends finite_clock 10 s.1 s.2) = Ret (p', w')
    ∧ out w' = out sample_world
               ++ ((λ k, published_line (next_num (st_num sample_publisher)) k
                           (2 * scheduled sample_publisher k)) <$> seqZ 0 (Z.of_nat 10 + 1))
    ∧ wire w' = wire sample_world ++ mjoin frames
    ∧ Forall2 (λ k, frame_of (changed sample_publisher []) (next_num (st_num sample_publisher)) k
                      (2 * scheduled sample_publisher k)) (seqZ 0 (Z.of_nat 10 + 1)) frames
    ∧ next_ms p' = finite_clock (ticks sample_world + 10) + scheduled sample_publisher (Z.of_nat 10).
Proof.
  apply (goose_retransmission finite_clock 10 sample_publisher [] sample_world).
  - exact sample_publisher_ok.
  - by intros g.
  - split; [|intros k; unfold finite_clock; lia]. cbn [steps sample_publisher].
    change (build_schedule 10 1000) with [10; 20; 40; 80; 160; 320; 640; 1000]. repeat constructor; lia.
  - reflexivity.
Defined.


Lemma scalar_within n j :
  (∀ k, rget_ex j k = None) → rlength j = 0 → json_within (S n) j.
Proof.
  intros Hg Hl. split.
  - intros k c Hc. simpl in Hc. by rewrite Hg in Hc.
  - intros _ c Hc. unfold json_elements in Hc. simpl in Hc. rewrite Hl in Hc.
    by apply elem_of_nil in Hc.
Qed.

Lemma empty_array_within : json_within json_depth (json_tokener_parse "[]").
Proof. apply scalar_within; done. Qed.

Lemma goose_line_total_witness :
  (∃ r, handle_line sample_clock sample_publisher "[]" sample_world = Ret r)
  ∨ null_command (json_tokener_parse "[]").
Proof.
  exact (goose_line_total sample_clock sample_publisher "[]" sample_world empty_array_within).
Defined.

Lemma goose_patch_witness :
  patch_frame [2; 0; 0; 0; 0; 1] true
    ([1; 12; 205; 1; 0; 1] ++ [9; 9; 9; 9; 9; 9] ++ [129; 0; 128; 0] ++ [136; 184] ++ [0; 1]
     ++ [0; 20] ++ 5 :: replicate 12 7)
  = [1; 12; 205; 1; 0; 1] ++ [2; 0; 0; 0; 0; 1] ++ [129; 0; 128; 0] ++ [136; 184] ++ [0; 1]
    ++ [0; 20] ++ Z.lor 5 128 :: replicate 12 7.
Proof. apply goose_patch; reflexivity. Defined.

(** A command that is null, and a value with a null type, reach [strcmp]. *)
Lemma goose_null_command p w :
  handle_line sample_clock p ("{" +:+ Q "cmd" +:+ ":null}") w = Undef.
Proof. reflexivity. Qed.
