(* ===== verification/GooseSubscriber.v ===== *)
(** * goose_subscriber.c

    The GOOSE subscriber: the filter on the frames read from the socket, the
    table of the streams and their supervision, and the events.  libiec61850's
    receiver is the class [GooseReceiverApi]: it decodes a frame and calls the
    listener with what it decoded. *)

From Stdlib Require Import ZArith Lia String Ascii SpecFloat.
From stdpp Require Import base tactics list strings numbers option.
From S2P Require Import Prelude CText Json Mms GooseCommon L2Frame JsonLines Args.

Local Open Scope Z_scope.
Local Open Scope c_scope.

Definition MAX_STREAMS : Z := 64.
Definition RX_FRAME_MAX : Z := 2048.

(** The body of the receive loop up to [GooseReceiver_handleMessage]. *)
Definition frame_header : option Z → option (list Z) → list Z → res (option header) :=
  l2_header 184.

(** ** Streams *)

Record Stream := { gocb_ref : string; deadline_ms : Z; timed_out : bool }.

(** What the listener reads of the [GooseSubscriber]. *)
Record goose_message `{MmsApi} := {
  m_gocb_ref : string;
  m_data_set : string;
  m_go_id : string;
  m_app_id : Z;
  m_st_num : Z;
  m_sq_num : Z;
  m_tal : Z;
  m_conf_rev : Z;
  m_test : bool;
  m_nds_com : bool;
  m_values : option MmsValue;
  m_timestamp : MmsValue
}.

(** [GooseReceiver_handleMessage]: the messages the listener is called with. *)
Class GooseReceiverApi `{MmsApi} := {
  GooseReceiver_handleMessage : list Z → list goose_message
}.

Section subscriber.
Context `{JsonC} `{GooseReceiverApi}.

(** The value of the [n]-th call of [Hal_getMonotonicTimeInMs]. *)
Context (clock : nat → Z).

Record sub_state := {
  g_streams : list Stream;
  sub_out : list string;
  sub_ticks : nat
}.

Definition emit_supervision (ref state : string) : list string → list string :=
  goose_emit (json_event
    [ ("event", json_object_new_string "supervision");
      ("gocbRef", json_object_new_string ref);
      ("state", json_object_new_string state) ]).

(** The index of the first stream of that reference. *)
Fixpoint stream_index (ref : string) (l : list Stream) : option nat :=
  match l with
  | [] => None
  | s :: l' => if String.eqb (gocb_ref s) ref then Some 0%nat else S <$> stream_index ref l'
  end.

(** The streams after [stream_for(ref)] and the index of the result; the
    reference is copied into an array of 130. *)
Definition stream_for (ref : string) (l : list Stream) : list Stream * option nat :=
  match stream_index ref l with
  | Some i => (l, Some i)
  | None =>
      if Z.of_nat (length l) =? MAX_STREAMS then (l, None)
      else (l ++ [{| gocb_ref := snprintf_s 130 ref; deadline_ms := 0; timed_out := false |}],
            Some (length l))
  end.

(** One stream of the supervision loop. *)
Definition check_stream (now : Z) (acc : list Stream * list string) (s : Stream)
  : list Stream * list string :=
  let '(l, out) := acc in
  if negb (deadline_ms s =? 0) && negb (timed_out s) && (deadline_ms s <=? now)
  then (l ++ [{| gocb_ref := gocb_ref s; deadline_ms := deadline_ms s; timed_out := true |}],
        emit_supervision (gocb_ref s) "timeout" out)
  else (l ++ [s], out).

Definition check_supervision (st : sub_state) : sub_state :=
  let now := clock (sub_ticks st) in
  let '(l, out) := fold_left (check_stream now) (g_streams st) ([], sub_out st) in
  {| g_streams := l; sub_out := out; sub_ticks := S (sub_ticks st) |}.

(** The stream of a frame: the supervision ends, the deadline moves on. *)
Definition refresh_stream (ref : string) (tal : Z) (st : sub_state) : sub_state :=
  let '(l, i) := stream_for ref (g_streams st) in
  match i ≫= λ i, (λ s, (i, s)) <$> l !! i with
  | None => {| g_streams := l; sub_out := sub_out st; sub_ticks := sub_ticks st |}
  | Some (i, s) =>
      let out := if timed_out s then emit_supervision ref "ok" (sub_out st) else sub_out st in
      let '(deadline, ticks) :=
        if negb (tal =? 0) then (clock (sub_ticks st) +u64 tal, S (sub_ticks st))
        else (0, sub_ticks st) in
      {| g_streams := <[i := {| gocb_ref := gocb_ref s; deadline_ms := deadline;
                               timed_out := false |}]> l;
         sub_out := out; sub_ticks := ticks |}
  end.

(** The event of a message. *)
Definition goose_event (fuel : nat) (h : header) (m : goose_message) : res json :=
  let n := match m_values m with Some v => MmsValue_getArraySize v | None => 0 end in
  let* arr := elements_to_json (goose_value_to_json fuel) json_object_new_array
                (match m_values m with Some v => mms_elements v | None => [] end) in
  Ret (json_event
    [ ("event", json_object_new_string "goose");
      ("gocbRef", json_object_new_string (m_gocb_ref m));
      ("datSet", json_object_new_string (m_data_set m));
      ("goID", json_object_new_string (m_go_id m));
      ("appID", json_object_new_string
         (snprintf_s 8 ("0x" +:+ fmt_04x (Z.land (m_app_id m) 65535))));
      ("dst", json_object_new_string (goose_format_mac (g_dst h)));
      ("src", json_object_new_string (goose_format_mac (g_src h)));
      ("stNum", json_object_new_int64 (m_st_num m));
      ("sqNum", json_object_new_int64 (m_sq_num m));
      ("timeAllowedToLive", json_object_new_int64 (m_tal m));
      ("confRev", json_object_new_int64 (m_conf_rev m));
      ("test", json_object_new_boolean (m_test m));
      ("simulation", json_object_new_boolean (g_simulation h));
      ("ndsCom", json_object_new_boolean (m_nds_com m));
      ("numDatSetEntries", json_object_new_int n);
      ("t", json_object_new_string
         (goose_format_utc_ns (MmsValue_getUtcTimeBuffer (m_timestamp m))));
      ("values", arr) ]).

(** [listener]; [gocb_filter] is [--gocb-ref]. *)
Definition listener (fuel : nat) (gocb_filter : option string) (h : header) (m : goose_message)
    (st : sub_state) : res sub_state :=
  if match gocb_filter with Some f => negb (String.eqb (m_gocb_ref m) f) | None => false end
  then Ret st
  else
    let st := refresh_stream (m_gocb_ref m) (m_tal m) st in
    let* e := goose_event fuel h m in
    Ret {| g_streams := g_streams st; sub_out := goose_emit e (sub_out st);
           sub_ticks := sub_ticks st |}.

(** The calls of the listener for one frame. *)
Fixpoint handle_messages (fuel : nat) (gocb_filter : option string) (h : header)
    (l : list goose_message) (st : sub_state) : res sub_state :=
  match l with
  | [] => Ret st
  | m :: l' => let* st := listener fuel gocb_filter h m st in
               handle_messages fuel gocb_filter h l' st
  end.

(** ** [main] *)

Record sub_options := {
  s_iface : string;
  s_app_id : option Z;
  s_dst : option (list Z);
  s_gocb_ref : option string
}.

Definition sub_valued : list string := ["--iface"; "--app-id"; "--gocb-ref"; "--dst"].

(** Every APPID and address given is read, the last one counts. *)
Definition sub_check (m : given) : bool :=
  forallb (λ '(k, v),
    if String.eqb k "--app-id" then bool_decide (is_Some (goose_parse_appid v))
    else if String.eqb k "--dst" then bool_decide (is_Some (goose_parse_mac v))
    else true) m.

Definition sub_parse (argv : list string) : res sub_options :=
  let* m := parse_args sub_valued [] (tail argv) [] in
  if sub_check m then
    Ret {| s_iface := option_string m "--iface" "eth0";
           s_app_id := option_value m "--app-id" ≫= goose_parse_appid;
           s_dst := option_value m "--dst" ≫= goose_parse_mac;
           s_gocb_ref := option_value m "--gocb-ref" |}
  else Exit 1.

(** A frame read from the socket, of at most [RX_FRAME_MAX] octets. *)
Definition on_frame (fuel : nat) (o : sub_options) (frame : list Z) (st : sub_state)
  : res sub_state :=
  let* h := frame_header (s_app_id o) (s_dst o) frame in
  match h with
  | None => Ret st
  | Some h => handle_messages fuel (s_gocb_ref o) h (GooseReceiver_handleMessage frame) st
  end.

Fixpoint on_frames (fuel : nat) (o : sub_options) (frames : list (list Z)) (st : sub_state)
  : res sub_state :=
  match frames with
  | [] => Ret st
  | f :: frames' => let* st := on_frame fuel o f st in on_frames fuel o frames' st
  end.

(** One turn of [while (g_running)]: the frames the socket holds. *)
Definition sub_turn (fuel : nat) (o : sub_options) (frames : list (list Z)) (st : sub_state)
  : res sub_state :=
  on_frames fuel o frames (check_supervision st).

Fixpoint sub_loop (fuel : nat) (o : sub_options) (turns : list (list (list Z))) (st : sub_state)
  : res sub_state :=
  match turns with
  | [] => Ret st
  | t :: turns' => let* st := sub_turn fuel o t st in sub_loop fuel o turns' st
  end.

(** [socket_ok]: the raw socket could be opened; [own]: the address of the
    interface. *)
Definition sub_main (fuel : nat) (version : option string) (socket_ok : bool) (own : list Z)
    (argv : list string) (turns : list (list (list Z))) : res sub_state :=
  match jl_handle_meta_flags version argv "libiec61850" with
  | Some _ => Exit 0
  | None =>
      let* o := sub_parse argv in
      if negb socket_ok then Exit 1 else
      sub_loop fuel o turns
        {| g_streams := [];
           sub_out := goose_emit_ready version "subscriber" (s_iface o) own (s_gocb_ref o) [];
           sub_ticks := 0 |}
  end.

End subscriber.
