(* ===== verification/GooseSubscriberSpec.v ===== *)
(** * Theorems about goose_subscriber.c

    Reading a frame stays within it; the subscriber sees what the publisher's
    simulation path wrote; the supervision of every stream alternates between
    timeout and ok, in a table whose references stay distinct. *)

From Stdlib Require Import ZArith Lia String Ascii SpecFloat.
From stdpp Require Import base tactics list strings numbers option.
From S2P Require Import Prelude CText Json Mms GooseCommon GooseCommonSpec JsonLines Args.
From S2P Require Import L2Frame GoosePublisher GoosePublisherSpec GooseSubscriber RefJson RefMms.

Local Open Scope Z_scope.
Local Open Scope c_scope.

(** ** Frames *)

(** A tagged frame the publisher patched for simulation is recognised by
    the subscriber as simulated, with the source address the publisher wrote and
    the APPID of the frame. *)
Theorem goose_simulation_seen src frame :
  length src = 6%nat → (26 <= length frame)%nat →
  octet frame 12 = 129 → octet frame 13 = 0 → octet frame 16 = 136 → octet frame 17 = 184 →
  frame_header None None (patch_frame src true frame)
  = Ret (Some {| g_dst := firstn 6 frame; g_src := src;
                 g_app_id := u16 (Z.lor (Z.shiftl (octet frame 18) 8) (octet frame 19));
                 g_simulation := true; g_hdr := 18 |}).
Proof.
  intros Hs Hl H12 H13 H16 H17.
  assert (length (patch_frame src true frame) = length frame) as Hlen
    by (apply (patch_octet src true frame 0); unfold sim_octet, GOOSE_SIM_OCTET; lia).
  assert (∀ i, octet (patch_frame src true frame) i
    = if decide (6 <= i < 12)%nat then octet src (i - 6)
      else if decide (i = 22)%nat then Z.lor (octet frame i) 128 else octet frame i) as Ho.
  { intros i. apply (patch_octet src true frame i); unfold sim_octet, GOOSE_SIM_OCTET; lia. }
  generalize dependent (patch_frame src true frame). intros q Hlen Ho.
  unfold frame_header, l2_header. rewrite Hlen. destruct (Z.ltb_spec (Z.of_nat (length frame)) 14); [lia|].
  rewrite !at_index_ok by lia. change (Z.to_nat 12) with 12%nat. change (Z.to_nat 13) with 13%nat.
  rewrite !Ho. simpl. rewrite H12, H13. simpl.
  destruct (Z.ltb_spec (Z.of_nat (length frame)) 26); [lia|].
  rewrite !at_index_ok by (unfold GOOSE_SIM_OCTET; lia). 
  change (Z.to_nat 16) with 16%nat. change (Z.to_nat (16 + 1)) with 17%nat.
  change (Z.to_nat (16 + 2 + 4)) with 22%nat.
  rewrite !Ho. simpl. rewrite H16, H17. simpl.
  destruct (Z.ltb_spec (Z.of_nat (length frame)) (16 + 10)); [lia|].
  rewrite !slice_ok by lia. cbn [res_bind]. rewrite drop_0.
  change (Z.to_nat (16 + 2 + Z.of_nat GOOSE_SIM_OCTET)) with 22%nat.
  change (Z.to_nat (16 + 2)) with 18%nat. change (Z.to_nat (16 + 2 + 1)) with 19%nat.
  fold GOOSE_SIM_MASK. rewrite sim_bit_set. do 3 f_equal.
  - apply (take_octets 6 0 0); [lia..|]. intros i Hi. rewrite Ho.
    by rewrite !decide_False by lia.
  - transitivity (take 6 (drop 0 src)); [|by rewrite drop_0, take_ge by lia].
    apply (take_octets 6 6 0 _ src); [lia..|]. intros i Hi. rewrite Ho, decide_True by lia.
    f_equal. lia.
Qed.

Lemma goose_simulation_seen_witness :
  frame_header None None
    (patch_frame [2; 0; 0; 0; 0; 1] true
       (replicate 12 1 ++ [129; 0; 128; 0; 136; 184] ++ replicate 10 0))
  = Ret (Some {| g_dst := firstn 6 (replicate 12 1 ++ [129; 0; 128; 0; 136; 184] ++ replicate 10 0);
                 g_src := [2; 0; 0; 0; 0; 1]; g_app_id := 0; g_simulation := true; g_hdr := 18 |}).
Proof.
  apply (goose_simulation_seen [2; 0; 0; 0; 0; 1]
           (replicate 12 1 ++ [129; 0; 128; 0; 136; 184] ++ replicate 10 0));
    first [reflexivity|simpl; lia].
Defined.

(** ** Supervision *)

Section supervision.
Context `{JsonLaws} (clock : nat → Z).

Definition supervision_line (ref state : string) : string :=
  List.hd "" (emit_supervision ref state []).

(** A stream whose deadline has passed without it being reported. *)
Definition expires (now : Z) (s : Stream) : bool :=
  negb (deadline_ms s =? 0) && negb (timed_out s) && (deadline_ms s <=? now).

Definition expire (now : Z) (s : Stream) : Stream :=
  if expires now s
  then {| gocb_ref := gocb_ref s; deadline_ms := deadline_ms s; timed_out := true |} else s.

Lemma check_fold now l l0 out :
  fold_left (check_stream now) l (l0, out)
  = (l0 ++ (expire now <$> l),
     out ++ ((λ s, supervision_line (gocb_ref s) "timeout") <$> filter (λ s, expires now s = true) l)).
Proof.
  revert l0 out. induction l as [|s l IH]; intros l0 out; [simpl; by rewrite !app_nil_r|].
  cbn [fold_left]. rewrite fmap_cons, filter_cons. unfold check_stream at 2. unfold expire at 1.
  fold (expires now s).
  destruct (expires now s); rewrite IH, <- app_assoc; [|done].
  rewrite decide_True, fmap_cons by done. f_equal. unfold emit_supervision at 1, goose_emit.
  by rewrite <- app_assoc.
Qed.

(** A supervision check reports exactly the streams whose deadline has
    passed, once each and in table order, and marks them; the others stay as
    they are. *)
Theorem goose_check_supervision st :
  let now := clock (sub_ticks st) in
  g_streams (check_supervision clock st) = expire now <$> g_streams st
  ∧ sub_out (check_supervision clock st)
    = sub_out st ++ ((λ s, supervision_line (gocb_ref s) "timeout")
                     <$> filter (λ s, expires now s = true) (g_streams st)).
Proof. cbv zeta. unfold check_supervision. rewrite check_fold. done. Qed.

(** ** The sequence of supervision events *)

(** What happens to the supervision: a turn of the loop, or a frame of a
    stream with its timeAllowedToLive. *)
Inductive sup_action :=
| Check
| Frame (ref : string) (tal : Z).

Definition sup_step (st : sub_state) (a : sup_action) : sub_state :=
  match a with
  | Check => check_supervision clock st
  | Frame ref tal => refresh_stream clock ref tal st
  end.

(** Whether a stream of that reference is timed out. *)
Definition timed (l : list Stream) (r : string) : bool :=
  existsb (λ s, String.eqb (gocb_ref s) r && timed_out s) l.

(** The events of a step: a reference, and true for ok, false for timeout. *)
Definition sup_events (st : sub_state) (a : sup_action) : list (string * bool) :=
  match a with
  | Check => (λ s, (gocb_ref s, false))
             <$> filter (λ s, expires (clock (sub_ticks st)) s = true) (g_streams st)
  | Frame ref tal => if timed (g_streams st) ref then [(ref, true)] else []
  end.

Definition event_line (e : string * bool) : string :=
  supervision_line e.1 (if e.2 then "ok" else "timeout").

(** The events of one reference. *)
Definition of_ref (r : string) (evs : list (string * bool)) : list bool :=
  snd <$> filter (λ e, e.1 = r) evs.

(** Timeout and ok in turn, the next one being ok if [b]. *)
Fixpoint alternating (b : bool) (l : list bool) : Prop :=
  match l with
  | [] => True
  | x :: l' => x = b ∧ alternating (negb b) l'
  end.

Definition next_event (b : bool) (l : list bool) : bool := fold_left (λ _ x, negb x) l b.

Lemma alternating_app b l l' :
  alternating b l → alternating (next_event b l) l' → alternating b (l ++ l').
Proof.
  revert b. induction l as [|x l IH]; intros b; [done|]. simpl. intros [-> Hl] Hl'. auto.
Qed.

Definition short_ref (ref : string) : Prop := (String.length ref < 130)%nat.

(** The references in the table are distinct and complete, and it is no
    larger than its array. *)
Record table_ok (l : list Stream) : Prop := {
  table_nodup : NoDup (gocb_ref <$> l);
  table_size : Z.of_nat (length l) <= MAX_STREAMS
}.

Lemma timed_app l l' r : timed (l ++ l') r = timed l r || timed l' r.
Proof. apply existsb_app. Qed.

Lemma timed_cons s l r :
  timed (s :: l) r = String.eqb (gocb_ref s) r && timed_out s || timed l r.
Proof. done. Qed.

Lemma of_ref_cons r e evs :
  of_ref r (e :: evs) = if decide (e.1 = r) then e.2 :: of_ref r evs else of_ref r evs.
Proof. unfold of_ref. rewrite filter_cons. by case_decide. Qed.

Lemma of_ref_absent r (l : list string) : r ∉ l → of_ref r ((λ x, (x, false)) <$> l) = [].
Proof.
  induction l as [|x l IH]; [done|]. intros [? ?]%not_elem_of_cons. rewrite fmap_cons, of_ref_cons.
  rewrite decide_False by (simpl; congruence). auto.
Qed.

Lemma expire_ref now s : gocb_ref (expire now s) = gocb_ref s.
Proof. unfold expire. by destruct (expires now s). Qed.

Lemma expire_refs now (l : list Stream) : gocb_ref <$> (expire now <$> l) = gocb_ref <$> l.
Proof. rewrite <- list_fmap_compose. apply list_fmap_ext. intros. apply expire_ref. Qed.

Lemma timed_absent (l : list Stream) r : r ∉ gocb_ref <$> l → timed l r = false.
Proof.
  intros Hr. apply existsb_false_iff. intros s Hs.
  destruct (String.eqb_spec (gocb_ref s) r) as [<-|]; [|done].
  destruct Hr. by apply list_elem_of_fmap_2.
Qed.

Lemma stream_index_split ref l i :
  stream_index ref l = Some i →
  ∃ l1 s l2, l = l1 ++ s :: l2 ∧ length l1 = i ∧ gocb_ref s = ref.
Proof.
  revert i. induction l as [|s l IH]; intros i Hi; simpl in Hi; [done|].
  destruct (String.eqb_spec (gocb_ref s) ref) as [Hs|].
  - simplify_eq. by exists [], s, l.
  - destruct (stream_index ref l) as [j|]; [|done]. simplify_eq/=.
    destruct (IH j eq_refl) as (l1 & s' & l2 & -> & <- & <-). by exists (s :: l1), s', l2.
Qed.

Lemma stream_index_none ref l : stream_index ref l = None → ref ∉ gocb_ref <$> l.
Proof.
  induction l as [|s l IH]; simpl; intros Hi.
  - by apply not_elem_of_nil.
  - destruct (String.eqb_spec (gocb_ref s) ref); [done|].
    destruct (stream_index ref l); [done|]. apply not_elem_of_cons. auto.
Qed.

Lemma snprintf_s_short n s : (String.length s < n)%nat → snprintf_s n s = s.
Proof.
  unfold snprintf_s. intros Hn. assert (String.length s <= n - 1)%nat as Hl by lia. clear Hn.
  revert Hl. generalize (n - 1)%nat. induction s as [|c s IH]; intros k Hk.
  - by destruct k.
  - destruct k as [|k]; simpl in *; [lia|]. f_equal. apply IH. lia.
Qed.

(** A check, seen from one reference. *)
Lemma check_events now (l : list Stream) r :
  NoDup (gocb_ref <$> l) →
  let evs := of_ref r ((λ s, (gocb_ref s, false)) <$> filter (λ s, expires now s = true) l) in
  alternating (timed l r) evs ∧ next_event (timed l r) evs = timed (expire now <$> l) r.
Proof.
  intros Hd. cbv zeta. induction l as [|s l IH]; [done|].
  rewrite fmap_cons in Hd. apply list.NoDup_cons in Hd as [Hs Hd]. specialize (IH Hd).
  rewrite fmap_cons, !timed_cons, expire_ref, filter_cons.
  destruct (String.eqb_spec (gocb_ref s) r) as [<-|Hr]; simpl.
  - rewrite (timed_absent l), (timed_absent (expire now <$> l)) by (by rewrite ?expire_refs).
    rewrite !orb_false_r.
    assert (of_ref (gocb_ref s) ((λ s, (gocb_ref s, false)) <$> filter (λ s, expires now s = true) l) = [])
      as Hnil.
    { rewrite (list_fmap_compose gocb_ref (λ x, (x, false))). apply of_ref_absent.
      intros (s' & Hs' & [_ Hin]%list_elem_of_filter)%list_elem_of_fmap. apply Hs.
      rewrite Hs'. by apply list_elem_of_fmap_2. }
    unfold expire. destruct (expires now s) eqn:E.
    + rewrite decide_True, fmap_cons, of_ref_cons, decide_True, Hnil by done.
      unfold expires in E. by destruct (timed_out s); rewrite ?andb_false_r in E.
    + rewrite decide_False, Hnil by done. done.
  - destruct (expires now s).
    + rewrite decide_True, fmap_cons, of_ref_cons, decide_False by done. done.
    + by rewrite decide_False by done.
Qed.

(** A stream put in the place of one of the same reference. *)
Lemma timed_replace l1 s s' l2 r :
  gocb_ref s' = gocb_ref s → timed_out s' = false →
  NoDup (gocb_ref <$> (l1 ++ s :: l2)) →
  timed (l1 ++ s' :: l2) r
  = if String.eqb (gocb_ref s) r then false else timed (l1 ++ s :: l2) r.
Proof.
  intros Hr Ht Hd. rewrite !timed_app, !timed_cons, Hr, Ht, andb_false_r, orb_false_l.
  destruct (String.eqb_spec (gocb_ref s) r) as [<-|]; [|done].
  rewrite fmap_app, fmap_cons in Hd. apply list.NoDup_app in Hd as (_ & Hl1 & Hl2%list.NoDup_cons).
  rewrite !timed_absent; [done|tauto|].
  intros Hin. apply (Hl1 _ Hin). by left.
Qed.

Lemma refresh_known ref tal st i :
  stream_index ref (g_streams st) = Some i →
  ∃ l1 s l2 s', g_streams st = l1 ++ s :: l2 ∧ gocb_ref s = ref
    ∧ gocb_ref s' = ref ∧ timed_out s' = false
    ∧ g_streams (refresh_stream clock ref tal st) = l1 ++ s' :: l2
    ∧ sub_out (refresh_stream clock ref tal st)
      = sub_out st ++ (if timed_out s then [supervision_line ref "ok"] else []).
Proof.
  intros Hi. destruct (stream_index_split _ _ _ Hi) as (l1 & s & l2 & Hl & Hlen & Hs).
  unfold refresh_stream, stream_for. rewrite Hi. simpl. rewrite Hl, <- Hlen, list_lookup_middle by done.
  simpl. exists l1, s, l2.
  exists {| gocb_ref := gocb_ref s; timed_out := false;
            deadline_ms := if negb (tal =? 0) then clock (sub_ticks st) +u64 tal else 0 |}.
  assert (∀ x, <[length l1:=x]> (l1 ++ s :: l2) = l1 ++ x :: l2) as Hins.
  { intros x. by rewrite insert_app_r_alt, Nat.sub_diag by lia. }
  destruct (negb (tal =? 0)); simpl; rewrite Hins; (split; [done|]); (split; [done|]);
    (split; [done|]); (split; [done|]); (split; [reflexivity|]);
    destruct (timed_out s); rewrite ?app_nil_r; done.
Qed.

Lemma refresh_new ref tal st :
  stream_index ref (g_streams st) = None →
  sub_out (refresh_stream clock ref tal st) = sub_out st
  ∧ (g_streams (refresh_stream clock ref tal st) = g_streams st
     ∨ Z.of_nat (length (g_streams st)) ≠ MAX_STREAMS
       ∧ ∃ s, gocb_ref s = snprintf_s 130 ref ∧ timed_out s = false
         ∧ g_streams (refresh_stream clock ref tal st) = g_streams st ++ [s]).
Proof.
  intros Hi. unfold refresh_stream, stream_for. rewrite Hi.
  destruct (Z.eqb_spec (Z.of_nat (length (g_streams st))) MAX_STREAMS); simpl; [by auto|].
  rewrite list_lookup_middle by done. simpl.
  assert (∀ x y, <[length (g_streams st):=x]> (g_streams st ++ [y]) = g_streams st ++ [x]) as Hins.
  { intros x y. by rewrite insert_app_r_alt, Nat.sub_diag by lia. }
  destruct (negb (tal =? 0)); simpl; (split; [done|right; split; [done|]]);
    rewrite Hins; (eexists; split; [|split; [|reflexivity]]); done.
Qed.

(** A step that keeps the table and does to reference [r] what it reports. *)
Definition step_ok (st st' : sub_state) (evs : list (string * bool)) (r : string) : Prop :=
  table_ok (g_streams st')
  ∧ sub_out st' = sub_out st ++ (event_line <$> evs)
  ∧ alternating (timed (g_streams st) r) (of_ref r evs)
  ∧ next_event (timed (g_streams st) r) (of_ref r evs) = timed (g_streams st') r.

Lemma check_ok st r :
  table_ok (g_streams st) → step_ok st (sup_step st Check) (sup_events st Check) r.
Proof.
  intros [Hd Hsz]. unfold step_ok, sup_step, check_supervision, sup_events. rewrite check_fold. simpl.
  split; [split; [by rewrite expire_refs|by rewrite length_fmap]|].
  split; [by rewrite <- list_fmap_compose|]. by apply check_events.
Qed.

Lemma frame_known_ok st ref tal i r :
  table_ok (g_streams st) → stream_index ref (g_streams st) = Some i →
  step_ok st (sup_step st (Frame ref tal)) (sup_events st (Frame ref tal)) r.
Proof.
  intros [Hd Hsz] Hi. unfold step_ok, sup_step, sup_events.
  destruct (refresh_known ref tal st i Hi) as (l1 & s & l2 & s' & Hl & Hs & Hs' & Ht & Hg & Ho).
  rewrite Hl in Hd, Hsz |- *. rewrite Hg, Ho.
  assert (timed (l1 ++ s :: l2) ref = timed_out s) as Hts.
  { rewrite fmap_app, fmap_cons in Hd. apply list.NoDup_app in Hd as (_ & Hl1 & Hl2%list.NoDup_cons).
    rewrite timed_app, timed_cons, Hs, String.eqb_refl, !timed_absent; try tauto.
    - by rewrite orb_false_r.
    - rewrite <- Hs. tauto.
    - intros Hin. apply (Hl1 _ Hin). rewrite Hs. by left. }
  rewrite Hts, (timed_replace l1 s s' l2 r) by (done || congruence). rewrite Hs.
  split; [split|split].
  - rewrite fmap_app, fmap_cons in *. congruence.
  - rewrite length_app in *. simpl in *. lia.
  - by destruct (timed_out s).
  - destruct (String.eqb_spec ref r) as [<-|].
    + rewrite Hts. destruct (timed_out s); [|done]. rewrite of_ref_cons, decide_True by done. done.
    + destruct (timed_out s); [|done]. rewrite of_ref_cons, decide_False by done. done.
Qed.

Lemma frame_new_ok st ref tal r :
  table_ok (g_streams st) → short_ref ref → stream_index ref (g_streams st) = None →
  step_ok st (sup_step st (Frame ref tal)) (sup_events st (Frame ref tal)) r.
Proof.
  intros [Hd Hsz] Hshort Hi. unfold step_ok, sup_step, sup_events.
  pose proof (stream_index_none _ _ Hi) as Hn. rewrite (timed_absent _ ref) by done.
  destruct (refresh_new ref tal st Hi) as [-> [-> | (Hlt & s & Hs & Ht & ->)]];
    simpl; rewrite app_nil_r; [done|].
  rewrite snprintf_s_short in Hs by done.
  rewrite timed_app, timed_cons, Ht, andb_false_r, !orb_false_r. split; [split|done].
  - rewrite fmap_app. simpl. rewrite Hs. apply list.NoDup_app. split; [done|]. split; [|apply NoDup_singleton].
    intros x Hx ->%list_elem_of_singleton. done.
  - rewrite length_app. simpl. lia.
Qed.

Lemma sup_step_ok st a r :
  table_ok (g_streams st) → match a with Frame ref _ => short_ref ref | Check => True end →
  step_ok st (sup_step st a) (sup_events st a) r.
Proof.
  intros Ht Ha. destruct a as [|ref tal]; [by apply check_ok|].
  destruct (stream_index ref (g_streams st)) as [i|] eqn:Hi;
    [by eapply frame_known_ok|by apply frame_new_ok].
Qed.

(** C15: Whatever the order of frames and supervision checks, the stream table
    of the GOOSE subscriber never holds a reference twice nor more than 64, and
    the supervision events of every reference are timeout, ok, timeout, .. in
    turn. *)
Theorem goose_supervision_alternates acts st :
  g_streams st = [] → Forall (λ a, match a with Frame ref _ => short_ref ref | Check => True end) acts →
  ∃ evs, sub_out (fold_left sup_step acts st) = sub_out st ++ (event_line <$> evs)
         ∧ (∀ r, alternating false (of_ref r evs))
         ∧ table_ok (g_streams (fold_left sup_step acts st)).
Proof.
  intros Hst Ha.
  assert (∀ st, table_ok (g_streams st) →
    ∃ evs, sub_out (fold_left sup_step acts st) = sub_out st ++ (event_line <$> evs)
           ∧ (∀ r, alternating (timed (g_streams st) r) (of_ref r evs))
           ∧ table_ok (g_streams (fold_left sup_step acts st))) as Hgen.
  { clear st Hst. induction Ha as [|a acts Ha _ IH]; intros st Ht.
    - exists []. simpl. rewrite app_nil_r. done.
    - destruct (sup_step_ok st a "" Ht Ha) as (Ht' & Ho & _).
      destruct (IH (sup_step st a) Ht') as (evs & Ho' & Halt & Htf).
      exists (sup_events st a ++ evs). simpl. rewrite Ho', Ho, fmap_app, <- app_assoc.
      split; [done|]. split; [|done]. intros r. unfold of_ref. rewrite list.filter_app, fmap_app.
      destruct (sup_step_ok st a r Ht Ha) as (_ & _ & Hr & Hnext).
      apply alternating_app; [done|]. unfold of_ref in Hnext. rewrite Hnext. apply Halt. }
  destruct (Hgen st) as (evs & Ho & Hr & Ht).
  - rewrite Hst. split; [apply NoDup_nil_2|]. unfold MAX_STREAMS. simpl. lia.
  - exists evs. rewrite Hst in Hr. done.
Qed.

End supervision.

Definition sub_start : sub_state := {| g_streams := []; sub_out := []; sub_ticks := 0 |}.

Definition sample_actions : list sup_action :=
  [Frame "A" 20; Check; Check; Check; Frame "A" 20; Frame "B" 0; Check].

Lemma goose_supervision_alternates_witness :
  ∃ evs, sub_out (fold_left (sup_step sample_clock) sample_actions sub_start)
         = sub_out sub_start ++ (event_line <$> evs)
         ∧ (∀ r, alternating false (of_ref r evs))
         ∧ table_ok (g_streams (fold_left (sup_step sample_clock) sample_actions sub_start)).
Proof.
  apply (goose_supervision_alternates sample_clock sample_actions sub_start); [reflexivity|].
  repeat constructor; unfold short_ref; simpl; lia.
Defined.

(** What the sample run reports. *)
Lemma sample_supervision :
  sub_out (fold_left (sup_step sample_clock) sample_actions sub_start)
  = [event_line ("A", false); event_line ("A", true)].
Proof. reflexivity. Qed.
