(* ===== verification/SvSubscriber.v ===== *)
(** * sv_subscriber.c

    The Sampled Values subscriber: the fixture streams, the table of the
    streams and the loss accounting, the decoding of seqData, the events, and
    the reading of noASDU from the savPdu.  libiec61850's ASDU is the class
    [SvAsduApi]. *)

From Stdlib Require Import ZArith Lia String Ascii SpecFloat.
From stdpp Require Import base tactics list strings numbers option.
From S2P Require Import Prelude CText Json Mms GooseCommon SvCommon L2Frame JsonLines Args.

Local Open Scope Z_scope.
Local Open Scope c_scope.

Definition MAX_STREAMS : Z := 64.
Definition MAX_FIXTURES : Z := 16.
Definition MAX_MEMBERS : Z := 64.

(** The getters of sv_subscriber.h the program calls, and
    [SVReceiver_handleL2Message]: the ASDUs the listener is called with, given
    the APPIDs that have a subscriber. *)
Class SvAsduApi := {
  SVSubscriber_ASDU : Type;
  SVSubscriber_ASDU_getSvId : SVSubscriber_ASDU → option string;
  SVSubscriber_ASDU_getSmpCnt : SVSubscriber_ASDU → Z;
  SVSubscriber_ASDU_hasDatSet : SVSubscriber_ASDU → bool;
  SVSubscriber_ASDU_getDatSet : SVSubscriber_ASDU → string;
  SVSubscriber_ASDU_getConfRev : SVSubscriber_ASDU → Z;
  SVSubscriber_ASDU_hasRefrTm : SVSubscriber_ASDU → bool;
  SVSubscriber_ASDU_getRefrTmAsNs : SVSubscriber_ASDU → Z;
  SVSubscriber_ASDU_getSmpSynch : SVSubscriber_ASDU → Z;
  SVSubscriber_ASDU_hasSmpRate : SVSubscriber_ASDU → bool;
  SVSubscriber_ASDU_getSmpRate : SVSubscriber_ASDU → Z;
  SVSubscriber_ASDU_hasSmpMod : SVSubscriber_ASDU → bool;
  SVSubscriber_ASDU_getSmpMod : SVSubscriber_ASDU → Z;
  SVSubscriber_ASDU_getDataSize : SVSubscriber_ASDU → Z;
  SVSubscriber_ASDU_getINT32 : SVSubscriber_ASDU → Z → Z;
  SVSubscriber_ASDU_getINT32U : SVSubscriber_ASDU → Z → Z;
  SVSubscriber_ASDU_getFLOAT32 : SVSubscriber_ASDU → Z → spec_float;
  SVSubscriber_ASDU_getFLOAT64 : SVSubscriber_ASDU → Z → spec_float;
  SVSubscriber_ASDU_getINT8U : SVSubscriber_ASDU → Z → Z;
  SVSubscriber_ASDU_getQuality : SVSubscriber_ASDU → Z → Z;
  SVSubscriber_ASDU_getTimestampMs : SVSubscriber_ASDU → Z → Z;
  SVReceiver_handleL2Message : list Z → list Z → list SVSubscriber_ASDU
}.

(** ** The fixture *)

Record FixtureStream := { f_sv_id : string; f_types : list SvType; f_wrap : Z }.

Section fixture.
Context `{JsonC}.

(** [for (i = 0; i < json_object_array_length(jmembers) && f->count < MAX_MEMBERS; i++)]:
    the types and [ok].  A type that has no name leaves its slot as it was;
    the stream is dropped then, whatever the slot holds. *)
Fixpoint load_members (l : list json) (types : list SvType) (ok : bool)
  : res (list SvType * bool) :=
  match l with
  | [] => Ret (types, ok)
  | m :: l' =>
      if MAX_MEMBERS <=? Z.of_nat (length types) then Ret (types, ok) else
      match json_object_object_get_ex m "type" with
      | None => load_members l' types false
      | Some jt =>
          match json_object_get_string jt with
          | None => Undef
          | Some name =>
              match sv_type_from_name name with
              | Some t => load_members l' (types ++ [t]) ok
              | None => load_members l' (types ++ [SV_INT32]) false
              end
          end
      end
  end.

(** One member of ["streams"]; [None] when it is skipped.  [printf] writes
    ["(null)"] for a null pointer; an array function aborts on another type. *)
Definition load_stream (s : json) : res (option FixtureStream) :=
  match json_object_object_get_ex s "svID", json_object_object_get_ex s "members" with
  | Some jid, Some jmembers =>
      if negb (json_object_is_type jmembers json_type_array) then Undef else
      let* r := load_members (json_elements jmembers) [] true in
      let '(types, ok) := r in
      Ret (if ok : bool then
             Some {| f_sv_id := snprintf_s 130 (default "(null)" (json_object_get_string jid));
                     f_types := types;
                     f_wrap := match json_object_object_get_ex s "smpCntWrap" with
                               | Some jwrap => u32 (json_object_get_int jwrap)
                               | None => 0
                               end |}
           else None)
  | _, _ => Ret None
  end.

Fixpoint load_streams (l : list (string * json)) (fixtures : list FixtureStream)
  : res (list FixtureStream) :=
  match l with
  | [] => Ret fixtures
  | (_, s) :: l' =>
      if Z.of_nat (length fixtures) =? MAX_FIXTURES then Ret fixtures else
      let* f := load_stream s in
      load_streams l' (match f with Some f => fixtures ++ [f] | None => fixtures end)
  end.

(** [root] is what [json_object_from_file] gives, [None] for a null pointer. *)
Definition load_fixture (root : option json) : res (list FixtureStream) :=
  match root ≫= λ r, json_object_object_get_ex r "streams" with
  | None => Ret []
  | Some streams =>
      if negb (json_object_is_type streams json_type_object) then Undef
      else load_streams (json_object_object_foreach streams) []
  end.

End fixture.

Fixpoint fixture_for (sv_id : string) (l : list FixtureStream) : option FixtureStream :=
  match l with
  | [] => None
  | f :: l' => if String.eqb (f_sv_id f) sv_id then Some f else fixture_for sv_id l'
  end.

(** ** Loss accounting *)

(** [s_wrap] is 0 when it is learned from [s_max_seen]. *)
Record Stream := {
  s_app_id : Z;
  s_sv_id : string;
  s_has_last : bool;
  s_last : Z;
  s_max_seen : Z;
  s_wrap : Z;
  s_fixture : option FixtureStream
}.

Record counters := { g_received : Z; g_lost : Z; g_duplicates : Z; g_out_of_order : Z }.

Fixpoint stream_index (app_id : Z) (sv_id : string) (l : list Stream) : option nat :=
  match l with
  | [] => None
  | s :: l' => if (s_app_id s =? app_id) && String.eqb (s_sv_id s) sv_id then Some 0%nat
               else S <$> stream_index app_id sv_id l'
  end.

(** The streams after [stream_for] and the index of the result. *)
Definition stream_for (fixtures : list FixtureStream) (app_id : Z) (sv_id : string)
    (l : list Stream) : list Stream * option nat :=
  match stream_index app_id sv_id l with
  | Some i => (l, Some i)
  | None =>
      if Z.of_nat (length l) =? MAX_STREAMS then (l, None)
      else
        let fixture := fixture_for sv_id fixtures in
        (l ++ [{| s_app_id := app_id; s_sv_id := snprintf_s 130 sv_id; s_has_last := false;
                  s_last := 0; s_max_seen := 0;
                  s_wrap := match fixture with Some f => f_wrap f | None => 0 end;
                  s_fixture := fixture |}],
         Some (length l))
  end.

(** A stream whose last sample is [last] and largest [max_seen]. *)
Definition seen (s : Stream) (last max_seen : Z) : Stream :=
  {| s_app_id := s_app_id s; s_sv_id := s_sv_id s; s_has_last := true; s_last := last;
     s_max_seen := max_seen; s_wrap := s_wrap s; s_fixture := s_fixture s |}.

(** The counting rules; [smp_cnt] is at most 16 bits wide. *)
Definition count (s : Stream) (c : counters) (smp_cnt : Z) : Stream * counters :=
  let c := {| g_received := g_received c +u64 1; g_lost := g_lost c;
              g_duplicates := g_duplicates c; g_out_of_order := g_out_of_order c |} in
  let lose n := {| g_received := g_received c; g_lost := g_lost c +u64 n;
                   g_duplicates := g_duplicates c; g_out_of_order := g_out_of_order c |} in
  if negb (s_has_last s) then (seen s smp_cnt smp_cnt, c)
  else
    let max_seen := if s_max_seen s <? smp_cnt then smp_cnt else s_max_seen s in
    let d := smp_cnt - s_last s in
    if d =? 1 then (seen s smp_cnt max_seen, c)
    else if d =? 0 then
      (seen s (s_last s) max_seen,
       {| g_received := g_received c; g_lost := g_lost c;
          g_duplicates := g_duplicates c +u64 1; g_out_of_order := g_out_of_order c |})
    else if 1 <? d then (seen s smp_cnt max_seen, lose (d - 1))
    else
      let wrap := if negb (s_wrap s =? 0) then s_wrap s else max_seen +u32 1 in
      if wrap / 2 <? s_last s -u32 smp_cnt
      then (seen s smp_cnt max_seen, lose (wrap -u32 1 -u32 s_last s +u64 smp_cnt))
      else (seen s (s_last s) max_seen,
            {| g_received := g_received c; g_lost := g_lost c;
               g_duplicates := g_duplicates c; g_out_of_order := g_out_of_order c +u64 1 |}).

(** ** Events *)

Section subscriber.
Context `{JsonC} `{MmsApi} `{SvAsduApi}.

(** The value of a member at its offset. *)
Definition member_value (asdu : SVSubscriber_ASDU) (off : Z) (t : SvType) : MmsValue :=
  match t with
  | SV_INT32 => MmsValue_newIntegerFromInt32 (SVSubscriber_ASDU_getINT32 asdu off)
  | SV_INT32U => MmsValue_newUnsignedFromUint32 (SVSubscriber_ASDU_getINT32U asdu off)
  | SV_FLOAT32 => MmsValue_newFloat (SVSubscriber_ASDU_getFLOAT32 asdu off)
  | SV_FLOAT64 => MmsValue_newDouble (SVSubscriber_ASDU_getFLOAT64 asdu off)
  | SV_BOOLEAN => MmsValue_newBoolean (negb (SVSubscriber_ASDU_getINT8U asdu off =? 0))
  | SV_QUALITY => sv_quality_to_value (SVSubscriber_ASDU_getQuality asdu off)
  | SV_TIMESTAMP => MmsValue_newUtcTimeByMsTime (SVSubscriber_ASDU_getTimestampMs asdu off)
  end.

(** The offset of every member, with its type. *)
Fixpoint member_offsets (off : Z) (types : list SvType) : list (Z * SvType) :=
  match types with
  | [] => []
  | t :: types' => (off, t) :: member_offsets (off + sv_type_size t) types'
  end.

Definition members_size (types : list SvType) : Z :=
  fold_left (λ need t, need + sv_type_size t) types 0.

(** [Ret None] is the null pointer for seqData that is too short. *)
Definition decode_values (fuel : nat) (asdu : SVSubscriber_ASDU) (f : FixtureStream)
  : res (option json) :=
  if SVSubscriber_ASDU_getDataSize asdu <? members_size (f_types f) then Ret None
  else
    let* arr := elements_to_json (goose_value_to_json fuel) json_object_new_array
                  ((λ '(off, t), Some (member_value asdu off t)) <$> member_offsets 0 (f_types f)) in
    Ret (Some arr).

Record sv_state := {
  streams : list Stream;
  stats : counters;
  sv_out : list string;
  known : list Z
}.

(** The event of an ASDU. *)
Definition sv_event (fuel : nat) (h : header) (no_asdu index : Z) (sv_id : string)
    (fixture : option FixtureStream) (asdu : SVSubscriber_ASDU) : res json :=
  let* values := match fixture with
                 | Some f => decode_values fuel asdu f
                 | None => Ret None
                 end in
  Ret (json_event
    ([ ("event", json_object_new_string "sv");
       ("appID", json_object_new_string (snprintf_s 8 ("0x" +:+ fmt_04x (g_app_id h))));
       ("dst", json_object_new_string (goose_format_mac (g_dst h)));
       ("src", json_object_new_string (goose_format_mac (g_src h)));
       ("svID", json_object_new_string sv_id);
       ("datSet", if SVSubscriber_ASDU_hasDatSet asdu
                  then json_object_new_string (SVSubscriber_ASDU_getDatSet asdu) else json_null);
       ("smpCnt", json_object_new_int64 (SVSubscriber_ASDU_getSmpCnt asdu));
       ("confRev", json_object_new_int64 (SVSubscriber_ASDU_getConfRev asdu));
       ("refrTm", if SVSubscriber_ASDU_hasRefrTm asdu
                  then json_object_new_string (sv_format_ns (SVSubscriber_ASDU_getRefrTmAsNs asdu))
                  else json_null);
       ("smpSynch", json_object_new_int (SVSubscriber_ASDU_getSmpSynch asdu));
       ("smpRate", if SVSubscriber_ASDU_hasSmpRate asdu
                   then json_object_new_int (SVSubscriber_ASDU_getSmpRate asdu) else json_null);
       ("smpMod", match (if SVSubscriber_ASDU_hasSmpMod asdu
                         then sv_smp_mod_name (SVSubscriber_ASDU_getSmpMod asdu) else None) with
                  | Some mod_ => json_object_new_string mod_
                  | None => json_null
                  end);
       ("simulation", json_object_new_boolean (g_simulation h));
       ("asduIndex", json_object_new_int index);
       ("noASDU", json_object_new_int no_asdu);
       ("values", default json_null values) ] ++
     match values with
     | Some _ => []
     | None =>
         [("seqData", json_object_new_string
             (hex_text (SVSubscriber_ASDU_getINT8U asdu
                        <$> range (SVSubscriber_ASDU_getDataSize asdu))))]
     end)).

(** The stream and the counters after an ASDU, and the stream's fixture. *)
Definition account (fixtures : list FixtureStream) (app_id : Z) (sv_id : string) (smp_cnt : Z)
    (st : sv_state) : sv_state * option FixtureStream :=
  let '(l, i) := stream_for fixtures app_id sv_id (streams st) in
  match i ≫= λ i, (λ s, (i, s)) <$> l !! i with
  | None => ({| streams := l; stats := stats st; sv_out := sv_out st; known := known st |}, None)
  | Some (i, s) =>
      let '(s', c) := count s (stats st) smp_cnt in
      ({| streams := <[i := s']> l; stats := c; sv_out := sv_out st; known := known st |},
       s_fixture s)
  end.

(** [listener]; [index] is the position of the ASDU in its frame. *)
Definition listener (fuel : nat) (fixtures : list FixtureStream) (sv_filter : option string)
    (every : Z) (h : header) (no_asdu index : Z) (asdu : SVSubscriber_ASDU) (st : sv_state)
  : res sv_state :=
  let sv_id := default "" (SVSubscriber_ASDU_getSvId asdu) in
  if match sv_filter with Some f => negb (String.eqb sv_id f) | None => false end then Ret st
  else
    let smp_cnt := SVSubscriber_ASDU_getSmpCnt asdu in
    let '(st, fixture) := account fixtures (g_app_id h) sv_id smp_cnt st in
    if u32 every =? 0 then Undef
    else if negb (smp_cnt mod u32 every =? 0) then Ret st
    else
      let* e := sv_event fuel h no_asdu index sv_id fixture asdu in
      Ret {| streams := streams st; stats := stats st; sv_out := goose_emit e (sv_out st);
             known := known st |}.

Fixpoint handle_asdus (fuel : nat) (fixtures : list FixtureStream) (sv_filter : option string)
    (every : Z) (h : header) (no_asdu index : Z) (l : list SVSubscriber_ASDU) (st : sv_state)
  : res sv_state :=
  match l with
  | [] => Ret st
  | a :: l' =>
      let* st := listener fuel fixtures sv_filter every h no_asdu index a st in
      handle_asdus fuel fixtures sv_filter every h no_asdu (index + 1) l' st
  end.

Definition emit_stats (c : counters) : list string → list string :=
  goose_emit (json_event
    [ ("event", json_object_new_string "stats");
      ("received", json_object_new_int64 (i64 (g_received c)));
      ("lost", json_object_new_int64 (i64 (g_lost c)));
      ("duplicates", json_object_new_int64 (i64 (g_duplicates c)));
      ("outOfOrder", json_object_new_int64 (i64 (g_out_of_order c))) ]).

End subscriber.

(** ** noASDU *)

(** [while (n--) v = (v << 8) | buf[( *pos)++];], [int] arithmetic as the
    compilers do it (the shift wraps). *)
Fixpoint read_int (n : nat) (v : Z) (buf : list Z) (pos : Z) : res (Z * Z) :=
  match n with
  | O => Ret (v, pos)
  | S n' => let* b := at_index buf pos in read_int n' (i32 (Z.lor (Z.shiftl v 8) b)) buf (pos + 1)
  end.

(** The length and the position after it. *)
Definition ber_length (buf : list Z) (len pos : Z) : res (Z * Z) :=
  if len <=? pos then Ret (-1, pos) else
  let* b := at_index buf pos in
  let pos := pos + 1 in
  if b <? 128 then Ret (b, pos)
  else
    let n := Z.land b 127 in
    if (2 <? n) || (len <? pos + n) then Ret (-1, pos)
    else read_int (Z.to_nat n) 0 buf pos.

Definition read_no_asdu (apdu : list Z) (len : Z) : res Z :=
  if len <? 4 then Ret 0 else
  let* b := at_index apdu 0 in
  if negb (b =? 96) then Ret 0 else
  let* r := ber_length apdu len 1 in
  let '(l, pos) := r in
  if (l <? 0) || (len <=? pos) then Ret 0 else
  let* t := at_index apdu pos in
  let pos := pos + 1 in
  if negb (t =? 128) then Ret 0 else
  let* r := ber_length apdu len pos in
  let '(n, pos) := r in
  if (n <? 1) || (4 <? n) || (len <? pos + n) then Ret 0 else
  let* r := read_int (Z.to_nat n) 0 apdu pos in
  Ret r.1.

(** ** [main] *)

Record sv_sub_options := {
  o_iface : string;
  o_fixture : string;
  o_app_id : option Z;
  o_dst : option (list Z);
  o_sv_filter : option string;
  o_every : Z
}.

Definition sv_sub_valued : list string :=
  ["--iface"; "--app-id"; "--sv-id"; "--dst"; "--sample-every"; "--fixture"].

(** Every APPID, address and rate given is read, the last one counts. *)
Definition sv_sub_check (m : given) : bool :=
  forallb (λ '(k, v),
    if String.eqb k "--app-id" then bool_decide (is_Some (goose_parse_appid v))
    else if String.eqb k "--dst" then bool_decide (is_Some (goose_parse_mac v))
    else if String.eqb k "--sample-every" then negb (strtol 0 v <? 1)
    else true) m.

Definition SV_FIXTURE_PATH : string := "/fixtures/sv/sv.json".

Definition sv_sub_parse (argv : list string) : res sv_sub_options :=
  let* m := parse_args sv_sub_valued [] (tail argv) [] in
  if sv_sub_check m then
    Ret {| o_iface := option_string m "--iface" "eth0";
           o_fixture := option_string m "--fixture" SV_FIXTURE_PATH;
           o_app_id := option_value m "--app-id" ≫= goose_parse_appid;
           o_dst := option_value m "--dst" ≫= goose_parse_mac;
           o_sv_filter := option_value m "--sv-id";
           o_every := option_long m "--sample-every" 1 |}
  else Exit 1.

Section main.
Context `{JsonC} `{MmsApi} `{SvAsduApi}.

(** [known_count < MAX_STREAMS]: a subscriber per APPID seen. *)
Definition register (app_id : Z) (l : list Z) : list Z :=
  if existsb (Z.eqb app_id) l then l
  else if Z.of_nat (length l) <? MAX_STREAMS then l ++ [app_id] else l.

(** A frame read from the socket. *)
Definition on_frame (fuel : nat) (fixtures : list FixtureStream) (o : sv_sub_options)
    (frame : list Z) (st : sv_state) : res sv_state :=
  let* h := l2_header 186 (o_app_id o) (o_dst o) frame in
  match h with
  | None => Ret st
  | Some h =>
      let st := {| streams := streams st; stats := stats st; sv_out := sv_out st;
                   known := register (g_app_id h) (known st) |} in
      let apdu := skipn (Z.to_nat (g_hdr h + 8)) frame in
      let* no_asdu := read_no_asdu apdu (Z.of_nat (length frame) - g_hdr h - 8) in
      handle_asdus fuel fixtures (o_sv_filter o) (o_every o) h no_asdu 0
        (SVReceiver_handleL2Message (known st) frame) st
  end.

Fixpoint on_frames (fuel : nat) (fixtures : list FixtureStream) (o : sv_sub_options)
    (frames : list (list Z)) (st : sv_state) : res sv_state :=
  match frames with
  | [] => Ret st
  | f :: frames' => let* st := on_frame fuel fixtures o f st in
                    on_frames fuel fixtures o frames' st
  end.

(** The turns of [while (g_running)]: the time at the turn and the frames the
    socket holds. *)
Fixpoint sv_sub_loop (fuel : nat) (fixtures : list FixtureStream) (o : sv_sub_options)
    (turns : list (Z * list (list Z))) (next_stats : Z) (st : sv_state) : res sv_state :=
  match turns with
  | [] => Ret st
  | (now, frames) :: turns' =>
      let '(next_stats, st) :=
        if next_stats <=? now
        then (next_stats +u64 1000,
              {| streams := streams st; stats := stats st; sv_out := emit_stats (stats st) (sv_out st);
                 known := known st |})
        else (next_stats, st) in
      let* st := on_frames fuel fixtures o frames st in
      sv_sub_loop fuel fixtures o turns' next_stats st
  end.

(** [read_file]: what [json_object_from_file] gives for a path; [own]: the
    address of the interface; [t0]: the time at the start. *)
Definition sv_sub_main (fuel : nat) (version : option string) (read_file : string → option json)
    (socket_ok : bool) (own : list Z) (t0 : Z) (argv : list string)
    (turns : list (Z * list (list Z))) : res sv_state :=
  match jl_handle_meta_flags version argv "libiec61850" with
  | Some _ => Exit 0
  | None =>
      let* o := sv_sub_parse argv in
      let* fixtures := load_fixture (read_file (o_fixture o)) in
      if negb socket_ok then Exit 1 else
      sv_sub_loop fuel fixtures o turns (t0 +u64 1000)
        {| streams := []; known := [];
           stats := {| g_received := 0; g_lost := 0; g_duplicates := 0; g_out_of_order := 0 |};
           sv_out := sv_emit_ready version "subscriber" (o_iface o) own (o_sv_filter o) [] |}
  end.

End main.
