(* ===== verification/RefSv.v ===== *)
(** * A reference ASDU

    A concrete ASDU for the interface [SvAsduApi]: its sample counter, its
    identifier and its seqData, read big-endian.  The receiver hands over one
    ASDU per frame, of the sample counter in the frame's last two octets. *)

From Stdlib Require Import ZArith Lia String Ascii SpecFloat.
From stdpp Require Import base tactics list strings numbers option.
From S2P Require Import Prelude CText GooseCommon SvSubscriber.

Local Open Scope Z_scope.

Record rasdu := { ra_id : string; ra_cnt : Z; ra_data : list Z }.

(** [n] octets at an offset, as a number. *)
Definition ra_get (n : nat) (a : rasdu) (off : Z) : Z :=
  fold_left (λ v b, v * 256 + b) (take n (drop (Z.to_nat off) (ra_data a))) 0.

#[export] Instance ref_sv : SvAsduApi := {|
  SVSubscriber_ASDU := rasdu;
  SVSubscriber_ASDU_getSvId a := Some (ra_id a);
  SVSubscriber_ASDU_getSmpCnt := ra_cnt;
  SVSubscriber_ASDU_hasDatSet _ := false;
  SVSubscriber_ASDU_getDatSet _ := "";
  SVSubscriber_ASDU_getConfRev _ := 1;
  SVSubscriber_ASDU_hasRefrTm _ := false;
  SVSubscriber_ASDU_getRefrTmAsNs _ := 0;
  SVSubscriber_ASDU_getSmpSynch _ := 0;
  SVSubscriber_ASDU_hasSmpRate _ := false;
  SVSubscriber_ASDU_getSmpRate _ := 0;
  SVSubscriber_ASDU_hasSmpMod _ := false;
  SVSubscriber_ASDU_getSmpMod _ := 0;
  SVSubscriber_ASDU_getDataSize a := Z.of_nat (length (ra_data a));
  SVSubscriber_ASDU_getINT32 a off := i32 (ra_get 4 a off);
  SVSubscriber_ASDU_getINT32U := ra_get 4;
  SVSubscriber_ASDU_getFLOAT32 _ _ := S754_zero false;
  SVSubscriber_ASDU_getFLOAT64 _ _ := S754_zero false;
  SVSubscriber_ASDU_getINT8U := ra_get 1;
  SVSubscriber_ASDU_getQuality := ra_get 4;
  SVSubscriber_ASDU_getTimestampMs a off := ra_get 4 a off * 1000;
  SVReceiver_handleL2Message _ frame :=
    [{| ra_id := "InteropSv92LE"; ra_data := [];
        ra_cnt := fold_left (λ v b, v * 256 + b) (drop (length frame - 2) frame) 0 |}]
|}.
