(* ===== verification/SvSubscriberSpec.v ===== *)
(** * Theorems about sv_subscriber.c

    The loss accounting counts what was lost; every read of a frame and of
    seqData stays inside; no frame brings the subscriber down. *)

From Stdlib Require Import ZArith Lia String Ascii SpecFloat.
From stdpp Require Import base tactics list strings numbers option.
From S2P Require Import Prelude CText Json Mms GooseCommon GooseCommonSpec SvCommon L2Frame.
From S2P Require Import JsonLines Args SvSubscriber RefJson RefMms RefSv.

Local Open Scope Z_scope.
Local Open Scope c_scope.

(** ** Loss accounting *)

(** The counting of several sample counters. *)
Definition count_all (s : Stream) (c : counters) (l : list Z) : Stream * counters :=
  fold_left (λ '(s, c) n, count s c n) l (s, c).

(** Sample indices that grow by less than the other half of a period. *)
Fixpoint gaps_ok (W k : Z) (ks : list Z) : Prop :=
  match ks with
  | [] => True
  | k' :: ks' => 1 <= k' - k < W - W / 2 ∧ gaps_ok W k' ks'
  end.

(** Counters with [r] more received and [l] more lost. *)
Definition counted (c : counters) (r l : Z) : counters :=
  {| g_received := g_received c + r; g_lost := g_lost c + l;
     g_duplicates := g_duplicates c; g_out_of_order := g_out_of_order c |}.

(** A stream whose last sample is the one of index [k]. *)
Definition at_sample (W k : Z) (s : Stream) : Prop :=
  s_has_last s = true ∧ s_wrap s = W ∧ s_last s = k mod W.

Lemma count_step W k k' s c :
  2 <= W <= 65536 → 0 <= k → 1 <= k' - k < W - W / 2 → at_sample W k s →
  0 <= g_received c < 2 ^ 63 → 0 <= g_lost c → g_lost c + (k' - k) < 2 ^ 63 →
  ∃ s', count s c (k' mod W) = (s', counted c 1 (k' - k - 1)) ∧ at_sample W k' s'.
Proof.
  intros HW Hk Hg (Hh & Hw & Hl) Hr Hlost Hb. change (2 ^ 63) with 9223372036854775808 in *.
  set (g := k' - k) in *.
  assert (k' mod W = if k mod W + g <? W then k mod W + g else k mod W + g - W) as Hm.
  { replace k' with (k + g) by (subst g; lia). rewrite Zplus_mod, (Z.mod_small g) by lia.
    pose proof (Z.mod_pos_bound k W). destruct (Z.ltb_spec (k mod W + g) W).
    - apply Z.mod_small. lia.
    - symmetry. apply (Z.mod_unique _ _ 1); lia. }
  pose proof (Z.mod_pos_bound k W) as Hkb.
  assert (∀ mx, at_sample W k' (seen s (k' mod W) mx)) as Hat by done.
  set (n := k' mod W) in *. set (m := k mod W) in *. clearbody n m g.
  unfold count. rewrite Hh, Hw, Hl. cbn [negb g_received g_lost g_duplicates g_out_of_order].
  rewrite (u64_id (g_received c + 1)) by lia. set (mx := if _ <? n then _ else _).
  assert (0 <= m < W) as Hmb by lia. clear Hkb.
  assert (m + g < W ∧ n = m + g ∨ W <= m + g ∧ n = m + g - W) as Hn
    by (revert Hm; destruct (Z.ltb_spec (m + g) W); lia). clear Hm.
  destruct (Z.eqb_spec (n - m) 1), (Z.eqb_spec (n - m) 0), (Z.ltb_spec 1 (n - m)); try lia.
  - exists (seen s n mx). split; [|done]. unfold counted. do 2 f_equal. lia.
  - exists (seen s n mx). split; [|done]. unfold counted. rewrite u64_id by lia. do 2 f_equal. lia.
  - destruct (Z.eqb_spec W 0); [lia|]. cbn [negb].
    rewrite (u32_id (m - n)), (u32_id (W - 1)), (u32_id (W - 1 - m)) by lia.
    destruct (Z.ltb_spec (W / 2) (m - n)); [|lia].
    exists (seen s n mx). split; [|done]. unfold counted.
    rewrite (u64_id (W - 1 - m + n)), u64_id by lia. do 2 f_equal. lia.
Qed.

Lemma last_cons (x d : Z) l : List.last (x :: l) d = List.last l x.
Proof. revert x d. induction l as [|y l IH]; intros x d; [done|]. change (List.last (y :: l) d = List.last (y :: l) x). by rewrite !IH. Qed.

Lemma count_all_gaps W ks k s c :
  2 <= W <= 65536 → 0 <= k → gaps_ok W k ks → at_sample W k s →
  0 <= g_received c → g_received c + Z.of_nat (length ks) < 2 ^ 63 →
  0 <= g_lost c → g_lost c + (List.last ks k - k) < 2 ^ 63 →
  (count_all s c ((λ k, k mod W) <$> ks)).2
  = counted c (Z.of_nat (length ks)) (List.last ks k - k - Z.of_nat (length ks)).
Proof.
  intros HW. revert k s c. induction ks as [|k' ks IH]; intros k s c Hk Hg Hs Hr Hr' Hl Hb.
  - simpl. unfold counted. destruct c. simpl. f_equal; lia.
  - destruct Hg as [Hgap Hg].
    assert (k' <= List.last ks k') as Hmono.
    { clear -Hg. revert k' Hg. induction ks as [|x ks IH]; intros k' Hg; [simpl; lia|].
      destruct Hg as [? Hg]. specialize (IH x Hg). rewrite last_cons. lia. }
    rewrite last_cons in *. cbn [length] in *.
    destruct (count_step W k k' s c) as (s' & Hc & Hs'); [done..|lia|done|lia|].
    unfold count_all. rewrite fmap_cons. cbn [fold_left]. rewrite Hc.
    change (fold_left _ ((λ k, k mod W) <$> ks) (s', counted c 1 (k' - k - 1)))
      with (count_all s' (counted c 1 (k' - k - 1)) ((λ k, k mod W) <$> ks)).
    rewrite (IH k') by (simpl; try done; lia). unfold counted. simpl. f_equal; lia.
Qed.

Lemma loss_exact W k ks s c :
  2 <= W <= 65536 → 0 <= k → gaps_ok W k ks →
  s_has_last s = false → s_wrap s = W →
  c = {| g_received := 0; g_lost := 0; g_duplicates := 0; g_out_of_order := 0 |} →
  List.last ks k < 2 ^ 63 → Z.of_nat (length ks) < 2 ^ 62 →
  (count_all s c ((λ k, k mod W) <$> (k :: ks))).2
  = {| g_received := Z.of_nat (length ks) + 1;
       g_lost := List.last ks k - k - Z.of_nat (length ks);
       g_duplicates := 0; g_out_of_order := 0 |}.
Proof.
  intros HW Hk Hg Hh Hw -> Hlast Hlen.
  change (2 ^ 62) with 4611686018427387904 in *. change (2 ^ 63) with 9223372036854775808 in *.
  unfold count_all. rewrite fmap_cons. cbn [fold_left]. unfold count at 2. rewrite Hh. simpl.
  match goal with |- (fold_left _ _ (?s', ?c')).2 = _ => change ((count_all s' c' ((λ k, k mod W) <$> ks)).2
    = {| g_received := Z.of_nat (length ks) + 1; g_lost := List.last ks k - k - Z.of_nat (length ks);
         g_duplicates := 0; g_out_of_order := 0 |}) end.
  rewrite (count_all_gaps W ks k); simpl; try done;
    change (2 ^ 63) with 9223372036854775808; change (u64 (0 + 1)) with 1; try lia.
  unfold counted. cbn [g_received g_lost g_duplicates g_out_of_order]. f_equal; lia.
Qed.

(** C3: When the samples of a stream of period W come in order, any of them
    missing but never half a period at once, the loss counter is exactly the
    number of samples that did not come, and nothing is counted as a duplicate
    or as out of order. *)
Theorem sv_loss_exact W k ks s c :
  2 <= W <= 65536 → 0 <= k → gaps_ok W k ks →
  s_has_last s = false → s_wrap s = W →
  c = {| g_received := 0; g_lost := 0; g_duplicates := 0; g_out_of_order := 0 |} →
  List.last ks k < 2 ^ 63 → Z.of_nat (length ks) < 2 ^ 62 →
  (count_all s c ((λ k, k mod W) <$> (k :: ks))).2
  = {| g_received := Z.of_nat (length ks) + 1;
       g_lost := List.last ks k - k - Z.of_nat (length ks);
       g_duplicates := 0; g_out_of_order := 0 |}.
Proof. apply loss_exact. Qed.

Definition no_counts : counters :=
  {| g_received := 0; g_lost := 0; g_duplicates := 0; g_out_of_order := 0 |}.

Definition new_stream (W : Z) : Stream :=
  {| s_app_id := 16384; s_sv_id := "InteropSv92LE"; s_has_last := false; s_last := 0;
     s_max_seen := 0; s_wrap := W; s_fixture := None |}.

Lemma sv_loss_exact_witness :
  (count_all (new_stream 4000) no_counts ((λ k, k mod 4000) <$> (3997 :: [3998; 4001; 5000]))).2
  = {| g_received := Z.of_nat (length [3998; 4001; 5000]) + 1;
       g_lost := List.last [3998; 4001; 5000] 3997 - 3997 - Z.of_nat (length [3998; 4001; 5000]);
       g_duplicates := 0; g_out_of_order := 0 |}.
Proof.
  apply (sv_loss_exact 4000 3997 [3998; 4001; 5000] (new_stream 4000) no_counts);
    first [reflexivity|lia|simpl; lia].
Defined.

(** A last sample at or past a period that is too short: the subtraction
    wraps, and the loss counted is some four thousand million. *)
Lemma sv_loss_wraps :
  (count_all (new_stream 10) no_counts [20; 0]).2
  = {| g_received := 2; g_lost := 4294967285; g_duplicates := 0; g_out_of_order := 0 |}.
Proof. reflexivity. Qed.

(** ** noASDU *)

Definition shift_octet (v b : Z) : Z := i32 (Z.lor (Z.shiftl v 8) b).

Lemma read_int_ok n v buf pos :
  0 <= pos → pos + Z.of_nat n <= Z.of_nat (length buf) →
  read_int n v buf pos
  = Ret (fold_left shift_octet (take n (drop (Z.to_nat pos) buf)) v, pos + Z.of_nat n).
Proof.
  revert v pos. induction n as [|n IH]; intros v pos Hp Hl; simpl.
  - by rewrite Z.add_0_r.
  - rewrite at_index_ok by lia. simpl. rewrite IH by lia.
    assert (drop (Z.to_nat pos) buf
            = octet buf (Z.to_nat pos) :: drop (Z.to_nat (pos + 1)) buf) as ->.
    { replace (Z.to_nat (pos + 1)) with (S (Z.to_nat pos)) by lia. unfold octet.
      destruct (lookup_lt_is_Some_2 buf (Z.to_nat pos)) as [b Hb]; [lia|].
      rewrite Hb. by apply drop_S. }
    simpl. unfold shift_octet at 3. f_equal. f_equal. lia.
Qed.

Lemma ber_length_ok buf pos :
  0 <= pos →
  ∃ l p, ber_length buf (Z.of_nat (length buf)) pos = Ret (l, p) ∧ pos <= p.
Proof.
  intros Hp. unfold ber_length. destruct (Z.leb_spec (Z.of_nat (length buf)) pos); [by eauto with lia|].
  rewrite at_index_ok by lia. cbn [res_bind].
  destruct (_ <? 128); [by eauto with lia|]. cbv zeta. set (n := Z.land _ 127).
  assert (0 <= n) by (apply Z.land_nonneg; lia).
  destruct (Z.ltb_spec 2 n); [by eauto with lia|].
  destruct (Z.ltb_spec (Z.of_nat (length buf)) (pos + 1 + n)); [by eauto with lia|]. simpl.
  rewrite read_int_ok by lia. do 2 eexists. split; [done|lia].
Qed.

Lemma read_no_asdu_total apdu :
  ∃ v, read_no_asdu apdu (Z.of_nat (length apdu)) = Ret v.
Proof.
  unfold read_no_asdu. destruct (Z.ltb_spec (Z.of_nat (length apdu)) 4); [by eauto|].
  rewrite at_index_ok by lia. cbn [res_bind]. destruct (negb _); [by eauto|].
  destruct (ber_length_ok apdu 1) as (l & p & -> & Hp); [lia|]. cbn [res_bind].
  destruct (Z.ltb_spec l 0); [by eauto|].
  destruct (Z.leb_spec (Z.of_nat (length apdu)) p); [by eauto|]. simpl orb. cbv iota.
  rewrite at_index_ok by lia. cbn [res_bind]. destruct (negb _); [by eauto|].
  destruct (ber_length_ok apdu (p + 1)) as (n & q & -> & Hq); [lia|]. cbn [res_bind].
  destruct (Z.ltb_spec n 1); [by eauto|]. destruct (Z.ltb_spec 4 n); [by eauto|].
  destruct (Z.ltb_spec (Z.of_nat (length apdu)) (q + n)); [by eauto|]. simpl orb. cbv iota.
  rewrite read_int_ok by lia. simpl. by eauto.
Qed.

(** noASDU is read within the APDU, whatever its octets and its length. *)
Theorem sv_no_asdu_safe apdu : ∃ v, read_no_asdu apdu (Z.of_nat (length apdu)) = Ret v.
Proof. apply read_no_asdu_total. Qed.

Lemma shift_be_octets k v n :
  0 <= v → 0 <= n < 256 ^ Z.of_nat k → v * 256 ^ Z.of_nat k + n < 2147483648 →
  fold_left shift_octet (be_octets k n) v = v * 256 ^ Z.of_nat k + n.
Proof.
  revert n. induction k as [|k IH]; intros n Hv Hn Hb; simpl fold_left.
  - simpl. simpl in Hn. lia.
  - rewrite Nat2Z.inj_succ, Z.pow_succ_r in * by lia.
    simpl be_octets. rewrite fold_left_app.
    assert (0 < 256 ^ Z.of_nat k) by (apply Z.pow_pos_nonneg; lia).
    assert (v * 256 ^ Z.of_nat k + n / 256 < 2147483648) by nia.
    rewrite IH by lia. simpl. unfold shift_octet.
    rewrite lor_shiftl by (change (2 ^ 8) with 256; lia). change (2 ^ 8) with 256.
    rewrite i32_id by nia. lia.
Qed.


(** The BER encodings of a length the reader takes. *)
Inductive ber_enc : Z → list Z → Prop :=
| ber_short l : 0 <= l < 128 → ber_enc l [l]
| ber_one l : is_u8 l → ber_enc l [129; l]
| ber_two l : is_u16 l → ber_enc l (130 :: be_octets 2 l).

Lemma octet_mid pre x l : octet (pre ++ x :: l) (length pre) = x.
Proof. unfold octet. by rewrite list_lookup_middle. Qed.

(** The octets after the one at the end of [pre]. *)
Lemma read_int_mid k v pre x l post :
  length l = k →
  read_int k v (pre ++ x :: l ++ post) (Z.of_nat (length pre) + 1)
  = Ret (fold_left shift_octet l v, Z.of_nat (length pre) + 1 + Z.of_nat k).
Proof.
  intros Hk. rewrite read_int_ok by (rewrite ?length_app; cbn [length]; rewrite ?length_app; lia).
  replace (Z.to_nat (Z.of_nat (length pre) + 1)) with (length (pre ++ [x]))
    by (rewrite length_app; simpl; lia).
  change (pre ++ x :: l ++ post) with (pre ++ [x] ++ l ++ post).
  rewrite app_assoc, drop_app_length, take_app_length' by done. done.
Qed.

Lemma ber_length_enc pre l L post :
  ber_enc l L →
  ber_length (pre ++ L ++ post) (Z.of_nat (length (pre ++ L ++ post))) (Z.of_nat (length pre))
  = Ret (l, Z.of_nat (length pre) + Z.of_nat (length L)).
Proof.
  intros HL. unfold ber_length.
  assert (length pre < length (pre ++ L ++ post))%nat
    by (rewrite !length_app; destruct HL; simpl; lia).
  destruct (Z.leb_spec (Z.of_nat (length (pre ++ L ++ post))) (Z.of_nat (length pre))); [lia|].
  rewrite at_index_ok, Nat2Z.id by lia. cbn [res_bind].
  rewrite !length_app. destruct HL as [l Hl|l Hl|l Hl]; cbn [app]; rewrite octet_mid.
  - destruct (Z.ltb_spec l 128); [done|lia].
  - change (129 <? 128) with false. change (Z.land 129 127) with 1. cbv iota zeta.
    destruct (Z.ltb_spec (Z.of_nat (length pre + (length [129; l] + length post)))
                (Z.of_nat (length pre) + 1 + 1)); [simpl length in *; lia|]. simpl orb. cbv iota.
    change (l :: post) with ([l] ++ post). rewrite read_int_mid by done. cbn [fold_left].
    unfold shift_octet. rewrite Z.shiftl_0_l, Z.lor_0_l, i32_id by lia.
    do 2 f_equal. change (Z.of_nat (Z.to_nat 1)) with 1. change (Z.of_nat (length [129; l])) with 2. lia.
  - change (130 <? 128) with false. change (Z.land 130 127) with 2. cbv iota zeta.
    destruct (Z.ltb_spec (Z.of_nat (length pre + (length (130 :: be_octets 2 l) + length post)))
                (Z.of_nat (length pre) + 1 + 2)).
    { cbn [length] in *. rewrite length_be_octets in *. lia. }
    simpl orb. cbv iota. rewrite read_int_mid by (by rewrite length_be_octets).
    rewrite shift_be_octets by (change (256 ^ Z.of_nat 2) with 65536; lia).
    cbn [length]. rewrite length_be_octets. do 2 f_equal; lia.
Qed.

(** C37: What an encoder writes the reader reads: noASDU in one to four octets,
    after a savPdu length in any of the BER forms a frame can have. *)
Theorem sv_no_asdu_read l L k n rest :
  ber_enc l L → (1 <= k <= 4)%nat → 0 <= n < 256 ^ Z.of_nat k → n < 2147483648 →
  let apdu := [96] ++ L ++ [128; Z.of_nat k] ++ be_octets k n ++ rest in
  read_no_asdu apdu (Z.of_nat (length apdu)) = Ret n.
Proof.
  intros HL Hk Hn Hb. cbv zeta. set (apdu := [96] ++ _).
  assert (1 <= length L)%nat by (destruct HL; simpl; lia).
  assert (length apdu = 1 + length L + 2 + k + length rest)%nat as Hlen.
  { subst apdu. rewrite !length_app, length_be_octets. simpl. lia. }
  unfold read_no_asdu. destruct (Z.ltb_spec (Z.of_nat (length apdu)) 4); [lia|].
  rewrite at_index_ok by lia. change (octet apdu (Z.to_nat 0)) with 96. cbn [res_bind].
  change (negb (96 =? 96)) with false. cbv iota.
  pose proof (ber_length_enc [96] l L ([128; Z.of_nat k] ++ be_octets k n ++ rest) HL) as H1'.
  fold apdu in H1'. change (Z.of_nat (length [96])) with 1 in H1'. rewrite H1'. cbn [res_bind].
  destruct (Z.ltb_spec l 0); [destruct HL; lia|].
  destruct (Z.leb_spec (Z.of_nat (length apdu)) (1 + Z.of_nat (length L))); [lia|]. simpl orb. cbv iota.
  replace apdu with (([96] ++ L) ++ 128 :: [Z.of_nat k] ++ be_octets k n ++ rest)
    by (subst apdu; by rewrite <- app_assoc).
  rewrite at_index_ok by (rewrite !length_app; cbn [length]; lia).
  replace (Z.to_nat (1 + Z.of_nat (length L))) with (length ([96] ++ L)) by (rewrite length_app; simpl; lia).
  rewrite octet_mid. cbn [res_bind]. change (negb (128 =? 128)) with false. cbv iota.
  set (pre := [96] ++ L ++ [128]).
  replace (([96] ++ L) ++ 128 :: [Z.of_nat k] ++ be_octets k n ++ rest)
    with (pre ++ [Z.of_nat k] ++ be_octets k n ++ rest)
    by (subst pre; by rewrite <- !app_assoc).
  replace (1 + Z.of_nat (length L) + 1) with (Z.of_nat (length pre))
    by (subst pre; rewrite !length_app; simpl; lia).
  rewrite (ber_length_enc pre (Z.of_nat k)) by (constructor; lia). cbn [res_bind].
  change (Z.of_nat (length [Z.of_nat k])) with 1.
  destruct (Z.ltb_spec (Z.of_nat k) 1); [lia|]. destruct (Z.ltb_spec 4 (Z.of_nat k)); [lia|].
  match goal with |- context [?a <? ?b] => destruct (Z.ltb_spec a b) as [Hlt|] end.
  { exfalso. subst pre. rewrite ?length_app in Hlt. cbn [length] in Hlt.
    rewrite ?length_app in Hlt. cbn [length] in Hlt.
    rewrite ?length_app, ?length_be_octets in Hlt. cbn [length] in Hlt. lia. }
  simpl orb. cbv iota. rewrite Nat2Z.id. change ([Z.of_nat k] ++ ?x) with (Z.of_nat k :: x).
  rewrite read_int_mid by apply length_be_octets. simpl. rewrite shift_be_octets by lia. f_equal.
Qed.

Lemma sv_no_asdu_read_witness :
  let apdu := [96] ++ [129; 200] ++ [128; Z.of_nat 1] ++ be_octets 1 4 ++ [162; 0] in
  read_no_asdu apdu (Z.of_nat (length apdu)) = Ret 4.
Proof.
  apply (sv_no_asdu_read 200 [129; 200] 1 4 [162; 0]); [constructor; lia|lia|simpl; lia|lia].
Defined.

(** An INTEGER whose top bit is set becomes a negative noASDU. *)
Lemma sv_no_asdu_negative :
  read_no_asdu [96; 6; 128; 4; 128; 0; 0; 1] 8 = Ret (-2147483647).
Proof. reflexivity. Qed.

(** ** seqData *)

Lemma members_size_acc types acc :
  fold_left (λ need t, need + sv_type_size t) types acc = acc + members_size types.
Proof.
  unfold members_size. revert acc. induction types as [|t types IH]; intros acc; cbn [fold_left]; [lia|].
  rewrite IH, (IH (0 + sv_type_size t)). lia.
Qed.

Lemma members_size_nonneg types : 0 <= members_size types.
Proof.
  induction types as [|t types IH]; [done|]. unfold members_size at 1. cbn [fold_left].
  rewrite members_size_acc. pose proof (sv_type_size_pos t). lia.
Qed.

Lemma member_offsets_bound off0 types off t :
  0 <= off0 → (off, t) ∈ member_offsets off0 types →
  off0 <= off ∧ off + sv_type_size t <= off0 + members_size types.
Proof.
  revert off0. induction types as [|u types IH]; intros off0 H0 Hin; simpl in Hin.
  - by apply elem_of_nil in Hin.
  - pose proof (sv_type_size_pos u). pose proof (members_size_nonneg types).
    assert (members_size (u :: types) = sv_type_size u + members_size types) as ->.
    { unfold members_size at 1. cbn [fold_left]. rewrite members_size_acc. lia. }
    apply elem_of_cons in Hin as [[= -> ->]|Hin]; [lia|].
    destruct (IH (off0 + sv_type_size u)); [lia|done|]. lia.
Qed.

Section subscriber.
Context `{JsonLaws} `{MmsLaws} `{SvAsduApi}.

(** A member is a leaf: it is printed whatever its octets. *)
Lemma member_printed n asdu off t :
  ∃ j, goose_value_to_json (S n) (Some (member_value asdu off t)) = Ret j.
Proof.
  destruct t; cbn [goose_value_to_json member_value]; autorewrite with mms; cbn [Z.eqb Pos.eqb];
    rewrite ?quality_to_value_bits, ?set_bits_type; autorewrite with mms; by eauto.
Qed.

Lemma members_printed n asdu l :
  ∃ js, Forall2 (λ v j, goose_value_to_json (S n) v = Ret j)
          ((λ '(off, t), Some (member_value asdu off t)) <$> l) js ∧ length js = length l.
Proof.
  induction l as [|[off t] l (js & Hjs & Hl)]; [by exists []|].
  destruct (member_printed n asdu off t) as [j Hj].
  exists (j :: js). split; [by constructor|simpl; by rewrite Hl].
Qed.

Lemma member_offsets_length off types : length (member_offsets off types) = length types.
Proof. revert off. induction types as [|t types IH]; intros off; simpl; [done|]. by rewrite IH. Qed.

Lemma members_size_cons t types : members_size (t :: types) = sv_type_size t + members_size types.
Proof. unfold members_size at 1. cbn [fold_left]. rewrite members_size_acc. lia. Qed.

(** The offset of a member is the size of those before it. *)
Lemma member_offsets_lookup off types i t :
  types !! i = Some t →
  member_offsets off types !! i = Some (off + members_size (take i types), t).
Proof.
  revert off types. induction i as [|i IH]; intros off [|u types] Ht; try done; simpl in Ht |- *.
  - injection Ht as ->. by rewrite Z.add_0_r.
  - rewrite (IH _ _ Ht), members_size_cons. by rewrite Z.add_assoc.
Qed.

Lemma members_size_prefix types i t :
  types !! i = Some t → members_size (take i types) + sv_type_size t <= members_size types.
Proof.
  revert types. induction i as [|i IH]; intros [|u types] Ht; try done; simpl in Ht |- *.
  - injection Ht as ->. rewrite members_size_cons. pose proof (members_size_nonneg types).
    change (members_size []) with 0. lia.
  - rewrite !members_size_cons. specialize (IH _ Ht). lia.
Qed.

Lemma decode_values_cases n asdu f :
  (SVSubscriber_ASDU_getDataSize asdu < members_size (f_types f)
   ∧ decode_values (S n) asdu f = Ret None)
  ∨ (members_size (f_types f) <= SVSubscriber_ASDU_getDataSize asdu
     ∧ ∃ js, decode_values (S n) asdu f = Ret (Some (json_array_of js))
             ∧ length js = length (f_types f)
             ∧ Forall2 (λ v j, goose_value_to_json (S n) v = Ret j)
                 ((λ '(off, t), Some (member_value asdu off t)) <$> member_offsets 0 (f_types f)) js).
Proof.
  unfold decode_values. destruct (Z.ltb_spec (SVSubscriber_ASDU_getDataSize asdu) (members_size (f_types f)));
    [by left|right]. split; [done|].
  destruct (members_printed n asdu (member_offsets 0 (f_types f))) as (js & Hjs & Hl).
  exists js. split; [|by rewrite Hl, member_offsets_length].
  by rewrite (elements_to_json_ok _ _ _ _ Hjs).
Qed.

(** C38: seqData shorter than the members of the fixture is not decoded; one
    that has room for them, an exact fit included, is decoded to one value per
    member, each of the type of its member and read inside the data at the place
    the members before it leave. *)
Theorem sv_decode_safe n asdu f :
  (SVSubscriber_ASDU_getDataSize asdu < members_size (f_types f) →
   decode_values (S n) asdu f = Ret None)
  ∧ (members_size (f_types f) <= SVSubscriber_ASDU_getDataSize asdu →
     ∃ arr, decode_values (S n) asdu f = Ret (Some arr)
            ∧ json_object_array_length arr = Z.of_nat (length (f_types f))
            ∧ ∀ i t, f_types f !! i = Some t →
                let off := members_size (take i (f_types f)) in
                0 <= off ∧ off + sv_type_size t <= SVSubscriber_ASDU_getDataSize asdu
                ∧ ∃ j, json_elements arr !! i = Some j
                       ∧ goose_value_to_json (S n) (Some (member_value asdu off t)) = Ret j).
Proof.
  destruct (decode_values_cases n asdu f) as [[Hsz Hd]|[Hsz (js & Hd & Hl & Hjs)]].
  { split; [done|]. intros Hsz'. lia. }
  split; [intros Hsz'; lia|]. intros _. exists (json_array_of js). split; [done|].
  rewrite array_length_elements, elements_array_of, Hl. split; [done|].
  intros i t Ht. cbv zeta. pose proof (members_size_nonneg (take i (f_types f))).
  pose proof (members_size_prefix _ _ _ Ht). split; [done|]. split; [lia|].
  pose proof (member_offsets_lookup 0 _ _ _ Ht) as Ho. rewrite Z.add_0_l in Ho.
  assert (((λ '(off, t), Some (member_value asdu off t)) <$> member_offsets 0 (f_types f)) !! i
    = Some (Some (member_value asdu (members_size (take i (f_types f))) t))) as Hv
    by (rewrite list_lookup_fmap, Ho; done).
  destruct (Forall2_lookup_l _ _ _ _ _ Hjs Hv) as (j & Hj & Hp). by exists j.
Qed.

(** ** Frames *)

Lemma listener_total n fixtures sv_filter every h no_asdu index asdu st :
  1 <= every < 4294967296 →
  ∃ st', listener (S n) fixtures sv_filter every h no_asdu index asdu st = Ret st'.
Proof.
  intros He. unfold listener. destruct (match sv_filter with Some _ => _ | None => _ end); [by eauto|].
  destruct (account _ _ _ _ _) as [st' fixture]. rewrite u32_id by lia.
  destruct (Z.eqb_spec every 0); [lia|]. destruct (negb _); [by eauto|].
  unfold sv_event. destruct fixture as [f|]; [|simpl; by eauto].
  destruct (decode_values_cases n asdu f) as [[_ ->]|[_ (js & -> & _)]]; simpl; by eauto.
Qed.

Lemma handle_asdus_total n fixtures sv_filter every h no_asdu index l st :
  1 <= every < 4294967296 →
  ∃ st', handle_asdus (S n) fixtures sv_filter every h no_asdu index l st = Ret st'.
Proof.
  intros He. revert index st. induction l as [|a l IH]; intros index st; simpl; [by eauto|].
  destruct (listener_total n fixtures sv_filter every h no_asdu index a st He) as [st' ->]. apply IH.
Qed.

(** The octets of an accepted frame behind its header are enough for [read_no_asdu]. *)
Lemma read_no_asdu_frame frame h :
  14 <= g_hdr h → g_hdr h + 8 <= Z.of_nat (length frame) →
  ∃ v, read_no_asdu (skipn (Z.to_nat (g_hdr h + 8)) frame)
         (Z.of_nat (length frame) - g_hdr h - 8) = Ret v.
Proof.
  intros Hhdr Hlen.
  destruct (read_no_asdu_total (skipn (Z.to_nat (g_hdr h + 8)) frame)) as [v Hv]. exists v.
  rewrite length_drop in Hv.
  replace (Z.of_nat (length frame) - g_hdr h - 8)
    with (Z.of_nat (length frame - Z.to_nat (g_hdr h + 8))) by lia. done.
Qed.

(** C29: Whatever octets a received frame holds and however short it is, the
    subscribers read it only inside: the checks and copies of its header, which
    both make, and the reading of noASDU behind it, which the SV subscriber
    makes, never look at an octet outside the frame. *)
Theorem received_frame_safe low app_id dst frame :
  ∃ r, l2_header low app_id dst frame = Ret r
       ∧ ∀ h, r = Some h →
           ∃ v, read_no_asdu (skipn (Z.to_nat (g_hdr h + 8)) frame)
                  (Z.of_nat (length frame) - g_hdr h - 8) = Ret v.
Proof.
  destruct (l2_header_total low app_id dst frame) as [r Hr]. exists r. split; [done|].
  intros h ->. destruct (l2_header_some _ _ _ _ _ Hr) as (Hhdr & Hlen & _).
  apply read_no_asdu_frame; lia.
Qed.

(** C39: Whatever octets a frame holds and whatever ASDUs the library makes of
    it, the SV subscriber handles it: with a reporting rate from 1 to below 2^32
    nothing received can stop it. *)
Theorem sv_frame_total n fixtures o frame st :
  1 <= o_every o < 4294967296 → ∃ st', on_frame (S n) fixtures o frame st = Ret st'.
Proof.
  intros He. unfold on_frame.
  destruct (l2_header_total 186 (o_app_id o) (o_dst o) frame) as [[h|] Hh]; rewrite Hh; cbn [res_bind];
    [|by eauto].
  destruct (l2_header_some _ _ _ _ _ Hh) as (Hhdr & Hlen & _).
  destruct (read_no_asdu_frame frame h) as [v ->]; [lia..|]. cbn [res_bind]. by apply handle_asdus_total.
Qed.

End subscriber.

(** [--sample-every 4294967296] is 0 as a [uint32_t]: a division by zero. *)
Lemma sv_every_zero h asdu st :
  listener (H1 := ref_sv) 1 [] None 4294967296 h 1 0 asdu st = Undef.
Proof. unfold listener. simpl default. by destruct (account _ _ _ _ _). Qed.

(** ** Witnesses *)

Definition sample_fixture : FixtureStream :=
  {| f_sv_id := "InteropSv92LE"; f_types := [SV_INT32; SV_QUALITY]; f_wrap := 4000 |}.

Definition sample_asdu : SVSubscriber_ASDU :=
  {| ra_id := "InteropSv92LE"; ra_cnt := 7; ra_data := [0; 0; 3; 232; 0; 0; 0; 0] |}.

Lemma sv_decode_safe_witness :
  ∃ arr, decode_values 1 sample_asdu sample_fixture = Ret (Some arr)
         ∧ json_object_array_length arr = Z.of_nat (length (f_types sample_fixture))
         ∧ ∀ i t, f_types sample_fixture !! i = Some t →
             let off := members_size (take i (f_types sample_fixture)) in
             0 <= off ∧ off + sv_type_size t <= SVSubscriber_ASDU_getDataSize sample_asdu
             ∧ ∃ j, json_elements arr !! i = Some j
                    ∧ goose_value_to_json 1 (Some (member_value sample_asdu off t)) = Ret j.
Proof. apply (sv_decode_safe 0 sample_asdu sample_fixture). discriminate. Defined.

Definition sample_options : sv_sub_options :=
  {| o_iface := "lo"; o_fixture := ""; o_app_id := None; o_dst := None; o_sv_filter := None;
     o_every := 1 |}.

Definition sample_sv_state : sv_state :=
  {| streams := []; stats := no_counts; sv_out := []; known := [] |}.

Definition sample_sv_frame : list Z :=
  replicate 6 1 ++ replicate 6 2 ++ [136; 186; 64; 0] ++ replicate 6 0 ++ [96; 3; 128; 1; 1; 0; 9].

Lemma sv_frame_total_witness :
  ∃ st', on_frame 1 [sample_fixture] sample_options sample_sv_frame sample_sv_state = Ret st'.
Proof.
  apply (sv_frame_total 0 [sample_fixture] sample_options sample_sv_frame sample_sv_state). simpl. lia.
Defined.
