(* ===== verification/SvPublisher.v ===== *)
(** * sv_publisher.c

    The Sampled Values publisher: the check of the values against the layout,
    the writing of the values into the ASDUs, the frames with their sample
    counters, the lines of standard input, the start-up and the paced loop.
    libiec61850's publisher is the class [SvPubApi]; an ASDU is its number in
    the frame. *)

From Stdlib Require Import ZArith Lia String Ascii SpecFloat.
From stdpp Require Import base tactics list strings numbers option.
From S2P Require Import Prelude CText CFloat Json Mms GooseCommon SvCommon L2Frame StdinLines.
From S2P Require Import JsonLines Args GoosePublisher.

Local Open Scope Z_scope.
Local Open Scope c_scope.

Definition MAX_MEMBERS : Z := 64.
Definition MAX_ASDU : Z := 16.

(** The functions of sv_publisher.h the program calls; a call that changes the
    publisher gives the publisher after it.  [SVPublisher_frame] is the frame
    buffer, the first member of the private struct. *)
Class SvPubApi := {
  SvPub : Type;
  SVPublisher_createEx : CommParameters → string → bool → option SvPub;
  SVPublisher_addASDU : SvPub → string → option string → Z → SvPub;
  SVPublisher_ASDU_addINT32 : SvPub → nat → SvPub * Z;
  SVPublisher_ASDU_addFLOAT : SvPub → nat → SvPub * Z;
  SVPublisher_ASDU_addFLOAT64 : SvPub → nat → SvPub * Z;
  SVPublisher_ASDU_addINT8 : SvPub → nat → SvPub * Z;
  SVPublisher_ASDU_addQuality : SvPub → nat → SvPub * Z;
  SVPublisher_ASDU_addTimestamp : SvPub → nat → SvPub * Z;
  SVPublisher_ASDU_enableRefrTm : SvPub → nat → SvPub;
  SVPublisher_ASDU_setSmpRate : SvPub → nat → Z → SvPub;
  SVPublisher_ASDU_setSmpMod : SvPub → nat → Z → SvPub;
  SVPublisher_ASDU_setSmpSynch : SvPub → nat → Z → SvPub;
  SVPublisher_ASDU_setSmpCnt : SvPub → nat → Z → SvPub;
  SVPublisher_ASDU_setRefrTmNs : SvPub → nat → Z → SvPub;
  SVPublisher_ASDU_setINT32 : SvPub → nat → Z → Z → SvPub;
  SVPublisher_ASDU_setFLOAT : SvPub → nat → Z → spec_float → SvPub;
  SVPublisher_ASDU_setFLOAT64 : SvPub → nat → Z → spec_float → SvPub;
  SVPublisher_ASDU_setINT8 : SvPub → nat → Z → Z → SvPub;
  SVPublisher_ASDU_setQuality : SvPub → nat → Z → Z → SvPub;
  SVPublisher_ASDU_setTimestampMs : SvPub → nat → Z → Z → SvPub;
  SVPublisher_setupComplete : SvPub → SvPub;
  SVPublisher_frame : SvPub → list Z;
  SVPublisher_set_frame : SvPub → list Z → SvPub;
  (* the sample counter an ASDU carries *)
  asdu_smpCnt : SvPub → nat → Z
}.

(** An ASDU carries the counter set last. *)
Class SvPubLaws `{SvPubApi} : Prop := {
  smpCnt_set p a n b :
    asdu_smpCnt (SVPublisher_ASDU_setSmpCnt p a n) b = if decide (a = b) then n else asdu_smpCnt p b;
  smpCnt_refrTm p a t b :
    asdu_smpCnt (SVPublisher_ASDU_setRefrTmNs p a t) b = asdu_smpCnt p b
}.

(** A member of the layout and its offset in each ASDU. *)
Record Member := { m_type : SvType; m_index : list Z }.

Section publisher.
Context `{JsonC} `{MmsApi} `{SvPubApi}.

Record Publisher := {
  pub : SvPub;
  no_asdu : Z;
  members : list Member;
  generic : bool;
  wrap : Z;
  smp_cnt : Z;
  frames : Z;
  samples : Z;
  report_every : Z;
  after_set : bool
}.

(** What the program wrote, and the publisher at every
    [SVPublisher_publish]. *)
Record world := { out : list string; sent : list SvPub }.

Definition emit (f : list string → list string) (w : world) : world :=
  {| out := f (out w); sent := sent w |}.

Definition member_type (v : MmsValue) : option SvType :=
  match MmsValue_getType v with
  | MMS_INTEGER => Some SV_INT32
  | MMS_UNSIGNED => Some SV_INT32U
  | MMS_FLOAT => Some (if formatWidth v =? 64 then SV_FLOAT64 else SV_FLOAT32)
  | MMS_BOOLEAN => Some SV_BOOLEAN
  | MMS_BIT_STRING => Some SV_QUALITY
  | MMS_UTC_TIME => Some SV_TIMESTAMP
  | _ => None
  end.

Definition err_type : string :=
  "type cannot be carried in SV (integer, unsigned, float32, float64, boolean, bit-string, utc-time)".

(** The loop of [check_values] over the values: the types when [layout] is
    [None], the comparison with the layout otherwise. *)
Fixpoint check_types (layout : option (list SvType)) (values : list MmsValue)
  : string + list SvType :=
  match values with
  | [] => inr []
  | v :: values' =>
      match member_type v with
      | None => inl err_type
      | Some t =>
          if match layout with
             | Some (t' :: _) => bool_decide (t' ≠ t)
             | Some [] => true
             | None => false
             end
          then inl "value types differ from --values"
          else
            match check_types (tail <$> layout) values' with
            | inr ts => inr (t :: ts)
            | e => e
            end
      end
  end.

(** [check_values]: the types of the values or an error; [layout] is [None]
    when the layout is being defined. *)
Definition check_values (layout : option (list SvType)) (values : list MmsValue)
  : string + list SvType :=
  if MAX_MEMBERS <? Z.of_nat (length values) then inl "too many values"
  else if match layout with
          | Some ts => negb (Z.of_nat (length values) =? Z.of_nat (length ts))
          | None => false
          end
  then inl "value count differs from --values"
  else check_types layout values.

(** The value of a member in one ASDU. *)
Definition write_member (g : SvPub) (a : nat) (m : Member) (v : MmsValue) : SvPub :=
  let idx := nth a (m_index m) 0 in
  match m_type m with
  | SV_INT32 => SVPublisher_ASDU_setINT32 g a idx (MmsValue_toInt32 v)
  | SV_INT32U => SVPublisher_ASDU_setINT32 g a idx (i32 (MmsValue_toUint32 v))
  | SV_FLOAT32 => SVPublisher_ASDU_setFLOAT g a idx (MmsValue_toFloat v)
  | SV_FLOAT64 => SVPublisher_ASDU_setFLOAT64 g a idx (MmsValue_toDouble v)
  | SV_BOOLEAN => SVPublisher_ASDU_setINT8 g a idx (if MmsValue_getBoolean v then 1 else 0)
  | SV_QUALITY => SVPublisher_ASDU_setQuality g a idx (sv_quality_from_value v)
  | SV_TIMESTAMP => SVPublisher_ASDU_setTimestampMs g a idx (MmsValue_getUtcTimeInMs v)
  end.

(** Every value into every ASDU. *)
Definition write_values (no_asdu : Z) (members : list Member) (values : list MmsValue) (g : SvPub)
  : SvPub :=
  fold_left (λ g '(m, v), fold_left (λ g a, write_member g a m v) (seq 0 (Z.to_nat no_asdu)) g)
    (zip members values) g.

Definition emit_published (p : Publisher) (reason : string) (smp_cnt : Z)
  : list string → list string :=
  goose_emit (json_event
    [ ("event", json_object_new_string "published");
      ("reason", json_object_new_string reason);
      ("frames", json_object_new_int64 (i64 (frames p)));
      ("samples", json_object_new_int64 (i64 (samples p)));
      ("smpCnt", json_object_new_int64 smp_cnt) ]).

Definition emit_stopped (p : Publisher) : list string → list string :=
  goose_emit (json_event
    [ ("event", json_object_new_string "stopped");
      ("frames", json_object_new_int64 (i64 (frames p)));
      ("samples", json_object_new_int64 (i64 (samples p))) ]).

(** [for (a = 0; a < no_asdu; a++)] of [send_frame]: the publisher, smpCnt of the
    next ASDU and of the last one, [k] ASDUs left from [a] on. *)
Fixpoint stamp (generic : bool) (wrap now : Z) (k a : nat) (g : SvPub) (smp_cnt last : Z)
  : SvPub * Z * Z :=
  match k with
  | O => (g, smp_cnt, last)
  | S k' =>
      let g := SVPublisher_ASDU_setSmpCnt g a (u16 smp_cnt) in
      let g := if generic then SVPublisher_ASDU_setRefrTmNs g a now else g in
      stamp generic wrap now k' (S a) g ((smp_cnt +u32 1) mod wrap) smp_cnt
  end.

(** Why a frame is reported, if it is. *)
Definition report_reason (frames before samples report_every : Z) (after_set : bool)
  : option string :=
  if frames =? 1 then Some "start"
  else if after_set then Some "set"
  else if negb (samples / report_every =? before / report_every) then Some "periodic"
  else None.

(** [now] is [real_ns()]. *)
Definition send_frame (now : Z) (p : Publisher) (w : world) : Publisher * world :=
  let now := if generic p then now else 0 in
  let '(g, smp, last) :=
    stamp (generic p) (wrap p) now (Z.to_nat (no_asdu p)) 0 (pub p) (smp_cnt p) 0 in
  let frames := frames p +u64 1 in
  let samples' := samples p +u64 no_asdu p in
  let q := {| pub := g; no_asdu := no_asdu p; members := members p; generic := generic p;
              wrap := wrap p; smp_cnt := smp; frames := frames; samples := samples';
              report_every := report_every p; after_set := false |} in
  let w := {| out := out w; sent := sent w ++ [g] |} in
  (q, match report_reason frames (samples p) samples' (report_every p) (after_set p) with
      | Some reason => emit (emit_published q reason last) w
      | None => w
      end).

(** One stdin line; the [bool] is false on [{"cmd":"stop"}]. *)
Definition handle_line (p : Publisher) (line : string) (w : world)
  : res (Publisher * world * bool) :=
  let cmd := json_tokener_parse line in
  if json_object_is_type cmd json_type_null
  then Ret (p, emit (goose_emit_error "stdin: not JSON") w, true)
  else
    match match json_object_object_get_ex cmd "cmd" with
          | Some jc => json_object_get_string jc
          | None => Some ""
          end with
    | None => Undef
    | Some c =>
        if String.eqb c "set" then
          let* r := goose_values_from_json json_depth (json_object_object_get_ex cmd "values") in
          match match r with
                | inl err => inl err
                | inr values =>
                    match check_values (Some (m_type <$> members p)) values with
                    | inl err => inl err
                    | inr _ => inr values
                    end
                end with
          | inl err =>
              Ret (p, emit (goose_emit_error (snprintf_s 200 ("set: " +:+ err))) w, true)
          | inr values =>
              Ret ({| pub := write_values (no_asdu p) (members p) values (pub p);
                      no_asdu := no_asdu p; members := members p; generic := generic p;
                      wrap := wrap p; smp_cnt := smp_cnt p; frames := frames p;
                      samples := samples p; report_every := report_every p;
                      after_set := true |}, w, true)
          end
        else if String.eqb c "stop" then Ret (p, w, false)
        else
          Ret (p, emit (goose_emit_error (snprintf_s 160
                 ("stdin: unknown cmd " +:+ dquote +:+ String.substring 0 100 c +:+ dquote))) w, true)
    end.

(** ** The loop *)

(** A turn of the loop: [mono_ns()] and [real_ns()] at the turn, and what the
    standard input gives. *)
Record turn := { t_now : Z; t_real : Z; t_input : input }.

Record loop_state := {
  stdin : @stdin_state (res (Publisher * world));
  stdin_open : bool;
  next : Z
}.

Definition on_line (st : res (Publisher * world)) (line : string)
  : res (Publisher * world) * bool :=
  match st with
  | Ret (p, w) =>
      match handle_line p line w with
      | Ret (p, w, keep) => (Ret (p, w), keep)
      | Exit c => (Exit c, true)
      | Undef => (Undef, true)
      end
  | r => (r, true)
  end.

Definition line_too_long (st : res (Publisher * world)) : res (Publisher * world) :=
  match st with
  | Ret (p, w) => Ret (p, emit (goose_emit_error "stdin: line too long") w)
  | r => r
  end.

(** The deadline after a frame sent at [now]. *)
Definition next_deadline (period_ns now next : Z) : Z :=
  let next := next +u64 period_ns in
  if next +u64 1000000000 <? now then now +u64 period_ns else next.

(** One turn of [while (g_running)]. *)
Definition loop_turn (period_ns : Z) (t : turn) (l : loop_state) : loop_state :=
  match program (stdin l) with
  | Ret (p, w) =>
      let '(st, next') :=
        if next l <=? t_now t
        then (send_frame (t_real t) p w, next_deadline period_ns (t_now t) (next l))
        else ((p, w), next l) in
      let here := StdinState (pending (stdin l)) (running (stdin l)) (Ret st) in
      match t_input t with
      | Octets chunk =>
          if stdin_open l
          then {| stdin := stdin_chunk on_line line_too_long here chunk; stdin_open := true;
                  next := next' |}
          else {| stdin := here; stdin_open := false; next := next' |}
      | Eof => {| stdin := here; stdin_open := false; next := next' |}
      | Nothing => {| stdin := here; stdin_open := stdin_open l; next := next' |}
      end
  | _ => l
  end.

Fixpoint main_loop (period_ns : Z) (l : loop_state) (turns : list turn) : loop_state :=
  match turns with
  | [] => l
  | t :: turns' => if running (stdin l) then main_loop period_ns (loop_turn period_ns t l) turns'
                   else l
  end.
(** ** Start-up *)

Definition add_member (g : SvPub) (a : nat) (t : SvType) : SvPub * Z :=
  match t with
  | SV_INT32 | SV_INT32U => SVPublisher_ASDU_addINT32 g a
  | SV_FLOAT32 => SVPublisher_ASDU_addFLOAT g a
  | SV_FLOAT64 => SVPublisher_ASDU_addFLOAT64 g a
  | SV_BOOLEAN => SVPublisher_ASDU_addINT8 g a
  | SV_QUALITY => SVPublisher_ASDU_addQuality g a
  | SV_TIMESTAMP => SVPublisher_ASDU_addTimestamp g a
  end.

(** The members of one ASDU, with the offsets they get. *)
Fixpoint add_members (g : SvPub) (a : nat) (types : list SvType) : SvPub * list Z :=
  match types with
  | [] => (g, [])
  | t :: types' =>
      let '(g, idx) := add_member g a t in
      let '(g, l) := add_members g a types' in (g, idx :: l)
  end.

(** What an ASDU is created with. *)
Record asdu_options := {
  a_sv_id : string;
  a_dataset : option string;
  a_conf_rev : Z;
  a_generic : bool;
  a_smp_rate : Z;
  a_smp_mod : Z
}.

(** [for (a = 0; a < p.no_asdu; a++)]: the ASDUs, with the offsets of the
    members in each. *)
Fixpoint add_asdus (o : asdu_options) (types : list SvType) (k a : nat) (g : SvPub)
  : SvPub * list (list Z) :=
  match k with
  | O => (g, [])
  | S k' =>
      let g := SVPublisher_addASDU g (a_sv_id o) (a_dataset o) (a_conf_rev o) in
      let '(g, idx) := add_members g a types in
      let g := if a_generic o then
                 SVPublisher_ASDU_setSmpMod
                   (SVPublisher_ASDU_setSmpRate (SVPublisher_ASDU_enableRefrTm g a) a (a_smp_rate o))
                   a (a_smp_mod o)
               else g in
      let '(g, l) := add_asdus o types k' (S a) g in (g, idx :: l)
  end.

Definition make_members (types : list SvType) (indices : list (list Z)) : list Member :=
  imap (λ i t, {| m_type := t; m_index := (λ l, nth i l 0) <$> indices |}) types.

(** The S bit of the prebuilt frame. *)
Definition set_simulation (g : SvPub) : SvPub :=
  let i := (12 + 4 + 2 + GOOSE_SIM_OCTET)%nat in
  let frame := SVPublisher_frame g in
  SVPublisher_set_frame g (<[i := Z.lor (octet frame i) GOOSE_SIM_MASK]> frame).

End publisher.

(** The 9-2LE layout: eight pairs of an integer and a quality. *)
Definition is_92le (types : list SvType) : bool :=
  (Z.of_nat (length types) =? 16)
  && forallb (λ '(i, t), bool_decide (t = if negb (i mod 2 =? 0) then SV_QUALITY else SV_INT32))
       (zip (range 16) types).

(** Samples per second. *)
Definition sample_rate (smp_mod smp_rate frequency : Z) : spec_float :=
  if smp_mod =? 0 then dmul (double_of_Z smp_rate) (double_of_Z frequency)
  else if smp_mod =? 1 then double_of_Z smp_rate
  else ddiv (double_of_Z 1) (double_of_Z smp_rate).

(** The period of smpCnt; a conversion to an integer type of a value outside it
    is undefined. *)
Definition smp_wrap (smp_mod : Z) (rate : spec_float) : res Z :=
  if smp_mod =? 2 then Ret 65536
  else
    let* n := res_of_option (trunc (if dgt rate (double_of_Z 65536) then double_of_Z 65536 else rate)) in
    if (0 <=? n) && (n <? 4294967296) then Ret n else Undef.

(** [(uint64_t) ((double) no_asdu * 1e9 / rate)] *)
Definition frame_period (no_asdu : Z) (rate : spec_float) : res Z :=
  let* n := res_of_option (trunc (ddiv (dmul (double_of_Z no_asdu) (double_of_Z 1000000000)) rate)) in
  if (0 <=? n) && (n <? 18446744073709551616) then Ret n else Undef.

(** ** Options *)

Definition sv_pub_valued : list string :=
  ["--iface"; "--app-id"; "--dst"; "--vlan-id"; "--vlan-prio"; "--sv-id"; "--dataset";
   "--conf-rev"; "--smp-rate"; "--smp-mod"; "--no-asdu"; "--smp-synch"; "--profile";
   "--frequency"; "--report-every"; "--values"].

Definition sv_pub_flags : list string := ["--simulation"].

Definition sv_bad_numbers (m : given) : bool :=
  let vlan_id := option_long m "--vlan-id" 0 in
  let vlan_prio := option_long m "--vlan-prio" 4 in
  let smp_rate := option_long m "--smp-rate" 80 in
  let no_asdu := option_long m "--no-asdu" 1 in
  let smp_synch := option_long m "--smp-synch" 0 in
  (vlan_id <? 0) || (4095 <? vlan_id) || (vlan_prio <? 0) || (7 <? vlan_prio)
  || (option_long m "--conf-rev" 1 <? 0) || (smp_rate <? 1) || (65535 <? smp_rate)
  || (no_asdu <? 1) || (MAX_ASDU <? no_asdu) || (smp_synch <? 0) || (255 <? smp_synch)
  || (option_long m "--frequency" 50 <? 1) || (option_long m "--report-every" 1000 <? 1).

Section main.
Context `{JsonC} `{MmsApi} `{SvPubApi}.

(** The publisher object of the options, ready to publish. *)
Definition configure (m : given) (sv_id : string) (is_generic : bool) (mod_ : Z)
    (types : list SvType) (values : list MmsValue) (g : SvPub) : SvPub * list Member :=
  let no_asdu := option_long m "--no-asdu" 1 in
  let n := Z.to_nat no_asdu in
  let o := {| a_sv_id := sv_id;
              a_dataset := if is_generic then option_value m "--dataset" else None;
              a_conf_rev := u32 (option_long m "--conf-rev" 1); a_generic := is_generic;
              a_smp_rate := u16 (option_long m "--smp-rate" 80); a_smp_mod := mod_ |} in
  let '(g, indices) := add_asdus o types n 0 g in
  let g := SVPublisher_setupComplete g in
  let g := fold_left (λ g a, SVPublisher_ASDU_setSmpSynch g a (u16 (option_long m "--smp-synch" 0)))
             (seq 0 n) g in
  let members := make_members types indices in
  let g := write_values no_asdu members values g in
  (if option_flag m "--simulation" then set_simulation g else g, members).

(** What [main] does before its loop: the publisher and the frame period.
    [mac] is the address of the interface. *)
Definition start (version : option string) (mac : string → list Z) (m : given)
  : res (Publisher * Z * world) :=
  match option_value m "--sv-id", option_value m "--values",
        sv_smp_mod_from_name (option_string m "--smp-mod" "samples-per-period") with
  | Some sv_id, Some values_json, Some mod_ =>
      let profile := option_string m "--profile" "9-2LE" in
      let is_generic := String.eqb profile "generic" in
      if negb is_generic && negb (String.eqb profile "9-2LE") then Exit 1 else
      if sv_bad_numbers m then Exit 1 else
      let* r := goose_values_from_json json_depth (Some (json_tokener_parse values_json)) in
      match match r with
            | inl err => inl err
            | inr values => match check_values None values with
                            | inl err => inl err
                            | inr types => inr (values, types)
                            end
            end with
      | inl _ => Exit 1
      | inr (values, types) =>
          if negb is_generic && negb (is_92le types) then Exit 1 else
          let no_asdu := option_long m "--no-asdu" 1 in
          let rate := sample_rate mod_ (option_long m "--smp-rate" 80)
                        (option_long m "--frequency" 50) in
          let* w := smp_wrap mod_ rate in
          let* period_ns := frame_period no_asdu rate in
          match goose_parse_appid (option_string m "--app-id" "0x4000"),
                goose_parse_mac (option_string m "--dst" "01:0c:cd:04:00:00") with
          | Some app_id, Some dst =>
              let iface := option_string m "--iface" "eth0" in
              let params :=
                {| vlanPriority := u8 (option_long m "--vlan-prio" 4);
                   vlanId := u16 (option_long m "--vlan-id" 0);
                   appId := app_id; dstAddress := dst |} in
              match SVPublisher_createEx params iface true with
              | None => Exit 1
              | Some g =>
                  let '(g, members) := configure m sv_id is_generic mod_ types values g in
                  Ret ({| pub := g; no_asdu := no_asdu; members := members;
                          generic := is_generic; wrap := w; smp_cnt := 0; frames := 0;
                          samples := 0; report_every := option_long m "--report-every" 1000;
                          after_set := false |},
                       period_ns,
                       {| out := sv_emit_ready version "publisher" iface (mac iface) (Some sv_id) [];
                          sent := [] |})
              end
          | _, _ => Exit 1
          end
      end
  | _, _, _ => Exit 1
  end.

(** The run: the state of the loop after the turns, and then [emit_stopped].
    [t0] is [mono_ns()] before the loop. *)
Definition main (version : option string) (mac : string → list Z) (argv : list string) (t0 : Z)
    (turns : list turn) : res (Publisher * world) :=
  match jl_handle_meta_flags version argv "libiec61850" with
  | Some _ => Exit 0
  | None =>
      let* m := parse_args sv_pub_valued sv_pub_flags (tail argv) [] in
      let* s := start version mac m in
      let '(p, period_ns, w) := s in
      let l := main_loop period_ns
                 {| stdin := StdinState "" true (Ret (p, w)); stdin_open := true; next := t0 |} turns in
      let* s := program (stdin l) in
      let '(p, w) := s in Ret (p, emit (emit_stopped p) w)
  end.

End main.
