(* ===== verification/RefSvPub.v ===== *)
(** * A reference SV publisher

    A concrete publisher for the interface [SvPubApi]: it keeps the sample
    counters of its ASDUs and a frame buffer, and hands out member offsets
    four octets apart.  It shows that [SvPubLaws] can hold. *)

From Stdlib Require Import ZArith Lia String Ascii SpecFloat.
From stdpp Require Import base tactics list strings numbers option.
From S2P Require Import Prelude CText GooseCommon GoosePublisher SvPublisher.

Local Open Scope Z_scope.

Record rsvpub := { rs_cnt : nat → Z; rs_next : Z; rs_frame : list Z }.

Definition rs_add (p : rsvpub) (_ : nat) : rsvpub * Z :=
  ({| rs_cnt := rs_cnt p; rs_next := rs_next p + 4; rs_frame := rs_frame p |}, rs_next p).

#[export] Instance ref_sv_pub : SvPubApi := {|
  SvPub := rsvpub;
  SVPublisher_createEx _ _ _ :=
    Some {| rs_cnt := λ _, 0; rs_next := 0; rs_frame := replicate 64 0 |};
  SVPublisher_addASDU p _ _ _ := {| rs_cnt := rs_cnt p; rs_next := 0; rs_frame := rs_frame p |};
  SVPublisher_ASDU_addINT32 := rs_add;
  SVPublisher_ASDU_addFLOAT := rs_add;
  SVPublisher_ASDU_addFLOAT64 := rs_add;
  SVPublisher_ASDU_addINT8 := rs_add;
  SVPublisher_ASDU_addQuality := rs_add;
  SVPublisher_ASDU_addTimestamp := rs_add;
  SVPublisher_ASDU_enableRefrTm p _ := p;
  SVPublisher_ASDU_setSmpRate p _ _ := p;
  SVPublisher_ASDU_setSmpMod p _ _ := p;
  SVPublisher_ASDU_setSmpSynch p _ _ := p;
  SVPublisher_ASDU_setSmpCnt p a n :=
    {| rs_cnt := λ b, if decide (a = b) then n else rs_cnt p b; rs_next := rs_next p;
       rs_frame := rs_frame p |};
  SVPublisher_ASDU_setRefrTmNs p _ _ := p;
  SVPublisher_ASDU_setINT32 p _ _ _ := p;
  SVPublisher_ASDU_setFLOAT p _ _ _ := p;
  SVPublisher_ASDU_setFLOAT64 p _ _ _ := p;
  SVPublisher_ASDU_setINT8 p _ _ _ := p;
  SVPublisher_ASDU_setQuality p _ _ _ := p;
  SVPublisher_ASDU_setTimestampMs p _ _ _ := p;
  SVPublisher_setupComplete p := p;
  SVPublisher_frame := rs_frame;
  SVPublisher_set_frame p f := {| rs_cnt := rs_cnt p; rs_next := rs_next p; rs_frame := f |};
  asdu_smpCnt := rs_cnt
|}.

#[export] Instance ref_sv_pub_laws : SvPubLaws.
Proof. split; intros; done. Qed.
