(* ===== verification/SvPublisherSpec.v ===== *)
(** * Theorems about sv_publisher.c

    The sample counters the frames carry, the frames that are reported, the
    handling of the lines of standard input and the invariant of the loop. *)

From Stdlib Require Import ZArith Lia String Ascii SpecFloat.
From stdpp Require Import base tactics list strings numbers option.
From S2P Require Import Prelude CText CFloat Json Mms GooseCommon GooseCommonSpec SvCommon.
From S2P Require Import L2Frame StdinLines JsonLines Args GoosePublisher SvPublisher RefJson.
From S2P Require Import RefMms RefSvPub.

Local Open Scope Z_scope.
Local Open Scope c_scope.

(** ** Sample counters *)

Section counters.
Context `{JsonC} `{MmsApi} `{SvPubLaws}.

(** What the start-up establishes and every step keeps. *)
Record publisher_ok (p : Publisher) : Prop := {
  ok_asdu : 1 <= no_asdu p <= MAX_ASDU;
  ok_wrap : 1 <= wrap p <= 65536;
  ok_cnt : 0 <= smp_cnt p < wrap p;
  ok_every : 1 <= report_every p
}.

Lemma next_cnt wrap smp :
  1 <= wrap <= 65536 → 0 <= smp < wrap → (smp +u32 1) mod wrap = (smp + 1) mod wrap.
Proof. intros. by rewrite u32_id by lia. Qed.

Lemma stamp_spec gen wrap now k a g smp last :
  1 <= wrap <= 65536 → 0 <= smp < wrap →
  ∃ g', stamp gen wrap now k a g smp last
        = (g', (smp + Z.of_nat k) mod wrap,
           if decide (k = 0%nat) then last else (smp + Z.of_nat k - 1) mod wrap)
        ∧ ∀ b, asdu_smpCnt g' b
               = if decide (a <= b < a + k)%nat then (smp + (Z.of_nat b - Z.of_nat a)) mod wrap
                 else asdu_smpCnt g b.
Proof.
  intros Hw. revert a g smp last. induction k as [|k IH]; intros a g smp last Hs; simpl stamp.
  - exists g. rewrite Z.add_0_r, Z.mod_small by done. split; [done|]. intros b.
    by rewrite decide_False by lia.
  - set (g1 := if gen then _ else _). rewrite next_cnt by done.
    destruct (IH (S a) g1 ((smp + 1) mod wrap) smp) as (g' & -> & Hg').
    { apply Z.mod_pos_bound. lia. }
    assert (∀ b, asdu_smpCnt g1 b = if decide (a = b) then smp else asdu_smpCnt g b) as Hg1.
    { intros b. subst g1. destruct gen; rewrite ?smpCnt_refrTm, smpCnt_set, u16_id by lia; done. }
    exists g'. split.
    + rewrite Nat2Z.inj_succ, Z.add_mod_idemp_l by lia. f_equal; [do 2 f_equal; lia|].
      rewrite (decide_False (P := S k = 0%nat)) by done. destruct (decide (k = 0%nat)) as [->|].
      * rewrite Z.mod_small by lia. simpl. lia.
      * rewrite <- Z.add_sub_assoc, Z.add_mod_idemp_l by lia. f_equal. lia.
    + intros b. rewrite Hg', Hg1. destruct (decide (a = b)) as [->|].
      * rewrite decide_False by lia. rewrite decide_True by lia.
        rewrite Z.sub_diag, Z.add_0_r, Z.mod_small by lia. done.
      * destruct (decide (S a <= b < S a + k)%nat).
        -- rewrite decide_True by lia. rewrite Z.add_mod_idemp_l by lia. f_equal. lia.
        -- by rewrite decide_False by lia.
Qed.

(** The counters a published frame carries. *)
Definition carried (k : Z) (g : SvPub) : list Z := asdu_smpCnt g <$> seq 0 (Z.to_nat k).

(** Frames sent one after the other, at the given times. *)
Definition sends (ts : list Z) (p : Publisher) (w : world) : Publisher * world :=
  fold_left (λ '(p, w) t, send_frame t p w) ts (p, w).

Lemma send_frame_step t p w :
  publisher_ok p →
  let '(p', w') := send_frame t p w in
  publisher_ok p' ∧ no_asdu p' = no_asdu p ∧ wrap p' = wrap p ∧ report_every p' = report_every p
  ∧ members p' = members p ∧ after_set p' = false
  ∧ smp_cnt p' = (smp_cnt p + no_asdu p) mod wrap p
  ∧ frames p' = frames p +u64 1 ∧ samples p' = samples p +u64 no_asdu p
  ∧ sent w' = sent w ++ [pub p']
  ∧ carried (no_asdu p) (pub p')
    = (λ i, (smp_cnt p + i) mod wrap p) <$> seqZ 0 (no_asdu p)
  ∧ out w' = match report_reason (frames p') (samples p) (samples p') (report_every p) (after_set p) with
             | Some r => emit_published p' r ((smp_cnt p + no_asdu p - 1) mod wrap p) (out w)
             | None => out w
             end.
Proof.
  intros [Ha Hw Hc Hr]. unfold send_frame.
  destruct (stamp_spec (generic p) (wrap p) (if generic p then t else 0) (Z.to_nat (no_asdu p)) 0
              (pub p) (smp_cnt p) 0 Hw Hc) as (g' & -> & Hg').
  rewrite Z2Nat.id by lia. rewrite decide_False by lia. cbn [frames samples report_every after_set].
  split; [split; simpl; try done; apply Z.mod_pos_bound; lia|].
  do 8 (split; [done|]). split; [by destruct (report_reason _ _ _ _ _)|].
  split; [|by destruct (report_reason _ _ _ _ _)].
  simpl. unfold carried, seqZ. rewrite <- list_fmap_compose. apply list_fmap_ext.
  intros i b Hb. apply lookup_seq in Hb as [-> Hb]. rewrite Hg', decide_True by lia. simpl. f_equal; lia.
Qed.

Lemma sample_counters ts p w :
  publisher_ok p →
  ∃ gs, sent (sends ts p w).2 = sent w ++ gs
        ∧ length gs = length ts
        ∧ concat (carried (no_asdu p) <$> gs)
          = (λ i, (smp_cnt p + i) mod wrap p) <$> seqZ 0 (Z.of_nat (length ts) * no_asdu p).
Proof.
  revert p w. induction ts as [|t ts IH]; intros p w Hp.
  - exists []. simpl. by rewrite app_nil_r.
  - pose proof (send_frame_step t p w Hp) as Hs. unfold sends. cbn [fold_left].
    destruct (send_frame t p w) as [p' w'].
    destruct Hs as (Hp' & Hn & Hw & _ & _ & _ & Hc & _ & _ & Hsent & Hcar & _).
    destruct (IH p' w' Hp') as (gs & Hgs & Hl & Hcat). destruct Hp as [Ha Hwr Hcnt _].
    exists (pub p' :: gs). split; [|split].
    + change (fold_left _ ts (p', w')) with (sends ts p' w'). by rewrite Hgs, Hsent, <- app_assoc.
    + simpl. by rewrite Hl.
    + cbn [fmap list_fmap concat length]. rewrite Hn, Hw, Hc in Hcat.
      rewrite Hcar, Nat2Z.inj_succ, Z.mul_succ_l, Z.add_comm, seqZ_app, fmap_app by lia.
      f_equal. etransitivity; [exact Hcat|].
      replace (0 + no_asdu p) with (no_asdu p + 0) by lia.
      rewrite <- (fmap_add_seqZ (no_asdu p) 0), <- list_fmap_compose. apply list_fmap_ext.
      intros _ i _. simpl. rewrite Z.add_mod_idemp_l by lia. f_equal. lia.
Qed.

(** C17: The ASDUs of the frames of the SV publisher carry consecutive sample
    counters, wrapping at the period, across ASDUs and frames. *)
Theorem sv_sample_counters ts p w :
  publisher_ok p →
  ∃ gs, sent (sends ts p w).2 = sent w ++ gs
        ∧ length gs = length ts
        ∧ concat (carried (no_asdu p) <$> gs)
          = (λ i, (smp_cnt p + i) mod wrap p) <$> seqZ 0 (Z.of_nat (length ts) * no_asdu p).
Proof. apply sample_counters. Qed.

(** ** Reports *)

Lemma crossing s k r :
  0 <= s → 0 < k <= r → (s + k) / r = s / r ∨ (s + k) / r = s / r + 1.
Proof.
  intros Hs Hk. pose proof (Z_div_mod_eq_full s r) as Hd. pose proof (Z.mod_pos_bound s r) as Hm.
  generalize dependent (s mod r). generalize dependent (s / r). intros q m Hd Hm.
  destruct (decide (m + k < r)); [left|right]; symmetry.
  - apply (Z.div_unique _ _ _ (m + k)); lia.
  - apply (Z.div_unique _ _ _ (m + k - r)); lia.
Qed.

Lemma reports_from ts p w :
  publisher_ok p → after_set p = false → 1 <= frames p → 0 <= samples p →
  no_asdu p <= report_every p →
  frames p + Z.of_nat (length ts) < 2 ^ 64 →
  samples p + Z.of_nat (length ts) * no_asdu p < 2 ^ 64 →
  Z.of_nat (length (out (sends ts p w).2))
  = Z.of_nat (length (out w))
    + ((samples p + Z.of_nat (length ts) * no_asdu p) / report_every p
       - samples p / report_every p).
Proof.
  change (2 ^ 64) with 18446744073709551616.
  revert p w. induction ts as [|t ts IH]; intros p w Hp Ha Hf Hs Hle Hfb Hsb.
  - simpl. by rewrite Z.add_0_r, Z.sub_diag, Z.add_0_r.
  - pose proof (send_frame_step t p w Hp) as Hstep. unfold sends. cbn [fold_left].
    destruct (send_frame t p w) as [p' w'].
    destruct Hstep as (Hp' & Hn & _ & Hr & _ & Ha' & _ & Hf' & Hs' & _ & _ & Ho).
    change (fold_left _ ts (p', w')) with (sends ts p' w').
    destruct Hp as [Hk _ _ Hrep]. cbn [length] in *.
    rewrite u64_id in Hf' by lia. rewrite u64_id in Hs' by nia.
    rewrite IH by (rewrite ?Hn, ?Hr, ?Hf', ?Hs'; done || lia).
    rewrite Hn, Hr, Ho. unfold report_reason. rewrite Hf', Ha.
    destruct (Z.eqb_spec (frames p + 1) 1); [lia|]. rewrite Hs'.
    replace (samples p + no_asdu p + Z.of_nat (length ts) * no_asdu p)
      with (samples p + Z.of_nat (S (length ts)) * no_asdu p) by lia.
    destruct (crossing (samples p) (no_asdu p) (report_every p)) as [He|He]; [lia..| |];
      rewrite He; destruct (Z.eqb_spec (samples p / report_every p) (samples p / report_every p));
      destruct (Z.eqb_spec (samples p / report_every p + 1) (samples p / report_every p)); try lia;
      cbn [negb]; unfold emit_published, goose_emit; rewrite ?length_app; simpl length; lia.
Qed.

(** Of the frames sent from the start, without a set, the first is reported
    and every one that takes the number of samples past a multiple of the report
    interval. *)
Theorem sv_reports t ts p w :
  publisher_ok p → frames p = 0 → samples p = 0 → no_asdu p <= report_every p →
  (Z.of_nat (length ts) + 1) * no_asdu p < 2 ^ 64 →
  Z.of_nat (length (out (sends (t :: ts) p w).2))
  = Z.of_nat (length (out w)) + 1
    + ((Z.of_nat (length ts) + 1) * no_asdu p / report_every p - no_asdu p / report_every p).
Proof.
  intros Hp Hf Hs Hle Hb. pose proof (send_frame_step t p w Hp) as Hstep.
  unfold sends. cbn [fold_left]. destruct (send_frame t p w) as [p' w'].
  destruct Hstep as (Hp' & Hn & _ & Hr & _ & Ha' & _ & Hf' & Hs' & _ & _ & Ho).
  change (fold_left _ ts (p', w')) with (sends ts p' w').
  destruct Hp as [Hk _ _ Hrep]. unfold MAX_ASDU in *. rewrite Hf, u64_id in Hf' by lia.
  rewrite Hs, u64_id in Hs' by lia. change (2 ^ 64) with 18446744073709551616 in *.
  rewrite (reports_from ts p' w'); rewrite ?Hn, ?Hr, ?Hf', ?Hs'; change (2 ^ 64) with 18446744073709551616;
    try done; try lia.
  rewrite Hf' in Ho. change (report_reason (0 + 1) (samples p) (samples p') (report_every p) (after_set p))
    with (Some "start") in Ho. rewrite Ho. unfold emit_published, goose_emit.
  rewrite length_app. simpl length.
  replace (0 + no_asdu p + Z.of_nat (length ts) * no_asdu p)
    with ((Z.of_nat (length ts) + 1) * no_asdu p) by lia.
  replace (0 + no_asdu p) with (no_asdu p) by lia. lia.
Qed.

End counters.

(** ** Lines and the loop *)

Section loop.
Context `{JsonLaws} `{MmsApi} `{SvPubApi}.

(** What a line can do to the publisher. *)
Inductive line_effect (p : Publisher) (w : world) : Publisher * world * bool → Prop :=
| line_stop : line_effect p w (p, w, false)
| line_rejected msg : line_effect p w (p, emit (goose_emit_error msg) w, true)
| line_set values ts q :
    check_values (Some (m_type <$> members p)) values = inr ts →
    pub q = write_values (no_asdu p) (members p) values (pub p) →
    after_set q = true → no_asdu q = no_asdu p → members q = members p → wrap q = wrap p →
    smp_cnt q = smp_cnt p → frames q = frames p → samples q = samples p →
    report_every q = report_every p →
    line_effect p w (q, w, true).

Lemma sv_line_cases p line w r : handle_line p line w = Ret r → line_effect p w r.
Proof.
  unfold handle_line. intros Hr.
  destruct (json_object_is_type _ json_type_null); [simplify_eq; constructor|].
  destruct (match json_object_object_get_ex _ "cmd" with Some _ => _ | None => _ end) as [c|];
    [|done].
  destruct (String.eqb c "set").
  - apply res_bind_ret in Hr as ([err|values] & _ & Hr); [simplify_eq; constructor|].
    destruct (check_values _ values) as [err|ts] eqn:Hc; simplify_eq; [constructor|].
    by apply (line_set _ _ values ts).
  - destruct (String.eqb c "stop"); simplify_eq; constructor.
Qed.

(** The layout of a value that passed the check against it. *)
Lemma check_types_layout layout values ts :
  check_types (Some layout) values = inr ts → length values = length layout → ts = layout
  ∧ Forall2 (λ v t, member_type v = Some t) values layout.
Proof.
  revert layout ts. induction values as [|v values IH]; intros layout ts Hc Hl.
  - destruct layout; [|done]. simpl in Hc. by simplify_eq.
  - destruct layout as [|t' layout]; [done|]. simpl in Hc, Hl.
    destruct (member_type v) as [t|] eqn:Ht; [|done].
    destruct (bool_decide (t' ≠ t)) eqn:Hd; [done|].
    apply bool_decide_eq_false in Hd.
    destruct (check_types (Some layout) values) as [e|ts'] eqn:Hcs; [done|]. simplify_eq.
    destruct (IH layout ts' Hcs ltac:(lia)) as [-> HF].
    assert (t' = t) as -> by (destruct (decide (t' = t)); [done|by destruct Hd]).
    split; [done|by constructor].
Qed.

Lemma check_values_layout layout values ts :
  check_values (Some layout) values = inr ts →
  Z.of_nat (length values) <= MAX_MEMBERS ∧ Forall2 (λ v t, member_type v = Some t) values layout.
Proof.
  unfold check_values. destruct (Z.ltb_spec MAX_MEMBERS (Z.of_nat (length values))); [done|].
  destruct (Z.eqb_spec (Z.of_nat (length values)) (Z.of_nat (length layout))); [|done]. simpl.
  intros Hc. split; [done|]. by apply check_types_layout in Hc as [_ ?]; [|lia].
Qed.

(** A line on the standard input of the SV publisher stops it, replaces the
    values of all ASDUs by values of the same layout, or is rejected: then one
    error is printed and nothing else changes. *)
Theorem sv_line_effect p line w r :
  handle_line p line w = Ret r →
  line_effect p w r
  ∧ (∀ q, r = (q, w, true) → q ≠ p →
     ∃ values, Forall2 (λ v t, member_type v = Some t) values (m_type <$> members p)
               ∧ pub q = write_values (no_asdu p) (members p) values (pub p)).
Proof.
  intros Hl%sv_line_cases. split; [done|]. intros q -> Hne.
  inversion Hl as [|msg Hm|values ts q' Hc Hp]; subst; try done.
  exists values. split; [|done]. by apply check_values_layout in Hc as [_ ?].
Qed.

(** The state of the program in the loop. *)
Definition state_ok (p0 : Publisher) (st : res (Publisher * world)) : Prop :=
  match st with
  | Ret (p, _) => publisher_ok p ∧ no_asdu p = no_asdu p0 ∧ wrap p = wrap p0 ∧ members p = members p0
  | _ => True
  end.

Lemma on_line_ok p0 st line : state_ok p0 st → state_ok p0 (on_line st line).1.
Proof.
  destruct st as [[p w]| |]; simpl; try done. intros ([Ha Hw Hc Hr] & Hn & Hwr & Hm).
  destruct (handle_line p line w) as [[[q v] keep]| |] eqn:Hl; simpl; try done.
  apply sv_line_cases in Hl. inversion Hl; subst; simpl; try done.
  split; [split|]; simpl; try congruence.
  split; [|split]; congruence.
Qed.

End loop.

Section run.
Context `{JsonLaws} `{MmsApi} `{SvPubLaws}.

Lemma send_state_ok p0 t p w :
  state_ok p0 (Ret (p, w)) → state_ok p0 (Ret (send_frame t p w)).
Proof.
  intros (Hp & Hn & Hw & Hm). pose proof (send_frame_step t p w Hp) as Hs.
  destruct (send_frame t p w) as [p' w'].
  destruct Hs as (Hp' & Hn' & Hw' & _ & Hm' & _). simpl. repeat split; try apply Hp'; congruence.
Qed.

Lemma sv_loop_turn_ok p0 period t l :
  state_ok p0 (program (stdin l)) → state_ok p0 (program (stdin (loop_turn period t l))).
Proof.
  unfold loop_turn. destruct (program (stdin l)) as [[p w]| |] eqn:E;
    [|by rewrite E|by rewrite E]. intros Hp.
  assert (state_ok p0 (Ret (if next l <=? t_now t then send_frame (t_real t) p w else (p, w)))) as Hs.
  { destruct (_ <=? _); [by apply send_state_ok|done]. }
  destruct (next l <=? t_now t); cbv beta iota zeta;
    (destruct (t_input t) as [|chunk|]; [done| |done]; destruct (stdin_open l); [|done]; simpl;
     apply stdin_chunk_inv; [apply on_line_ok|by intros [[? ?]| |]|done]).
Qed.

(** C31: Whatever comes on the standard input of the SV publisher and however
    the turns of its loop fall, it keeps its layout and its period, and smpCnt
    stays below the period. *)
Theorem sv_loop_invariant period l turns p w p' w' :
  program (stdin l) = Ret (p, w) → publisher_ok p →
  program (stdin (main_loop period l turns)) = Ret (p', w') →
  publisher_ok p' ∧ no_asdu p' = no_asdu p ∧ wrap p' = wrap p ∧ members p' = members p.
Proof.
  intros Hl Hp.
  assert (∀ ts l, state_ok p (program (stdin l)) → state_ok p (program (stdin (main_loop period l ts)))) as Hinv.
  { induction ts as [|t ts IH]; intros l' Hl'; simpl; [done|].
    destruct (running (stdin l')); [|done]. by apply IH, sv_loop_turn_ok. }
  specialize (Hinv turns l). rewrite Hl in Hinv. intros Hl'. rewrite Hl' in Hinv. by apply Hinv.
Qed.

End run.

(** ** Witnesses *)

Definition sample_pub : Publisher :=
  {| pub := {| rs_cnt := λ _, 0; rs_next := 0; rs_frame := replicate 64 0 |};
     no_asdu := 2; members := [{| m_type := SV_INT32; m_index := [0; 0] |}]; generic := true;
     wrap := 4000; smp_cnt := 3999; frames := 0; samples := 0; report_every := 4;
     after_set := false |}.

Definition sample_world : world := {| out := []; sent := [] |}.

Lemma sample_pub_ok : publisher_ok sample_pub.
Proof. split; unfold MAX_ASDU; simpl; lia. Qed.

Lemma sv_sample_counters_witness :
  ∃ gs, sent (sends [1; 2; 3] sample_pub sample_world).2 = sent sample_world ++ gs
        ∧ length gs = length [1; 2; 3]
        ∧ concat (carried (no_asdu sample_pub) <$> gs)
          = (λ i, (smp_cnt sample_pub + i) mod wrap sample_pub)
            <$> seqZ 0 (Z.of_nat (length [1; 2; 3]) * no_asdu sample_pub).
Proof. exact (sv_sample_counters [1; 2; 3] sample_pub sample_world sample_pub_ok). Defined.

Lemma sv_reports_witness :
  Z.of_nat (length (out (sends (1 :: [2; 3]) sample_pub sample_world).2))
  = Z.of_nat (length (out sample_world)) + 1
    + ((Z.of_nat (length [2; 3]) + 1) * no_asdu sample_pub / report_every sample_pub
       - no_asdu sample_pub / report_every sample_pub).
Proof.
  apply (sv_reports 1 [2; 3] sample_pub sample_world sample_pub_ok);
    first [reflexivity|simpl; lia].
Defined.

Lemma sv_line_effect_witness :
  line_effect sample_pub sample_world
    (sample_pub, emit (goose_emit_error "stdin: not JSON") sample_world, true)
  ∧ (∀ q, (sample_pub, emit (goose_emit_error "stdin: not JSON") sample_world, true)
          = (q, sample_world, true) → q ≠ sample_pub →
     ∃ values, Forall2 (λ v t, member_type v = Some t) values (m_type <$> members sample_pub)
               ∧ pub q = write_values (no_asdu sample_pub) (members sample_pub) values (pub sample_pub)).
Proof. apply (sv_line_effect sample_pub "x" sample_world). reflexivity. Defined.

Definition sample_loop : loop_state :=
  {| stdin := StdinState "" true (Ret (sample_pub, sample_world)); stdin_open := true; next := 0 |}.

Lemma sv_loop_invariant_witness :
  ∃ p' w', program (stdin (main_loop 1000 sample_loop [{| t_now := 5; t_real := 7; t_input := Nothing |}]))
           = Ret (p', w')
  ∧ publisher_ok p' ∧ no_asdu p' = no_asdu sample_pub ∧ wrap p' = wrap sample_pub
  ∧ members p' = members sample_pub.
Proof.
  do 2 eexists. split; [reflexivity|].
  apply (sv_loop_invariant 1000 sample_loop [{| t_now := 5; t_real := 7; t_input := Nothing |}]
           sample_pub sample_world _
           (send_frame 7 sample_pub sample_world).2); [reflexivity|exact sample_pub_ok|reflexivity].
Defined.

(** The periods of the streams of the fixture, computed in binary64. *)
Lemma sv_wrap_92le : smp_wrap 0 (sample_rate 0 80 50) = Ret 4000.
Proof. reflexivity. Qed.

Lemma sv_wrap_generic : smp_wrap 1 (sample_rate 1 1000 50) = Ret 1000.
Proof. reflexivity. Qed.

Lemma sv_period_92le : frame_period 1 (sample_rate 0 80 50) = Ret 250000.
Proof. reflexivity. Qed.
