(* ===== verification/Fixture.v ===== *)
(** * fixture.c

    The loader of the MMS fixtures: a JSON document to the model the MMS
    server serves (domains with their variables and journals, files,
    information reports).  A [NULL] result is [None]; a null pointer handed to
    [strcmp], [strdup], [strlen] or [sscanf] is [Undef], and so is the
    iteration over the members of a value that is not an object.  Memory is
    not modelled: allocations succeed and [fixture_free] has no counterpart. *)

From Stdlib Require Import ZArith Lia String Ascii SpecFloat.
From stdpp Require Import base tactics list strings numbers option.
From S2P Require Import Prelude CText Civil CFloat Json Mms GooseCommon.

Local Open Scope Z_scope.
Local Open Scope c_scope.

(** ** Hexadecimal and time texts *)

Definition hex_char (c : ascii) : Z := hex_value c.

(** The loop of [hex_decode]: [n] octets from [s]. *)
Fixpoint hex_loop (n : nat) (s : string) : option (list Z) :=
  match n with
  | O => Some []
  | S n' =>
      match s with
      | String a (String b r) =>
          let hi := hex_char a in
          let lo := hex_char b in
          if (hi <? 0) || (lo <? 0) then None
          else match hex_loop n' r with
               | Some l => Some (u8 (Z.lor (Z.shiftl hi 4) lo) :: l)
               | None => None
               end
      | _ => None
      end
  end.

Definition hex_decode (s : string) : option (list Z) :=
  let slen := i32 (slen s) in
  if negb (slen mod 2 =? 0) then None else hex_loop (Z.to_nat (slen / 2)) s.

(** [sscanf] of ["%4d-%2d-%2dT%2d:%2d:%2d"]: the six fields and the rest, when
    all six are converted. *)
Definition scan_fields (s : string) : option (tm * string) :=
  '(y, s) ← scan_dec 4 s; s ← expect "-" s;
  '(mo, s) ← scan_dec 2 s; s ← expect "-" s;
  '(d, s) ← scan_dec 2 s; s ← expect "T" s;
  '(h, s) ← scan_dec 2 s; s ← expect ":" s;
  '(mi, s) ← scan_dec 2 s; s ← expect ":" s;
  '(se, s) ← scan_dec 2 s;
  Some (mk_tm y mo d h mi se, s).

(** The conversion [".%3u"] after the sixth field; [ms] is 0 without it. *)
Definition scan_ms (s : string) : Z :=
  match s' ← expect "." s; scan_dec 3 s' with
  | Some (ms, _) => u32 ms
  | None => 0
  end.

(** ["2024-01-01T00:00:00.000Z"] to milliseconds; 0 for another text. *)
Definition parse_utc_ms (s : string) : Z :=
  let finish t ms :=
    let t := mk_tm (tm_year t - 1900) (tm_mon t - 1) (tm_mday t)
               (tm_hour t) (tm_min t) (tm_sec t) in
    u64 (u64 (timegm t) * 1000 + ms) in
  match scan_fields s with
  | Some (t, r) => finish t (scan_ms r)
  | None =>
      (* try without milliseconds *)
      match scan_fields s with
      | Some (t, _) => finish t 0
      | None => 0
      end
  end.

(** ** Variable specifications

    [MmsVariableSpecification]: the name and, by type, the fields of
    [typeSpec] the loader fills. *)

Inductive MmsVariableSpecification : Type :=
| mk_spec (name : option string) (ts : TypeSpec)
with TypeSpec : Type :=
| spec_boolean
| spec_integer (width : Z)
| spec_unsigned (width : Z)
| spec_float (exponentWidth formatWidth : Z)
| spec_visible_string (size : Z)
| spec_octet_string (size : Z)
| spec_bit_string (size : Z)
| spec_utc_time
| spec_array (elementCount : Z) (elementTypeSpec : option MmsVariableSpecification)
| spec_structure (elementCount : Z) (elements : list MmsVariableSpecification).

Definition spec_name (s : MmsVariableSpecification) : option string :=
  let '(mk_spec name _) := s in name.

Definition typeSpec (s : MmsVariableSpecification) : TypeSpec :=
  let '(mk_spec _ ts) := s in ts.

(** The member [type]. *)
Definition spec_type (s : MmsVariableSpecification) : MmsType :=
  match typeSpec s with
  | spec_boolean => MMS_BOOLEAN
  | spec_integer _ => MMS_INTEGER
  | spec_unsigned _ => MMS_UNSIGNED
  | spec_float _ _ => MMS_FLOAT
  | spec_visible_string _ => MMS_VISIBLE_STRING
  | spec_octet_string _ => MMS_OCTET_STRING
  | spec_bit_string _ => MMS_BIT_STRING
  | spec_utc_time => MMS_UTC_TIME
  | spec_array _ _ => MMS_ARRAY
  | spec_structure _ _ => MMS_STRUCTURE
  end.

Definition make_spec (type : string) (size : Z) : option MmsVariableSpecification :=
  let s ts := Some (mk_spec None ts) in
  if String.eqb type "boolean" then s spec_boolean
  else if String.eqb type "integer" then s (spec_integer (if 0 <? size then size else 32))
  else if String.eqb type "unsigned" then s (spec_unsigned (if 0 <? size then size else 32))
  else if String.eqb type "float32" then s (spec_float 8 32)
  else if String.eqb type "visible-string" then
    s (spec_visible_string (if 0 <? size then size else -1))
  else if String.eqb type "octet-string" then
    s (spec_octet_string (if 0 <? size then size else -1))
  else if String.eqb type "bit-string" then
    s (spec_bit_string (if 0 <? size then size else -1))
  else if String.eqb type "utc-time" then s spec_utc_time
  else if String.eqb type "array" then s (spec_array 0 None)
  else if String.eqb type "structure" then s (spec_structure 0 [])
  else None.

Definition build_array_spec (name elem_type_str : string) (count elem_size : Z)
  : option MmsVariableSpecification :=
  match make_spec elem_type_str elem_size with
  | None => None
  | Some elem_spec => Some (mk_spec (Some name) (spec_array count (Some elem_spec)))
  end.

(** ** Values and specifications from JSON *)

Section loader.
Context `{JsonC} `{MmsApi}.

(** The members of an object, as [json_object_object_foreach] visits them. *)
Definition json_members (obj : json) : res (list (string * json)) :=
  if json_object_is_type obj json_type_object then Ret (json_object_object_foreach obj)
  else Undef.

(** [strdup(json_object_get_string(j))] *)
Definition dup_string (j : json) : res string := res_of_option (json_object_get_string j).

(** The elements [0 .. (int) length - 1] of an array. *)
Definition int_elements (a : json) : list json :=
  json_object_array_get_idx a <$> range (i32 (json_object_array_length a)).

(** [for (i = 0; i < blen; i++) MmsValue_setBitStringBit(mv, i, bits[i] == '1')] *)
Fixpoint set_bits_text (i : Z) (mv : MmsValue) (bits : string) : MmsValue :=
  match bits with
  | EmptyString => mv
  | String c r => set_bits_text (i + 1) (MmsValue_setBitStringBit mv i (Ascii.eqb c "1")) r
  end.

Definition make_value (type : string) (jval : json) : option MmsValue :=
  if String.eqb type "boolean" then
    Some (MmsValue_newBoolean (json_object_get_boolean jval))
  else if String.eqb type "integer" then
    Some (MmsValue_newIntegerFromInt32 (i32 (json_object_get_int64 jval)))
  else if String.eqb type "unsigned" then
    Some (MmsValue_newUnsignedFromUint32 (u32 (json_object_get_int64 jval)))
  else if String.eqb type "float32" then
    Some (MmsValue_newFloat (to_float (json_object_get_double jval)))
  else if String.eqb type "visible-string" then
    Some (MmsValue_newVisibleString (default EmptyString (json_object_get_string jval)))
  else if String.eqb type "octet-string" then
    let hex := default EmptyString (json_object_get_string jval) in
    match hex_decode hex with
    | None => Some (MmsValue_newOctetString 0 0)
    | Some buf =>
        let len := Z.of_nat (length buf) in
        let mv := MmsValue_newOctetString len len in
        Some (if 0 <? len then MmsValue_setOctetString mv buf else mv)
    end
  else if String.eqb type "bit-string" then
    let bits := default EmptyString (json_object_get_string jval) in
    Some (set_bits_text 0 (MmsValue_newBitString (i32 (slen bits))) bits)
  else if String.eqb type "utc-time" then
    let ts := default EmptyString (json_object_get_string jval) in
    Some (MmsValue_newUtcTimeByMsTime (parse_utc_ms ts))
  else None.

(** The loops that set the elements of an array or structure from the
    elements of a JSON array; [None] as soon as an element has no value. *)
Fixpoint fill_elements (elem_of : json → res (option MmsValue)) (i : Z) (v : MmsValue)
    (l : list json) : res (option MmsValue) :=
  match l with
  | [] => Ret (Some v)
  | j :: l' =>
      let* elem := elem_of j in
      match elem with
      | None => Ret None
      | Some e => fill_elements elem_of (i + 1) (MmsValue_setElement v i e) l'
      end
  end.

Definition build_array_value (elem_type_str : string) (jarr : json) : res (option MmsValue) :=
  if negb (json_object_is_type jarr json_type_array) then Ret None else
  let n := i32 (json_object_array_length jarr) in
  fill_elements (λ jelem, Ret (make_value elem_type_str jelem)) 0
    (MmsValue_createEmptyArray n) (int_elements jarr).

(** A component [{"type":..,"value":..}] of a structure. *)
Definition component_value (jc : json) : res (option MmsValue) :=
  match json_object_object_get_ex jc "type", json_object_object_get_ex jc "value" with
  | Some jt, Some jv =>
      let* ct := dup_string jt in
      Ret (make_value ct jv)
  | _, _ => Ret None
  end.

Definition build_structure_value (jcomps : json) : res (option MmsValue) :=
  if negb (json_object_is_type jcomps json_type_array) then Ret None else
  let n := i32 (json_object_array_length jcomps) in
  fill_elements component_value 0 (MmsValue_createEmptyStructure n) (int_elements jcomps).

(** The specification of component [i]. *)
Definition component_spec (i : Z) (jc : json) : res (option MmsVariableSpecification) :=
  match json_object_object_get_ex jc "type" with
  | None => Ret None
  | Some jt =>
      let* ct := dup_string jt in
      let csz := match json_object_object_get_ex jc "size" with
                 | Some jsz => json_object_get_int jsz
                 | None => 0
                 end in
      match make_spec ct csz with
      | None => Ret None
      | Some s =>
          let name_buf := snprintf_s 16 ("comp" +:+ fmt_d i) in
          let* name := match json_object_object_get_ex jc "name" with
                       | Some jn => dup_string jn
                       | None => Ret name_buf
                       end in
          Ret (Some (mk_spec (Some name) (typeSpec s)))
      end
  end.

Fixpoint component_specs (i : Z) (l : list json)
  : res (option (list MmsVariableSpecification)) :=
  match l with
  | [] => Ret (Some [])
  | jc :: l' =>
      let* comp := component_spec i jc in
      match comp with
      | None => Ret None
      | Some s =>
          let* rest := component_specs (i + 1) l' in
          Ret (cons s <$> rest)
      end
  end.

Definition build_structure_spec (name : string) (jcomps : json)
  : res (option MmsVariableSpecification) :=
  if negb (json_object_is_type jcomps json_type_array) then Ret None else
  let n := i32 (json_object_array_length jcomps) in
  let* comps := component_specs 0 (int_elements jcomps) in
  Ret ((λ comps, mk_spec (Some name) (spec_structure n comps)) <$> comps).

(** ** The fixture *)

Record VarDef := mk_var {
  var_name : string;
  var_spec : MmsVariableSpecification;
  var_value : MmsValue;
  writable : bool
}.

Record JournalEntryDef := mk_entry {
  entry_id : Z;
  time_ms : Z;
  tag : string;
  entry_value : MmsValue;
  reason_code : Z
}.

Record JournalDef := mk_journal {
  journal_name : string;
  entries : list JournalEntryDef
}.

Record DomainDef := mk_domain {
  domain_name : string;
  vars : list VarDef;
  journals : list JournalDef
}.

Record FileDef := mk_file {
  file_name : string;
  data : list Z;
  size : Z;
  last_modified_ms : Z
}.

Record ReportDef := mk_report {
  vmd_list : option string;
  variables : list string
}.

Record FixtureDef := mk_fixture {
  fixture_revision : string;
  vendor : string;
  model : string;
  revision : string;
  status_logical : Z;
  status_physical : Z;
  domains : list DomainDef;
  files : list FileDef;
  reports : list ReportDef
}.

(** An entry of the array ["entries"] of a journal; [None] when a member is
    missing or the value is not supported. *)
Definition load_entry (je : json) : res (option JournalEntryDef) :=
  match json_object_object_get_ex je "entryId",
        json_object_object_get_ex je "occurrenceTime",
        json_object_object_get_ex je "tag",
        json_object_object_get_ex je "type",
        json_object_object_get_ex je "value" with
  | Some jid, Some jt, Some jtag, Some jtype, Some jv =>
      let entry_id := u64 (json_object_get_int64 jid) in
      let* ts := dup_string jt in
      let* tag := dup_string jtag in
      let* type := dup_string jtype in
      let reason := match json_object_object_get_ex je "reasonCode" with
                    | Some jrc => u8 (json_object_get_int jrc)
                    | None => 0
                    end in
      match make_value type jv with
      | None => Ret None
      | Some v => Ret (Some (mk_entry entry_id (parse_utc_ms ts) tag v reason))
      end
  | _, _, _, _, _ => Ret None
  end.

(** The loops of the loader that stop at the first element they cannot load. *)
Fixpoint load_all {A B} (load : A → res (option B)) (l : list A) : res (option (list B)) :=
  match l with
  | [] => Ret (Some [])
  | x :: l' =>
      let* o := load x in
      match o with
      | None => Ret None
      | Some y =>
          let* rest := load_all load l' in
          Ret (cons y <$> rest)
      end
  end.

Definition load_journal (name : string) (jobj : json) : res (option JournalDef) :=
  match json_object_object_get_ex jobj "entries" with
  | Some jentries =>
      if negb (json_object_is_type jentries json_type_array) then Ret None else
      let* es := load_all load_entry (int_elements jentries) in
      Ret (mk_journal name <$> es)
  | None => Ret None
  end.

(** The octets of a text. *)
Definition text_octets (s : string) : list Z := code <$> list_ascii_of_string s.

Definition load_file (name : string) (jobj : json) : res (option FileDef) :=
  let* content :=
    match json_object_object_get_ex jobj "content", json_object_object_get_ex jobj "hex",
          json_object_object_get_ex jobj "size" with
    | Some jc, _, _ =>
        let* s := dup_string jc in
        Ret (Some (text_octets s, i32 (slen s)))
    | None, Some jhex, _ =>
        let* s := dup_string jhex in
        Ret ((λ d, (d, Z.of_nat (length d))) <$> hex_decode s)
    | None, None, Some jsize =>
        let size := json_object_get_int jsize in
        Ret (Some ((λ i, u8 (i mod 251)) <$> range size, size))
    | None, None, None => Ret None
    end in
  match content with
  | None => Ret None
  | Some (data, size) =>
      let* modified :=
        match json_object_object_get_ex jobj "lastModified" with
        | Some jlm => let* s := dup_string jlm in Ret (parse_utc_ms s)
        | None => Ret 0
        end in
      Ret (Some (mk_file name data size modified))
  end.

(** The loops of the loader that only copy strings. *)
Fixpoint dup_strings (l : list json) : res (list string) :=
  match l with
  | [] => Ret []
  | j :: l' =>
      let* s := dup_string j in
      let* rest := dup_strings l' in
      Ret (s :: rest)
  end.

Definition load_report (jobj : json) : res (option ReportDef) :=
  let* vmd_list :=
    match json_object_object_get_ex jobj "vmdList" with
    | Some jl => let* s := dup_string jl in Ret (Some s)
    | None => Ret None
    end in
  match json_object_object_get_ex jobj "variables" with
  | Some jvars =>
      if negb (json_object_is_type jvars json_type_array) then Ret None else
      let* names := dup_strings (int_elements jvars) in
      Ret (Some (mk_report vmd_list names))
  | None => Ret None
  end.

(** The specification and the value of a variable; [None] when it is skipped. *)
Definition load_array (name : string) (var_obj jval : json)
  : res (option (MmsVariableSpecification * MmsValue)) :=
  match json_object_object_get_ex var_obj "elementType" with
  | None => Ret None
  | Some jet =>
      let* elem_type := dup_string jet in
      let count := match json_object_object_get_ex var_obj "count" with
                   | Some jcount => json_object_get_int jcount
                   | None => 0
                   end in
      let count := if (count <=? 0) && json_object_is_type jval json_type_array
                   then i32 (json_object_array_length jval) else count in
      match build_array_spec name elem_type count 0 with
      | None => Ret None
      | Some spec =>
          let* mv := build_array_value elem_type jval in
          Ret (pair spec <$> mv)
      end
  end.

Definition load_structure (name : string) (jval : json)
  : res (option (MmsVariableSpecification * MmsValue)) :=
  let* spec := build_structure_spec name jval in
  match spec with
  | None => Ret None
  | Some spec =>
      let* mv := build_structure_value jval in
      Ret (pair spec <$> mv)
  end.

Definition load_simple (name type_str : string) (size : Z) (jval : json)
  : option (MmsVariableSpecification * MmsValue) :=
  match make_spec type_str size with
  | None => None
  | Some spec =>
      match make_value type_str jval with
      | None => None
      | Some mv => Some (mk_spec (Some name) (typeSpec spec), mv)
      end
  end.

(** The body of the loop over the variables of a domain; [None] is its
    [continue]. *)
Definition load_var (name : string) (var_obj : json) : res (option VarDef) :=
  match json_object_object_get_ex var_obj "type", json_object_object_get_ex var_obj "value" with
  | Some jtype, Some jval =>
      let* type_str := dup_string jtype in
      let size := match json_object_object_get_ex var_obj "size" with
                  | Some jsize => json_object_get_int jsize
                  | None => 0
                  end in
      let* sv :=
        if String.eqb type_str "array" then load_array name var_obj jval
        else if String.eqb type_str "structure" then load_structure name jval
        else Ret (load_simple name type_str size jval) in
      match sv with
      | None => Ret None
      | Some (spec, mv) =>
          let w := match json_object_object_get_ex var_obj "writable" with
                   | Some jw => json_object_get_boolean jw
                   | None => false
                   end in
          Ret (Some (mk_var name spec mv w))
      end
  | _, _ => Ret None
  end.

(** The loop over the variables of a domain. *)
Fixpoint load_vars (l : list (string * json)) : res (list VarDef) :=
  match l with
  | [] => Ret []
  | (name, obj) :: l' =>
      let* v := load_var name obj in
      let* rest := load_vars l' in
      Ret (match v with Some v => v :: rest | None => rest end)
  end.

(** The body of the loop over the domains. *)
Definition load_domain (dom : string * json) : res (option DomainDef) :=
  let '(dom_name, dom_obj) := dom in
  let* js :=
    match json_object_object_get_ex dom_obj "journals" with
    | Some jjournals =>
        let* l := json_members jjournals in
        load_all (λ '(n, o), load_journal n o) l
    | None => Ret (Some [])
    end in
  match js with
  | None => Ret None
  | Some js =>
      match json_object_object_get_ex dom_obj "variables" with
      | None => Ret (Some (mk_domain dom_name [] js))
      | Some jvars =>
          let* l := json_members jvars in
          let* vs := load_vars l in
          Ret (Some (mk_domain dom_name vs js))
      end
  end.

(** [if (json_object_object_get_ex(obj, key, &jv)) x = strdup(...)], with the
    text [x] has otherwise. *)
Definition string_member (obj : json) (key dflt : string) : res string :=
  match json_object_object_get_ex obj key with
  | Some jv => dup_string jv
  | None => Ret dflt
  end.

Definition int_member (obj : option json) (key : string) : Z :=
  match obj with
  | Some o => match json_object_object_get_ex o key with
              | Some jv => json_object_get_int jv
              | None => 0
              end
  | None => 0
  end.

(** [fixture_load]; [root] is the document [json_object_from_file] reads,
    [None] when it cannot. *)
Definition fixture_load (root : option json) : res (option FixtureDef) :=
  match root with
  | None => Ret None
  | Some root =>
      let ident key dflt :=
        match json_object_object_get_ex root "identity" with
        | Some jid => string_member jid key dflt
        | None => Ret dflt
        end in
      let* vendor := ident "vendor" "OTFabric" in
      let* model := ident "model" "iec61850-interop" in
      let* revision := ident "revision" "1.0" in
      let* fixture_revision := string_member root "revision" "mms-v1" in
      let jstatus := json_object_object_get_ex root "status" in
      let* files :=
        match json_object_object_get_ex root "files" with
        | Some jfiles =>
            let* l := json_members jfiles in
            load_all (λ '(n, o), load_file n o) l
        | None => Ret (Some [])
        end in
      match files with None => Ret None | Some files =>
      let* reports :=
        match json_object_object_get_ex root "informationReports" with
        | Some jreports =>
            if json_object_is_type jreports json_type_array
            then load_all load_report (int_elements jreports) else Ret (Some [])
        | None => Ret (Some [])
        end in
      match reports with None => Ret None | Some reports =>
      match json_object_object_get_ex root "domains" with None => Ret None | Some jdoms =>
      let* l := json_members jdoms in
      let* doms := load_all load_domain l in
      Ret ((λ doms, mk_fixture fixture_revision vendor model revision
                      (int_member jstatus "logical") (int_member jstatus "physical")
                      doms files reports) <$> doms)
      end end end
  end.

End loader.
