(* ===== verification/FixtureSpec.v ===== *)
(** * Theorems about fixture.c

    What [Fixture.fixture_load] makes of a document: time and octet texts are
    read back, the values served are the ones written down, every variable
    agrees with its specification, no domain, file, report or journal entry
    is lost, and the loader returns on every document of the right shape. *)

From Stdlib Require Import ZArith Lia String Ascii SpecFloat.
From stdpp Require Import base tactics list strings numbers option.
From S2P Require Import Prelude CText Civil CFloat Json RefJson Mms RefMms GooseCommon.
From S2P Require Import GooseCommonSpec Fixture.

Local Open Scope Z_scope.
Local Open Scope c_scope.

(** ** Time texts *)

Lemma scan_width_fmt w n acc rest :
  0 <= n → scan_width w acc (fmt_fixed 10 w n +:+ rest)
           = (acc * 10 ^ Z.of_nat w + n mod 10 ^ Z.of_nat w, rest).
Proof.
  enough (∀ k, 0 <= n → scan_width (w + k) acc (fmt_fixed 10 w n +:+ rest)
    = scan_width k (acc * 10 ^ Z.of_nat w + n mod 10 ^ Z.of_nat w) rest) as Hgen.
  { intros Hn. specialize (Hgen 0%nat Hn). rewrite Nat.add_0_r in Hgen. rewrite Hgen.
    by destruct rest. }
  revert n acc rest. induction w as [|w IH]; intros n acc rest k Hn.
  - simpl. by rewrite string_app_nil_l, Z.mod_1_r, Z.mul_1_r, Z.add_0_r.
  - rewrite fmt_fixed_S. replace (S w + k)%nat with (w + S k)%nat by lia.
    rewrite IH by lia. simpl. rewrite isdigit_digit, code_digit by lia.
    destruct (Z.ltb_spec (n mod 10) 10); [|lia]. f_equal.
    rewrite Nat2Z.inj_succ, Z.pow_succ_r by lia.
    assert (0 < 10 ^ Z.of_nat w) by (apply Z.pow_pos_nonneg; lia).
    rewrite (Z.rem_mul_r n 10 (10 ^ Z.of_nat w)) by lia. lia.
Qed.

(** A field of [w] printed digits is read back. *)
Lemma scan_dec_fmt w n rest :
  (1 <= w)%nat → 0 <= n < 10 ^ Z.of_nat w → scan_dec w (fmt_pad w n +:+ rest) = Some (n, rest).
Proof.
  intros Hw Hn. unfold fmt_pad. destruct (Z.ltb_spec n (10 ^ Z.of_nat w)); [|lia].
  pose proof (scan_width_fmt w n 0 rest ltac:(lia)) as Hs.
  rewrite Z.mod_small in Hs by lia. change (0 * 10 ^ Z.of_nat w + n) with n in Hs.
  assert (∃ d s, 0 <= d < 10 ∧ fmt_fixed 10 w n +:+ rest = String (digit d) s) as (d & s & Hd & Hf).
  { clear -Hw. revert n rest. induction w as [|w IH]; [lia|]. intros n rest.
    rewrite fmt_fixed_S. destruct w as [|w].
    - exists (n mod 10), rest. split; [lia|done].
    - apply IH. lia. }
  rewrite Hf in Hs |- *. unfold scan_dec.
  rewrite skip_spaces_digit, sign_of_digit by lia. cbv beta iota zeta.
  rewrite String.eqb_refl, isdigit_digit, Hs by lia. done.
Qed.

Lemma scan_fields_strftime t rest :
  tm_ok t → scan_fields (strftime_iso t +:+ rest)
  = Some (mk_tm (1900 + tm_year t) (tm_mon t + 1) (tm_mday t) (tm_hour t) (tm_min t) (tm_sec t),
          rest).
Proof.
  destruct t as [y mo d h mi s]. unfold tm_ok, scan_fields, strftime_iso. simpl.
  intros (?&?&?&?&?&?). rewrite !string_app_assoc.
  do 6 (rewrite scan_dec_fmt by (simpl; lia); cbn [mbind option_bind];
    try (rewrite string_app_cons, string_app_nil_l, expect_cons; cbn [mbind option_bind])).
  done.
Qed.

Lemma parse_utc_strftime secs rest :
  0 <= secs <= max_time →
  parse_utc_ms (strftime_iso (gmtime secs) +:+ rest) = u64 (u64 secs * 1000 + scan_ms rest).
Proof.
  intros Hs. unfold parse_utc_ms. rewrite scan_fields_strftime by (by apply gmtime_ok).
  cbn [tm_year tm_mon tm_mday tm_hour tm_min tm_sec].
  match goal with |- context [timegm ?t] => assert (timegm t = secs) as -> end; [|done].
  etransitivity; [|apply timegm_gmtime]. f_equal. destruct (gmtime secs) as [y mo d h mi se].
  cbn [tm_year tm_mon tm_mday tm_hour tm_min tm_sec]. f_equal; lia.
Qed.

Theorem fixture_time_roundtrip secs ms :
  0 <= secs <= max_time → 0 <= ms < 1000 →
  parse_utc_ms (format_time_ms (secs * 1000 + ms)) = secs * 1000 + ms
  ∧ parse_utc_ms (strftime_iso (gmtime secs) +:+ "Z") = secs * 1000.
Proof.
  intros Hs Hms. unfold format_time_ms.
  replace ((secs * 1000 + ms) / 1000) with secs by lia.
  replace ((secs * 1000 + ms) mod 1000) with ms by lia.
  rewrite !parse_utc_strftime by done. unfold max_time in Hs. unfold scan_ms at 1.
  rewrite string_app_cons, string_app_nil_l, expect_cons. cbn [mbind option_bind].
  rewrite scan_dec_fmt by (simpl; lia). change (scan_ms "Z") with 0.
  rewrite (u64_id secs), (u32_id ms), !u64_id by lia. lia.
Qed.

Lemma fixture_time_roundtrip_witness :
  parse_utc_ms (format_time_ms (1704067200 * 1000 + 250)) = 1704067200 * 1000 + 250
  ∧ parse_utc_ms (strftime_iso (gmtime 1704067200) +:+ "Z") = 1704067200 * 1000.
Proof. apply (fixture_time_roundtrip 1704067200 250); unfold max_time; lia. Defined.

(** A fraction is read as a count of milliseconds, not as a decimal fraction,
    and the [Z] is not required. *)
Lemma fixture_time_fraction :
  parse_utc_ms "2024-01-01T00:00:00.5Z" = 1704067200005
  ∧ parse_utc_ms "2024-01-01T00:00:00+02:00" = 1704067200000
  ∧ parse_time_ms "2024-01-01T00:00:00.5Z" = Some 1704067200500
  ∧ parse_time_ms "2024-01-01T00:00:00+02:00" = None.
Proof. repeat split. Qed.

(** ** Octet texts *)

Lemma hex_loop_octets n s : length (list_ascii_of_string s) = (2 * n)%nat → hex_loop n s = hex_octets s.
Proof.
  revert s. induction n as [|n IH]; intros [|a [|b s]]; simpl; try lia; try done.
  intros Hl. rewrite IH by lia. done.
Qed.

Lemma string_length_list s : String.length s = length (list_ascii_of_string s).
Proof. induction s as [|c s IH]; simpl; lia. Qed.

Lemma hex_decode_octets s :
  slen s < 2147483648 → slen s mod 2 = 0 → hex_decode s = hex_octets s.
Proof.
  intros Hl He. pose proof (slen_nonneg s). unfold hex_decode. rewrite i32_id by lia.
  rewrite He. simpl negb. cbv iota. apply hex_loop_octets.
  rewrite <- string_length_list. unfold slen in *. lia.
Qed.

Lemma hex_decode_text l :
  Forall (λ b, is_u8 b) l → Z.of_nat (length l) < 1073741824 → hex_decode (hex_text l) = Some l.
Proof.
  intros Ho Hl. rewrite hex_decode_octets; rewrite ?slen_hex_text; try lia.
  by apply hex_octets_text.
Qed.

Lemma hex_octets_some s :
  is_Some (hex_octets s)
  ↔ slen s mod 2 = 0 ∧ Forall (λ c, 0 <= hex_char c) (list_ascii_of_string s).
Proof.
  enough (∀ n, (length (list_ascii_of_string s) <= n)%nat →
    is_Some (hex_octets s)
    ↔ slen s mod 2 = 0 ∧ Forall (λ c, 0 <= hex_char c) (list_ascii_of_string s)) as Hgen.
  { by apply (Hgen (length (list_ascii_of_string s))). }
  intros n. revert s. induction n as [|n IH]; intros [|a [|b s]] Hl; simpl in Hl; try lia.
  1-2: split; [by repeat constructor|by eexists].
  - split; [by intros [? ?]|]. intros [He _]. by vm_compute in He.
  - cbn [hex_octets list_ascii_of_string]. rewrite !list.Forall_cons, !slen_cons.
    assert ((1 + (1 + slen s)) mod 2 = 0 ↔ slen s mod 2 = 0) as -> by lia.
    rewrite (and_comm _ (0 <= hex_char a ∧ _)).
    specialize (IH s ltac:(lia)). unfold hexval, hex_char in *.
    destruct (Z.ltb_spec (hex_value a) 0); simpl.
    { split; [by intros [? ?]|lia]. }
    destruct (Z.ltb_spec (hex_value b) 0); simpl.
    { split; [by intros [? ?]|lia]. }
    destruct (hex_octets s) as [l|].
    + split; [|by eexists]. intros _. destruct IH as [IH _]. destruct IH; [by eexists|]. auto.
    + split; [by intros [? ?]|]. intros [(_ & _ & Hf) He]. destruct IH as [_ IH].
      by destruct IH as [? ?].
Qed.

Theorem fixture_octets s :
  slen s < 2147483648 →
  (is_Some (hex_decode s)
   ↔ slen s mod 2 = 0 ∧ Forall (λ c, 0 <= hex_char c) (list_ascii_of_string s))
  ∧ ∀ l, Forall (λ b, is_u8 b) l → s = hex_text l → hex_decode s = Some l.
Proof.
  intros Hl. split.
  - destruct (decide (slen s mod 2 = 0)) as [He|He].
    + rewrite hex_decode_octets by done. apply hex_octets_some.
    + unfold hex_decode. pose proof (slen_nonneg s). rewrite i32_id by lia.
      destruct (Z.eqb_spec (slen s mod 2) 0); [done|]. simpl.
      split; [by intros [? ?]|by intros [? _]].
  - intros l Ho ->. apply hex_decode_text; [done|]. rewrite slen_hex_text in Hl. lia.
Qed.

Lemma fixture_octets_witness :
  (is_Some (hex_decode "0aFf")
   ↔ slen "0aFf" mod 2 = 0 ∧ Forall (λ c, 0 <= hex_char c) (list_ascii_of_string "0aFf"))
  ∧ ∀ l, Forall (λ b, is_u8 b) l → "0aFf" = hex_text l → hex_decode "0aFf" = Some l.
Proof. apply (fixture_octets "0aFf"). reflexivity. Defined.

(** ** Parts of a document *)

(** [json_in d j]: [d] is [j] or a part of it. *)
Inductive json_in `{JsonC} : json → json → Prop :=
| in_self j : json_in j j
| in_member j k c d : json_object_object_get_ex j k = Some c → json_in d c → json_in d j
| in_each j k c d : (k, c) ∈ json_object_object_foreach j → json_in d c → json_in d j
| in_element j c d : json_object_get_type j = json_type_array → c ∈ json_elements j →
    json_in d c → json_in d j.

(** Every array of the document has fewer than 2^31 elements. *)
Definition json_small `{JsonC} (root : json) : Prop :=
  ∀ a, json_in a root → json_object_get_type a = json_type_array →
       json_object_array_length a < 2147483648.

Section parts.
Context `{JsonLaws}.

Lemma json_small_in j root : json_small root → json_in j root → json_small j.
Proof.
  intros Hs Hj a Ha. apply Hs. clear Hs. revert Ha.
  induction Hj; intros; [done|..]; [eapply in_member|eapply in_each|eapply in_element]; eauto.
Qed.

Lemma int_elements_sub a c : c ∈ int_elements a → c ∈ json_elements a.
Proof.
  unfold int_elements, json_elements, range. rewrite !list_elem_of_fmap.
  intros (i & -> & Hi). exists i. split; [done|]. rewrite elem_of_seqZ in Hi |- *.
  pose proof (array_length_nonneg a). unfold i32 in Hi. lia.
Qed.

Lemma int_elements_small a :
  json_small a → json_object_get_type a = json_type_array →
  int_elements a = json_elements a ∧ i32 (json_object_array_length a) = Z.of_nat (length (json_elements a)).
Proof.
  intros Hs Ha. specialize (Hs a (in_self a) Ha). pose proof (array_length_nonneg a).
  unfold int_elements, json_elements. rewrite i32_id by lia. split; [done|].
  unfold range. rewrite length_fmap, length_seqZ. lia.
Qed.

Lemma in_member_of root j k c :
  json_in j root → json_object_object_get_ex j k = Some c → json_in c root.
Proof.
  intros Hj Hc. revert c Hc. induction Hj; intros.
  - eapply in_member; [done|constructor].
  - eapply in_member; eauto.
  - eapply in_each; eauto.
  - eapply in_element; eauto.
Qed.

Lemma in_each_of root j k c :
  json_in j root → (k, c) ∈ json_object_object_foreach j → json_in c root.
Proof.
  intros Hj Hc. revert k c Hc. induction Hj; intros k0 c0 Hc0.
  - eapply in_each; [done|constructor].
  - eapply in_member; eauto.
  - eapply in_each; eauto.
  - eapply in_element; eauto.
Qed.

Lemma in_element_of root j c :
  json_in j root → json_object_get_type j = json_type_array → c ∈ json_elements j → json_in c root.
Proof.
  intros Hj Ht Hc. revert Ht c Hc. induction Hj; intros Ht c0 Hc0.
  - eapply in_element; [done..|constructor].
  - eapply in_member; eauto.
  - eapply in_each; eauto.
  - eapply in_element; eauto.
Qed.
End parts.

(** [p] holds of every part of a document of the concrete library. *)
Fixpoint rall (p : rjson → bool) (j : rjson) : bool :=
  p j && match j with
         | RArray l => forallb (rall p) l
         | RObject l => forallb (λ '(_, c), rall p c) l
         | _ => true
         end.

Lemma rget_in l k c : rget l k = Some c → ∃ k', (k', c) ∈ l.
Proof.
  induction l as [|[k1 c1] l IH]; simpl; [done|]. destruct (String.eqb k1 k).
  - intros [= ->]. exists k1. by left.
  - intros Hg. destruct (IH Hg) as [k' ?]. exists k'. by right.
Qed.

Lemma rall_in p d j : @json_in ref_json d j → rall p j = true → p d = true.
Proof.
  induction 1 as [j|j k c d Hc _ IH|j k c d Hc _ IH|j c d Ht Hc _ IH]; intros Hj.
  - destruct j; simpl in Hj; by bool_hyps.
  - apply IH. destruct j as [| | | | | |l]; try done. simpl in *. bool_hyps.
    apply rget_in in Hc as [k' Hc]. apply list_elem_of_In in Hc.
    match goal with E : forallb _ _ = true |- _ => rewrite forallb_forall in E; apply (E _ Hc) end.
  - apply IH. destruct j as [| | | | | |l]; try (by apply elem_of_nil in Hc). simpl in *. bool_hyps.
    apply list_elem_of_In in Hc.
    match goal with E : forallb _ _ = true |- _ => rewrite forallb_forall in E; apply (E _ Hc) end.
  - apply IH. destruct j as [| | | | |l|]; try done. simpl in *. bool_hyps.
    unfold json_elements in Hc. apply list_elem_of_fmap in Hc as (i & -> & Hi).
    unfold range in Hi. apply elem_of_seqZ in Hi. simpl in Hi |- *.
    destruct (lookup_lt_is_Some_2 l (Z.to_nat i)) as [x Hx]; [lia|]. rewrite Hx. simpl.
    match goal with E : forallb _ _ = true |- _ => rewrite forallb_forall in E; apply E end.
    apply list_elem_of_In. by eapply list_elem_of_lookup_2.
Qed.

Lemma rall_small j :
  rall (λ d, rlength d <? 2147483648) j = true → @json_small ref_json j.
Proof. intros Hj a Ha _. pose proof (rall_in _ _ _ Ha Hj) as Hl. simpl in *. bool_hyps. lia. Qed.

Lemma rall_no_null j :
  rall (λ d, negb (bool_decide (rtype d = json_type_null))) j = true →
  ∀ d, @json_in ref_json d j → rtype d ≠ json_type_null.
Proof.
  intros Hj d Hd. pose proof (rall_in _ _ _ Hd Hj) as Hn. simpl in Hn.
  by apply negb_true_iff, bool_decide_eq_false in Hn.
Qed.

(** ** Values *)

Section values.
Context `{JsonLaws} `{MmsLaws}.

Lemma set_bits_text_type i v s : MmsValue_getType (set_bits_text i v s) = MmsValue_getType v.
Proof. revert i v. induction s as [|c s IH]; intros; simpl; [done|]. by rewrite IH, type_setBit. Qed.

Lemma set_bits_text_bits i v l : set_bits_text i v (bit_text l) = set_bits i v l.
Proof. revert i v. induction l as [|[] l IH]; intros; simpl; [done|..]; by rewrite IH. Qed.

(** The specification and the value of a type text agree. *)
Lemma make_value_type t n j v :
  make_value t j = Some v →
  ∃ s, make_spec t n = Some s ∧ MmsValue_getType v = spec_type s ∧ spec_name s = None.
Proof.
  unfold make_value, make_spec, spec_type. intros Hv.
  repeat (match type of Hv with context [if ?b then _ else _] =>
    lazymatch b with String.eqb t _ => destruct b end end;
    [try (injection Hv as <-; eexists; split; [reflexivity|]; simpl; by autorewrite with mms)|]).
  - destruct (hex_decode _); injection Hv as <-; (eexists; split; [reflexivity|]); simpl;
      [destruct (0 <? _)|]; by autorewrite with mms.
  - injection Hv as <-. eexists. split; [reflexivity|]. simpl. by rewrite set_bits_text_type, type_newBitString.
  - done.
Qed.

Lemma fill_elements_ok elem_of i v l w :
  fill_elements elem_of i v l = Ret (Some w) →
  ∃ vs, Forall2 (λ j e, elem_of j = Ret (Some e)) l vs ∧ w = set_elements i v vs.
Proof.
  revert i v. induction l as [|j l IH]; intros i v; simpl.
  - intros [= <-]. by exists [].
  - destruct (elem_of j) as [[e|]| |] eqn:E; simpl; try done. intros Hf.
    apply IH in Hf as (vs & ? & ->). exists (e :: vs). by split; [constructor|].
Qed.

Lemma fill_elements_run elem_of i v l vs :
  Forall2 (λ j e, elem_of j = Ret (Some e)) l vs →
  fill_elements elem_of i v l = Ret (Some (set_elements i v vs)).
Proof.
  intros Hf. revert i v. induction Hf as [|j e l vs He Hf IH]; intros i v; simpl; [done|].
  rewrite He. simpl. apply IH.
Qed.

(** A value agrees with a specification: it has its type, the elements of an
    array the one of the element specification, the components of a structure
    the ones of theirs, in number and order, each of them named. *)
Definition value_matches (s : MmsVariableSpecification) (v : MmsValue) : Prop :=
  MmsValue_getType v = spec_type s
  ∧ match typeSpec s with
    | spec_array _ es =>
        ∃ e vs, es = Some e ∧ mms_elements v = Some <$> vs
          ∧ Forall (λ x, MmsValue_getType x = spec_type e) vs
    | spec_structure n comps =>
        ∃ vs, mms_elements v = Some <$> vs ∧ n = Z.of_nat (length comps)
          ∧ Forall2 (λ c x, is_Some (spec_name c) ∧ MmsValue_getType x = spec_type c) comps vs
    | _ => True
    end.

Lemma array_elements n vs (mk : Z → MmsValue) :
  n = Z.of_nat (length vs) → mms_compound (mk n) → MmsValue_getArraySize (mk n) = n →
  mms_elements (set_elements 0 (mk n) vs) = Some <$> vs.
Proof. intros -> Hc Hs. by apply elements_of_set_elements. Qed.

Lemma build_array_ok et jarr v :
  json_small jarr → build_array_value et jarr = Ret (Some v) →
  MmsValue_getType v = MMS_ARRAY
  ∧ ∃ vs, mms_elements v = Some <$> vs
      ∧ Forall2 (λ j x, make_value et j = Some x) (json_elements jarr) vs.
Proof.
  unfold build_array_value. intros Hs.
  destruct (json_object_is_type jarr json_type_array) eqn:Ht; simpl; [|done].
  apply is_type_iff in Ht. destruct (int_elements_small jarr Hs Ht) as [-> ->].
  intros Hf. apply fill_elements_ok in Hf as (vs & Hf & ->).
  rewrite set_elements_type, type_newArray. split; [done|]. exists vs. split.
  - apply (array_elements _ _ MmsValue_createEmptyArray).
    + by rewrite (list.Forall2_length _ _ _ Hf).
    + left. apply type_newArray.
    + apply arraySize_newArray. lia.
  - eapply list.Forall2_impl; [exact Hf|]. simpl. intros j x Hx. by injection Hx.
Qed.

Lemma build_array_matches name et count n jarr spec v :
  json_small jarr → build_array_spec name et count n = Some spec →
  build_array_value et jarr = Ret (Some v) → value_matches spec v ∧ spec_name spec = Some name.
Proof.
  intros Hs Hspec Hv. apply build_array_ok in Hv as (Ht & vs & He & Hvs); [|done].
  unfold build_array_spec in Hspec. destruct (make_spec et n) as [e|] eqn:Hm; [|done].
  injection Hspec as <-. split; [|done]. split; [done|]. simpl. exists e, vs. split_and!; [done..|].
  apply Forall_forall. intros x Hx. apply list_elem_of_In, list_elem_of_lookup in Hx as [i Hx].
  destruct (Forall2_lookup_r _ _ _ _ _ Hvs Hx) as (j & _ & Hj).
  destruct (make_value_type et n j x Hj) as (s & ? & ? & _). congruence.
Qed.

Lemma component_specs_ok i l comps :
  component_specs i l = Ret (Some comps) →
  Forall2 (λ j c, ∃ k, component_spec k j = Ret (Some c)) l comps.
Proof.
  revert i comps. induction l as [|j l IH]; intros i comps; simpl.
  - intros [= <-]. constructor.
  - destruct (component_spec i j) as [[c|]| |] eqn:E; simpl; try done.
    destruct (component_specs (i + 1) l) as [[cs|]| |] eqn:E'; simpl; try done.
    intros [= <-]. constructor; [by eexists|]. eauto.
Qed.

Lemma component_matches k j c x :
  component_spec k j = Ret (Some c) → component_value j = Ret (Some x) →
  is_Some (spec_name c) ∧ MmsValue_getType x = spec_type c.
Proof.
  unfold component_spec, component_value, dup_string.
  destruct (json_object_object_get_ex j "type") as [jt|]; [|done].
  destruct (json_object_object_get_ex j "value") as [jv|]; [|done].
  destruct (json_object_get_string jt) as [ct|]; simpl; [|done].
  set (n := match json_object_object_get_ex j "size" with
            | Some jsz => json_object_get_int jsz | None => 0 end).
  intros Hc Hx. injection Hx as Hx. destruct (make_value_type ct n jv x Hx) as (s & Hs & Ht & _).
  rewrite Hs in Hc. destruct (json_object_object_get_ex j "name") as [jn|]; simpl in Hc.
  - destruct (json_object_get_string jn); simpl in Hc; [|done]. injection Hc as <-.
    split; [by eexists|done].
  - injection Hc as <-. split; [by eexists|done].
Qed.

Lemma build_structure_matches name jcomps spec v :
  json_small jcomps → build_structure_spec name jcomps = Ret (Some spec) →
  build_structure_value jcomps = Ret (Some v) → value_matches spec v ∧ spec_name spec = Some name.
Proof.
  unfold build_structure_spec, build_structure_value. intros Hs.
  destruct (json_object_is_type jcomps json_type_array) eqn:Ht; simpl; [|done].
  apply is_type_iff in Ht. destruct (int_elements_small jcomps Hs Ht) as [-> ->].
  destruct (component_specs 0 (json_elements jcomps)) as [[comps|]| |] eqn:Hc; simpl; try done.
  intros [= <-] Hf. split; [|done]. apply fill_elements_ok in Hf as (vs & Hf & ->).
  apply component_specs_ok in Hc. split.
  - by rewrite set_elements_type, type_newStructure.
  - simpl. exists vs. split_and!.
    + apply (array_elements _ _ MmsValue_createEmptyStructure).
      * by rewrite (list.Forall2_length _ _ _ Hf).
      * right. apply type_newStructure.
      * apply arraySize_newStructure. lia.
    + by rewrite (list.Forall2_length _ _ _ Hc).
    + apply Forall2_same_length_lookup_2.
      * by rewrite <- (list.Forall2_length _ _ _ Hc), (list.Forall2_length _ _ _ Hf).
      * intros i c x Hi Hx. destruct (Forall2_lookup_r _ _ _ _ _ Hc Hi) as (j & Hj & k & Hk).
        destruct (Forall2_lookup_r _ _ _ _ _ Hf Hx) as (j' & Hj' & Hx').
        simplify_eq. by eapply component_matches.
Qed.

(** A loaded variable agrees with its specification and keeps its name. *)
Lemma load_var_ok name obj var :
  json_small obj → load_var name obj = Ret (Some var) →
  var_name var = name ∧ spec_name (var_spec var) = Some name
  ∧ value_matches (var_spec var) (var_value var).
Proof.
  unfold load_var. intros Hs.
  destruct (json_object_object_get_ex obj "type") as [jt|]; [|done].
  destruct (json_object_object_get_ex obj "value") as [jv|] eqn:Hjv; [|done].
  assert (json_small jv) as Hsv.
  { eapply json_small_in; [exact Hs|]. eapply in_member; [exact Hjv|constructor]. }
  unfold dup_string. destruct (json_object_get_string jt) as [t|]; simpl; [|done].
  set (sv := if String.eqb t "array" then _ else _). intros Hl.
  assert (∃ spec mv, sv = Ret (Some (spec, mv))) as (spec & mv & Hsv').
  { destruct sv as [[[? ?]|]| |]; [by eexists _, _|done..]. }
  rewrite Hsv' in Hl. injection Hl as <-. simpl. split; [done|].
  enough (value_matches spec mv ∧ spec_name spec = Some name) by tauto.
  subst sv. destruct (String.eqb t "array").
  { unfold load_array, dup_string in Hsv'.
    destruct (json_object_object_get_ex obj "elementType") as [jet|]; [|done].
    destruct (json_object_get_string jet) as [et|]; simpl in Hsv'; [|done].
    destruct (build_array_spec _ _ _ _) as [s|] eqn:E; [|done].
    destruct (build_array_value et jv) as [[w|]| |] eqn:E'; simpl in Hsv'; try done.
    injection Hsv' as -> ->. by eapply build_array_matches. }
  destruct (String.eqb t "structure").
  { unfold load_structure in Hsv'.
    destruct (build_structure_spec name jv) as [[s|]| |] eqn:E; simpl in Hsv'; try done.
    destruct (build_structure_value jv) as [[w|]| |] eqn:E'; simpl in Hsv'; try done.
    injection Hsv' as -> ->. by eapply build_structure_matches. }
  unfold load_simple in Hsv'. destruct (make_spec t _) as [s|] eqn:E; [|done].
  destruct (make_value t jv) as [w|] eqn:E'; [|done]. injection Hsv' as <- <-.
  match type of E with make_spec _ ?n = _ =>
    destruct (make_value_type t n jv w E') as (s' & Hs' & Ht & _) end. rewrite E in Hs'.
  injection Hs' as <-. split; [|done]. split; [by destruct s|].
  destruct s as [nm ts]. simpl in *. unfold make_spec in E.
  clear -E' E. unfold make_value in E'.
  repeat (match type of E with context [if ?b then _ else _] =>
    lazymatch b with String.eqb t _ => destruct b eqn:? end end; [by injection E as <- <-|]).
  destruct (String.eqb t "array"); [done|]. destruct (String.eqb t "structure"); done.
Qed.
End values.

(** ** The whole document *)

Section document.
Context `{JsonLaws} `{MmsLaws}.

Lemma load_all_ok {A B} (load : A → res (option B)) l ys :
  load_all load l = Ret (Some ys) ↔ Forall2 (λ x y, load x = Ret (Some y)) l ys.
Proof.
  split.
  - revert ys. induction l as [|x l IH]; simpl; intros ys.
    + intros [= <-]. constructor.
    + destruct (load x) as [[y|]| |] eqn:E; simpl; try done.
      destruct (load_all load l) as [[zs|]| |]; simpl; try done.
      intros [= <-]. constructor; [done|]. by apply IH.
  - induction 1 as [|x y l ys Hx Hl IH]; simpl; [done|]. by rewrite Hx; simpl; rewrite IH.
Qed.

(** A loop that keeps the names keeps them all, in order. *)
Lemma load_all_names {A B} (load : string → A → res (option B)) (name : B → string) l ys :
  (∀ n o y, load n o = Ret (Some y) → name y = n) →
  load_all (λ '(n, o), load n o) l = Ret (Some ys) → name <$> ys = l.*1.
Proof.
  intros Hn Hl. apply load_all_ok in Hl.
  induction Hl as [|[n o] y l ys Hx Hl IH]; csimpl; [done|]. by rewrite (Hn _ _ _ Hx), IH.
Qed.

Lemma load_vars_ok l vs :
  load_vars l = Ret vs →
  var_name <$> vs `sublist_of` l.*1
  ∧ ∀ v, v ∈ vs → ∃ obj, (var_name v, obj) ∈ l ∧ load_var (var_name v) obj = Ret (Some v).
Proof.
  revert vs. induction l as [|[n o] l IH]; simpl; intros vs.
  - intros [= <-]. split; [constructor|]. intros v Hv. by apply elem_of_nil in Hv.
  - destruct (load_var n o) as [v| |] eqn:E; simpl; try done.
    destruct (load_vars l) as [rest| |] eqn:E'; simpl; try done.
    destruct (IH rest eq_refl) as [Hsub Hin]. intros [= <-].
    assert (∀ x, x ∈ rest → ∃ obj, (var_name x, obj) ∈ (n, o) :: l
              ∧ load_var (var_name x) obj = Ret (Some x)) as Hrest.
    { intros x Hx. destruct (Hin x Hx) as (obj & ? & ?). exists obj. split; [by right|done]. }
    destruct v as [v|].
    + assert (var_name v = n) as Hn.
      { unfold load_var in E.
        destruct (json_object_object_get_ex o "type"); [|done].
        destruct (json_object_object_get_ex o "value"); [|done].
        destruct (dup_string _); simpl in E; try done.
        destruct (if String.eqb _ _ then _ else _) as [[[? ?]|]| |]; simpl in E; try done.
        by injection E as <-. }
      csimpl. rewrite Hn. split; [by constructor|].
      intros x [->|Hx]%elem_of_cons; [|by apply Hrest].
      exists o. rewrite Hn. split; [by left|done].
    + split; [|done]. csimpl. by constructor.
Qed.

Definition optional_members (root : json) (key : string) : list (string * json) :=
  match json_object_object_get_ex root key with
  | Some j => json_object_object_foreach j
  | None => []
  end.

Definition optional_array (root : json) (key : string) : list json :=
  match json_object_object_get_ex root key with
  | Some j => if json_object_is_type j json_type_array then int_elements j else []
  | None => []
  end.

Lemma json_members_some j l :
  json_members j = Ret l → l = json_object_object_foreach j.
Proof. unfold json_members. destruct (json_object_is_type _ _); by intros [= <-]. Qed.

(** What a successful load is made of. *)
Lemma fixture_load_parts root f :
  fixture_load (Some root) = Ret (Some f) →
  ∃ jdoms, json_object_object_get_ex root "domains" = Some jdoms
    ∧ load_all load_domain (json_object_object_foreach jdoms) = Ret (Some (domains f))
    ∧ load_all (λ '(n, o), load_file n o) (optional_members root "files") = Ret (Some (files f))
    ∧ load_all load_report (optional_array root "informationReports") = Ret (Some (reports f)).
Proof.
  unfold fixture_load. intros Hf. apply res_bind_ret in Hf as (v & _ & Hf).
  apply res_bind_ret in Hf as (m & _ & Hf). apply res_bind_ret in Hf as (r & _ & Hf).
  apply res_bind_ret in Hf as (fr & _ & Hf). apply res_bind_ret in Hf as (fs & Hfs & Hf).
  destruct fs as [fs|]; [|done]. apply res_bind_ret in Hf as (rs & Hrs & Hf).
  destruct rs as [rs|]; [|done].
  destruct (json_object_object_get_ex root "domains") as [jdoms|]; [|done].
  apply res_bind_ret in Hf as (l & Hl & Hf). apply json_members_some in Hl as ->.
  apply res_bind_ret in Hf as (ds & Hds & Hf). destruct ds as [ds|]; [|done].
  injection Hf as <-. simpl. exists jdoms. split_and!; [done|done|..].
  - unfold optional_members. destruct (json_object_object_get_ex root "files"); [|done].
    apply res_bind_ret in Hfs as (l' & Hl' & Hfs). by apply json_members_some in Hl' as ->.
  - unfold optional_array. destruct (json_object_object_get_ex root "informationReports"); [|done].
    by destruct (json_object_is_type _ _).
Qed.

Lemma load_domain_ok name obj d :
  load_domain (name, obj) = Ret (Some d) →
  domain_name d = name
  ∧ load_all (λ '(n, o), load_journal n o) (optional_members obj "journals") = Ret (Some (journals d))
  ∧ load_vars (optional_members obj "variables") = Ret (vars d).
Proof.
  unfold load_domain, optional_members. intros Hd.
  apply res_bind_ret in Hd as (js & Hjs & Hd). destruct js as [js|]; [|done].
  assert (load_all (λ '(n, o), load_journal n o)
    match json_object_object_get_ex obj "journals" with
    | Some j => json_object_object_foreach j | None => [] end = Ret (Some js)) as Hjs'.
  { destruct (json_object_object_get_ex obj "journals"); [|done].
    apply res_bind_ret in Hjs as (l & Hl & Hjs). by apply json_members_some in Hl as ->. }
  destruct (json_object_object_get_ex obj "variables").
  - apply res_bind_ret in Hd as (l & Hl & Hd). apply json_members_some in Hl as ->.
    apply res_bind_ret in Hd as (vs & Hvs & Hd). by injection Hd as <-.
  - by injection Hd as <-.
Qed.

(** C13: Every variable of a loaded MMS fixture agrees with its specification:
    it has its type, its elements have the element type, its components the
    types of theirs in number and order and each of them has a name. *)
Theorem fixture_variables_typed root f :
  json_small root → fixture_load (Some root) = Ret (Some f) →
  ∀ d v, d ∈ domains f → v ∈ vars d →
  spec_name (var_spec v) = Some (var_name v) ∧ value_matches (var_spec v) (var_value v).
Proof.
  intros Hs Hf d v Hd Hv. apply fixture_load_parts in Hf as (jdoms & Hj & Hds & _).
  apply load_all_ok in Hds. apply list_elem_of_lookup in Hd as [i Hd].
  destruct (Forall2_lookup_r _ _ _ _ _ Hds Hd) as ([name obj] & Hi & Hl).
  apply load_domain_ok in Hl as (_ & _ & Hvs). apply load_vars_ok in Hvs as [_ Hvs].
  destruct (Hvs v Hv) as (vobj & Hin & Hvar).
  destruct (load_var_ok (var_name v) vobj v) as (_ & ? & ?); [|done..].
  eapply json_small_in; [exact Hs|]. unfold optional_members in Hin.
  destruct (json_object_object_get_ex obj "variables") as [jvars|] eqn:Hjv;
    [|by apply elem_of_nil in Hin].
  eapply in_each_of; [|exact Hin]. eapply in_member_of; [|exact Hjv].
  eapply in_each_of; [|by eapply list_elem_of_lookup_2].
  eapply in_member_of; [constructor|exact Hj].
Qed.

Lemma load_file_name n o y : load_file n o = Ret (Some y) → file_name y = n.
Proof.
  unfold load_file. intros Hf. apply res_bind_ret in Hf as (c & _ & Hf).
  destruct c as [[? ?]|]; [|done]. apply res_bind_ret in Hf as (m & _ & Hf). by injection Hf as <-.
Qed.

Lemma load_journal_ok n o y :
  load_journal n o = Ret (Some y) →
  journal_name y = n
  ∧ Forall2 (λ je e, load_entry je = Ret (Some e)) (optional_array o "entries") (entries y).
Proof.
  unfold load_journal, optional_array.
  destruct (json_object_object_get_ex o "entries") as [je|]; [|done].
  destruct (json_object_is_type je json_type_array); simpl; [|done]. intros Hf.
  apply res_bind_ret in Hf as (es & He & Hf). destruct es as [es|]; [|done].
  injection Hf as <-. split; [done|]. by apply load_all_ok.
Qed.

(** The keys of an optional member. *)
Definition member_names (root : json) (key : string) : list string :=
  (optional_members root key).*1.

(** C23: A successful load has the domains, the files and the journals of the
    document under their names and in their order, every report and every
    journal entry, and of each domain variables that keep their order. *)
Theorem fixture_complete root f :
  fixture_load (Some root) = Ret (Some f) →
  domain_name <$> domains f = member_names root "domains"
  ∧ file_name <$> files f = member_names root "files"
  ∧ length (reports f) = length (optional_array root "informationReports")
  ∧ Forall2 (λ '(name, obj) d,
      var_name <$> vars d `sublist_of` member_names obj "variables"
      ∧ journal_name <$> journals d = member_names obj "journals"
      ∧ Forall2 (λ '(_, jobj) j, Forall2 (λ je e, load_entry je = Ret (Some e))
                                   (optional_array jobj "entries") (entries j))
          (optional_members obj "journals") (journals d))
      (optional_members root "domains") (domains f).
Proof.
  intros Hf. apply fixture_load_parts in Hf as (jdoms & Hj & Hds & Hfs & Hrs).
  apply load_all_ok in Hds. apply load_all_ok in Hrs.
  assert (optional_members root "domains" = json_object_object_foreach jdoms) as Ho
    by (unfold optional_members; by rewrite Hj).
  unfold member_names at 1 2. rewrite Ho. split_and!.
  - clear -Hds. induction Hds as [|[n o] d l ds Hd Hds IH]; csimpl; [done|].
    rewrite IH. f_equal. by apply load_domain_ok in Hd as (? & _).
  - by apply (load_all_names load_file); [apply load_file_name|].
  - symmetry. by eapply list.Forall2_length.
  - eapply list.Forall2_impl; [exact Hds|]. intros [name obj] d Hd. simpl.
    apply load_domain_ok in Hd as (_ & Hjs & Hvs). apply load_vars_ok in Hvs as [Hvs _].
    split_and!; [done|..].
    + apply (load_all_names load_journal); [|done]. intros n o y Hy.
      by apply load_journal_ok in Hy as [? _].
    + apply load_all_ok in Hjs. eapply list.Forall2_impl; [exact Hjs|].
      intros [n o] j Hy. by apply load_journal_ok in Hy as [_ ?].
Qed.
End document.

(** ** The values served are the values written *)

(** A scalar as a fixture writes it: its type text and its value. *)
Definition fscalar `{JsonC} (d : gdata) : option (string * json) :=
  match d with
  | GBoolean b => Some ("boolean", json_object_new_boolean b)
  | GInteger n => Some ("integer", json_object_new_int64 n)
  | GUnsigned n => Some ("unsigned", json_object_new_int64 n)
  | GFloat32 f => Some ("float32", json_object_new_double (to_double f))
  | GVisible s => Some ("visible-string", json_object_new_string s)
  | GOctets l => Some ("octet-string", json_object_new_string (hex_text l))
  | GBits l => Some ("bit-string", json_object_new_string (bit_text l))
  | GUtc ms => Some ("utc-time", json_object_new_string (format_time_ms ms))
  | _ => None
  end.

(** The scalars whose value the type can hold. *)
Definition fvalid (d : gdata) : Prop :=
  match d with GInteger n => is_i32 n | _ => gvalid d end.

(** What a client reads from the value. *)
Definition reads `{MmsApi} (v : MmsValue) (d : gdata) : Prop :=
  match d with
  | GBoolean b => MmsValue_getType v = MMS_BOOLEAN ∧ MmsValue_getBoolean v = b
  | GInteger n => MmsValue_getType v = MMS_INTEGER ∧ MmsValue_toInt32 v = n
  | GUnsigned n => MmsValue_getType v = MMS_UNSIGNED ∧ MmsValue_toUint32 v = n
  | GFloat32 f => MmsValue_getType v = MMS_FLOAT ∧ MmsValue_toFloat v = f
  | GVisible s => MmsValue_getType v = MMS_VISIBLE_STRING ∧ MmsValue_toString v = s
  | GOctets l => MmsValue_getType v = MMS_OCTET_STRING
                 ∧ (l ≠ [] → MmsValue_getOctetStringBuffer v = l)
  | GBits l => MmsValue_getType v = MMS_BIT_STRING ∧ mms_bits v = l
  | GUtc ms => MmsValue_getType v = MMS_UTC_TIME
               ∧ utc_ms_rounded (MmsValue_getUtcTimeBuffer v) = ms
  | _ => False
  end.

Section served.
Context `{JsonLaws} `{MmsLaws}.

Lemma parse_utc_format ms : is_u32 (ms / 1000) → parse_utc_ms (format_time_ms ms) = ms.
Proof.
  intros Hms. pose proof (utc_secs_max _ Hms) as Hs. unfold format_time_ms.
  rewrite parse_utc_strftime by done. unfold scan_ms.
  rewrite string_app_cons, string_app_nil_l, expect_cons. cbn [mbind option_bind].
  rewrite scan_dec_fmt by (simpl; lia).
  rewrite (u64_id (ms / 1000)), (u32_id (ms mod 1000)), u64_id by lia. lia.
Qed.

Lemma make_value_reads d t j :
  fscalar d = Some (t, j) → fvalid d → ∃ v, make_value t j = Some v ∧ reads v d.
Proof.
  intros Hd Hv.
  destruct d; cbn [fscalar] in Hd; try discriminate Hd; injection Hd as <- <-;
    unfold make_value; cbn [String.eqb Ascii.eqb Bool.eqb fvalid gvalid] in *;
    rewrite ?get_string_new; cbn [default from_option id].
  - rewrite get_boolean_new. eexists. split; [done|]. simpl. by autorewrite with mms.
  - rewrite get_int64_new, i32_id by lia. eexists. split; [done|].
    simpl. autorewrite with mms. by rewrite toInt32_new.
  - rewrite get_int64_new, u32_id by lia. eexists. split; [done|].
    simpl. autorewrite with mms. by rewrite toUint32_new.
  - rewrite get_double_new, Hv. eexists. split; [done|]. simpl. by autorewrite with mms.
  - eexists. split; [done|]. simpl. by autorewrite with mms.
  - destruct Hv as [Ho Hl]. rewrite hex_decode_text by done. eexists. split; [done|]. simpl.
    destruct l as [|b l]; [simpl; by autorewrite with mms|].
    destruct (Z.ltb_spec 0 (Z.of_nat (length (b :: l)))); [|simpl length in *; lia].
    autorewrite with mms. split; [done|]. intros _. by apply octets_set.
  - rewrite slen_bit_text, i32_id by lia. eexists. split; [done|].
    rewrite set_bits_text_bits. simpl. rewrite set_bits_type, bits_of_set_bits.
    by autorewrite with mms.
  - eexists. split; [done|]. rewrite parse_utc_format by done. simpl.
    rewrite utc_ms_new by done. by autorewrite with mms.
Qed.

Lemma fscalar_simple d t j :
  fscalar d = Some (t, j) → String.eqb t "array" = false ∧ String.eqb t "structure" = false.
Proof. by destruct d; intros [= <- _]. Qed.

Lemma make_values_read ds t js :
  Forall2 (λ d j, fvalid d ∧ fscalar d = Some (t, j)) ds js →
  ∃ vs, Forall2 (λ j v, make_value t j = Some v) js vs ∧ Forall2 reads vs ds.
Proof.
  induction 1 as [|d j ds js [Hv Hd] Hds (vs & ? & ?)]; [by exists []|].
  destruct (make_value_reads d t j Hd Hv) as (v & ? & ?). exists (v :: vs). by split; constructor.
Qed.

(** A scalar variable of a fixture is always loaded, with its writable
    flag, and a client reads from it the value the fixture writes down. *)
Theorem fixture_scalar_served d t j name obj w :
  fvalid d → fscalar d = Some (t, j) →
  json_object_object_get_ex obj "type" = Some (json_object_new_string t) →
  json_object_object_get_ex obj "value" = Some j →
  json_object_object_get_ex obj "writable" = Some (json_object_new_boolean w) →
  ∃ spec v, load_var name obj = Ret (Some (mk_var name spec v w)) ∧ reads v d.
Proof.
  intros Hv Hd Ht Hj Hw. unfold load_var. rewrite Ht, Hj, Hw. unfold dup_string.
  rewrite get_string_new, get_boolean_new. cbn [res_of_option res_bind].
  destruct (fscalar_simple d t j Hd) as [-> ->].
  destruct (make_value_reads d t j Hd Hv) as (v & Hmv & Hr). unfold load_simple.
  rewrite Hmv. match goal with |- context [make_spec t ?n] =>
    destruct (make_value_type t n j v Hmv) as (s & -> & _) end. simpl. by eexists _, v.
Qed.

(** An array of scalars is loaded with its elements in order, each read as
    the fixture writes it, and its element count is the given count when that is
    positive and otherwise the number of values. *)
Theorem fixture_array_served ds t js name obj count :
  Forall2 (λ d j, fvalid d ∧ fscalar d = Some (t, j)) ds js →
  0 < Z.of_nat (length ds) < 2147483648 →
  json_object_object_get_ex obj "type" = Some (json_object_new_string "array") →
  json_object_object_get_ex obj "elementType" = Some (json_object_new_string t) →
  json_object_object_get_ex obj "value" = Some (json_array_of js) →
  json_object_object_get_ex obj "count" = Some count →
  ∃ e v vs w,
    load_var name obj = Ret (Some (mk_var name
      (mk_spec (Some name)
         (spec_array (if 0 <? json_object_get_int count then json_object_get_int count
                      else Z.of_nat (length ds)) (Some e))) v w))
    ∧ mms_elements v = Some <$> vs ∧ Forall2 reads vs ds.
Proof.
  intros Hds Hlen Ht Het Hj Hc. unfold load_var. rewrite Ht, Hj. unfold dup_string.
  rewrite get_string_new. cbn [res_of_option res_bind]. rewrite String.eqb_refl.
  unfold load_array, dup_string. rewrite Het, Hc, get_string_new. cbn [res_of_option res_bind].
  assert (i32 (json_object_array_length (json_array_of js)) = Z.of_nat (length js)) as Hl.
  { rewrite array_length_elements, elements_array_of. apply i32_id.
    rewrite <- (list.Forall2_length _ _ _ Hds). lia. }
  assert (int_elements (json_array_of js) = js) as He.
  { rewrite <- (elements_array_of js) at 2. unfold int_elements, json_elements.
    rewrite Hl, array_length_elements. by rewrite elements_array_of. }
  rewrite (proj2 (is_type_iff _ _) (array_of_type js)), andb_true_r, Hl.
  rewrite <- (list.Forall2_length _ _ _ Hds). unfold build_array_value.
  rewrite (proj2 (is_type_iff _ _) (array_of_type js)), He, Hl. cbn [negb].
  destruct (make_values_read ds t js Hds) as (vs & Hvs & Hr).
  rewrite (fill_elements_run _ _ _ _ vs);
    [|eapply list.Forall2_impl; [exact Hvs|]; by intros ? ? ->].
  destruct ds as [|d0 ds0]; [simpl in Hlen; lia|]. inversion Hr as [|v0 ? vs0 ? Hr0 Hr1 E1]; subst.
  inversion Hvs as [|j0 ? js0 ? Hv0]; subst.
  destruct (make_value_type t 0 j0 v0 Hv0) as (e & He0 & _ & _).
  unfold build_array_spec. rewrite He0. cbn [res_bind fmap option_fmap option_map].
  eexists e, _, (v0 :: vs0), _. split_and!; [|by apply (array_elements (Z.of_nat (length (j0 :: js0))) _ MmsValue_createEmptyArray);
    [rewrite (list.Forall2_length _ _ _ Hvs)|left; apply type_newArray|apply arraySize_newArray; lia]|done].
  do 7 f_equal. destruct (Z.leb_spec (json_object_get_int count) 0),
    (Z.ltb_spec 0 (json_object_get_int count)); (done || lia).
Qed.
End served.

(** ** The loader returns *)

(** A document without null values whose sections are objects. *)
Definition fixture_shaped `{JsonC} (root : json) : Prop :=
  (∀ d, json_in d root → json_object_get_type d ≠ json_type_null)
  ∧ (∀ c, json_object_object_get_ex root "files" = Some c →
       json_object_get_type c = json_type_object)
  ∧ (∀ c, json_object_object_get_ex root "domains" = Some c →
       json_object_get_type c = json_type_object
       ∧ ∀ name dom, (name, dom) ∈ json_object_object_foreach c →
           ∀ key x, key ∈ ["journals"; "variables"] →
             json_object_object_get_ex dom key = Some x → json_object_get_type x = json_type_object).

Definition returns {A} (m : res A) : Prop := ∃ a, m = Ret a.

Lemma returns_ret {A} (a : A) : returns (Ret a).
Proof. by exists a. Qed.

Lemma returns_bind {A B} (m : res A) (f : A → res B) :
  returns m → (∀ a, m = Ret a → returns (f a)) → returns (res_bind m f).
Proof. intros [a ->] Hf. simpl. by apply Hf. Qed.

Create HintDb returns.
#[export] Hint Resolve returns_ret : returns.

(** One step of a proof that an expression returns. *)
Ltac returns_step :=
  match goal with
  | |- returns (Ret _) => apply returns_ret
  | |- returns (res_bind _ _) => apply returns_bind; [|intros ? ?]
  | |- returns (match ?x with _ => _ end) => destruct x eqn:?
  end.

Section returns.
Context `{JsonLaws} `{MmsApi}.
Variable root : json.
Hypothesis no_null : ∀ d, json_in d root → json_object_get_type d ≠ json_type_null.

Lemma dup_returns j : json_in j root → returns (dup_string j).
Proof.
  intros Hj. unfold dup_string, res_of_option. destruct (json_object_get_string j) eqn:E.
  - apply returns_ret.
  - by destruct (no_null j Hj); apply get_string_null.
Qed.

Lemma dup_member j k c :
  json_in j root → json_object_object_get_ex j k = Some c → returns (dup_string c).
Proof. intros. apply dup_returns. by eapply in_member_of. Qed.

Lemma members_return j : json_object_get_type j = json_type_object → returns (json_members j).
Proof. intros Hj. unfold json_members. rewrite (proj2 (is_type_iff _ _) Hj). apply returns_ret. Qed.

Lemma load_all_returns {A B} (load : A → res (option B)) l :
  (∀ x, x ∈ l → returns (load x)) → returns (load_all load l).
Proof.
  induction l as [|x l IH]; simpl; intros Hl; [apply returns_ret|].
  returns_step; [apply Hl; by left|]. returns_step; [|apply returns_ret].
  returns_step; [|apply returns_ret]. apply IH. intros y ?. apply Hl. by right.
Qed.

Lemma int_element_of j c :
  json_in j root → json_object_get_type j = json_type_array → c ∈ int_elements j → json_in c root.
Proof. intros. eapply in_element_of; [done..|]. by apply int_elements_sub. Qed.

Lemma load_entry_returns je : json_in je root → returns (load_entry je).
Proof.
  intros Hj. unfold load_entry.
  repeat (returns_step; try (by eapply dup_member)).
Qed.

Lemma load_journal_returns n j : json_in j root → returns (load_journal n j).
Proof.
  intros Hj. unfold load_journal. returns_step; [|apply returns_ret].
  returns_step; [apply returns_ret|]. returns_step; [|apply returns_ret].
  bool_hyps. match goal with E : json_object_is_type _ _ = true |- _ => apply is_type_iff in E end.
  apply load_all_returns. intros je Hje. apply load_entry_returns.
  eapply int_element_of; [|done..]. by eapply in_member_of.
Qed.

Lemma load_file_returns n j : json_in j root → returns (load_file n j).
Proof.
  intros Hj. unfold load_file.
  repeat (returns_step; try (by eapply dup_member)).
Qed.

Lemma dup_strings_returns l : (∀ j, j ∈ l → json_in j root) → returns (dup_strings l).
Proof.
  induction l as [|j l IH]; simpl; intros Hl; [apply returns_ret|].
  returns_step; [apply dup_returns, Hl; by left|].
  returns_step; [|apply returns_ret]. apply IH. intros x ?. apply Hl. by right.
Qed.

Lemma load_report_returns j : json_in j root → returns (load_report j).
Proof.
  intros Hj. unfold load_report. returns_step.
  { returns_step; [|apply returns_ret]. returns_step; [by eapply dup_member|apply returns_ret]. }
  returns_step; [|apply returns_ret]. returns_step; [apply returns_ret|].
  returns_step; [|apply returns_ret]. bool_hyps.
  match goal with E : json_object_is_type _ _ = true |- _ => apply is_type_iff in E end.
  apply dup_strings_returns. intros x Hx. eapply int_element_of; [|done..]. by eapply in_member_of.
Qed.

Lemma fill_elements_returns elem_of i v l :
  (∀ j, j ∈ l → returns (elem_of j)) → returns (fill_elements elem_of i v l).
Proof.
  revert i v. induction l as [|j l IH]; simpl; intros i v Hl; [apply returns_ret|].
  returns_step; [apply Hl; by left|]. returns_step; [|apply returns_ret].
  apply IH. intros x ?. apply Hl. by right.
Qed.

Lemma component_specs_returns i l :
  (∀ j, j ∈ l → json_in j root) → returns (component_specs i l).
Proof.
  revert i. induction l as [|j l IH]; simpl; intros i Hl; [apply returns_ret|].
  assert (json_in j root) as Hj by (apply Hl; by left).
  returns_step.
  - unfold component_spec. repeat (returns_step; try (by eapply dup_member)).
  - returns_step; [|apply returns_ret]. returns_step; [|apply returns_ret].
    apply IH. intros x ?. apply Hl. by right.
Qed.

Lemma structure_returns name j : json_in j root → returns (load_structure name j).
Proof.
  intros Hj. unfold load_structure, build_structure_spec, build_structure_value.
  destruct (json_object_is_type j json_type_array) eqn:E; simpl; [|apply returns_ret].
  apply is_type_iff in E. assert (∀ c, c ∈ int_elements j → json_in c root) as Hin.
  { intros c Hc. by eapply int_element_of. }
  returns_step; [returns_step; [by apply component_specs_returns|apply returns_ret]|].
  returns_step; [|apply returns_ret]. returns_step; [|apply returns_ret].
  apply fill_elements_returns. intros c Hc. unfold component_value.
  repeat (returns_step; try (by eapply dup_member; [apply Hin|])).
Qed.

Lemma load_var_returns name obj : json_in obj root → returns (load_var name obj).
Proof.
  intros Hj. unfold load_var.
  returns_step; [|apply returns_ret]. returns_step; [|apply returns_ret].
  returns_step; [by eapply dup_member|]. returns_step; [|by repeat returns_step].
  returns_step; [|returns_step; [by eapply structure_returns, in_member_of|apply returns_ret]].
  unfold load_array. returns_step; [|apply returns_ret].
  returns_step; [by eapply dup_member|]. returns_step; [|apply returns_ret].
  returns_step; [|apply returns_ret]. unfold build_array_value.
  returns_step; [apply returns_ret|]. apply fill_elements_returns. intros ? _. apply returns_ret.
Qed.

Lemma load_vars_returns l : (∀ n o, (n, o) ∈ l → json_in o root) → returns (load_vars l).
Proof.
  induction l as [|[n o] l IH]; simpl; intros Hl; [apply returns_ret|].
  returns_step; [apply load_var_returns, (Hl n); by left|]. returns_step; [|apply returns_ret].
  apply IH. intros n' o' ?. apply (Hl n'). by right.
Qed.

Lemma load_domain_returns name dom :
  json_in dom root →
  (∀ key x, key ∈ ["journals"; "variables"] →
     json_object_object_get_ex dom key = Some x → json_object_get_type x = json_type_object) →
  returns (load_domain (name, dom)).
Proof.
  intros Hd Hs. unfold load_domain. returns_step.
  - returns_step; [|apply returns_ret]. returns_step.
    + apply members_return. eapply (Hs "journals"); [by left|done].
    + match goal with E : json_members _ = _ |- _ => apply json_members_some in E as -> end.
      apply load_all_returns. intros [n o] Hno. apply load_journal_returns.
      eapply in_each_of; [|exact Hno]. by eapply in_member_of.
  - returns_step; [|apply returns_ret]. returns_step; [|apply returns_ret].
    returns_step; [apply members_return; eapply (Hs "variables"); [by right; left|done]|].
    returns_step; [|apply returns_ret].
    match goal with E : json_members _ = _ |- _ => apply json_members_some in E as -> end.
    apply load_vars_returns. intros n o Hno. eapply in_each_of; [|exact Hno].
    by eapply in_member_of.
Qed.

Lemma string_member_returns j k dflt : json_in j root → returns (string_member j k dflt).
Proof. intros Hj. unfold string_member. returns_step; [by eapply dup_member|apply returns_ret]. Qed.
End returns.

(** C21: The loader returns on every document without null values whose sections
    are objects: no text, number, array or member of it makes the loader read a
    null pointer. *)
Theorem fixture_load_returns `{JsonLaws} `{MmsApi} root :
  fixture_shaped root → ∃ f, fixture_load (Some root) = Ret f.
Proof.
  intros (Hn & Hf & Hd). change (returns (fixture_load (Some root))). unfold fixture_load.
  assert (∀ key dflt, returns (match json_object_object_get_ex root "identity" with
    | Some jid => string_member jid key dflt | None => Ret dflt end)) as Hid.
  { intros. returns_step; [|apply returns_ret]. apply (string_member_returns root Hn).
    by eapply in_member_of; [constructor|]. }
  do 3 (returns_step; [apply Hid|]).
  returns_step; [apply (string_member_returns root Hn); constructor|]. returns_step.
  { returns_step; [|apply returns_ret]. returns_step; [by apply members_return, Hf|].
    match goal with E : json_members _ = _ |- _ => apply json_members_some in E as -> end.
    apply load_all_returns. intros [n o] Hno. apply (load_file_returns root Hn).
    eapply in_each_of; [|exact Hno]. by eapply in_member_of; [constructor|]. }
  returns_step; [|apply returns_ret]. returns_step.
  { returns_step; [|apply returns_ret]. returns_step; [|apply returns_ret].
    match goal with E : json_object_is_type _ _ = true |- _ => apply is_type_iff in E end.
    apply load_all_returns. intros jr Hj. apply (load_report_returns root Hn).
    eapply int_element_of; [|done..]. by eapply in_member_of; [constructor|]. }
  returns_step; [|apply returns_ret]. returns_step; [|apply returns_ret].
  match goal with E : json_object_object_get_ex _ "domains" = _ |- _ =>
    destruct (Hd _ eq_refl) as [Ho Hdom]; pose proof (in_member_of root root _ _ (in_self root) E) end.
  returns_step; [by apply members_return|].
  match goal with E : json_members _ = _ |- _ => apply json_members_some in E as -> end.
  returns_step; [|apply returns_ret]. apply load_all_returns. intros [n o] Hno.
  apply (load_domain_returns root Hn); [by eapply in_each_of|]. by apply (Hdom n).
Qed.

(** A variable whose type is null makes [strcmp] read a null pointer. *)
Lemma fixture_null_type `{JsonC} `{MmsApi} name obj jtype jval :
  json_object_object_get_ex obj "type" = Some jtype →
  json_object_object_get_ex obj "value" = Some jval →
  json_object_get_string jtype = None → load_var name obj = Undef.
Proof. intros Ht Hv Hs. unfold load_var, dup_string. by rewrite Ht, Hv, Hs. Qed.

(** ** A small document *)

Definition sample_entry : rjson := RObject
  [("entryId", RInt 7); ("occurrenceTime", RString "2024-01-01T00:00:00.000Z");
   ("tag", RString "D/b"); ("type", RString "boolean"); ("value", RBool true)].

Definition sample_variables : rjson := RObject
  [("b", RObject [("type", RString "boolean"); ("value", RBool true); ("writable", RBool true)]);
   ("a", RObject [("type", RString "array"); ("elementType", RString "integer");
                  ("count", RInt 0); ("value", RArray [RInt 1; RInt (-2); RInt 3])]);
   ("s", RObject [("type", RString "structure");
                  ("value", RArray [RObject [("type", RString "unsigned"); ("value", RInt 5)];
                                    RObject [("type", RString "bit-string"); ("name", RString "q");
                                             ("value", RString "0110")]])]);
   ("x", RObject [("type", RString "enumerated"); ("value", RInt 0)])].

Definition sample_root : json := RObject
  [("revision", RString "mms-v2");
   ("files", RObject [("/a.txt", RObject [("content", RString "hi")]);
                      ("/b.bin", RObject [("hex", RString "00ff");
                                          ("lastModified", RString "2024-01-01T00:00:00.000Z")])]);
   ("domains", RObject
      [("D", RObject [("journals", RObject [("J", RObject [("entries", RArray [sample_entry])])]);
                      ("variables", sample_variables)])])].

Definition sample_fixture : FixtureDef :=
  match fixture_load (Some sample_root) with
  | Ret (Some f) => f
  | _ => mk_fixture "" "" "" "" 0 0 [] [] []
  end.

Example sample_loads :
  fixture_load (Some sample_root) = Ret (Some sample_fixture)
  ∧ (var_name <$> (domains sample_fixture ≫= vars)) = ["b"; "a"; "s"]
  ∧ (data <$> files sample_fixture) = [[104; 105]; [0; 255]].
Proof. split_and!; reflexivity. Qed.

Lemma fixture_variables_typed_witness :
  Forall (λ d, Forall (λ v, spec_name (var_spec v) = Some (var_name v)
                            ∧ value_matches (var_spec v) (var_value v)) (vars d))
    (domains sample_fixture).
Proof.
  apply list.Forall_forall. intros d Hd. apply list.Forall_forall. intros v Hv.
  apply (fixture_variables_typed sample_root sample_fixture) with (d := d);
    [apply rall_small; reflexivity|reflexivity|exact Hd|exact Hv].
Defined.

Lemma fixture_complete_witness :
  domain_name <$> domains sample_fixture = ["D"]
  ∧ file_name <$> files sample_fixture = ["/a.txt"; "/b.bin"].
Proof.
  destruct (fixture_complete sample_root sample_fixture eq_refl) as (Hd & Hf & _).
  split; [exact Hd|exact Hf].
Defined.

Lemma fixture_scalar_served_witness :
  ∃ spec v, load_var "u"
      (RObject [("type", RString "octet-string"); ("value", RString (hex_text [1; 171]));
                ("writable", RBool true)]) = Ret (Some (mk_var "u" spec v true))
    ∧ reads v (GOctets [1; 171]).
Proof.
  apply (@fixture_scalar_served ref_json _ ref_mms _ (GOctets [1; 171]) "octet-string" (RString (hex_text [1; 171])) "u"
    (RObject [("type", RString "octet-string"); ("value", RString (hex_text [1; 171]));
              ("writable", RBool true)]) true); try reflexivity.
  split; [repeat constructor; lia|reflexivity].
Defined.

Lemma fixture_array_served_witness :
  ∃ e v vs w, load_var "a"
      (RObject [("type", RString "array"); ("elementType", RString "integer");
                ("count", RInt 0); ("value", @json_array_of ref_json [RInt 1; RInt (-2)])])
      = Ret (Some (mk_var "a" (mk_spec (Some "a") (spec_array 2 (Some e))) v w))
    ∧ mms_elements v = Some <$> vs ∧ Forall2 reads vs [GInteger 1; GInteger (-2)].
Proof.
  apply (@fixture_array_served ref_json _ ref_mms _ [GInteger 1; GInteger (-2)] "integer" ([RInt 1; RInt (-2)]) "a"
    (RObject [("type", RString "array"); ("elementType", RString "integer");
              ("count", RInt 0); ("value", @json_array_of ref_json [RInt 1; RInt (-2)])]) (RInt 0));
    try reflexivity.
  - repeat constructor; simpl; lia.
  - simpl. lia.
Defined.

Lemma fixture_load_returns_witness : ∃ f, fixture_load (Some sample_root) = Ret f.
Proof.
  apply (fixture_load_returns sample_root). split_and!.
  - apply rall_no_null. reflexivity.
  - intros c [= <-]. reflexivity.
  - intros c [= <-]. split; [reflexivity|]. intros n o Ho.
    apply list_elem_of_singleton in Ho. injection Ho as -> ->.
    intros key x Hk. repeat (apply elem_of_cons in Hk as [->|Hk]; [by intros [= <-]|]).
    by apply elem_of_nil in Hk.
Defined.
