(* ===== verification/MmsServer.v ===== *)
(** * mms_server.c

    The generic MMS server: the write handler over libiec61850's value cache,
    the information reports a write sends, the journal storage read through
    callbacks, the file store, the device model, and the start of the
    program; [MmsServerRun] has what follows it.  The log on standard error is
    not modelled. *)

From Stdlib Require Import ZArith Lia String Ascii SpecFloat.
From stdpp Require Import base tactics list strings numbers option.
From S2P Require Import Prelude CText Json JsonLines Mms Fixture.

Local Open Scope Z_scope.
Local Open Scope c_scope.

(** ** Libraries

    The value cache of [MmsServer] and the values in it, which a write changes
    in place.  A domain is its index in the device; a [value_ref] is a
    [MmsValue*] into the cache. *)
Class ServerCache `{MmsApi} := {
  cache : Type;
  value_ref : Type;
  cache_empty : cache;
  MmsServer_insertIntoCache : cache → nat → string → MmsValue → cache;
  MmsServer_getValueFromCache : cache → nat → string → option value_ref;
  cached_element : cache → value_ref → Z → option value_ref;
  cached_value : cache → value_ref → MmsValue;
  MmsValue_update : cache → value_ref → MmsValue → bool * cache;
  MmsValue_clone : MmsValue → MmsValue
}.

(** The file system: [mkdir] gives 0 or [errno], [fwrite] the octets written. *)
Class FileSystem := {
  fs : Type;
  mkdir : fs → string → Z * fs;
  fopen_wb : fs → string → option fs;
  fwrite : fs → string → list Z → Z * fs;
  utimes : fs → string → Z → fs
}.

Definition EEXIST : Z := 17.

(** ** State *)

Record WriteEntry := mk_write_entry {
  we_domain : string;
  we_var : string;
  we_writable : bool
}.

Definition REPORT_TRIGGER : string := "report-trigger".

Inductive MmsDataAccessError : Set :=
| DATA_ACCESS_ERROR_SUCCESS
| DATA_ACCESS_ERROR_OBJECT_ACCESS_DENIED
| DATA_ACCESS_ERROR_OBJECT_UNDEFINED
| DATA_ACCESS_ERROR_INVALID_ADDRESS
| DATA_ACCESS_ERROR_TYPE_INCONSISTENT.

#[export] Instance MmsDataAccessError_eq_dec : EqDecision MmsDataAccessError.
Proof. solve_decision. Defined.

(** [split_ref]: the parts of ["domain/item"] when they fit their buffers. *)
Definition split_ref (ref : string) (dom_len item_len : Z) : option (string * string) :=
  match strchr "/" ref with
  | None => None
  | Some (dom, item) =>
      if (dom_len <=? slen dom) || (item_len <=? slen item) then None else Some (dom, item)
  end.

Section server.
Context `{MmsApi} `{!ServerCache} `{!FileSystem}.

(** ** Journals

    The callbacks of the log service change a state of type [P] of the caller;
    [encode] is [MmsValue_encodeMmsData], whose octets go to a buffer of 256. *)

Section journal.
Context {P : Type}.
Variable encode : MmsValue → list Z.
Variable entryCallback : option (P → Z → Z → bool → P * bool).
Variable entryDataCallback : option (P → option string → list Z → Z → bool → P * bool).

Definition emit_entry (e : JournalEntryDef) (p : P) : res P :=
  let emit_data p :=
    let buf := encode (entry_value e) in
    if 256 <? Z.of_nat (length buf) then Undef
    else
      Ret (match entryDataCallback with
           | Some cb =>
               let p := (cb p (Some (tag e)) buf (reason_code e) true).1 in
               (cb p None [] 0 false).1
           | None => p
           end) in
  match entryCallback with
  | Some cb =>
      let '(p, more) := cb p (time_ms e) (entry_id e) true in
      if more then emit_data p else Ret p
  | None => emit_data p
  end.

(** The call that ends a reply. *)
Definition emit_end (p : P) : P :=
  match entryCallback with
  | Some cb => (cb p 0 0 false).1
  | None => p
  end.

Fixpoint get_entries_loop (start end_ : Z) (l : list JournalEntryDef) (p : P) : res P :=
  match l with
  | [] => Ret p
  | e :: l' =>
      let* p := if (start <=? time_ms e) && (time_ms e <=? end_) then emit_entry e p
                else Ret p in
      get_entries_loop start end_ l' p
  end.

Definition mem_get_entries (j : JournalDef) (start end_ : Z) (p : P) : res P :=
  let* p := get_entries_loop start end_ (entries j) p in
  Ret (emit_end p).

Fixpoint get_entries_after_loop (start id : Z) (found : bool) (l : list JournalEntryDef) (p : P)
  : res P :=
  match l with
  | [] => Ret p
  | e :: l' =>
      let* p := if found && (start <=? time_ms e) then emit_entry e p else Ret p in
      get_entries_after_loop start id (if entry_id e =? id then true else found) l' p
  end.

Definition mem_get_entries_after (j : JournalDef) (start id : Z) (p : P) : res P :=
  let* p := get_entries_after_loop start id false (entries j) p in
  Ret (emit_end p).
End journal.

(** [struct sLogStorage]: what it serves, and the functions the log service
    calls, with its own state, the encoding and the callbacks. *)
Record LogStorage := mk_log_storage {
  instanceData : JournalDef;
  getEntries : ∀ P : Type, (MmsValue → list Z) → option (P → Z → Z → bool → P * bool) →
    option (P → option string → list Z → Z → bool → P * bool) → JournalDef → Z → Z → P → res P;
  getEntriesAfter : ∀ P : Type, (MmsValue → list Z) → option (P → Z → Z → bool → P * bool) →
    option (P → option string → list Z → Z → bool → P * bool) → JournalDef → Z → Z → P → res P
}.

Definition mem_log_storage (j : JournalDef) : LogStorage :=
  {| instanceData := j;
     getEntries := @mem_get_entries;
     getEntriesAfter := @mem_get_entries_after |}.

(** ** The server *)

(** The members of [struct sMmsDomain] the program fills: its variables and
    its journals, each with the log storage that serves it. *)
Record MmsDomain := mk_mms_domain {
  mms_domain_name : string;
  namedVariables : list MmsVariableSpecification;
  logStorage : list (string * LogStorage)
}.

(** An information report that was sent: the connection, the name of the list
    and the values it held. *)
Record report := mk_sent {
  report_conn : Z;
  report_list : string;
  report_values : list MmsValue
}.

(** The global state; [g_device] stands for its domains and [g_sent] for what
    was sent so far. *)
Record server := mk_server {
  g_entries : list WriteEntry;
  g_device : list MmsDomain;
  g_reports : list ReportDef;
  g_cache : cache;
  g_sent : list report
}.

(** ** Information reports *)

Fixpoint find_domain_from (i : nat) (l : list MmsDomain) (name : string) : option nat :=
  match l with
  | [] => None
  | d :: l' => if String.eqb (mms_domain_name d) name then Some i
               else find_domain_from (S i) l' name
  end.

Definition find_domain (g : server) (name : string) : option nat :=
  find_domain_from 0 (g_device g) name.

(** The cached value of a variable of a report; [None] when it is left out. *)
Definition report_value (g : server) (ref : string) : option MmsValue :=
  match split_ref ref 65 65 with
  | None => None
  | Some (dom, item) =>
      match find_domain g dom with
      | None => None
      | Some d =>
          match MmsServer_getValueFromCache (g_cache g) d item with
          | None => None
          | Some v => Some (cached_value (g_cache g) v)
          end
      end
  end.

(** The loop over the variables: the values, in order. *)
Fixpoint report_list_values (g : server) (refs : list string) (values : list MmsValue)
  : list MmsValue :=
  match refs with
  | [] => values
  | ref :: refs' =>
      report_list_values g refs'
        (match report_value g ref with Some v => values ++ [v] | None => values end)
  end.

Definition send_report (conn : Z) (g : server) (rd : ReportDef) : server :=
  match vmd_list rd with
  | None => g
  | Some name =>
      {| g_entries := g_entries g; g_device := g_device g; g_reports := g_reports g;
         g_cache := g_cache g;
         g_sent := g_sent g ++ [mk_sent conn name (report_list_values g (variables rd) [])] |}
  end.

Definition send_reports (conn : Z) (g : server) : server :=
  fold_left (send_report conn) (g_reports g) g.

(** ** The write handler *)

Definition set_cache (g : server) (c : cache) : server :=
  {| g_entries := g_entries g; g_device := g_device g; g_reports := g_reports g;
     g_cache := c; g_sent := g_sent g |}.

(** [base]: the name before the first ["$"], in a buffer of 130 characters. *)
Definition base_name (var_id : string) : string :=
  let base := snprintf_s 130 var_id in
  match strchr "$" base with
  | Some (b, _) => b
  | None => base
  end.

Definition domain_name_of (g : server) (domain : nat) : string :=
  match g_device g !! domain with Some d => mms_domain_name d | None => EmptyString end.

(** The loop over the table of variables. *)
Fixpoint write_loop (g : server) (domain : nat) (dom_name base var_id : string)
    (array_idx : Z) (value : MmsValue) (conn : Z) (l : list WriteEntry)
  : MmsDataAccessError * server :=
  match l with
  | [] => (DATA_ACCESS_ERROR_OBJECT_UNDEFINED, g)
  | e :: l' =>
      if negb (String.eqb (we_domain e) dom_name) || negb (String.eqb (we_var e) base) then
        write_loop g domain dom_name base var_id array_idx value conn l'
      else if negb (we_writable e) then (DATA_ACCESS_ERROR_OBJECT_ACCESS_DENIED, g)
      else
        match MmsServer_getValueFromCache (g_cache g) domain var_id with
        | None => (DATA_ACCESS_ERROR_OBJECT_UNDEFINED, g)
        | Some cached =>
            match (if 0 <=? array_idx then cached_element (g_cache g) cached array_idx
                   else Some cached) with
            | None => (DATA_ACCESS_ERROR_INVALID_ADDRESS, g)
            | Some cached =>
                let '(ok, c) := MmsValue_update (g_cache g) cached value in
                let g := set_cache g c in
                if negb ok then (DATA_ACCESS_ERROR_TYPE_INCONSISTENT, g)
                else
                  (DATA_ACCESS_ERROR_SUCCESS,
                   if String.eqb base REPORT_TRIGGER then send_reports conn g else g)
            end
        end
  end.

Definition write_handler (g : server) (domain : nat) (var_id : string) (array_idx : Z)
    (value : MmsValue) (conn : Z) : MmsDataAccessError * server :=
  write_loop g domain (domain_name_of g domain) (base_name var_id) var_id array_idx value conn
    (g_entries g).

(** A write request as the library hands it to the handler, and what the
    server becomes by serving a sequence of them. *)
Record write := mk_write {
  w_domain : nat;
  w_var_id : string;
  w_array_idx : Z;
  w_value : MmsValue;
  w_conn : Z
}.

Definition serve_write (g : server) (w : write) : server :=
  (write_handler g (w_domain w) (w_var_id w) (w_array_idx w) (w_value w) (w_conn w)).2.

Definition serve_writes (g : server) (l : list write) : server := fold_left serve_write l g.

(** A write request of a client: one that the library hands to the handler, or
    one with an index range, which the library applies to its cache itself
    without calling the handler; [change] is what it does there. *)
Inductive request : Type :=
| HandledWrite (w : write)
| RangeWrite (domain : nat) (item : string) (change : cache → cache).

Definition serve_request (g : server) (r : request) : server :=
  match r with
  | HandledWrite w => serve_write g w
  | RangeWrite _ _ change => set_cache g (change (g_cache g))
  end.

Definition serve_requests (g : server) (l : list request) : server := fold_left serve_request l g.

(** ** The file store *)

(** [mkdir] of every prefix of the path that ends before a ["/"]; [done] is
    the text before the current character. *)
Fixpoint mkdirs_loop (done rest : string) (f : fs) : Z * fs :=
  match rest with
  | EmptyString => (0, f)
  | String c rest' =>
      if Ascii.eqb c "/" then
        let '(err, f) := mkdir f done in
        if negb (err =? 0) && negb (err =? EEXIST) then (-1, f)
        else mkdirs_loop (done +:+ String c "") rest' f
      else mkdirs_loop (done +:+ String c "") rest' f
  end.

(** The scan starts at the second character. *)
Definition mkdirs (path : string) (f : fs) : res (Z * fs) :=
  match path with
  | EmptyString => Undef
  | String c rest => Ret (mkdirs_loop (String c "") rest f)
  end.

(** One file; [false] when it cannot be written. *)
Definition populate_file (dir : string) (fd : FileDef) (f : fs) : res (bool * fs) :=
  let path := snprintf_s 1024 (dir +:+ file_name fd) in
  let* r := mkdirs path f in
  let '(err, f) := r in
  if negb (err =? 0) then Ret (false, f) else
  match fopen_wb f path with
  | None => Ret (false, f)
  | Some f =>
      let '(ok, f) :=
        if 0 <? size fd then
          let '(n, f) := fwrite f path (data fd) in (n =? size fd, f)
        else (true, f) in
      if negb ok then Ret (false, f)
      else if negb (last_modified_ms fd =? 0) then
        Ret (true, utimes f path (last_modified_ms fd / 1000))
      else Ret (true, f)
  end.

Fixpoint populate_filestore (dir : string) (l : list FileDef) (f : fs) : res (bool * fs) :=
  match l with
  | [] => Ret (true, f)
  | fd :: l' =>
      let* r := populate_file dir fd f in
      let '(ok, f) := r in
      if ok then populate_filestore dir l' f else Ret (false, f)
  end.

(** ** The device model *)

(** The copy shares the nested specifications. *)
Definition clone_spec (src : MmsVariableSpecification) : MmsVariableSpecification :=
  mk_spec (spec_name src) (typeSpec src).

Definition build_device (f : FixtureDef) : list MmsDomain :=
  map (λ dd, mk_mms_domain (domain_name dd)
               (map (λ v, clone_spec (var_spec v)) (vars dd))
               (map (λ j, (journal_name j, mem_log_storage j)) (journals dd)))
    (domains f).

(** ** The program *)

(** The loops that fill the cache and the table of variables. *)
Fixpoint register_vars (di : nat) (dom : string) (l : list VarDef)
    (s : cache * list WriteEntry) : cache * list WriteEntry :=
  match l with
  | [] => s
  | vd :: l' =>
      let '(c, es) := s in
      register_vars di dom l'
        (MmsServer_insertIntoCache c di (var_name vd) (MmsValue_clone (var_value vd)),
         es ++ [mk_write_entry dom (var_name vd) (writable vd)])
  end.

Fixpoint register_domains (di : nat) (l : list DomainDef) (s : cache * list WriteEntry)
  : cache * list WriteEntry :=
  match l with
  | [] => s
  | dd :: l' => register_domains (S di) l' (register_vars di (domain_name dd) (vars dd) s)
  end.

(** [for (i = 1; i < argc - 1; i++)]: every argument is looked at, with the
    one after it. *)
Record server_args := mk_server_args {
  fixture_path : option string;
  filestore_arg : option string;
  port : Z
}.

Definition scan_arg (a v : string) (c : server_args) : server_args :=
  {| fixture_path := if String.eqb a "--fixture" then Some v else fixture_path c;
     port := if String.eqb a "--port" then atoi v else port c;
     filestore_arg := if String.eqb a "--filestore" then Some v else filestore_arg c |}.

Fixpoint scan_args (l : list string) (c : server_args) : server_args :=
  match l with
  | a :: (v :: _) as l' => scan_args l' (scan_arg a v c)
  | _ => c
  end.

(** What the program found when it started. *)
Record environment := mk_environment {
  adapter_version : option string;
  load_fixture : string → res (option FixtureDef);
  tmp_directory : option string;   (* the name mkdtemp chooses *)
  server_created : bool;           (* MmsServer_create succeeds *)
  listening : Z → bool             (* MmsServer_isRunning, by port *)
}.

(** The server when it listens: the port, the base path of the file store, the
    file system, the line on standard output and the state of the handlers. *)
Record running := mk_running {
  r_port : Z;
  r_filestore : string;
  r_fs : fs;
  r_ready : string;
  r_server : server
}.

Definition filestore_base (env : environment) (c : server_args) (f : fs) : res (string * fs) :=
  match filestore_arg c with
  | Some dir => Ret (snprintf_s 512 (dir +:+ "/"), (mkdir f dir).2)
  | None =>
      match tmp_directory env with
      | None => Exit 1
      | Some tmpl => Ret (snprintf_s 512 (tmpl +:+ "/"), (mkdir f tmpl).2)
      end
  end.

(** From the options to the readiness line. *)
Definition start (env : environment) (argv : list string) (f : fs) : res running :=
  let c := scan_args (tail argv) (mk_server_args None None 1102) in
  let path := default "/fixtures/mms/interop.json" (fixture_path c) in
  let* fix_ := load_fixture env path in
  match fix_ with
  | None => Exit 3
  | Some fix_ =>
      let dev := build_device fix_ in
      if negb (server_created env) then Exit 1 else
      let* base := filestore_base env c f in
      let '(dir, f) := base in
      let* pop := populate_filestore dir (files fix_) f in
      let '(ok, f) := pop in
      if negb ok then Exit 1 else
      let '(cache, entries) := register_domains 0 (domains fix_) (cache_empty, []) in
      if negb (listening env (port c)) then Exit 1 else
      let addr := snprintf_s 64 ("0.0.0.0:" +:+ fmt_d (port c)) in
      Ret {| r_port := port c; r_filestore := dir; r_fs := f;
             r_ready := jl_ready (adapter_version env) addr (fixture_revision fix_)
                          "libiec61850" (Some "");
             r_server := {| g_entries := entries; g_device := dev; g_reports := reports fix_;
                            g_cache := cache; g_sent := [] |} |}
  end.

End server.
