(* ===== verification/RefMmsServer.v ===== *)
(** * A concrete value cache and file system

    What [mms_server.c] relies on of the value cache and of the file system
    ([ServerCacheLaws], [FileSystemLaws]), and implementations of
    [MmsServer.ServerCache] and [MmsServer.FileSystem] that satisfy it.  They
    stand for no code of the repository. *)

From Stdlib Require Import ZArith Lia String Ascii SpecFloat.
From stdpp Require Import base tactics list strings numbers option.
From S2P Require Import Prelude CText Mms RefMms MmsServer.

Local Open Scope Z_scope.

(** The variable an item name addresses: the text before the first ["$"]. *)
Definition item_variable (item : string) : string :=
  match strchr "$" item with
  | Some (b, _) => b
  | None => item
  end.

(** The cached value of a variable. *)
Definition cached `{ServerCache} (c : cache) (d : nat) (n : string) : option MmsValue :=
  cached_value c <$> MmsServer_getValueFromCache c d n.

(** Documented behaviour of the cache: values are found under the name they
    were inserted with, pointers into it stay valid, an update changes only
    the variable the pointer lies in, and a successful one stores the value. *)
Class ServerCacheLaws `{ServerCache} : Prop := {
  clone_eq v : MmsValue_clone v = v;
  cached_empty d n : cached cache_empty d n = None;
  cached_insert c d n v d' n' :
    cached c d n = None → lacks "$" n = true → lacks "$" n' = true →
    cached (MmsServer_insertIntoCache c d n v) d' n'
    = if decide (d = d' ∧ n = n') then Some v else cached c d' n';
  update_ref c r v d n :
    lacks "$" n = true →
    MmsServer_getValueFromCache (MmsValue_update c r v).2 d n = MmsServer_getValueFromCache c d n;
  update_stores c r v c' : MmsValue_update c r v = (true, c') → cached_value c' r = v;
  update_frame c d item r r' v d' n' :
    MmsServer_getValueFromCache c d item = Some r →
    r' = r ∨ (∃ i, cached_element c r i = Some r') →
    (d', n') ≠ (d, item_variable item) → lacks "$" n' = true →
    cached (MmsValue_update c r' v).2 d' n' = cached c d' n'
}.

(** ** Places in the file system

    Where a path leads, in a file system without symbolic links: the names on
    the way from its root.  Empty names and ["."] lead nowhere, [".."] leads
    back; a path that does not begin with a ["/"] has no place here. *)
Definition place : Type := list string.

Fixpoint split_slash (s : string) : list string :=
  match s with
  | EmptyString => [""]
  | String c s' =>
      if Ascii.eqb c "/" then "" :: split_slash s'
      else match split_slash s' with
           | [] => [String c ""]
           | x :: l => String c x :: l
           end
  end.

Definition components (p : string) : list string :=
  filter (λ c, c ≠ ""%string ∧ c ≠ "."%string) (split_slash p).

Definition follow (l : place) (c : string) : place :=
  if decide (c = "..") then removelast l else l ++ [c].

Definition place_of (p : string) : option place :=
  match p with
  | String "/" _ => Some (fold_left follow (components p) [])
  | _ => None
  end.

(** Documented behaviour of the file system: what a file holds. *)
Class FileSystemLaws `{FileSystem} := {
  content : fs → place → option (list Z);
  content_mkdir f d q : content (mkdir f d).2 q = content f q;
  content_open f p l f' :
    place_of p = Some l → fopen_wb f p = Some f' →
    content f' l = Some [] ∧ ∀ q, q ≠ l → content f' q = content f q;
  content_write f p l d n f' :
    place_of p = Some l → content f l = Some [] → fwrite f p d = (n, f') →
    (n = Z.of_nat (length d) → content f' l = Some d)
    ∧ ∀ q, q ≠ l → content f' q = content f q;
  content_utimes f p t q : content (utimes f p t) q = content f q
}.

(** ** The cache *)

Definition child (v : rmms) (i : Z) : option rmms :=
  match v with VArray _ l | VStruct _ l => vlookup l i | _ => None end.

Definition set_child (v : rmms) (i : Z) (c : rmms) : rmms :=
  match v with
  | VArray n l => VArray n ((i, c) :: l)
  | VStruct n l => VStruct n ((i, c) :: l)
  | _ => v
  end.

(** A reference is a variable and, for a part of it, up to two indices. *)
Definition rref : Type := nat * string * list Z.

Fixpoint part (v : rmms) (p : list Z) : option rmms :=
  match p with
  | [] => Some v
  | i :: p' => c ← child v i; part c p'
  end.

Fixpoint set_part (v : rmms) (p : list Z) (x : rmms) : rmms :=
  match p with
  | [] => x
  | i :: p' => match child v i with
               | Some c => set_child v i (set_part c p' x)
               | None => v
               end
  end.

Definition rcache : Type := list (nat * string * rmms).

Fixpoint find_var (c : rcache) (d : nat) (n : string) : option rmms :=
  match c with
  | [] => None
  | (d', n', v) :: c' => if decide (d' = d ∧ n' = n) then Some v else find_var c' d n
  end.

Fixpoint set_var (c : rcache) (d : nat) (n : string) (x : rmms) : rcache :=
  match c with
  | [] => []
  | (d', n', v) :: c' => if decide (d' = d ∧ n' = n) then (d', n', x) :: c'
                         else (d', n', v) :: set_var c' d n x
  end.

Definition rpart (c : rcache) (r : rref) : option rmms :=
  let '(d, n, p) := r in v ← find_var c d n; part v p.

(** The component ["name$i"] is the element with index [i]. *)
Definition rget_value (c : rcache) (d : nat) (item : string) : option rref :=
  let r := match strchr "$" item with
           | Some (b, comp) => (d, b, [strtol 10 comp])
           | None => (d, item, [])
           end in
  match rpart c r with Some _ => Some r | None => None end.

Definition relement (c : rcache) (r : rref) (i : Z) : option rref :=
  let '(d, n, p) := r in
  match rpart c (d, n, p ++ [i]) with Some _ => Some (d, n, p ++ [i]) | None => None end.

Definition rupdate (c : rcache) (r : rref) (x : rmms) : bool * rcache :=
  match rpart c r with
  | Some v =>
      if decide (vtype v = vtype x) then
        let '(d, n, p) := r in
        match find_var c d n with
        | Some w => (true, set_var c d n (set_part w p x))
        | None => (false, c)
        end
      else (false, c)
  | None => (false, c)
  end.

#[export] Instance ref_cache : ServerCache := {|
  cache := rcache;
  value_ref := rref;
  cache_empty := [];
  MmsServer_insertIntoCache c d n v := c ++ [(d, n, v)];
  MmsServer_getValueFromCache := rget_value;
  cached_element := relement;
  cached_value c r := default (VBool false) (rpart c r);
  MmsValue_update := rupdate;
  MmsValue_clone v := v
|}.

Lemma part_set v p x : is_Some (part v p) → part (set_part v p x) p = Some x.
Proof.
  revert v. induction p as [|i p IH]; intros v; simpl; [done|].
  destruct (child v i) as [c|] eqn:E; simpl; [|by intros [? ?]]. intros Hc.
  destruct v; try done; simpl; rewrite Z.eqb_refl; simpl; by apply IH.
Qed.

Lemma find_set_var c d n x d' n' :
  find_var (set_var c d n x) d' n'
  = if decide (d = d' ∧ n = n') then (λ _, x) <$> find_var c d n else find_var c d' n'.
Proof.
  induction c as [|[[d1 n1] v1] c IH]; simpl; [by case_decide|].
  destruct (decide (d1 = d ∧ n1 = n)) as [[-> ->]|Hne]; simpl.
  - by case_decide.
  - rewrite IH. destruct (decide (d1 = d' ∧ n1 = n')) as [[-> ->]|]; [|done].
    destruct (decide (d = d' ∧ n = n')) as [[-> ->]|]; [by destruct Hne|done].
Qed.

Lemma find_var_app c d n v d' n' :
  find_var c d n = None →
  find_var (c ++ [(d, n, v)]) d' n'
  = if decide (d = d' ∧ n = n') then Some v else find_var c d' n'.
Proof.
  intros Hn. induction c as [|[[d1 n1] v1] c IH]; simpl in *; [done|].
  destruct (decide (d1 = d ∧ n1 = n)); [done|]. rewrite IH by done.
  destruct (decide (d1 = d' ∧ n1 = n')) as [[-> ->]|]; [|done].
  destruct (decide (d = d' ∧ n = n')) as [[-> ->]|]; naive_solver.
Qed.

Lemma rget_plain c d n :
  lacks "$" n = true → rget_value c d n = (λ _, (d, n, [])) <$> find_var c d n.
Proof.
  unfold lacks, rget_value. destruct (strchr "$" n); [done|]. simpl. by destruct (find_var c d n).
Qed.

Lemma cached_plain c d n :
  lacks "$" n = true → cached c d n = find_var c d n.
Proof.
  intros Hn. unfold cached. cbn [MmsServer_getValueFromCache ref_cache]. rewrite rget_plain by done.
  destruct (find_var c d n) eqn:E; simpl; [|done]. by rewrite E.
Qed.

Lemma strchr_before_lacks c s a b : strchr c s = Some (a, b) → lacks c a = true.
Proof.
  revert a b. induction s as [|d s IH]; simpl; intros a b; [done|].
  destruct (Ascii.eqb d c) eqn:E; [by intros [= <- <-]|].
  destruct (strchr c s) as [[a' b']|] eqn:Es; [|done]. intros [= <- <-].
  specialize (IH _ _ eq_refl). unfold lacks in *. simpl. rewrite E.
  by destruct (strchr c a') as [[? ?]|].
Qed.

#[export] Instance ref_cache_laws : ServerCacheLaws.
Proof.
  split; try done.
  - intros d n. unfold cached. simpl. unfold rget_value. by destruct (strchr "$" n) as [[? ?]|].
  - intros c d n v d' n' Hn Hd Hd'. rewrite cached_plain in Hn |- * by done.
    simpl. rewrite find_var_app by done. by rewrite cached_plain.
  - intros c r v d n Hn. simpl. rewrite !rget_plain by done. unfold rupdate.
    destruct (rpart c r); [|done]. case_decide; [|done]. destruct r as [[d1 n1] p].
    destruct (find_var c d1 n1) eqn:E; [|done]. simpl. rewrite find_set_var.
    destruct (decide (d1 = d ∧ n1 = n)) as [[-> ->]|]; [|done]. by rewrite E.
  - intros c r v c'. simpl. unfold rupdate. destruct (rpart c r) as [w|] eqn:E; [|done].
    case_decide; [|done]. destruct r as [[d n] p]. simpl in E.
    destruct (find_var c d n) as [u|] eqn:Eu; [|done]. simpl in E. intros [= <-]. simpl.
    rewrite find_set_var, Eu. rewrite decide_True by done. simpl.
    by rewrite part_set.
  - intros c d item r r' v d' n' Hr Hr' Hne Hn.
    assert (∃ p, r' = (d, item_variable item, p)) as [p ->].
    { assert (∃ p, r = (d, item_variable item, p)) as [p ->].
      { cbn [MmsServer_getValueFromCache ref_cache] in Hr. unfold rget_value, item_variable in *.
        destruct (strchr "$" item) as [[b comp]|]; destruct (rpart c _); try done;
          injection Hr as <-; by eexists. }
      destruct Hr' as [-> |[i Hi]]; [by eexists|]. cbn [cached_element ref_cache] in Hi. unfold relement in Hi.
      match type of Hi with match ?x with _ => _ end = _ => destruct x end; [|done].
      injection Hi as <-. by eexists. }
    rewrite !cached_plain by done. cbn [MmsValue_update ref_cache]. unfold rupdate.
    match goal with |- context [rpart c ?r] => destruct (rpart c r) end; [|done].
    case_decide; [|done].
    destruct (find_var c d (item_variable item)); [|done]. simpl.
    rewrite find_set_var. case_decide as Hd; [|done]. destruct Hne. by destruct Hd as [-> <-].
Qed.

(** ** The file system *)

Lemma split_slash_nonempty s : split_slash s ≠ [].
Proof. destruct s as [|c s]; simpl; [done|]. destruct (Ascii.eqb c "/"); [done|]. by destruct (split_slash s). Qed.

Lemma split_slash_app a b : split_slash (a +:+ String "/" b) = split_slash a ++ split_slash b.
Proof.
  induction a as [|c a IH]; [done|]. rewrite string_app_cons. simpl.
  destruct (Ascii.eqb c "/"); rewrite IH; [done|].
  pose proof (split_slash_nonempty a). by destruct (split_slash a).
Qed.

Lemma components_app a b : components (a +:+ String "/" b) = components a ++ components b.
Proof. unfold components. by rewrite split_slash_app, list.filter_app. Qed.

(** A path without [".."]. *)
Definition forward (p : string) : Prop := ".."%string ∉ components p.

Lemma follow_forward cs l : ".."%string ∉ cs → fold_left follow cs l = l ++ cs.
Proof.
  revert l. induction cs as [|c cs IH]; intros l Hc; [by rewrite app_nil_r|].
  apply not_elem_of_cons in Hc as [Hc Hcs]. cbn [fold_left]. rewrite IH by done. unfold follow.
  rewrite decide_False by congruence. by rewrite <- app_assoc.
Qed.

Lemma place_forward c p : c = "/"%char → forward (String c p) → place_of (String c p) = Some (components (String c p)).
Proof. intros -> Hf. cbn [place_of]. by rewrite follow_forward. Qed.

(** The names a directory can have. *)
Definition name_ok (c : string) : bool :=
  negb (String.eqb c "") && negb (String.eqb c ".") && negb (String.eqb c "..") && lacks "/" c.

Lemma lacks_cons c d s : lacks c (String d s) = negb (Ascii.eqb d c) && lacks c s.
Proof. unfold lacks. simpl. destruct (Ascii.eqb d c); [done|]. by destruct (strchr c s) as [[]|]. Qed.

Lemma split_slash_lacks s : Forall (λ c, lacks "/" c = true) (split_slash s).
Proof.
  induction s as [|c s IH]; [by repeat constructor|]. simpl.
  destruct (Ascii.eqb c "/") eqn:Hc; [by constructor|].
  destruct IH as [|x l Hx Hl]; [constructor; [by rewrite lacks_cons, Hc|constructor]|].
  constructor; [by rewrite lacks_cons, Hc|done].
Qed.

Lemma place_names p l : place_of p = Some l → Forall (λ c, name_ok c = true) l.
Proof.
  assert (∀ cs l, Forall (λ c, lacks "/" c = true ∧ c ≠ ""%string ∧ c ≠ "."%string) cs →
    Forall (λ c, name_ok c = true) l → Forall (λ c, name_ok c = true) (fold_left follow cs l)) as Hgen.
  { induction cs as [|c cs IH]; intros l0 Hcs Hl; [done|].
    apply list.Forall_cons in Hcs as [(Hc & He & Hd) Hcs]. cbn [fold_left]. apply IH; [done|]. unfold follow.
    case_decide as Hdd.
    - destruct l0 as [|x l0] using rev_ind; [done|]. rewrite removelast_last. by apply Forall_app in Hl as [].
    - apply Forall_app. split; [done|]. constructor; [|constructor]. unfold name_ok. rewrite Hc.
      by apply String.eqb_neq in He as ->, Hd as ->, Hdd as ->. }
  destruct p as [|a p]; [done|]. intros Hp.
  assert (fold_left follow (components (String a p)) [] = l) as <- by (by destruct a as [[] [] [] [] [] [] [] []]; simplify_eq/=).
  apply Hgen; [|constructor]. unfold components. apply list.Forall_forall. intros c Hc.
  apply list_elem_of_filter in Hc as [[He Hd] Hc]. split; [|done].
  pose proof (split_slash_lacks (String a p)) as Hl. rewrite list.Forall_forall in Hl. by apply Hl.
Qed.

(** The path of a place. *)
Definition path_of (l : place) : string := "/" +:+ String.concat "/" l.

Lemma split_slash_name c : lacks "/" c = true → split_slash c = [c].
Proof.
  induction c as [|x c IH]; [done|]. rewrite lacks_cons. intros [Hx%negb_true_iff Hc]%andb_true_iff.
  simpl. by rewrite Hx, IH.
Qed.

Lemma path_of_components l : Forall (λ c, name_ok c = true) l → components (path_of l) = l.
Proof.
  intros Hl. unfold path_of. change ("/" +:+ String.concat "/" l) with ("" +:+ String "/" (String.concat "/" l)).
  rewrite components_app. change (components "") with (@nil string). rewrite app_nil_l.
  induction Hl as [|c l Hc Hl IH]; [done|]. unfold name_ok in Hc. bool_hyps.
  assert (components c = [c]) as Hone.
  { unfold components. by rewrite split_slash_name, list.filter_cons_True by done. }
  destruct l as [|d l]; [done|]. change (String.concat "/" (c :: d :: l)) with (c +:+ String "/" (String.concat "/" (d :: l))).
  by rewrite components_app, IH, Hone.
Qed.

Lemma path_of_place l : Forall (λ c, name_ok c = true) l → place_of (path_of l) = Some l.
Proof.
  intros Hl. pose proof (path_of_components l Hl) as Hc. unfold path_of in *.
  change ("/" +:+ String.concat "/" l) with (String "/" (String.concat "/" l)) in *.
  rewrite place_forward; [by rewrite Hc|done|]. unfold forward. rewrite Hc.
  intros Hin. rewrite list.Forall_forall in Hl. by specialize (Hl _ Hin).
Qed.

(** Directories and files by their places; the root is there. *)
Record rfs := mk_rfs {
  directories : list place;
  contents : list (place * list Z);
  times : list (string * Z)
}.

Definition names_ok (l : place) : bool := forallb name_ok l.

Definition entries_of (f : rfs) : list place :=
  [] :: filter (λ l, names_ok l = true) (directories f ++ (fst <$> contents f)).

(** An entry is there when it is listed or lies on the way to one that is. *)
Definition is_place (f : rfs) (l : place) : bool := bool_decide (Exists (λ e, l `prefix_of` e) (entries_of f)).

Fixpoint rcontent (l : list (place * list Z)) (p : place) : option (list Z) :=
  match l with
  | [] => None
  | (q, x) :: l' => if decide (q = p) then Some x else rcontent l' p
  end.

(** There is a directory for a new entry. *)
Definition has_place (f : rfs) (l : place) : bool := bool_decide (l ≠ []) && is_place f (removelast l).

Definition ENOENT : Z := 2.

#[export] Instance ref_fs : FileSystem := {|
  fs := rfs;
  mkdir f d :=
    match place_of d with
    | Some l =>
        if is_place f l then (EEXIST, f)
        else if has_place f l then (0, mk_rfs (directories f ++ [l]) (contents f) (times f))
        else (ENOENT, f)
    | None => (ENOENT, f)
    end;
  fopen_wb f p :=
    match place_of p with
    | Some l => if has_place f l then Some (mk_rfs (directories f) ((l, []) :: contents f) (times f)) else None
    | None => None
    end;
  fwrite f p d :=
    (Z.of_nat (length d),
     match place_of p with
     | Some l => if is_place f l then mk_rfs (directories f) ((l, d) :: contents f) (times f) else f
     | None => f
     end);
  utimes f p t := mk_rfs (directories f) (contents f) ((p, t) :: times f)
|}.

Lemma is_place_spec f l : is_place f l = true ↔ ∃ e, e ∈ entries_of f ∧ l `prefix_of` e.
Proof. unfold is_place. rewrite bool_decide_eq_true, list.Exists_exists. naive_solver. Qed.

Lemma rcontent_absent f l : names_ok l = true → is_place f l = false → rcontent (contents f) l = None.
Proof.
  intros Hl Hp. destruct (rcontent (contents f) l) as [x|] eqn:E; [|done]. exfalso.
  apply not_true_iff_false in Hp. apply Hp, is_place_spec. exists l. split; [|done].
  right. apply list_elem_of_filter. split; [done|]. apply elem_of_app. right.
  revert E. induction (contents f) as [|[q y] c IH]; [done|]. simpl. case_decide as Hq.
  - intros _. subst. left.
  - intros E. right. by apply IH.
Qed.

Lemma names_ok_spec l : names_ok l = true ↔ Forall (λ c, name_ok c = true) l.
Proof. unfold names_ok. rewrite forallb_forall, list.Forall_forall. by setoid_rewrite list_elem_of_In. Qed.

#[export] Instance ref_fs_laws : FileSystemLaws.
Proof.
  refine {| content f l := if names_ok l then rcontent (contents f) l else None |}; try done.
  - intros f d q. cbn [mkdir ref_fs]. destruct (place_of d) as [l|]; [|done].
    destruct (is_place f l); [done|]. by destruct (has_place f l).
  - intros f p l f' Hp. cbn [fopen_wb ref_fs]. rewrite Hp. destruct (has_place f l); [|done]. intros [= <-].
    apply place_names, names_ok_spec in Hp. rewrite Hp. cbn [contents rcontent]. rewrite decide_True by done.
    split; [done|]. intros q Hq. by rewrite decide_False.
  - intros f p l d n f' Hp Hc [= <- <-]. rewrite Hp. pose proof Hp as Hn. apply place_names, names_ok_spec in Hn.
    rewrite Hn in Hc |- *. destruct (is_place f l) eqn:E.
    + cbn [contents rcontent]. rewrite decide_True by done. split; [done|]. intros q Hq. by rewrite decide_False.
    + by rewrite rcontent_absent in Hc.
Defined.
