(* ===== verification/MmsServerSpec.v ===== *)
(** * Theorems about mms_server.c

    The access control of the write handler over any sequence of requests, the
    index-range writes that pass it by, what
    an accepted write stores and reports, the journal queries, the file store
    and the state the program starts to serve with. *)

From Stdlib Require Import ZArith Lia String Ascii SpecFloat.
From stdpp Require Import base tactics list strings numbers option.
From S2P Require Import Prelude CText Json RefJson JsonLines Mms RefMms Fixture MmsServer.
From S2P Require Import RefMmsServer.

Local Open Scope Z_scope.
Local Open Scope c_scope.

(** ** References to variables *)

Lemma strchr_app c d i :
  lacks c d = true → strchr c (d +:+ String c i) = Some (d, i).
Proof.
  unfold lacks. induction d as [|x d IH].
  - intros _. rewrite string_app_nil_l. simpl. by rewrite Ascii.eqb_refl.
  - rewrite string_app_cons. simpl. destruct (Ascii.eqb x c); [done|].
    destruct (strchr c d) as [[? ?]|]; [done|]. intros _. by rewrite IH.
Qed.

Lemma strchr_split c s a b : strchr c s = Some (a, b) → s = a +:+ String c b.
Proof.
  revert a b. induction s as [|x s IH]; simpl; intros a b; [done|].
  destruct (Ascii.eqb x c) eqn:E.
  - intros [= <- <-]. apply Ascii.eqb_eq in E as ->. by rewrite string_app_nil_l.
  - destruct (strchr c s) as [[a' b']|]; [|done]. intros [= <- <-].
    rewrite string_app_cons. f_equal. by apply IH.
Qed.

Theorem report_reference ref dom item :
  split_ref ref 65 65 = Some (dom, item)
  ↔ ref = dom +:+ "/" +:+ item ∧ lacks "/" dom = true ∧ slen dom <= 64 ∧ slen item <= 64.
Proof.
  unfold split_ref. split.
  - destruct (strchr "/" ref) as [[a b]|] eqn:E; [|done].
    destruct (65 <=? slen a) eqn:Ea, (65 <=? slen b) eqn:Eb; simpl; try done.
    intros [= <- <-]. bool_hyps. split_and!; try lia.
    + by apply strchr_split.
    + by eapply strchr_before_lacks.
  - intros (-> & Hd & ? & ?). rewrite string_app_cons, string_app_nil_l, strchr_app by done.
    destruct (Z.leb_spec 65 (slen dom)), (Z.leb_spec 65 (slen item)); try lia. done.
Qed.

(** ** The write handler *)

(** The name part of an item name that is not cut short. *)
Lemma substring_all n s : (String.length s <= n)%nat → String.substring 0 n s = s.
Proof. revert n. induction s as [|c s IH]; intros [|n]; simpl; intros; try lia; try done. by rewrite IH by lia. Qed.

Lemma strchr_substring n c s :
  (∃ a b, strchr c (String.substring 0 n s) = Some (a, b)
          ∧ ∃ b', strchr c s = Some (a, b'))
  ∨ (strchr c (String.substring 0 n s) = None
     ∧ ((String.length s <= n)%nat ∧ strchr c s = None ∨ String.length (String.substring 0 n s) = n)).
Proof.
  revert n. induction s as [|x s IH]; intros [|n]; simpl.
  - right. split; [done|]. by left.
  - right. split; [done|]. left. split; [lia|done].
  - right. split; [done|]. by right.
  - destruct (Ascii.eqb x c).
    + left. eexists _, _. split; [done|]. by eexists.
    + destruct (IH n) as [(a & b & -> & b' & ->)|(-> & Hr)].
      * left. eexists _, _. split; [done|]. by eexists.
      * right. split; [done|]. destruct Hr as [[? ->]|Hr]; [left; split; [lia|done]|right; lia].
Qed.

(** A name of fewer than 129 characters is the variable the item addresses. *)
Lemma base_name_short item n :
  base_name item = n → slen n < 129 → item_variable item = n.
Proof.
  unfold base_name, snprintf_s, item_variable. change (130 - 1)%nat with 129%nat.
  destruct (strchr_substring 129 "$" item) as [(a & b & -> & b' & ->)|(-> & [[Hl ->]|Hl])].
  - done.
  - rewrite substring_all by lia. done.
  - intros <-. unfold slen. lia.
Qed.

Section writes.
Context `{MmsApi} `{!ServerCache}.

(** The first entry of the table for a variable. *)
Definition entry_of (l : list WriteEntry) (dom name : string) : option WriteEntry :=
  List.find (λ e, String.eqb (we_domain e) dom && String.eqb (we_var e) name) l.

(** The handler looks the entry up and acts on it. *)
Lemma write_loop_entry g d dn base var_id idx v conn l :
  write_loop g d dn base var_id idx v conn l
  = match entry_of l dn base with
    | None => (DATA_ACCESS_ERROR_OBJECT_UNDEFINED, g)
    | Some e => write_loop g d dn base var_id idx v conn [e]
    end.
Proof.
  induction l as [|e l IH]; [done|]. cbn [write_loop entry_of List.find].
  destruct (String.eqb (we_domain e) dn) eqn:E1, (String.eqb (we_var e) base) eqn:E2;
    cbn [negb orb andb]; try apply IH.
  by rewrite E1, E2.
Qed.

Lemma entry_of_some l dn n e :
  entry_of l dn n = Some e → e ∈ l ∧ we_domain e = dn ∧ we_var e = n.
Proof.
  intros He. apply List.find_some in He as [Hin He]. bool_hyps. by apply list_elem_of_In in Hin.
Qed.

Lemma send_reports_same conn g :
  g_entries (send_reports conn g) = g_entries g ∧ g_device (send_reports conn g) = g_device g
  ∧ g_reports (send_reports conn g) = g_reports g ∧ g_cache (send_reports conn g) = g_cache g.
Proof.
  unfold send_reports. generalize (g_reports g) at 1 2 3 5. intros l. revert g.
  induction l as [|rd l IH]; intros g; simpl; [done|].
  destruct (IH (send_report conn g rd)) as (-> & -> & -> & ->). unfold send_report.
  by destruct (vmd_list rd).
Qed.

(** What a write did: nothing, or an update of a part of the addressed
    variable, whose entry is writable; reports go out only after a success on
    the trigger. *)
Inductive write_effect (g : server) (d : nat) (item : string) (idx : Z) (v : MmsValue) (conn : Z)
  : MmsDataAccessError → server → Prop :=
| effect_none err :
    err ≠ DATA_ACCESS_ERROR_SUCCESS → err ≠ DATA_ACCESS_ERROR_TYPE_INCONSISTENT →
    write_effect g d item idx v conn err g
| effect_rejected e r r' c :
    entry_of (g_entries g) (domain_name_of g d) (base_name item) = Some e → we_writable e = true →
    MmsServer_getValueFromCache (g_cache g) d item = Some r →
    (if 0 <=? idx then cached_element (g_cache g) r idx else Some r) = Some r' →
    MmsValue_update (g_cache g) r' v = (false, c) →
    write_effect g d item idx v conn DATA_ACCESS_ERROR_TYPE_INCONSISTENT (set_cache g c)
| effect_stored e r r' c :
    entry_of (g_entries g) (domain_name_of g d) (base_name item) = Some e → we_writable e = true →
    MmsServer_getValueFromCache (g_cache g) d item = Some r →
    (if 0 <=? idx then cached_element (g_cache g) r idx else Some r) = Some r' →
    MmsValue_update (g_cache g) r' v = (true, c) →
    write_effect g d item idx v conn DATA_ACCESS_ERROR_SUCCESS
      (if String.eqb (base_name item) REPORT_TRIGGER then send_reports conn (set_cache g c)
       else set_cache g c).

Lemma write_handler_effect g d item idx v conn :
  write_effect g d item idx v conn
    (write_handler g d item idx v conn).1 (write_handler g d item idx v conn).2.
Proof.
  unfold write_handler. rewrite write_loop_entry.
  destruct (entry_of _ _ _) as [e|] eqn:He; [|by apply effect_none].
  pose proof (entry_of_some _ _ _ _ He) as (_ & Hd & Hn). cbn [write_loop].
  rewrite Hd, Hn, !String.eqb_refl. simpl orb. cbv iota.
  destruct (we_writable e) eqn:Hw; simpl; [|by apply effect_none].
  destruct (MmsServer_getValueFromCache _ _ _) as [r|] eqn:Hr; [|by apply effect_none].
  destruct (if 0 <=? idx then _ else _) as [r'|] eqn:Hr'; [|by apply effect_none].
  destruct (MmsValue_update _ _ _) as [[] c] eqn:Hu; simpl.
  - by eapply effect_stored.
  - by eapply effect_rejected.
Qed.

(** The tables do not change. *)
Lemma serve_write_same g w :
  g_entries (serve_write g w) = g_entries g ∧ g_device (serve_write g w) = g_device g
  ∧ g_reports (serve_write g w) = g_reports g.
Proof.
  unfold serve_write. destruct (write_handler_effect g (w_domain w) (w_var_id w) (w_array_idx w)
    (w_value w) (w_conn w)); [done|done|].
  destruct (String.eqb _ _); [|done].
  by destruct (send_reports_same (w_conn w) (set_cache g c)) as (-> & -> & -> & _).
Qed.

(** A write that is not carried out sends no report and leaves the server
    as it was, except that an update the library rejects for its type is
    confined to the addressed value. *)
Theorem write_refused g d item idx v conn err g' :
  write_handler g d item idx v conn = (err, g') → err ≠ DATA_ACCESS_ERROR_SUCCESS →
  g_sent g' = g_sent g
  ∧ (err ≠ DATA_ACCESS_ERROR_TYPE_INCONSISTENT → g' = g)
  ∧ (err = DATA_ACCESS_ERROR_TYPE_INCONSISTENT →
     ∃ r r', MmsServer_getValueFromCache (g_cache g) d item = Some r
       ∧ (if 0 <=? idx then cached_element (g_cache g) r idx else Some r) = Some r'
       ∧ g' = set_cache g (MmsValue_update (g_cache g) r' v).2).
Proof.
  intros Hw He. pose proof (write_handler_effect g d item idx v conn) as Heff.
  rewrite Hw in Heff. simpl in Heff.
  inversion Heff as [err' ? ?|e r r' c ? ? ? ? Hu|]; subst; try done.
  split_and!; try done. intros _. exists r, r'. split_and!; [done..|]. by rewrite Hu.
Qed.
End writes.

Section protected.
Context `{ServerCacheLaws}.

(** No entry of the table lets the variable be written. *)
Definition protected (g : server) (d : nat) (n : string) : Prop :=
  Forall (λ e, we_domain e = domain_name_of g d → we_var e = n → we_writable e = false)
    (g_entries g).

(** Names short enough for the buffer of the handler. *)
Definition names_fit (g : server) : Prop := Forall (λ e, slen (we_var e) < 129) (g_entries g).

Lemma update_frame_var g d item idx v conn d' n :
  names_fit g → protected g d' n → lacks "$" n = true →
  cached (g_cache (write_handler g d item idx v conn).2) d' n = cached (g_cache g) d' n.
Proof.
  intros Hfit Hp Hn.
  assert (∀ e r r', entry_of (g_entries g) (domain_name_of g d) (base_name item) = Some e →
    we_writable e = true → MmsServer_getValueFromCache (g_cache g) d item = Some r →
    (if 0 <=? idx then cached_element (g_cache g) r idx else Some r) = Some r' →
    cached (MmsValue_update (g_cache g) r' v).2 d' n = cached (g_cache g) d' n) as Hframe.
  { intros e r r' He Hw Hr Hr'. apply entry_of_some in He as (Hin & Hd & Hv).
    unfold names_fit, protected in Hfit, Hp. rewrite Forall_forall in Hfit. rewrite Forall_forall in Hp.
    apply list_elem_of_In in Hin. specialize (Hfit e Hin). specialize (Hp e Hin).
    apply update_frame with (item := item) (r := r) (d := d); [done| |..|done].
    - destruct (0 <=? idx); [right; by eexists|left; by injection Hr'].
    - intros [= -> Hi]. rewrite (base_name_short item (we_var e)) in Hi by done.
      rewrite Hp in Hw by done. done. }
  destruct (write_handler_effect g d item idx v conn)
    as [|e r r' c He Hw Hr Hr' Hu|e r r' c He Hw Hr Hr' Hu]; [done|..].
  - simpl. rewrite <- (Hframe e r r') by done. by rewrite Hu.
  - assert (∀ b : bool, g_cache (if b then send_reports conn (set_cache g c) else set_cache g c) = c)
      as ->.
    { intros []; [|done]. by destruct (send_reports_same conn (set_cache g c)) as (_ & _ & _ & ->). }
    rewrite <- (Hframe e r r') by done. by rewrite Hu.
Qed.
End protected.

Section sequences.
Context `{ServerCacheLaws}.

(** A write with an index range changes the variable it addresses and no
    other. *)
Definition range_confined (r : request) : Prop :=
  match r with
  | HandledWrite _ => True
  | RangeWrite d item change =>
      ∀ c d' n, (d', n) ≠ (d, item_variable item) → lacks "$" n = true → cached (change c) d' n = cached c d' n
  end.

(** The variable is addressed by no write with an index range. *)
Definition no_range_write (d : nat) (n : string) (r : request) : Prop :=
  match r with
  | HandledWrite _ => True
  | RangeWrite d' item _ => (d', item_variable item) ≠ (d, n)
  end.

Lemma serve_request_same g r :
  g_entries (serve_request g r) = g_entries g ∧ g_device (serve_request g r) = g_device g
  ∧ g_reports (serve_request g r) = g_reports g.
Proof. destruct r; [apply serve_write_same|done]. Qed.

(** Whatever is written, in whatever order, by whatever connection, a
    variable that the table does not let anyone write keeps its value, unless a
    write with an index range addresses it. *)
Lemma requests_protected l g d n :
  names_fit g → protected g d n → lacks "$" n = true →
  Forall range_confined l → Forall (no_range_write d n) l →
  cached (g_cache (serve_requests g l)) d n = cached (g_cache g) d n.
Proof.
  intros Hfit Hp Hn Hc Ho. revert g Hfit Hp Hc Ho.
  induction l as [|r l IH]; intros g Hfit Hp Hc Ho; simpl; [done|].
  apply list.Forall_cons in Hc as [Hr Hc]. apply list.Forall_cons in Ho as [Hor Ho].
  destruct (serve_request_same g r) as (He & Hd & _).
  change (fold_left serve_request l (serve_request g r)) with (serve_requests (serve_request g r) l).
  rewrite IH; [|unfold names_fit in *; by rewrite He| |done|done].
  - destruct r as [w|d' item change]; [by apply update_frame_var|]. simpl in *. apply Hr; [congruence|done].
  - unfold protected, domain_name_of in *. by rewrite He, Hd.
Qed.

(** ** Information reports *)

(** The reports a write of the trigger sends: one for every report of the
    fixture with a list name, with the cached values of its variables. *)
Definition reports_of (conn : Z) (g : server) : list report :=
  omap (λ rd, (λ n, mk_sent conn n (omap (report_value g) (variables rd))) <$> vmd_list rd)
    (g_reports g).

Lemma report_list_values_omap g refs vs :
  report_list_values g refs vs = vs ++ omap (report_value g) refs.
Proof.
  revert vs. induction refs as [|r refs IH]; intros vs; csimpl; [by rewrite app_nil_r|].
  rewrite IH. destruct (report_value g r); [by rewrite <- app_assoc|done].
Qed.

Lemma report_value_ext g g' ref :
  g_device g = g_device g' → g_cache g = g_cache g' → report_value g ref = report_value g' ref.
Proof. intros Hd Hc. unfold report_value, find_domain. by rewrite Hd, Hc. Qed.

Lemma send_reports_sent conn g : g_sent (send_reports conn g) = g_sent g ++ reports_of conn g.
Proof.
  unfold send_reports, reports_of. generalize (g_reports g). intros l.
  revert g. induction l as [|rd l IH]; intros g; csimpl; [by rewrite app_nil_r|].
  rewrite IH. unfold send_report. destruct (vmd_list rd) as [n|]; simpl; [|done].
  rewrite <- app_assoc. f_equal. simpl. f_equal. f_equal.
  by rewrite report_list_values_omap.
Qed.

(** C19: A write that the library hands to the write handler of the MMS server
    (every one but an index-range write) and that the handler accepts is to a
    variable whose entry is writable, the addressed value becomes the value
    written, and the trigger variable, only it, sends the information reports of
    the fixture with the values after the write. *)
Theorem write_stored g d item idx v conn g' :
  write_handler g d item idx v conn = (DATA_ACCESS_ERROR_SUCCESS, g') →
  (∃ e r r', entry_of (g_entries g) (domain_name_of g d) (base_name item) = Some e
     ∧ we_writable e = true
     ∧ MmsServer_getValueFromCache (g_cache g) d item = Some r
     ∧ (if 0 <=? idx then cached_element (g_cache g) r idx else Some r) = Some r'
     ∧ cached_value (g_cache g') r' = v)
  ∧ g_sent g' = g_sent g ++ (if String.eqb (base_name item) REPORT_TRIGGER
                             then reports_of conn g' else []).
Proof.
  intros Hw. pose proof (write_handler_effect g d item idx v conn) as Heff.
  rewrite Hw in Heff. simpl in Heff.
  inversion Heff as [err' ? ?|e r r' c ? ? ? ? Hu|e r r' c He Hwr Hr Hr' Hu]; subst; try done.
  destruct (send_reports_same conn (set_cache g c)) as (Hse & Hsd & Hsr & Hsc).
  split.
  - exists e, r, r'. split_and!; try done.
    assert (g_cache (if String.eqb (base_name item) REPORT_TRIGGER
      then send_reports conn (set_cache g c) else set_cache g c) = c) as ->
      by (by destruct (String.eqb _ _)).
    by eapply update_stores.
  - destruct (String.eqb (base_name item) REPORT_TRIGGER); [|by rewrite app_nil_r].
    rewrite send_reports_sent. f_equal. unfold reports_of. rewrite Hsr.
    apply list_omap_ext. apply Forall2_same_length_lookup_2; [done|].
    intros i x y Hx Hy. simplify_eq. destruct (vmd_list x); simpl; [|done]. do 2 f_equal.
    apply list_omap_ext, Forall2_same_length_lookup_2; [done|].
    intros k a b Ha Hb. simplify_eq. by apply report_value_ext.
Qed.

(** ** The start of the program *)

Definition var_entry (dom : string) (vd : VarDef) : WriteEntry :=
  mk_write_entry dom (var_name vd) (writable vd).

Lemma register_vars_entries di dom l c es :
  (register_vars di dom l (c, es)).2 = es ++ (var_entry dom <$> l).
Proof.
  revert c es. induction l as [|vd l IH]; intros c es; simpl; [by rewrite app_nil_r|].
  by rewrite IH, <- app_assoc.
Qed.

Lemma register_domains_entries di l s :
  (register_domains di l s).2
  = s.2 ++ (l ≫= λ dd, var_entry (domain_name dd) <$> vars dd).
Proof.
  revert di s. induction l as [|dd l IH]; intros di [c es]; csimpl; [by rewrite app_nil_r|].
  by rewrite IH, register_vars_entries, <- app_assoc.
Qed.

Definition plain_vars (l : list VarDef) : Prop :=
  NoDup (var_name <$> l) ∧ Forall (λ v, lacks "$" (var_name v) = true) l.

Lemma register_vars_cache di dom l c es d n :
  plain_vars l → (∀ m, m ∈ var_name <$> l → cached c di m = None) → lacks "$" n = true →
  cached (register_vars di dom l (c, es)).1 d n
  = if decide (d = di) then
      match List.find (λ v, String.eqb (var_name v) n) l with
      | Some v => Some (var_value v)
      | None => cached c d n
      end
    else cached c d n.
Proof.
  revert c es. induction l as [|vd l IH]; intros c es [Hnd Hf] Hc Hn; csimpl.
  { by case_decide. }
  simpl in Hnd. rewrite list.NoDup_cons in Hnd. destruct Hnd as [Hni Hnd].
  inversion Hf as [|? ? Hvd Hl]; subst. rewrite clone_eq, IH; [|by split|..|done].
  - rewrite cached_insert by (done || apply Hc; left).
    case_decide as Hd; [subst d|].
    + destruct (String.eqb_spec (var_name vd) n) as [Hname|Hname].
      * rewrite (decide_True _ _ (conj eq_refl Hname)).
        destruct (List.find _ l) as [v|] eqn:E; [|done]. apply List.find_some in E as [Hin E].
        bool_hyps. destruct Hni. rewrite list_elem_of_fmap. exists v. split; [congruence|].
        by apply list_elem_of_In.
      * destruct (List.find _ l); [done|]. rewrite decide_False; [done|]. by intros [_ ?].
    + rewrite decide_False; [done|]. intros [? _]. congruence.
  - intros m Hm. rewrite cached_insert; [|apply Hc; left|done|].
    + rewrite decide_False; [apply Hc; by right|]. intros [_ Heq]. by rewrite <- Heq in Hm.
    + apply list_elem_of_fmap in Hm as (v & -> & Hv). rewrite Forall_forall in Hl.
      by apply Hl, list_elem_of_In.
Qed.

Lemma register_domains_cache di l c es d n :
  Forall (λ dd, plain_vars (vars dd)) l →
  (∀ i m, (di <= i)%nat → lacks "$" m = true → cached c i m = None) → lacks "$" n = true →
  cached (register_domains di l (c, es)).1 d n
  = if decide (di <= d)%nat then
      dd ← l !! (d - di)%nat; v ← List.find (λ v, String.eqb (var_name v) n) (vars dd);
      Some (var_value v)
    else cached c d n.
Proof.
  revert di c es. induction l as [|dd l IH]; intros di c es Hf Hc Hn; simpl.
  { case_decide; [|done]. by apply Hc. }
  inversion Hf as [|? ? Hdd Hl]; subst.
  destruct (register_vars di (domain_name dd) (vars dd) (c, es)) as [c1 es1] eqn:E.
  assert (∀ d' m, lacks "$" m = true → cached c1 d' m = if decide (d' = di) then
      match List.find (λ v, String.eqb (var_name v) m) (vars dd) with
      | Some v => Some (var_value v) | None => cached c d' m end
    else cached c d' m) as Hc1.
  { intros d' m Hm. change c1 with (c1, es1).1. rewrite <- E.
    apply register_vars_cache; [done| |done]. intros k Hk. apply Hc; [lia|].
    apply list_elem_of_fmap in Hk as (v & -> & Hv). destruct Hdd as [_ Hdd].
    rewrite Forall_forall in Hdd. by apply Hdd, list_elem_of_In. }
  rewrite IH; [|done| |done].
  - destruct (decide (S di <= d)%nat), (decide (di <= d)%nat); try lia.
    + by replace (d - di)%nat with (S (d - S di)) by lia.
    + replace (d - di)%nat with 0%nat by lia. rewrite Hc1, decide_True by (done || lia). simpl.
      destruct (List.find _ (vars dd)); [done|]. apply Hc; [lia|done].
    + rewrite Hc1, decide_False by (done || lia). done.
  - intros i m Hi Hm. rewrite Hc1, decide_False by (done || lia). apply Hc; [lia|done].
Qed.
End sequences.

Section start.
Context `{ServerCacheLaws} `{!FileSystem}.

(** The fixture the arguments name. *)
Definition fixture_of (env : environment) (argv : list string) : res (option FixtureDef) :=
  load_fixture env
    (default "/fixtures/mms/interop.json"
       (fixture_path (scan_args (tail argv) (mk_server_args None None 1102)))).

Lemma start_parts env argv f run :
  start env argv f = Ret run →
  ∃ fix_, fixture_of env argv = Ret (Some fix_)
    ∧ r_server run
      = {| g_entries := (register_domains 0 (domains fix_) (cache_empty, [])).2;
           g_device := build_device fix_; g_reports := reports fix_;
           g_cache := (register_domains 0 (domains fix_) (cache_empty, [])).1; g_sent := [] |}.
Proof.
  unfold start, fixture_of.
  set (c := scan_args _ _). intros Hm. apply res_bind_ret in Hm as (fx & Hf & Hm).
  destruct fx as [fx|]; [|done]. exists fx. split; [done|].
  destruct (negb (server_created env)); [done|].
  apply res_bind_ret in Hm as ([dir f1] & _ & Hm). apply res_bind_ret in Hm as ([ok f2] & _ & Hm).
  destruct ok; [|done]. simpl negb in Hm. cbv iota in Hm.
  destruct (register_domains 0 (domains fx) (cache_empty, [])) as [c0 es0].
  destruct (negb (listening env (port c))); [done|]. by injection Hm as <-.
Qed.

(** A fixture whose names the server can tell apart: domains and the
    variables of a domain have different names, without ["$"] and short
    enough for the buffer of the write handler. *)
Definition well_named (f : FixtureDef) : Prop :=
  NoDup (domain_name <$> domains f)
  ∧ Forall (λ dd, plain_vars (vars dd)
                  ∧ Forall (λ v, slen (var_name v) < 129) (vars dd)) (domains f).

Lemma find_var_name l vd :
  plain_vars l → vd ∈ l → List.find (λ v, String.eqb (var_name v) (var_name vd)) l = Some vd.
Proof.
  intros [Hnd _]. induction l as [|v l IH]; intros Hin; [by apply elem_of_nil in Hin|].
  csimpl in *. rewrite list.NoDup_cons in Hnd. destruct Hnd as [Hv Hnd].
  destruct (String.eqb_spec (var_name v) (var_name vd)) as [Heq|Hne].
  - apply elem_of_cons in Hin as [->|Hin]; [done|]. destruct Hv. rewrite Heq.
    apply list_elem_of_fmap. by exists vd.
  - apply elem_of_cons in Hin as [->|Hin]; [done|]. by apply IH.
Qed.

(** C36: The MMS server starts with the table of variables, the device model and
    the value cache of the fixture it was given, every variable cached with its
    initial value, and no report sent. *)
Theorem server_start env argv f run fix_ :
  start env argv f = Ret run → fixture_of env argv = Ret (Some fix_) → well_named fix_ →
  g_entries (r_server run) = (domains fix_ ≫= λ dd, var_entry (domain_name dd) <$> vars dd)
  ∧ mms_domain_name <$> g_device (r_server run) = domain_name <$> domains fix_
  ∧ namedVariables <$> g_device (r_server run) = (fmap var_spec ∘ vars) <$> domains fix_
  ∧ g_sent (r_server run) = []
  ∧ ∀ i dd vd, domains fix_ !! i = Some dd → vd ∈ vars dd →
      cached (g_cache (r_server run)) i (var_name vd) = Some (var_value vd).
Proof.
  intros Hm Hf [_ Hw]. apply start_parts in Hm as (fx & Hfx & ->). rewrite Hf in Hfx.
  injection Hfx as <-. simpl. split_and!.
  - by rewrite register_domains_entries.
  - unfold build_device. rewrite <- list_fmap_compose. done.
  - unfold build_device. rewrite <- list_fmap_compose. apply list_fmap_ext. intros i dd _. simpl.
    apply list_fmap_ext. intros k v _. by destruct (var_spec v).
  - done.
  - intros i dd vd Hi Hvd.
    assert (Forall (λ dd, plain_vars (vars dd)) (domains fix_)) as Hp.
    { eapply List.Forall_impl; [|exact Hw]. by intros ? []. }
    assert (plain_vars (vars dd)) as Hdd.
    { rewrite Forall_forall in Hp. by eapply Hp, list_elem_of_In, list_elem_of_lookup_2. }
    rewrite register_domains_cache; [|done|intros; apply cached_empty|].
    + rewrite decide_True by lia. rewrite Nat.sub_0_r, Hi. simpl.
      by rewrite find_var_name.
    + destruct Hdd as [_ Hdd]. rewrite Forall_forall in Hdd. by apply Hdd, list_elem_of_In.
Qed.

(** C1: Whatever requests come to the MMS server after it has started - any
    sequence of writes handed to the write handler, to any item, component or
    element, from any connection, and of index-range writes, which the library
    applies without the handler and only to the variable they address - a
    variable that the fixture does not make writable, and that no index-range
    write addresses, is served with the value of the fixture. Names are unique,
    shorter than 129 characters and without a dollar sign. *)
Theorem server_read_only env argv f run fix_ i dd vd l :
  start env argv f = Ret run → fixture_of env argv = Ret (Some fix_) → well_named fix_ →
  domains fix_ !! i = Some dd → vd ∈ vars dd → writable vd = false →
  Forall range_confined l → Forall (no_range_write i (var_name vd)) l →
  cached (g_cache (serve_requests (r_server run) l)) i (var_name vd) = Some (var_value vd).
Proof.
  intros Hm Hf Hw Hi Hvd Hro Hconf Hnone.
  destruct Hw as [Hnd Hw]. rewrite Forall_forall in Hw.
  assert (∀ dd, dd ∈ domains fix_ →
    plain_vars (vars dd) ∧ Forall (λ v, slen (var_name v) < 129) (vars dd)) as Hdd.
  { intros x Hx. apply Hw. by apply list_elem_of_In. }
  apply start_parts in Hm as (fx & Hfx & ->). rewrite Hf in Hfx. injection Hfx as <-.
  assert (lacks "$" (var_name vd) = true) as Hl.
  { destruct (Hdd dd) as [[_ Hp] _]; [by eapply list_elem_of_lookup_2|].
    rewrite Forall_forall in Hp. by apply Hp, list_elem_of_In. }
  rewrite requests_protected; [| | |done|done|done].
  - simpl. rewrite register_domains_cache; [| |intros; apply cached_empty|done].
    + rewrite decide_True by lia. rewrite Nat.sub_0_r, Hi. simpl.
      rewrite find_var_name; [done| |done]. apply Hdd. by eapply list_elem_of_lookup_2.
    + apply Forall_forall. intros x Hx. apply Hdd. by apply list_elem_of_In.
  - unfold names_fit. simpl. rewrite register_domains_entries. simpl.
    apply Forall_forall. intros e He. apply list_elem_of_In, list_elem_of_bind in He.
    destruct He as (x & He & Hx). apply list_elem_of_fmap in He as (v & -> & Hv). simpl.
    destruct (Hdd x Hx) as [_ Hs]. rewrite Forall_forall in Hs. by apply Hs, list_elem_of_In.
  - unfold protected, domain_name_of. simpl. rewrite register_domains_entries. simpl.
    apply Forall_forall. intros e He. apply list_elem_of_In, list_elem_of_bind in He.
    destruct He as (x & He & Hx). apply list_elem_of_fmap in He as (v & -> & Hv). simpl.
    unfold build_device. match goal with |- context [map ?h ?l] => change (map h l) with (h <$> l) end.
    rewrite list_lookup_fmap, Hi. simpl. intros Hdn Hvn.
    assert (x = dd) as ->.
    { apply list_elem_of_lookup in Hx as [k Hx]. assert (k = i) as ->; [|congruence].
      eapply (NoDup_lookup _ _ _ (domain_name dd) Hnd);
        rewrite list_lookup_fmap; [rewrite Hx|rewrite Hi]; simpl; congruence. }
    assert (v = vd) as ->; [|done].
    pose proof (find_var_name (vars dd) v) as Hfv. rewrite Hvn in Hfv.
    rewrite find_var_name in Hfv by (done || by apply Hdd).
    assert (Some vd = Some v) as E; [|by injection E]. apply Hfv; [by apply Hdd|done].
Qed.
End start.

(** ** Journals

    A client that accepts everything and records what it is called with. *)

Inductive log_event : Type :=
| EntryEvent (time id : Z)
| DataEvent (name : option string) (buf : list Z) (reason : Z) (more : bool)
| EndEvent.

Definition record_entry (p : list log_event) (t id : Z) (more : bool) : list log_event * bool :=
  (p ++ [if more then EntryEvent t id else EndEvent], true).

Definition record_data (p : list log_event) (name : option string) (buf : list Z) (reason : Z)
    (more : bool) : list log_event * bool :=
  (p ++ [DataEvent name buf reason more], true).

Section journals.
Context `{MmsApi}.
Variable encode : MmsValue → list Z.

(** Values whose encoding fits [g_encode_buf]. *)
Definition encodable (j : JournalDef) : Prop :=
  Forall (λ e, Z.of_nat (length (encode (entry_value e))) <= 256) (entries j).

(** What a client sees of one entry. *)
Definition entry_events (e : JournalEntryDef) : list log_event :=
  [EntryEvent (time_ms e) (entry_id e);
   DataEvent (Some (tag e)) (encode (entry_value e)) (reason_code e) true;
   DataEvent None [] 0 false].

Abbreviation record_emit := (emit_entry encode (Some record_entry) (Some record_data)).

Lemma emit_entry_recorded e p :
  Z.of_nat (length (encode (entry_value e))) <= 256 →
  record_emit e p = Ret (p ++ entry_events e).
Proof.
  intros Hl. unfold emit_entry. simpl. destruct (Z.ltb_spec 256 (Z.of_nat (length (encode (entry_value e))))); [lia|].
  by rewrite <- !app_assoc.
Qed.

Lemma get_entries_loop_recorded s t l p :
  Forall (λ e, Z.of_nat (length (encode (entry_value e))) <= 256) l →
  get_entries_loop encode (Some record_entry) (Some record_data) s t l p
  = Ret (p ++ (List.filter (λ e, (s <=? time_ms e) && (time_ms e <=? t)) l ≫= entry_events)).
Proof.
  intros Hl. revert p. induction Hl as [|e l He Hl IH]; intros p; cbn [get_entries_loop List.filter].
  { csimpl. by rewrite app_nil_r. }
  destruct ((s <=? time_ms e) && (time_ms e <=? t)).
  - rewrite emit_entry_recorded by done. cbn [res_bind]. rewrite IH. csimpl. by rewrite <- app_assoc.
  - cbn [res_bind]. by rewrite IH.
Qed.

(** A journal query for a time range replies with exactly the entries of
    the range, bounds included, in the order of the journal, each with its data,
    and then ends. *)
Theorem journal_range j s t p :
  encodable j →
  mem_get_entries encode (Some record_entry) (Some record_data) j s t p
  = Ret (p ++ (List.filter (λ e, (s <=? time_ms e) && (time_ms e <=? t)) (entries j)
               ≫= entry_events) ++ [EndEvent]).
Proof.
  intros Hj. unfold mem_get_entries. rewrite get_entries_loop_recorded by done. cbn [res_bind].
  unfold emit_end. simpl. by rewrite <- app_assoc.
Qed.

Lemma get_after_found s id l p :
  Forall (λ e, Z.of_nat (length (encode (entry_value e))) <= 256) l →
  get_entries_after_loop encode (Some record_entry) (Some record_data) s id true l p
  = Ret (p ++ (List.filter (λ e, s <=? time_ms e) l ≫= entry_events)).
Proof.
  intros Hl. revert p.
  induction Hl as [|e l He Hl IH]; intros p; cbn [get_entries_after_loop List.filter andb].
  { csimpl. by rewrite app_nil_r. }
  assert ((if entry_id e =? id then true else true) = true) as -> by (by destruct (_ =? _)).
  destruct (s <=? time_ms e).
  - rewrite emit_entry_recorded by done. cbn [res_bind]. rewrite IH. csimpl. by rewrite <- app_assoc.
  - cbn [res_bind]. by rewrite IH.
Qed.

Lemma get_after_skip s id l1 l2 p :
  Forall (λ e, entry_id e ≠ id) l1 →
  get_entries_after_loop encode (Some record_entry) (Some record_data) s id false (l1 ++ l2) p
  = get_entries_after_loop encode (Some record_entry) (Some record_data) s id false l2 p.
Proof.
  intros Hl. induction Hl as [|e l He Hl IH]; [done|]. simpl.
  destruct (Z.eqb_spec (entry_id e) id); [done|]. apply IH.
Qed.

(** A journal query that resumes after an entry id replies with the entries
    after the first one of that id, from the start time on, and with none when
    there is no such entry. *)
Theorem journal_after j s id p :
  encodable j →
  (∀ l1 e l2, entries j = l1 ++ e :: l2 → Forall (λ e, entry_id e ≠ id) l1 → entry_id e = id →
     mem_get_entries_after encode (Some record_entry) (Some record_data) j s id p
     = Ret (p ++ (List.filter (λ e, s <=? time_ms e) l2 ≫= entry_events) ++ [EndEvent]))
  ∧ (Forall (λ e, entry_id e ≠ id) (entries j) →
     mem_get_entries_after encode (Some record_entry) (Some record_data) j s id p
     = Ret (p ++ [EndEvent])).
Proof.
  intros Hj. unfold mem_get_entries_after, encodable in *. split.
  - intros l1 e l2 He Hl1 Hid. rewrite He in Hj |- *. rewrite get_after_skip by done.
    cbn [get_entries_after_loop andb res_bind]. rewrite Hid, Z.eqb_refl.
    apply Forall_app in Hj as [_ Hj]. inversion Hj; subst.
    rewrite get_after_found by done. cbn [res_bind]. unfold emit_end. simpl.
    by rewrite <- app_assoc.
  - intros Hn. rewrite <- (app_nil_r (entries j)), get_after_skip by done. done.
Qed.

(** C35: Two journal queries read the same log: a query from a time on gives the
    entries before a given one, that one, and then exactly what a query that
    resumes after its entry id gives. *)
Theorem journal_resume j l1 e l2 s t :
  encodable j → entries j = l1 ++ e :: l2 → Forall (λ x, entry_id x ≠ entry_id e) l1 →
  s <= time_ms e → Forall (λ x, time_ms x <= t) (entries j) →
  ∃ after,
    mem_get_entries encode (Some record_entry) (Some record_data) j s t []
    = Ret ((List.filter (λ x, s <=? time_ms x) l1 ≫= entry_events) ++ entry_events e ++ after)
    ∧ mem_get_entries_after encode (Some record_entry) (Some record_data) j s (entry_id e) []
      = Ret after.
Proof.
  intros Hj He Hl1 Hse Ht.
  exists ((List.filter (λ e, s <=? time_ms e) l2 ≫= entry_events) ++ [EndEvent]). split.
  - unfold mem_get_entries. rewrite get_entries_loop_recorded by done. cbn [res_bind].
    rewrite (filter_ext_in _ (λ x, s <=? time_ms x)).
    + unfold emit_end. simpl. rewrite He, List.filter_app, bind_app. cbn [List.filter].
      destruct (Z.leb_spec s (time_ms e)); [|lia]. csimpl. by rewrite <- !app_assoc.
    + intros x Hx. rewrite Forall_forall in Ht. specialize (Ht x Hx). simpl in Ht.
      destruct (Z.leb_spec (time_ms x) t); [|lia]. by rewrite andb_true_r.
  - unfold mem_get_entries_after, encodable in *. rewrite He in Hj |- *.
    rewrite get_after_skip by done. cbn [get_entries_after_loop andb res_bind].
    rewrite Z.eqb_refl. apply Forall_app in Hj as [_ Hj]. inversion Hj; subst.
    rewrite get_after_found by done. done.
Qed.

(** The encoding goes to a buffer of 256 octets without a check. *)
Lemma journal_overflow e cb dcb (p : list log_event) :
  256 < Z.of_nat (length (encode (entry_value e))) → (cb p (time_ms e) (entry_id e) true).2 = true →
  emit_entry encode (Some cb) (Some dcb) e p = Undef.
Proof.
  intros Hl Hcb. unfold emit_entry. destruct (cb p _ _ _) as [p' b]. simpl in Hcb. subst b.
  by destruct (Z.ltb_spec 256 (Z.of_nat (length (encode (entry_value e))))); [|lia].
Qed.
End journals.

(** ** The file store *)

(** The text before every ["/"] of the path but a leading one. *)
Definition slash_prefixes (path : string) : list string :=
  omap (λ i, match String.get i path with
             | Some "/"%char => Some (String.substring 0 i path)
             | _ => None
             end) (seq 1 (String.length path - 1)).

Definition mkdir_all `{FileSystem} (f : fs) (l : list string) : fs :=
  fold_left (λ f d, (mkdir f d).2) l f.

Section files.
Context `{FileSystemLaws}.

Lemma mkdirs_loop_prefixes done rest f f' :
  mkdirs_loop done rest f = (0, f') →
  f' = mkdir_all f (omap (λ i, match String.get i (done +:+ rest) with
                               | Some "/"%char => Some (String.substring 0 i (done +:+ rest))
                               | _ => None
                               end) (seq (String.length done) (String.length rest))).
Proof.
  revert done f. induction rest as [|c rest IH]; intros done f; cbn [mkdirs_loop String.length seq].
  { by intros [= <-]. }
  intros Hm. cbn [omap list_omap]. rewrite get_app_length.
  assert (done +:+ String c rest = (done +:+ String c "") +:+ rest) as Happ
    by (by rewrite string_app_assoc, string_app_cons, string_app_nil_l).
  assert (S (String.length done) = String.length (done +:+ String c "")) as Hlen
    by (rewrite string_length_app; simpl; lia).
  destruct (Ascii.eqb_spec c "/") as [->|Hc].
  - rewrite substring_app_length. destruct (mkdir f done) as [err f1] eqn:E.
    destruct (negb (err =? 0) && negb (err =? EEXIST)); [done|].
    cbn [mkdir_all fold_left]. rewrite E. cbn [snd]. rewrite Happ, Hlen. by apply IH.
  - assert (match c with "/"%char => Some (String.substring 0 (String.length done)
        (done +:+ String c rest)) | _ => None end = None) as ->.
    { destruct c as [[] [] [] [] [] [] [] []]; try done. }
    rewrite Happ, Hlen. by apply IH.
Qed.

(** [mkdirs] succeeds after creating every directory on the way to the file,
    outermost first. *)
Theorem directories_created path f f' :
  mkdirs path f = Ret (0, f') → f' = mkdir_all f (slash_prefixes path).
Proof.
  destruct path as [|c rest]; simpl; [done|]. intros [= Hm].
  apply mkdirs_loop_prefixes in Hm. rewrite Hm. unfold slash_prefixes.
  rewrite string_app_cons, string_app_nil_l. cbn [String.length].
  by replace (S (String.length rest) - 1)%nat with (String.length rest) by lia.
Qed.

Lemma mkdirs_content path f e f' :
  mkdirs path f = Ret (e, f') → ∀ p, content f' p = content f p.
Proof.
  destruct path as [|c rest]; simpl; [done|]. intros [= Hm] p. revert Hm.
  generalize (String c ""). revert f. induction rest as [|x rest IH]; intros f d; cbn [mkdirs_loop].
  { by intros [= _ <-]. }
  destruct (Ascii.eqb x "/"); [|apply IH]. destruct (mkdir f d) as [err f1] eqn:E.
  assert (content f1 p = content f p) as Hc by (by rewrite <- (content_mkdir f d), E).
  destruct (negb (err =? 0) && negb (err =? EEXIST)); [by intros [= _ <-]|].
  intros Hm. by rewrite (IH _ _ Hm).
Qed.

(** The path of a file of the store. *)
Definition store_path (dir : string) (fd : FileDef) : string :=
  snprintf_s 1024 (dir +:+ file_name fd).

(** What the loader makes: as many octets as the size says, none when it is
    not positive. *)
Definition file_ok (fd : FileDef) : Prop :=
  Z.of_nat (length (data fd)) = Z.max 0 (size fd).

Lemma populate_file_content dir fd f f' l :
  place_of (store_path dir fd) = Some l →
  file_ok fd → populate_file dir fd f = Ret (true, f') →
  content f' l = Some (data fd) ∧ ∀ q, q ≠ l → content f' q = content f q.
Proof.
  intros Hpl Hok. unfold populate_file, store_path, file_ok in *.
  set (path := snprintf_s 1024 (dir +:+ file_name fd)). intros Hp.
  apply res_bind_ret in Hp as ([err f1] & Hm & Hp). pose proof (mkdirs_content _ _ _ _ Hm) as Hc1.
  destruct (negb (err =? 0)); [done|]. destruct (fopen_wb f1 path) as [f2|] eqn:Ho; [|done].
  apply (content_open _ _ _ _ Hpl) in Ho as [Ho Hoq].
  assert (∀ ok f3, (if 0 <? size fd then let '(n, f) := fwrite f2 path (data fd) in (n =? size fd, f)
    else (true, f2)) = (ok, f3) → ok = true →
    content f3 l = Some (data fd) ∧ ∀ q, q ≠ l → content f3 q = content f q) as Hw.
  { intros ok f3. destruct (Z.ltb_spec 0 (size fd)).
    - destruct (fwrite f2 path (data fd)) as [n f4] eqn:Ew. intros [= <- <-] Hn. bool_hyps.
      destruct (content_write _ _ _ _ _ _ Hpl Ho Ew) as [Hpc Hqc]. split; [apply Hpc; lia|].
      intros q Hq. by rewrite Hqc, Hoq, Hc1 by done.
    - intros [= <- <-] _. split.
      + rewrite Ho. f_equal. destruct (data fd); [done|]. simpl in Hok. lia.
      + intros q Hq. by rewrite Hoq, Hc1 by done. }
  destruct (if 0 <? size fd then _ else _) as [ok f3] eqn:Ew. destruct ok; [|done].
  destruct (Hw _ _ eq_refl eq_refl) as [Hpc Hqc]. simpl negb in Hp. cbv iota in Hp.
  destruct (negb (last_modified_ms fd =? 0)); injection Hp as <-; [|done].
  split; [by rewrite content_utimes|]. intros q Hq. rewrite content_utimes. by apply Hqc.
Qed.

(** When populating the file store succeeds, every file of the fixture
    holds exactly its octets, whatever directories and other files are written
    along the way. *)
Theorem filestore_populated dir l f f' :
  populate_filestore dir l f = Ret (true, f') → Forall file_ok l →
  NoDup (place_of ∘ store_path dir <$> l) → Forall (λ fd, is_Some (place_of (store_path dir fd))) l →
  ∀ fd, fd ∈ l → ∃ q, place_of (store_path dir fd) = Some q ∧ content f' q = Some (data fd).
Proof.
  assert (Hkeep : ∀ l f f', populate_filestore dir l f = Ret (true, f') → Forall file_ok l →
    Forall (λ fd, is_Some (place_of (store_path dir fd))) l →
    ∀ q, Some q ∉ place_of ∘ store_path dir <$> l → content f' q = content f q).
  { clear l f f'. induction l as [|fd l IH]; intros f f' Hp Hok Hpl q Hq; [by injection Hp as <-|].
    cbn [populate_filestore] in Hp. apply res_bind_ret in Hp as ([ok f1] & Hf & Hp).
    destruct ok; [|done]. inversion Hok; subst. inversion Hpl as [|?? [x Hx] Hpl']; subst.
    csimpl in Hq. apply not_elem_of_cons in Hq as [Hq Hql].
    rewrite (IH _ _ Hp) by done. apply (populate_file_content _ _ _ _ _ Hx ltac:(done) Hf). congruence. }
  revert f. induction l as [|fd l IH]; intros f Hp Hok Hnd Hpl x Hx; [by apply elem_of_nil in Hx|].
  cbn [populate_filestore] in Hp. apply res_bind_ret in Hp as ([ok f1] & Hf & Hp).
  destruct ok; [|done]. inversion Hok; subst. inversion Hpl as [|?? [q Hq] Hpl']; subst.
  csimpl in Hnd. rewrite list.NoDup_cons in Hnd.
  destruct Hnd as [Hni Hnd]. apply elem_of_cons in Hx as [->|Hx].
  - exists q. split; [done|]. rewrite (Hkeep _ _ _ Hp) by (done || by rewrite <- Hq).
    by apply (populate_file_content _ _ _ _ _ Hq ltac:(done) Hf).
  - by eapply IH.
Qed.
End files.

(** ** A small server *)

Definition empty_fs : fs := mk_rfs [] [] [].

Definition sample_var (n : string) (v : rmms) (w : bool) : VarDef :=
  mk_var n (mk_spec (Some n) spec_boolean) v w.

Definition sample_files : list FileDef :=
  [mk_file "/C/a.cfg" [1; 2] 2 1704067200000; mk_file "/b" [] 0 0].

Definition sample_domain : DomainDef :=
  mk_domain "D" [sample_var "b" (VBool false) true; sample_var "ro" (VBool true) false;
                 sample_var "report-trigger" (VBool false) true] [].

Definition sample_model : FixtureDef :=
  mk_fixture "mms-v2" "v" "m" "r" 0 0 [sample_domain] sample_files
    [mk_report (Some "list") ["D/b"; "D/none"; "bad"]].

Definition sample_env : environment :=
  mk_environment None (λ _, Ret (Some sample_model)) (Some "/tmp/x") true (λ _, true).

Definition sample_argv : list string := ["mms_server"; "--port"; "102"].

Definition sample_run : running :=
  match start sample_env sample_argv empty_fs with
  | Ret r => r
  | _ => mk_running 0 "" empty_fs "" (mk_server [] [] [] cache_empty [])
  end.

Lemma sample_names : well_named sample_model.
Proof.
  split.
  - apply (bool_decide_unpack _). reflexivity.
  - constructor; [|constructor]. split; [split|].
    + apply (bool_decide_unpack _). reflexivity.
    + repeat constructor.
    + repeat constructor.
Qed.

Example sample_writes :
  let g := r_server sample_run in
  (write_handler g 0 "ro" (-1) (VBool false) 1).1 = DATA_ACCESS_ERROR_OBJECT_ACCESS_DENIED
  ∧ (write_handler g 0 "b" (-1) (VInt 1) 1).1 = DATA_ACCESS_ERROR_TYPE_INCONSISTENT
  ∧ (write_handler g 0 "zz" (-1) (VInt 1) 1).1 = DATA_ACCESS_ERROR_OBJECT_UNDEFINED
  ∧ g_sent (serve_writes g [mk_write 0 "b" (-1) (VBool true) 1;
                            mk_write 0 "report-trigger" (-1) (VBool true) 7])
    = [mk_sent 7 "list" [VBool true]].
Proof. split_and!; reflexivity. Qed.

Lemma write_refused_witness :
  g_sent (write_handler (r_server sample_run) 0 "ro" (-1) (VBool false) 1).2
  = g_sent (r_server sample_run).
Proof.
  apply (write_refused (r_server sample_run) 0 "ro" (-1) (VBool false) 1
    DATA_ACCESS_ERROR_OBJECT_ACCESS_DENIED
    (write_handler (r_server sample_run) 0 "ro" (-1) (VBool false) 1).2); [reflexivity|discriminate].
Defined.

Lemma write_stored_witness :
  let g' := (write_handler (r_server sample_run) 0 "report-trigger" (-1) (VBool true) 7).2 in
  g_sent g' = g_sent (r_server sample_run) ++ reports_of 7 g'.
Proof.
  apply (write_stored (r_server sample_run) 0 "report-trigger" (-1) (VBool true) 7
    (write_handler (r_server sample_run) 0 "report-trigger" (-1) (VBool true) 7).2). reflexivity.
Defined.

Lemma server_start_witness :
  mms_domain_name <$> g_device (r_server sample_run) = domain_name <$> domains sample_model.
Proof.
  apply (server_start sample_env sample_argv empty_fs sample_run sample_model);
    [reflexivity|reflexivity|exact sample_names].
Defined.

(** What the library does for an index range: here, of another variable. *)
Definition range_change (c : @cache ref_mms ref_cache) : cache := set_var c 0 "b" (VBool true).

Definition sample_requests : list request :=
  [HandledWrite (mk_write 0 "ro" (-1) (VBool false) 1); RangeWrite 0 "b" range_change;
   HandledWrite (mk_write 0 "b" (-1) (VBool true) 1)].

Lemma server_read_only_witness :
  cached (g_cache (serve_requests (r_server sample_run) sample_requests)) 0 "ro" = Some (VBool true).
Proof.
  apply (server_read_only sample_env sample_argv empty_fs sample_run
    sample_model 0 sample_domain (sample_var "ro" (VBool true) false)); try reflexivity.
  - exact sample_names.
  - right. left.
  - constructor; [done|]. constructor; [|by repeat constructor].
    intros c d n Hne Hn. rewrite !cached_plain by done. unfold range_change. rewrite find_set_var.
    rewrite decide_False; [done|]. intros [<- <-]. by apply Hne.
  - constructor; [done|]. constructor; [|by repeat constructor]. done.
Defined.

(** Nothing of the program keeps an index range from a variable it does not let
    be written: the handler refuses a write of one element of the array [ra],
    and a write of the range of its two elements changes it. *)
Definition range_server : server :=
  mk_server [mk_write_entry "D" "ra" false] [mk_mms_domain "D" [] []] []
    [(0%nat, "ra"%string, VArray 2 [(0, VInt 1); (1, VInt 2)])] [].

Lemma range_write_unguarded :
  let l := [HandledWrite (mk_write 0 "ra" 0 (VInt 5) 1);
            RangeWrite 0 "ra" (λ c : @cache ref_mms ref_cache,
              (MmsValue_update (MmsValue_update c (0%nat, "ra"%string, [0]) (VInt 5)).2
                 (0%nat, "ra"%string, [1]) (VInt 6)).2)] in
  (write_handler range_server 0 "ra" 0 (VInt 5) 1).1 = DATA_ACCESS_ERROR_OBJECT_ACCESS_DENIED
  ∧ cached (g_cache (serve_requests range_server l)) 0 "ra"
    ≠ cached (g_cache range_server) 0 "ra".
Proof. split; [reflexivity|by vm_compute]. Qed.

Definition log1 : JournalEntryDef := mk_entry 1 100 "D/b" (VBool true) 0.
Definition log2 : JournalEntryDef := mk_entry 2 200 "D/b" (VBool false) 4.
Definition log3 : JournalEntryDef := mk_entry 3 200 "D/b" (VBool true) 0.
Definition sample_log : list JournalEntryDef := [log1; log2; log3].

Definition encode_bool : MmsValue → list Z :=
  λ v : rmms, [131; 1; match v with VBool true => 255 | _ => 0 end].

Lemma sample_encodable : encodable encode_bool (mk_journal "J" sample_log).
Proof. repeat constructor; simpl; lia. Qed.

Lemma journal_range_witness :
  mem_get_entries encode_bool (Some record_entry) (Some record_data) (mk_journal "J" sample_log)
    150 200 []
  = Ret ([] ++ (List.filter (λ e, (150 <=? time_ms e) && (time_ms e <=? 200)) sample_log
                ≫= entry_events encode_bool) ++ [EndEvent]).
Proof. apply (journal_range encode_bool (mk_journal "J" sample_log)). exact sample_encodable. Defined.

Lemma journal_after_witness :
  mem_get_entries_after encode_bool (Some record_entry) (Some record_data)
    (mk_journal "J" sample_log) 0 1 []
  = Ret ([] ++ (List.filter (λ e, 0 <=? time_ms e) (tail sample_log)
                ≫= entry_events encode_bool) ++ [EndEvent]).
Proof.
  apply (journal_after encode_bool (mk_journal "J" sample_log) 0 1 [] sample_encodable) with
    (l1 := []) (e := log1); [reflexivity|constructor|reflexivity].
Defined.

Lemma journal_resume_witness :
  ∃ after,
    mem_get_entries encode_bool (Some record_entry) (Some record_data)
      (mk_journal "J" sample_log) 100 300 []
    = Ret ((List.filter (λ x, 100 <=? time_ms x) [log1]
            ≫= entry_events encode_bool)
           ++ entry_events encode_bool log2 ++ after)
    ∧ mem_get_entries_after encode_bool (Some record_entry) (Some record_data)
        (mk_journal "J" sample_log) 100 2 [] = Ret after.
Proof.
  apply (journal_resume encode_bool (mk_journal "J" sample_log)
    [log1] log2
    [log3]);
    [exact sample_encodable|reflexivity|constructor; [done|constructor]|simpl; lia|].
  repeat constructor; simpl; lia.
Defined.

Lemma directories_created_witness :
  (mkdirs_loop "/" "tmp/x/C/a.cfg" empty_fs).2
  = mkdir_all empty_fs ["/tmp"; "/tmp/x"; "/tmp/x/C"].
Proof.
  apply (directories_created "/tmp/x/C/a.cfg" empty_fs
    (mkdirs_loop "/" "tmp/x/C/a.cfg" empty_fs).2). reflexivity.
Defined.

Definition sample_store : fs :=
  match populate_filestore "/tmp/x/" sample_files empty_fs with
  | Ret (_, f) => f
  | _ => empty_fs
  end.

Lemma filestore_populated_witness :
  Forall (λ fd, ∃ q, place_of (store_path "/tmp/x/" fd) = Some q ∧ content sample_store q = Some (data fd))
    sample_files.
Proof.
  apply list.Forall_forall. apply (filestore_populated "/tmp/x/" sample_files empty_fs sample_store).
  - reflexivity.
  - repeat constructor.
  - apply (bool_decide_unpack _). reflexivity.
  - repeat constructor; by eexists.
Defined.
