(* ===== verification/Interact.v ===== *)
(** * Programs that call a library

    A client program is a tree of the calls it makes: [ask e k] makes the call
    [e] and goes on with the answer, [print l p] writes a line to the standard
    output, [loop body s k] repeats [body] from the state [s] until it leaves
    with a result; [undefined] is a program whose behaviour C leaves undefined,
    such as one that follows a null pointer.  [runs p t a] says that the program can end with [a] after
    the events [t], whatever the other side answers; a loop that never ends
    and [undefined] have no run.  [exec] runs a program against given answers, with fuel for
    the turns of each of its loops, and says when it ends. *)

From Stdlib Require Import ZArith Lia String Ascii.
From stdpp Require Import base tactics list strings numbers option.
From S2P Require Import Prelude.

Local Open Scope Z_scope.

Section interact.
Context {E : Type → Type}.

Inductive prog (A : Type) : Type :=
| done_ (a : A)
| ask {B : Type} (e : E B) (k : B → prog A)
| print (line : string) (p : prog A)
| loop {S R : Type} (body : S → prog (S + R)%type) (s : S) (k : R → prog A)
| undefined.

Inductive event : Type :=
| called {B : Type} (e : E B) (b : B)
| printed (line : string).

End interact.

Arguments prog E A : clear implicits.
Arguments event E : clear implicits.
Arguments done_ {E A} a.
Arguments ask {E A B} e k.
Arguments print {E A} line p.
Arguments loop {E A S R} body s k.
Arguments undefined {E A}.
Arguments called {E B} e b.
Arguments printed {E} line.

(** The turns of a loop, each related by [step]. *)
Inductive loop_runs {T S R : Type} (step : S → list T → S + R → Prop) : S → list T → R → Prop :=
| loop_exit s t r : step s t (inr r) → loop_runs step s t r
| loop_again s t1 s' t2 r :
    step s t1 (inl s') → loop_runs step s' t2 r → loop_runs step s (t1 ++ t2) r.

Section programs.
Context {E : Type → Type}.

Fixpoint pbind {A B} (p : prog E A) (f : A → prog E B) : prog E B :=
  match p with
  | done_ a => f a
  | ask e k => ask e (λ b, pbind (k b) f)
  | print l p => print l (pbind p f)
  | loop body s k => loop body s (λ r, pbind (k r) f)
  | undefined => undefined
  end.

(** One call, one line, one loop. *)
Definition call {B} (e : E B) : prog E B := ask e done_.
Definition line (l : string) : prog E unit := print l (done_ tt).
Definition repeat_ {S R} (body : S → prog E (S + R)%type) (s : S) : prog E R := loop body s done_.

(** The events of a run that ends with [a]. *)
Fixpoint runs {A} (p : prog E A) (t : list (event E)) (a : A) : Prop :=
  match p with
  | done_ x => t = [] ∧ a = x
  | ask e k => ∃ b t', t = called e b :: t' ∧ runs (k b) t' a
  | print l p => ∃ t', t = printed l :: t' ∧ runs p t' a
  | loop body s k =>
      ∃ t1 t2 r, t = t1 ++ t2 ∧ loop_runs (λ s t x, runs (body s) t x) s t1 r ∧ runs (k r) t2 a
  | undefined => False
  end.

(** What was written. *)
Definition lines (t : list (event E)) : list string :=
  omap (λ e, match e with printed l => Some l | called _ _ => None end) t.

(** At most [n] turns of a loop. *)
Definition turns {T St S R : Type} (step : S → St → option (list T * (S + R) * St)) :
    nat → S → St → option (list T * R * St) :=
  fix turns n s st :=
    match n with
    | O => None
    | S n =>
        match step s st with
        | Some (t, inr r, st1) => Some (t, r, st1)
        | Some (t, inl s', st1) =>
            match turns n s' st1 with
            | Some (t', r, st2) => Some (t ++ t', r, st2)
            | None => None
            end
        | None => None
        end
    end.

(** The run against the answers of a handler with a state; [None] when a loop
    needs more than [fuel] turns. *)
Fixpoint exec {St A} (fuel : nat) (h : ∀ B, E B → St → B * St) (st : St) (p : prog E A)
  : option (list (event E) * A * St) :=
  match p with
  | done_ a => Some ([], a, st)
  | ask e k =>
      let '(b, st1) := h _ e st in
      match exec fuel h st1 (k b) with
      | Some (t, a, st2) => Some (called e b :: t, a, st2)
      | None => None
      end
  | print l p =>
      match exec fuel h st p with
      | Some (t, a, st2) => Some (printed l :: t, a, st2)
      | None => None
      end
  | loop body s k =>
      match turns (λ s st, exec fuel h st (body s)) fuel s st with
      | Some (t, r, st1) =>
          match exec fuel h st1 (k r) with
          | Some (t', a, st2) => Some (t ++ t', a, st2)
          | None => None
          end
      | None => None
      end
  | undefined => None
  end.

Definition trace_of {A St} (x : option (list (event E) * A * St)) : list (event E) :=
  match x with Some (t, _, _) => t | None => [] end.

Lemma runs_bind {A B} (p : prog E A) (f : A → prog E B) t b :
  runs (pbind p f) t b ↔ ∃ t1 t2 a, t = t1 ++ t2 ∧ runs p t1 a ∧ runs (f a) t2 b.
Proof.
  revert t f. induction p as [A a|A C e k IH|A l p IH|A S R body _ s k IH|A]; intros t f; simpl.
  - split.
    + intros Hr. by exists [], t, a.
    + by intros (t1 & t2 & a' & -> & [-> ->] & Hr).
  - split.
    + intros (c & t' & -> & Hr). apply IH in Hr as (t1 & t2 & a & -> & Hp & Hf).
      exists (called e c :: t1), t2, a. split; [done|]. split; [|done]. by exists c, t1.
    + intros (t1 & t2 & a & -> & (c & t' & -> & Hp) & Hf). exists c, (t' ++ t2). split; [done|].
      apply IH. by exists t', t2, a.
  - split.
    + intros (t' & -> & Hr). apply IH in Hr as (t1 & t2 & a & -> & Hp & Hf).
      exists (printed l :: t1), t2, a. split; [done|]. split; [|done]. by exists t1.
    + intros (t1 & t2 & a & -> & (t' & -> & Hp) & Hf). exists (t' ++ t2). split; [done|].
      apply IH. by exists t', t2, a.
  - split.
    + intros (t1 & t2 & r & -> & Hl & Hr). apply IH in Hr as (t3 & t4 & a & -> & Hp & Hf).
      exists (t1 ++ t3), t4, a. rewrite app_assoc. split; [done|]. split; [|done].
      by exists t1, t3, r.
    + intros (t12 & t4 & a & -> & (t1 & t3 & r & -> & Hl & Hp) & Hf).
      exists t1, (t3 ++ t4), r. rewrite app_assoc. split; [done|]. split; [done|].
      apply IH. by exists t3, t4, a.
  - split; [done|]. by intros (t1 & t2 & a & _ & [] & _).
Qed.

Lemma runs_call {B} (e : E B) t b : runs (call e) t b ↔ t = [called e b].
Proof.
  simpl. split.
  - by intros (b' & t' & -> & -> & ->).
  - intros ->. by exists b, [].
Qed.

Lemma runs_line l t u : runs (line l) t u ↔ t = [printed l].
Proof.
  simpl. split.
  - by intros (t' & -> & -> & _).
  - intros ->. exists []. by destruct u.
Qed.

Lemma runs_repeat {S R} (body : S → prog E (S + R)%type) s t r :
  runs (repeat_ body s) t r ↔ loop_runs (λ s t x, runs (body s) t x) s t r.
Proof.
  simpl. split.
  - intros (t1 & t2 & r' & -> & Hl & -> & ->). by rewrite app_nil_r.
  - intros Hl. exists t, [], r. by rewrite app_nil_r.
Qed.

Lemma turns_runs {T St S R} (step : S → St → option (list T * (S + R) * St)) P n s st t r st' :
  (∀ s st t x st', step s st = Some (t, x, st') → P s t x) →
  turns step n s st = Some (t, r, st') → loop_runs P s t r.
Proof.
  intros Hstep. revert s st t. induction n as [|n IH]; intros s st t Ht; simpl in Ht; [done|].
  destruct (step s st) as [[[tb [s'|r']] stb]|] eqn:Hb; [| |done].
  - destruct (turns step n s' stb) as [[[t' r''] st'']|] eqn:Ht'; [|done].
    injection Ht as <- <- <-. eapply loop_again; [by eapply Hstep|by eapply IH].
  - injection Ht as <- <- <-. apply loop_exit. by eapply Hstep.
Qed.

(** A run against a handler is a run. *)
Lemma exec_runs {St A} fuel (h : ∀ B, E B → St → B * St) st (p : prog E A) t a st' :
  exec fuel h st p = Some (t, a, st') → runs p t a.
Proof.
  revert st t st'. induction p as [A x|A C e k IH|A l p IH|A S R body IHb s k IH|A];
    intros st t st' Hx; simpl in Hx |- *.
  - by injection Hx as <- <- <-.
  - destruct (h C e st) as [b st1]. destruct (exec fuel h st1 (k b)) as [[[t' a'] st2]|] eqn:He; [|done].
    injection Hx as <- <- <-. exists b, t'. split; [done|]. by eapply IH.
  - destruct (exec fuel h st p) as [[[t' a'] st2]|] eqn:He; [|done].
    injection Hx as <- <- <-. exists t'. split; [done|]. by eapply IH.
  - destruct (turns _ _ _ _) as [[[t1 r] st1]|] eqn:Ht; [|done].
    destruct (exec fuel h st1 (k r)) as [[[t2 a'] st2]|] eqn:He; [|done].
    injection Hx as <- <- <-. exists t1, t2, r. split; [done|]. split; [|by eapply IH].
    eapply turns_runs; [|exact Ht]. intros s1 st2' t' x st3. apply IHb.
  - done.
Qed.

(** What holds of every answer of a handler holds of every event of a run
    against it. *)
Lemma turns_events {T St S R} (step : S → St → option (list T * (S + R) * St)) (I : St → Prop)
    (P : T → Prop) n s st t r st' :
  (∀ s st t x st', I st → step s st = Some (t, x, st') → Forall P t ∧ I st') →
  I st → turns step n s st = Some (t, r, st') → Forall P t ∧ I st'.
Proof.
  intros Hstep. revert s st t. induction n as [|n IH]; intros s st t Hi Ht; simpl in Ht; [done|].
  destruct (step s st) as [[[tb [s'|r']] stb]|] eqn:Hb; [| |done].
  - destruct (turns step n s' stb) as [[[t' r''] st'']|] eqn:Ht'; [|done].
    injection Ht as <- <- <-. destruct (Hstep _ _ _ _ _ Hi Hb) as [Hp Hi'].
    destruct (IH _ _ _ Hi' Ht') as [Hp' Hi'']. split; [by apply Forall_app|done].
  - injection Ht as <- <- <-. by eapply Hstep.
Qed.

Lemma exec_events {St A} fuel (h : ∀ B, E B → St → B * St) (I : St → Prop) (P : event E → Prop)
    st (p : prog E A) t a st' :
  (∀ l, P (printed l)) → (∀ B (e : E B) st, I st → P (called e (h B e st).1) ∧ I (h B e st).2) →
  I st → exec fuel h st p = Some (t, a, st') → Forall P t ∧ I st'.
Proof.
  intros Hl He. revert st t st'. induction p as [A x|A C e k IH|A l p IH|A S R body IHb s k IH|A];
    intros st t st' Hi Hx; simpl in Hx.
  - injection Hx as <- <- <-. by split; [constructor|].
  - destruct (He C e st Hi) as [Hp Hi1]. destruct (h C e st) as [b st1].
    destruct (exec fuel h st1 (k b)) as [[[t' a'] st2]|] eqn:Hk; [|done].
    injection Hx as <- <- <-. eapply IH in Hk as [Hp' Hi2]; [|exact Hi1]. by split; [constructor|].
  - destruct (exec fuel h st p) as [[[t' a'] st2]|] eqn:Hk; [|done].
    injection Hx as <- <- <-. eapply IH in Hk as [Hp' Hi2]; [|exact Hi]. split; [by constructor|done].
  - destruct (turns _ _ _ _) as [[[t1 r] st1]|] eqn:Ht; [|done].
    destruct (exec fuel h st1 (k r)) as [[[t2 a'] st2]|] eqn:Hk; [|done].
    injection Hx as <- <- <-.
    assert (Forall P t1 ∧ I st1) as [Hp1 Hi1].
    { eapply turns_events; [|exact Hi|exact Ht]. intros s1 st3 t3 x st4 Hi3. by apply IHb. }
    eapply IH in Hk as [Hp2 Hi2]; [|exact Hi1]. split; [by apply Forall_app|done].
  - done.
Qed.

Definition exec_then {St A B} (x : option (list (event E) * A * St))
    (f : A → St → option (list (event E) * B * St)) : option (list (event E) * B * St) :=
  match x with
  | Some (t, a, st) =>
      match f a st with Some (t', b, st') => Some (t ++ t', b, st') | None => None end
  | None => None
  end.

Lemma exec_bind {St A B} fuel (h : ∀ B, E B → St → B * St) st (p : prog E A) (f : A → prog E B) :
  exec fuel h st (pbind p f) = exec_then (exec fuel h st p) (λ a st1, exec fuel h st1 (f a)).
Proof.
  revert st f. induction p as [A a|A C e k IH|A l p IH|A S R body _ s k IH|A]; intros st f; simpl.
  - by destruct (exec fuel h st (f a)) as [[[? ?] ?]|].
  - destruct (h C e st) as [b st1]. rewrite IH.
    destruct (exec fuel h st1 (k b)) as [[[t a] st2]|]; [simpl|done].
    by destruct (exec fuel h st2 (f a)) as [[[? ?] ?]|].
  - rewrite IH. destruct (exec fuel h st p) as [[[t a] st2]|]; [simpl|done].
    by destruct (exec fuel h st2 (f a)) as [[[? ?] ?]|].
  - destruct (turns _ _ _ _) as [[[t r] st1]|]; [|done]. rewrite IH.
    destruct (exec fuel h st1 (k r)) as [[[t' a] st2]|]; [simpl|done].
    destruct (exec fuel h st2 (f a)) as [[[? ?] ?]|]; [|done]. by rewrite app_assoc.
  - done.
Qed.

(** The program ends under a handler, within [fuel] turns of every loop. *)
Definition ends {St A} (fuel : nat) (h : ∀ B, E B → St → B * St) (st : St) (p : prog E A)
    (a : A) (st' : St) : Prop := ∃ t, exec fuel h st p = Some (t, a, st').

Lemma ends_done {St A} fuel (h : ∀ B, E B → St → B * St) st (a : A) : ends fuel h st (done_ a) a st.
Proof. by exists []. Qed.

Lemma ends_call {St B} fuel (h : ∀ B, E B → St → B * St) st (e : E B) b st' :
  h B e st = (b, st') → ends fuel h st (call e) b st'.
Proof. intros He. unfold ends. simpl. rewrite He. eauto. Qed.

Lemma ends_line {St} fuel (h : ∀ B, E B → St → B * St) st l : ends fuel h st (line l) tt st.
Proof. by eexists. Qed.

Lemma ends_bind {St A B} fuel (h : ∀ B, E B → St → B * St) st st1 st2 (p : prog E A) a
    (f : A → prog E B) b :
  ends fuel h st p a st1 → ends fuel h st1 (f a) b st2 → ends fuel h st (pbind p f) b st2.
Proof.
  intros [t Ht] [t' Ht']. exists (t ++ t'). rewrite exec_bind. unfold exec_then. by rewrite Ht, Ht'.
Qed.

Lemma ends_repeat {St S R} fuel (h : ∀ B, E B → St → B * St) st st' (body : S → prog E (S + R)%type)
    s r :
  (∃ t, turns (λ s st, exec fuel h st (body s)) fuel s st = Some (t, r, st')) →
  ends fuel h st (repeat_ body s) r st'.
Proof. intros [t Ht]. unfold ends. simpl. rewrite Ht. eauto. Qed.

Lemma turns_exit {St S R} fuel (h : ∀ B, E B → St → B * St) st st' (body : S → prog E (S + R)%type)
    s r n :
  ends fuel h st (body s) (inr r) st' →
  ∃ t, turns (λ s st, exec fuel h st (body s)) (Datatypes.S n) s st = Some (t, r, st').
Proof. intros [t Ht]. simpl. rewrite Ht. eauto. Qed.

Lemma turns_again {St S R} fuel (h : ∀ B, E B → St → B * St) st st1 st2
    (body : S → prog E (S + R)%type) s s' r n :
  ends fuel h st (body s) (inl s') st1 →
  (∃ t, turns (λ s st, exec fuel h st (body s)) n s' st1 = Some (t, r, st2)) →
  ∃ t, turns (λ s st, exec fuel h st (body s)) (Datatypes.S n) s st = Some (t, r, st2).
Proof. intros [t Ht] [t' Ht']. simpl. rewrite Ht, Ht'. eauto. Qed.

(** The same with the lines written on the way. *)
Definition gives {St A} (fuel : nat) (h : ∀ B, E B → St → B * St) (st : St) (p : prog E A)
    (ls : list string) (a : A) (st' : St) : Prop :=
  ∃ t, exec fuel h st p = Some (t, a, st') ∧ lines t = ls.

Lemma gives_done {St A} fuel (h : ∀ B, E B → St → B * St) st (a : A) : gives fuel h st (done_ a) [] a st.
Proof. by exists []. Qed.

Lemma gives_call {St B} fuel (h : ∀ B, E B → St → B * St) st (e : E B) b st' :
  h B e st = (b, st') → gives fuel h st (call e) [] b st'.
Proof. intros He. eexists. simpl. by rewrite He. Qed.

Lemma gives_line {St} fuel (h : ∀ B, E B → St → B * St) st l : gives fuel h st (line l) [l] tt st.
Proof. by eexists. Qed.

Lemma gives_bind {St A B} fuel (h : ∀ B, E B → St → B * St) st st1 st2 (p : prog E A) a
    (f : A → prog E B) b ls1 ls2 :
  gives fuel h st p ls1 a st1 → gives fuel h st1 (f a) ls2 b st2 →
  gives fuel h st (pbind p f) (ls1 ++ ls2) b st2.
Proof.
  intros (t & Ht & <-) (t' & Ht' & <-). exists (t ++ t'). rewrite exec_bind. unfold exec_then.
  rewrite Ht, Ht'. split; [done|]. apply omap_app.
Qed.

(** A call and what follows, a line and what follows. *)
Lemma gives_call_bind {St B A} fuel (h : ∀ B, E B → St → B * St) st (e : E B) b st1
    (f : B → prog E A) ls a st2 :
  h B e st = (b, st1) → gives fuel h st1 (f b) ls a st2 →
  gives fuel h st (pbind (call e) f) ls a st2.
Proof. intros He Hf. by eapply (gives_bind _ _ _ _ _ _ _ _ _ []); [apply gives_call|]. Qed.

Lemma gives_line_bind {St A} fuel (h : ∀ B, E B → St → B * St) st l (f : unit → prog E A) ls a st2 :
  gives fuel h st (f tt) ls a st2 → gives fuel h st (pbind (line l) f) (l :: ls) a st2.
Proof. intros Hf. by eapply (gives_bind _ _ _ _ _ _ _ _ _ [l]); [apply gives_line|]. Qed.

(** At most [n] turns of a loop, with what they write. *)
Definition loop_gives {St S R} (fuel : nat) (h : ∀ B, E B → St → B * St)
    (body : S → prog E (S + R)%type) (n : nat) (st : St) (s : S) (ls : list string) (r : R) (st' : St) : Prop :=
  ∃ t, turns (λ s st, exec fuel h st (body s)) n s st = Some (t, r, st') ∧ lines t = ls.

Lemma loop_gives_exit {St S R} fuel (h : ∀ B, E B → St → B * St) (body : S → prog E (S + R)%type)
    n st s ls r st' :
  gives fuel h st (body s) ls (inr r) st' → loop_gives fuel h body (Datatypes.S n) st s ls r st'.
Proof. intros (t & Ht & Hl). exists t. simpl. by rewrite Ht. Qed.

Lemma loop_gives_again {St S R} fuel (h : ∀ B, E B → St → B * St) (body : S → prog E (S + R)%type)
    n st st1 st2 s s' ls1 ls2 r :
  gives fuel h st (body s) ls1 (inl s') st1 → loop_gives fuel h body n st1 s' ls2 r st2 →
  loop_gives fuel h body (Datatypes.S n) st s (ls1 ++ ls2) r st2.
Proof.
  intros (t & Ht & <-) (t' & Ht' & <-). exists (t ++ t'). simpl. rewrite Ht, Ht'.
  split; [done|]. apply omap_app.
Qed.

Lemma gives_repeat {St S R} fuel (h : ∀ B, E B → St → B * St) (body : S → prog E (S + R)%type)
    st s ls r st' :
  loop_gives fuel h body fuel st s ls r st' → gives fuel h st (repeat_ body s) ls r st'.
Proof. intros (t & Ht & Hl). exists t. simpl. rewrite Ht, app_nil_r. done. Qed.

(** An invariant of the loop's state, kept by every turn. *)
Lemma loop_invariant {T S R} (step : S → list T → S + R → Prop) (P : S → Prop) (Q : R → Prop) s t r :
  (∀ s t x, P s → step s t x → match x with inl s' => P s' | inr r => Q r end) →
  loop_runs step s t r → P s → Q r.
Proof.
  intros Hstep Hl. induction Hl as [s t r Hs|s t1 s' t2 r Hs _ IH]; intros HP.
  - by apply (Hstep s t (inr r)).
  - apply IH. by apply (Hstep s t1 (inl s')).
Qed.

Lemma lines_app t1 t2 : lines (t1 ++ t2) = lines t1 ++ lines t2.
Proof. apply omap_app. Qed.

(** ** Specifications

    [wp p P] says that every run of [p] satisfies [P]. *)
Definition wp {A} (p : prog E A) (P : list (event E) → A → Prop) : Prop :=
  ∀ t a, runs p t a → P t a.

Lemma wp_bind {A B} (p : prog E A) (f : A → prog E B) (P : list (event E) → B → Prop) :
  wp p (λ t1 a, wp (f a) (λ t2 b, P (t1 ++ t2) b)) → wp (pbind p f) P.
Proof. intros Hw t b Hr. apply runs_bind in Hr as (t1 & t2 & a & -> & Hp & Hf). by apply Hw with a. Qed.

Lemma wp_mono {A} (p : prog E A) (P Q : list (event E) → A → Prop) :
  wp p P → (∀ t a, P t a → Q t a) → wp p Q.
Proof. intros Hw HPQ t a Hr. by apply HPQ, Hw. Qed.

(** [does fuel h st p Q]: against the handler the program ends, and so that its
    events, its result and the state left satisfy [Q]. *)
Definition does {St A} (fuel : nat) (h : ∀ B, E B → St → B * St) (st : St) (p : prog E A)
    (Q : list (event E) → A → St → Prop) : Prop :=
  ∃ t a st', exec fuel h st p = Some (t, a, st') ∧ Q t a st'.

Section does.
Context {St : Type} (fuel : nat) (h : ∀ B, E B → St → B * St).

Lemma does_done {A} st (a : A) (Q : list (event E) → A → St → Prop) : Q [] a st → does fuel h st (done_ a) Q.
Proof. intros HQ. by exists [], a, st. Qed.

Lemma does_bind {A B} st (p : prog E A) (f : A → prog E B) (Q : list (event E) → B → St → Prop) :
  does fuel h st p (λ t a st1, does fuel h st1 (f a) (λ t' b st2, Q (t ++ t') b st2)) →
  does fuel h st (pbind p f) Q.
Proof.
  intros (t & a & st1 & Hp & t' & b & st2 & Hf & HQ). exists (t ++ t'), b, st2.
  rewrite exec_bind, Hp. simpl. by rewrite Hf.
Qed.

Lemma does_call {B} st (e : E B) (Q : list (event E) → B → St → Prop) :
  (∀ b st', h B e st = (b, st') → Q [called e b] b st') → does fuel h st (call e) Q.
Proof. intros HQ. unfold does. simpl. destruct (h B e st) as [b st'] eqn:He. eexists _, _, _. by split; [|apply HQ]. Qed.

Lemma does_line st l (Q : list (event E) → unit → St → Prop) : Q [printed l] tt st → does fuel h st (line l) Q.
Proof. intros HQ. by exists [printed l], tt, st. Qed.

Lemma does_mono {A} st (p : prog E A) (P Q : list (event E) → A → St → Prop) :
  does fuel h st p P → (∀ t a st', P t a st' → Q t a st') → does fuel h st p Q.
Proof. intros (t & a & st' & Hp & HP) HPQ. exists t, a, st'. auto. Qed.
End does.

(** A property of single events, which every event of every run has: [all_runs
    P p]. *)
Definition all_runs (P : event E → Prop) {A} (p : prog E A) : Prop :=
  wp p (λ t _, Forall P t).

Lemma all_runs_done P {A} (a : A) : all_runs P (done_ a).
Proof. intros t b [-> ->]. constructor. Qed.

Lemma all_runs_bind P {A B} (p : prog E A) (f : A → prog E B) :
  all_runs P p → (∀ a, all_runs P (f a)) → all_runs P (pbind p f).
Proof.
  intros Hp Hf t b Hr. apply runs_bind in Hr as (t1 & t2 & a & -> & H1 & H2).
  apply Forall_app. split; [by eapply Hp|by eapply Hf].
Qed.

Lemma all_runs_call P {B} (e : E B) : (∀ b, P (called e b)) → all_runs P (call e).
Proof. intros HP t b Hr. apply runs_call in Hr as ->. by repeat constructor. Qed.

Lemma all_runs_line P l : P (printed l) → all_runs P (line l).
Proof. intros HP t b Hr. apply runs_line in Hr as ->. by repeat constructor. Qed.

Lemma all_runs_repeat P {S R} (body : S → prog E (S + R)%type) (s : S) :
  (∀ s, all_runs P (body s)) → all_runs P (repeat_ body s).
Proof.
  intros Hb t r Hr. apply runs_repeat in Hr. induction Hr as [s t r Hs|s t1 s' t2 r Hs _ IH].
  - by eapply Hb.
  - apply Forall_app. split; [by eapply Hb|done].
Qed.

End programs.

Declare Scope prog_scope.
Delimit Scope prog_scope with prog.
Bind Scope prog_scope with prog.

Notation "'let!' x ':=' p 'in' k" := (pbind p (fun x => k))
  (at level 10, x binder, p at level 100, k at level 200) : prog_scope.
Notation "p ;; q" := (pbind p (fun _ => q)) (at level 100, right associativity) : prog_scope.

(** Take a run of a program apart into the events of its parts. *)
Ltac run_step H :=
  lazymatch type of H with
  | runs (done_ _) _ _ => destruct H as [-> ->]
  | runs (call _) _ _ => apply runs_call in H; subst
  | runs (line _) _ _ => apply runs_line in H; subst
  | runs (repeat_ _ _) _ _ => apply runs_repeat in H
  | runs (pbind _ _) _ _ =>
      let t1 := fresh "t" in let t2 := fresh "t" in let a := fresh "a" in
      let Hp := fresh "Hr" in let Hf := fresh "Hr" in
      apply runs_bind in H as (t1 & t2 & a & -> & Hp & Hf)
  | runs (ask _ _) _ _ =>
      let b := fresh "b" in let t := fresh "t" in destruct H as (b & t & -> & H)
  | runs (print _ _) _ _ => let t := fresh "t" in destruct H as (t & -> & H)
  end.
