(* ===== verification/MmsServerRun.v ===== *)
(** * mms_server.c: the run of the program

    What follows the start ([MmsServer.start]): the loop that lets the library
    serve its clients until a signal comes, with the handlers the library
    calls meanwhile, and the end of the program, which removes the file store
    it has made. *)

From Stdlib Require Import ZArith Lia String Ascii.
From stdpp Require Import base tactics list strings numbers option.
From S2P Require Import Prelude CText Json JsonLines Mms Fixture Interact MmsServer.

Local Open Scope Z_scope.
Local Open Scope c_scope.
Local Open Scope prog_scope.

(** The file system as [ftw.h] walks it: [walk f dir] are the entries beneath
    and at [dir] in the order of [FTW_DEPTH | FTW_PHYS]; [remove] gives 0 or
    -1. *)
Class FileTree `{FileSystem} := {
  remove : fs → string → Z * fs;
  walk : fs → string → list string
}.

(** What the library does with the program while it serves its clients. *)
Inductive activity `{MmsApi} `{!ServerCache} `{!FileSystem} : Type :=
| Write (r : request)                                     (* the write handler, or an index range *)
| ReadEntries (domain journal : nat) (start_ end_ : Z)    (* getEntries *)
| ReadEntriesAfter (domain journal : nat) (start_ id : Z) (* getEntriesAfter *)
| FileService (change : fs → fs).                         (* files of its base path *)

(** The calls of the main loop and of the end of the program; [g_running] is
    the reading of the flag that [on_signal] clears. *)
Inductive MmsServerE `{MmsApi} `{!ServerCache} `{!FileSystem} : Type → Type :=
| g_running : MmsServerE bool
| MmsServer_waitReady (ms : Z) : MmsServerE unit
| MmsServer_handleIncomingMessages : MmsServerE (list activity)
| MmsServer_handleBackgroundTasks : MmsServerE (list activity)
| MmsServer_stopListeningThreadless : MmsServerE unit
| MmsServer_destroy : MmsServerE unit.

(** ** The end of the file store *)

Section shutdown.
Context `{FileTree}.

(** [nftw]: the function is called for each entry until it gives another
    value than 0. *)
Fixpoint visit (fn : string → fs → Z * fs) (l : list string) (f : fs) : Z * fs :=
  match l with
  | [] => (0, f)
  | path :: l' =>
      let '(r, f) := fn path f in
      if r =? 0 then visit fn l' f else (r, f)
  end.

Definition nftw (f : fs) (dir : string) (fn : string → fs → Z * fs) : Z * fs :=
  visit fn (walk f dir) f.

Definition rm_entry (path : string) (f : fs) : Z * fs := remove f path.

End shutdown.

Section run.
Context `{MmsApi} `{!ServerCache} `{!FileSystem} `{!FileTree}.

(** The log service of the library: the encoding of values, the callbacks it
    hands to a log storage, and the reply [P] it begins with. *)
Context {P : Type} (reply0 : P).
Context (encode : MmsValue → list Z).
Context (entryCallback : option (P → Z → Z → bool → P * bool)).
Context (entryDataCallback : option (P → option string → list Z → Z → bool → P * bool)).

Abbreviation program := (prog MmsServerE).

(** The state of the handlers, the file system, and the replies the log
    service has put together. *)
Record serving := mk_serving {
  s_server : server;
  s_fs : fs;
  s_replies : list P
}.

(** The log storage of a journal of the device. *)
Definition storage_of (g : server) (domain journal : nat) : option LogStorage :=
  d ← g_device g !! domain; snd <$> logStorage d !! journal.

Definition replied (s : serving) (p : P) : serving :=
  {| s_server := s_server s; s_fs := s_fs s; s_replies := s_replies s ++ [p] |}.

Definition serve_activity (a : activity) (s : serving) : res serving :=
  match a with
  | Write r =>
      Ret {| s_server := serve_request (s_server s) r; s_fs := s_fs s; s_replies := s_replies s |}
  | ReadEntries d j start_ end_ =>
      match storage_of (s_server s) d j with
      | None => Ret s
      | Some ls =>
          let* p := getEntries ls P encode entryCallback entryDataCallback (instanceData ls)
                      start_ end_ reply0 in
          Ret (replied s p)
      end
  | ReadEntriesAfter d j start_ id =>
      match storage_of (s_server s) d j with
      | None => Ret s
      | Some ls =>
          let* p := getEntriesAfter ls P encode entryCallback entryDataCallback (instanceData ls)
                      start_ id reply0 in
          Ret (replied s p)
      end
  | FileService change =>
      Ret {| s_server := s_server s; s_fs := change (s_fs s); s_replies := s_replies s |}
  end.

Fixpoint serve_all (l : list activity) (s : serving) : res serving :=
  match l with
  | [] => Ret s
  | a :: l' => let* s := serve_activity a s in serve_all l' s
  end.

(** [while (g_running)] *)
Definition serve_turn (s : serving) : program (serving + res serving) :=
  let! running := call g_running in
  if negb running then done_ (inr (Ret s))
  else
    call (MmsServer_waitReady 50);;
    let! l := call MmsServer_handleIncomingMessages in
    match serve_all l s with
    | Ret s =>
        let! l := call MmsServer_handleBackgroundTasks in
        match serve_all l s with
        | Ret s => done_ (inl s)
        | r => done_ (inr r)
        end
    | r => done_ (inr r)
    end.

Definition serve_clients (run : running) : program (res serving) :=
  repeat_ serve_turn {| s_server := r_server run; s_fs := r_fs run; s_replies := [] |}.

(** The end: a file store the arguments do not name is removed. *)
Definition shutdown (filestore_arg : option string) (g_filestore : string) (f : fs) : program fs :=
  call MmsServer_stopListeningThreadless;;
  call MmsServer_destroy;;
  done_ (match filestore_arg with
         | None => (nftw f g_filestore rm_entry).2
         | Some _ => f
         end).

(** The program: its exit code and the file system it leaves. *)
Definition main (env : environment) (argv : list string) (f : fs) : program (res (Z * fs)) :=
  match jl_handle_meta_flags (adapter_version env) argv "libiec61850" with
  | Some l => line l;; done_ (Ret (0, f))
  | None =>
      match start env argv f with
      | Exit code => done_ (Exit code)
      | Undef => done_ Undef
      | Ret run =>
          line (r_ready run);;
          let! r := serve_clients run in
          match r with
          | Exit code => done_ (Exit code)
          | Undef => done_ Undef
          | Ret s =>
              let c := scan_args (tail argv) (mk_server_args None None 1102) in
              let! f := shutdown (filestore_arg c) (r_filestore run) (s_fs s) in
              done_ (Ret (0, f))
          end
      end
  end.

End run.
