(* ===== verification/RefFileTree.v ===== *)
(** * A concrete walk over the file system

    What the end of [mms_server.c] relies on of directories, of [remove] and
    of the order of [nftw] ([FileTreeLaws]), and an implementation of
    [MmsServerRun.FileTree] over the file system of [RefMmsServer] that
    satisfies it.  It stands for no code of the repository. *)

From Stdlib Require Import ZArith Lia String Ascii.
From stdpp Require Import base tactics list strings numbers option sets sorting.
From S2P Require Import Prelude CText Mms RefMms MmsServer RefMmsServer MmsServerRun.

Local Open Scope Z_scope.

(** [q] is [base] or lies beneath it. *)
Definition under (base q : place) : Prop := base `prefix_of` q.

(** Documented behaviour, of a file system without symbolic links and of a
    process that may do what it asks for: an entry lies in directories that
    exist, [mkdir] and [fopen] make the entry at the place their path leads to,
    [remove] takes away an entry nothing lies beneath, and a walk has each entry
    at and beneath a directory once, what lies beneath an entry before it. *)
Class FileTreeLaws `{FileSystemLaws} `{!FileTree} := {
  present : fs → place → bool;
  present_content f l : present f l = false → content f l = None;
  present_above f l x : present f (l ++ [x]) = true → present f l = true;
  present_mkdir f d l q :
    place_of d = Some l →
    present (mkdir f d).2 q = present f q || (bool_decide (q = l) && ((mkdir f d).1 =? 0));
  mkdir_fresh f d l : place_of d = Some l → (mkdir f d).1 = 0 → present f l = false;
  present_open f p l f' q :
    place_of p = Some l → fopen_wb f p = Some f' → present f' q = bool_decide (q = l) || present f q;
  present_write f p d q : present (fwrite f p d).2 q = present f q;
  present_utimes f p t q : present (utimes f p t) q = present f q;
  remove_frame f p l q :
    place_of p = Some l → q ≠ l →
    present (remove f p).2 q = present f q ∧ content (remove f p).2 q = content f q;
  remove_leaf f p l :
    forward p → place_of p = Some l → l ≠ [] → present f l = true → (∀ x, present f (l ++ [x]) = false) →
    (remove f p).1 = 0 ∧ present (remove f p).2 l = false;
  walk_forward f dir base :
    forward dir → place_of dir = Some base → Forall (λ p, forward p ∧ is_Some (place_of p)) (walk f dir);
  walk_nodup f dir base : forward dir → place_of dir = Some base → NoDup (place_of <$> walk f dir);
  walk_present f dir base q :
    forward dir → place_of dir = Some base →
    Some q ∈ place_of <$> walk f dir ↔ present f q = true ∧ under base q;
  walk_order f dir base l1 p l2 l x r :
    forward dir → place_of dir = Some base → walk f dir = l1 ++ p :: l2 → place_of p = Some l →
    Some (l ++ x :: r) ∉ place_of <$> l2
}.

(** ** The implementation *)

Definition longer (a b : place) : Prop := (length b <= length a)%nat.

#[export] Instance longer_dec : RelDecision longer.
Proof. intros a b. unfold longer. apply _. Defined.

#[export] Instance longer_trans : Transitive longer.
Proof. intros a b c. unfold longer. lia. Qed.

#[export] Instance longer_total : Total longer.
Proof. intros a b. unfold longer. lia. Qed.

(** The places on the way to an entry. *)
Definition way (l : place) : list place := (λ n, take n l) <$> seq 0 (S (length l)).

Lemma elem_of_way q l : q ∈ way l ↔ q `prefix_of` l.
Proof.
  unfold way. rewrite list_elem_of_fmap. split.
  - intros (n & -> & _). apply prefix_take.
  - intros [r ->]. exists (length q). split; [by rewrite take_app_length|].
    apply elem_of_seq. rewrite length_app. lia.
Qed.

Definition places (f : rfs) : list place := entries_of f ≫= way.

Lemma elem_of_places f q : q ∈ places f ↔ is_place f q = true.
Proof.
  unfold places. rewrite list_elem_of_bind, is_place_spec. split.
  - intros (e & Hq & He). exists e. split; [done|]. by apply elem_of_way.
  - intros (e & He & Hq). exists e. split; [by apply elem_of_way|done].
Qed.

(** Nothing lies beneath the place. *)
Definition is_leaf (f : rfs) (l : place) : bool :=
  forallb (λ e, negb (bool_decide (l `prefix_of` e)) || bool_decide (e = l)) (entries_of f).

#[export] Instance ref_tree : FileTree := {|
  remove f p :=
    match place_of p with
    | Some l =>
        if is_place f l && is_leaf f l && negb (bool_decide (l = [])) then
          (0, mk_rfs (filter (λ d, d ≠ l) (directories f) ++ [removelast l])
                     (filter (λ x, x.1 ≠ l) (contents f)) (times f))
        else (-1, f)
    | None => (-1, f)
    end;
  walk f dir :=
    match place_of dir with
    | Some base => path_of <$> merge_sort longer (list.remove_dups (filter (λ q, base `prefix_of` q) (places f)))
    | None => []
    end
|}.

Lemma is_place_iff f g q : (is_place f q = true ↔ is_place g q = true) → is_place f q = is_place g q.
Proof. intros Hi. by apply eq_true_iff_eq. Qed.

Lemma place_above f l x : is_place f (l ++ [x]) = true → is_place f l = true.
Proof.
  rewrite !is_place_spec. intros (e & He & Hp). exists e. split; [done|]. etrans; [|exact Hp]. by eexists.
Qed.

(** A prefix is the whole or a prefix of the list without its last name. *)
Lemma prefix_removelast (q l : place) : l ≠ [] → q `prefix_of` l → q = l ∨ q `prefix_of` removelast l.
Proof.
  intros Hl [r Hr]. destruct r as [|x r] using rev_ind; [left; by rewrite Hr, app_nil_r|].
  right. exists r. by rewrite Hr, app_assoc, removelast_last.
Qed.

(** A new entry in a place changes nothing else. *)
Lemma is_place_added f g l q :
  has_place f l = true → names_ok l = true →
  (∀ x, x ∈ directories g ++ (fst <$> contents g) ↔ x = l ∨ x ∈ directories f ++ (fst <$> contents f)) →
  is_place g q = bool_decide (q = l) || is_place f q.
Proof.
  intros Hp Hl Hg. apply andb_prop in Hp as [Hne Hp]. apply bool_decide_eq_true in Hne.
  assert (∀ x, x ∈ entries_of g ↔ x = l ∨ x ∈ entries_of f) as He.
  { intros x. unfold entries_of. rewrite !elem_of_cons, !list_elem_of_filter, Hg. naive_solver. }
  apply eq_true_iff_eq. rewrite orb_true_iff, bool_decide_eq_true, !is_place_spec. split.
  - intros (e & Hin & Hq). apply He in Hin as [->|Hin]; [|by right; exists e].
    apply prefix_removelast in Hq as [->|Hq]; [by left| |done]. right.
    apply is_place_spec in Hp as (e & Hin & Hpe). exists e. split; [done|]. by etrans.
  - intros [->|(e & Hin & Hq)].
    + exists l. split; [apply He; by left|done].
    + exists e. split; [apply He; by right|done].
Qed.

Lemma names_ok_removelast l : names_ok l = true → names_ok (removelast l) = true.
Proof.
  rewrite !names_ok_spec. destruct l as [|x l] using rev_ind; [done|]. rewrite removelast_last.
  by intros [? _]%Forall_app.
Qed.

Lemma is_leaf_spec f l : is_leaf f l = true ↔ ∀ e, e ∈ entries_of f → l `prefix_of` e → e = l.
Proof.
  unfold is_leaf. rewrite forallb_forall. setoid_rewrite <- list_elem_of_In.
  setoid_rewrite orb_true_iff. setoid_rewrite negb_true_iff. setoid_rewrite bool_decide_eq_false.
  setoid_rewrite bool_decide_eq_true.
  split; intros Hl e He; specialize (Hl e He); [tauto|]. destruct (decide (l `prefix_of` e)); tauto.
Qed.

Lemma leaf_children f l : (∀ x, is_place f (l ++ [x]) = false) → is_leaf f l = true.
Proof.
  intros Hx. apply is_leaf_spec. intros e He [r ->]. destruct r as [|x r]; [by rewrite app_nil_r|].
  exfalso. specialize (Hx x). apply not_true_iff_false in Hx. apply Hx, is_place_spec.
  exists (l ++ x :: r). split; [done|]. exists r. by rewrite <- app_assoc.
Qed.

Lemma removed_place f l q :
  names_ok l = true → l ≠ [] → is_place f l = true → is_leaf f l = true →
  is_place (mk_rfs (filter (λ d, d ≠ l) (directories f) ++ [removelast l])
             (filter (λ x, x.1 ≠ l) (contents f)) (times f)) q = true
  ↔ is_place f q = true ∧ q ≠ l.
Proof.
  intros Hn Hne Hl Hleaf. set (g := mk_rfs _ _ _). rewrite is_leaf_spec in Hleaf.
  assert (∀ x, x ∈ entries_of g ↔ (x ∈ entries_of f ∧ x ≠ l) ∨ x = removelast l) as Hx.
  { intros x. unfold entries_of, g. cbn [directories contents].
    rewrite !elem_of_cons, !list_elem_of_filter, !elem_of_app, list_elem_of_filter, !list_elem_of_fmap,
      list_elem_of_singleton. pose proof (names_ok_removelast l Hn) as Hr.
    repeat setoid_rewrite list_elem_of_filter. destruct (decide (x = removelast l)) as [->|Hxr]; [tauto|].
    split.
    - intros [->|(Hok & Hin)]; [left; split; [by left|done]|]. left.
      destruct Hin as [[[Hxl Hin]|Hin]|(y & -> & Hy & Hin)]; [|done|]; (split; [|done]).
      + right. tauto.
      + right. split; [done|]. right. by exists y.
    - intros [[Hin Hxl]|Hxr']; [|done]. destruct Hin as [->|[Hok Hin]]; [by left|]. right. split; [done|].
      destruct Hin as [Hin|(y & -> & Hin)].
      + left. left. tauto.
      + right. exists y. tauto. }
  rewrite !is_place_spec. split.
  - intros (e & He & Hq). apply Hx in He as [[He Hel]| ->].
    + split; [by exists e|]. intros ->. apply Hel. by apply Hleaf.
    + split.
      * apply is_place_spec in Hl as (e & He & Hle). exists e. split; [done|].
        etrans; [exact Hq|]. etrans; [|exact Hle]. destruct l as [|x l] using rev_ind; [done|].
        rewrite removelast_last. by eexists.
      * intros ->. apply prefix_length in Hq. destruct l as [|x l] using rev_ind; [done|].
        rewrite removelast_last, length_app in Hq. simpl in Hq. lia.
  - intros [(e & He & Hq) Hql]. destruct (decide (e = l)) as [->|Hel].
    + apply prefix_removelast in Hq as [->|Hq]; [done| |done]. exists (removelast l).
      split; [apply Hx; by right|done].
    + exists e. split; [apply Hx; by left|done].
Qed.

Lemma rcontent_filter l p q :
  q ≠ p → rcontent (filter (λ x : place * list Z, x.1 ≠ p) l) q = rcontent l q.
Proof.
  intros Hq. induction l as [|[r x] l IH]; [done|]. rewrite list.filter_cons. cbn [fst].
  destruct (decide (r ≠ p)) as [Hr|Hr]; simpl; [by rewrite IH|].
  destruct (decide (r = q)) as [->|]; [|done]. by destruct Hr.
Qed.

(** The places of a walk. *)
Definition walked (f : rfs) (base : place) : list place :=
  merge_sort longer (list.remove_dups (filter (λ q, base `prefix_of` q) (places f))).

Lemma walked_spec f base q : q ∈ walked f base ↔ is_place f q = true ∧ base `prefix_of` q.
Proof.
  unfold walked. rewrite merge_sort_Permutation, elem_of_remove_dups, list_elem_of_filter, elem_of_places. tauto.
Qed.

Lemma place_names_ok f q : is_place f q = true → names_ok q = true.
Proof.
  intros Hq. apply is_place_spec in Hq as (e & He & [r ->]). unfold entries_of in He.
  apply elem_of_cons in He as [He|He]; [by destruct q|].
  apply list_elem_of_filter in He as [He _]. rewrite names_ok_spec in He |- *. by apply Forall_app in He as [].
Qed.

Lemma walk_places f dir base :
  place_of dir = Some base →
  walk f dir = path_of <$> walked f base ∧ place_of <$> walk f dir = Some <$> walked f base.
Proof.
  intros Hd. cbn [walk ref_tree]. rewrite Hd. fold (walked f base). split; [done|].
  rewrite <- list_fmap_compose. apply list_fmap_ext. intros i q Hq. apply list_elem_of_lookup_2, walked_spec in Hq as [Hq _].
  by apply path_of_place, names_ok_spec, (place_names_ok f).
Qed.

Lemma path_of_forward l : names_ok l = true → forward (path_of l).
Proof.
  intros Hl%names_ok_spec. unfold forward. rewrite path_of_components by done. intros Hin.
  rewrite list.Forall_forall in Hl. by specialize (Hl _ Hin).
Qed.

#[export] Instance ref_tree_laws : FileTreeLaws.
Proof.
  refine {| present := is_place |}.
  - intros f l Hp. simpl. destruct (names_ok l) eqn:Hl; [|done]. by apply rcontent_absent.
  - apply place_above.
  - intros f d l q Hd. cbn [mkdir ref_fs]. rewrite Hd. destruct (is_place f l) eqn:Hl.
    { simpl. by rewrite andb_false_r, orb_false_r. }
    destruct (has_place f l) eqn:E; simpl; [|by rewrite andb_false_r, orb_false_r].
    rewrite andb_true_r, orb_comm. apply is_place_added; [done|by apply names_ok_spec, (place_names d)|].
    intros x. simpl. set_solver.
  - intros f d l Hd. cbn [mkdir ref_fs]. rewrite Hd. by destruct (is_place f l).
  - intros f p l f' q Hp. cbn [fopen_wb ref_fs]. rewrite Hp. destruct (has_place f l) eqn:E; [|done]. intros [= <-].
    apply is_place_added; [done|by apply names_ok_spec, (place_names p)|]. intros x. simpl. set_solver.
  - intros f p d q. cbn [fwrite ref_fs snd]. destruct (place_of p) as [l|]; [|done].
    destruct (is_place f l) eqn:Hl; [|done]. apply is_place_iff. rewrite !is_place_spec.
    assert (∀ x, x ∈ entries_of (mk_rfs (directories f) ((l, d) :: contents f) (times f))
                 ↔ x ∈ entries_of f ∨ (x = l ∧ names_ok l = true)) as Hx.
    { intros x. unfold entries_of. cbn [directories contents]. rewrite !elem_of_cons, !list_elem_of_filter, !elem_of_app.
      rewrite fmap_cons, elem_of_cons. cbn [fst]. split; [naive_solver|]. intros [|[-> ?]]; naive_solver. }
    setoid_rewrite Hx. split; [|naive_solver]. intros (e & [He|[-> _]] & Hq); [by exists e|].
    apply is_place_spec in Hl as (e & He & Hle). exists e. split; [done|]. by etrans.
  - done.
  - intros f p l q Hp Hq. cbn [remove ref_tree]. rewrite Hp.
    destruct (is_place f l && is_leaf f l && negb (bool_decide (l = []))) eqn:E; [|done]. bool_hyps.
    split.
    + cbn [snd]. apply is_place_iff. rewrite removed_place; [naive_solver| |by intros ->|done|done].
      by apply names_ok_spec, (place_names p).
    + simpl. destruct (names_ok q); [|done]. by apply rcontent_filter.
  - intros f p l _ Hp Hne Hl Hx. cbn [remove ref_tree]. rewrite Hp, Hl, (leaf_children f l Hx).
    rewrite bool_decide_false by done. split; [done|]. cbn [andb negb snd]. apply not_true_iff_false.
    rewrite removed_place; [naive_solver|by apply names_ok_spec, (place_names p)|done|done|by apply leaf_children].
  - intros f dir base _ Hd. destruct (walk_places f dir base Hd) as [-> _]. apply list.Forall_fmap, list.Forall_forall.
    intros q Hq. apply walked_spec in Hq as [Hq%place_names_ok _]. split; [by apply path_of_forward|].
    exists q. by apply path_of_place, names_ok_spec.
  - intros f dir base _ Hd. destruct (walk_places f dir base Hd) as [_ ->].
    apply NoDup_fmap_2; [by intros ?? [=]|]. unfold walked. rewrite merge_sort_Permutation. apply NoDup_remove_dups.
  - intros f dir base q _ Hd. destruct (walk_places f dir base Hd) as [_ ->].
    rewrite <- walked_spec, list_elem_of_fmap. naive_solver.
  - intros f dir base l1 p l2 l x r _ Hd Hw Hp Hin. destruct (walk_places f dir base Hd) as [_ Hpl].
    rewrite Hw, fmap_app, fmap_cons, Hp in Hpl.
    assert (Hs : StronglySorted longer (walked f base)) by (apply StronglySorted_merge_sort; apply _).
    symmetry in Hpl. apply fmap_app_inv in Hpl as (m1 & m2 & Hm1 & Hm2 & Hm).
    symmetry in Hm2. apply fmap_cons_inv in Hm2 as (y & m3 & Hy & Hm3 & ->). injection Hy as <-.
    rewrite Hm in Hs. rewrite Hm3 in Hin. apply list_elem_of_fmap in Hin as (z & [= <-] & Hz).
    clear -Hs Hz. induction m1 as [|w m1 IH]; simpl in Hs; inversion Hs as [|? ? Hs' Hf]; subst; [|by apply IH].
    rewrite list.Forall_forall in Hf. specialize (Hf _ Hz). unfold longer in Hf. rewrite length_app in Hf.
    simpl in Hf. lia.
Defined.
