(* ===== verification/MmsServerRunSpec.v ===== *)
(** * Theorems about the run of mms_server.c

    What a run serves, that it ends, and what it leaves in the file system. *)

From Stdlib Require Import ZArith Lia String Ascii.
From stdpp Require Import base tactics list strings numbers option.
From S2P Require Import Prelude CText JsonLines Mms RefMms Fixture MmsServer RefMmsServer MmsServerSpec Interact MmsServerRun RefFileTree.

Local Open Scope Z_scope.
Local Open Scope c_scope.

(** ** What a trace asks of the program *)

Section trace.
Context `{MmsApi} `{!ServerCache} `{!FileSystem}.

Definition activities_of (ev : event MmsServerE) : list activity :=
  match ev with
  | called e b =>
      match e in MmsServerE B return B → list activity with
      | MmsServer_handleIncomingMessages => λ l, l
      | MmsServer_handleBackgroundTasks => λ l, l
      | _ => λ _, []
      end b
  | printed _ => []
  end.

Definition activities (t : list (event MmsServerE)) : list activity := t ≫= activities_of.

Lemma done_app t1 t2 : activities (t1 ++ t2) = activities t1 ++ activities t2.
Proof. apply bind_app. Qed.

(** The writes among them, with an index range or not. *)
Definition requests (l : list activity) : list request :=
  omap (λ a, match a with Write r => Some r | _ => None end) l.
End trace.

(** ** A run is its activities in order *)

Section served.
Context `{MmsApi} `{!ServerCache} `{!FileSystem} `{!FileTree}.
Context {P : Type} (reply0 : P) (encode : MmsValue → list Z).
Context (entryCallback : option (P → Z → Z → bool → P * bool)).
Context (entryDataCallback : option (P → option string → list Z → Z → bool → P * bool)).

Abbreviation serve_all := (serve_all reply0 encode entryCallback entryDataCallback).
Abbreviation serve_activity := (serve_activity reply0 encode entryCallback entryDataCallback).
Abbreviation serve_turn := (serve_turn reply0 encode entryCallback entryDataCallback).
Abbreviation serve_clients := (serve_clients reply0 encode entryCallback entryDataCallback).

Lemma serve_all_app l1 l2 s : serve_all (l1 ++ l2) s = let* s := serve_all l1 s in serve_all l2 s.
Proof.
  revert s. induction l1 as [|a l1 IH]; intros s; simpl; [done|].
  destruct (serve_activity a s); simpl; [apply IH|done|done].
Qed.

(** One turn: the activities it was told of, unless it is the last. *)
Lemma mms_turn_runs s t x :
  runs (serve_turn s) t x →
  match x with
  | inl s' => serve_all (activities t) s = Ret s'
  | inr r => serve_all (activities t) s = r
  end.
Proof.
  intros Hr. unfold MmsServerRun.serve_turn in Hr.
  apply runs_bind in Hr as (? & ? & running & -> & Hc & Hr). apply runs_call in Hc as ->.
  destruct running; cbn [negb] in Hr; [|by destruct Hr as [-> ->]].
  apply runs_bind in Hr as (? & ? & [] & -> & Hc & Hr). apply runs_call in Hc as ->.
  apply runs_bind in Hr as (? & ? & l1 & -> & Hc & Hr). apply runs_call in Hc as ->.
  destruct (serve_all l1 s) as [s1|c|] eqn:E1;
    [|by destruct Hr as [-> ->]; cbn; rewrite app_nil_r, E1..].
  apply runs_bind in Hr as (? & ? & l2 & -> & Hc & Hr). apply runs_call in Hc as ->.
  rewrite !done_app.
  destruct (serve_all l2 s1) as [s2|c|] eqn:E2; destruct Hr as [-> ->]; cbn;
    by rewrite ?app_nil_r, serve_all_app, E1.
Qed.

Lemma mms_loop_runs s t r :
  runs (repeat_ serve_turn s) t r → serve_all (activities t) s = r.
Proof.
  intros Hr. apply runs_repeat in Hr. induction Hr as [s t r Hs|s t1 s' t2 r Hs _ IH].
  - by apply mms_turn_runs in Hs.
  - apply mms_turn_runs in Hs. by rewrite done_app, serve_all_app, Hs.
Qed.
(** ** What is served *)

(** A journal of the fixture, by the numbers the library has for it, and the
    reply to a request for it; [None] for what is no request of a journal of
    the fixture. *)
Definition fixture_journal (fix_ : FixtureDef) (d j : nat) : option JournalDef :=
  dd ← domains fix_ !! d; journals dd !! j.

Definition journal_reply (fix_ : FixtureDef) (a : activity) : option (res P) :=
  match a with
  | ReadEntries d j s e =>
      (λ jd, mem_get_entries encode entryCallback entryDataCallback jd s e reply0)
        <$> fixture_journal fix_ d j
  | ReadEntriesAfter d j s id =>
      (λ jd, mem_get_entries_after encode entryCallback entryDataCallback jd s id reply0)
        <$> fixture_journal fix_ d j
  | _ => None
  end.

Lemma storage_fixture g fix_ d j :
  g_device g = build_device fix_ →
  storage_of g d j = mem_log_storage <$> fixture_journal fix_ d j.
Proof.
  intros Hd. unfold storage_of, fixture_journal. rewrite Hd. unfold build_device.
  match goal with |- context [map ?h (domains fix_)] => change (map h (domains fix_)) with (h <$> domains fix_) end.
  rewrite list_lookup_fmap. destruct (domains fix_ !! d) as [dd|]; simpl; [|done].
  match goal with |- context [map ?h ?l] => change (map h l) with (h <$> l) end.
  rewrite list_lookup_fmap. by destruct (journals dd !! j).
Qed.

Lemma serve_request_device g r : g_device (serve_request g r) = g_device g.
Proof. by apply serve_request_same. Qed.

Lemma serve_all_fixture fix_ l s s' :
  serve_all l s = Ret s' → g_device (s_server s) = build_device fix_ →
  s_server s' = serve_requests (s_server s) (requests l)
  ∧ Ret <$> s_replies s' = (Ret <$> s_replies s) ++ omap (journal_reply fix_) l.
Proof.
  revert s. induction l as [|a l IH]; intros s Hs Hd; simpl in Hs.
  { injection Hs as <-. simpl. by rewrite app_nil_r. }
  apply res_bind_ret in Hs as (s1 & Ha & Hs). specialize (IH s1 Hs).
  destruct a as [w|d j t1 t2|d j t1 id|change]; simpl in Ha.
  - injection Ha as <-. apply IH. simpl. by rewrite serve_request_device.
  - rewrite (storage_fixture _ _ _ _ Hd) in Ha. simpl.
    destruct (fixture_journal fix_ d j) as [jd|]; simpl in Ha |- *; [|injection Ha as <-; by apply IH].
    apply res_bind_ret in Ha as (p & Hp & [= <-]). destruct (IH Hd) as [-> ->]. split; [done|].
    simpl. by rewrite Hp, fmap_app, <- app_assoc.
  - rewrite (storage_fixture _ _ _ _ Hd) in Ha. simpl.
    destruct (fixture_journal fix_ d j) as [jd|]; simpl in Ha |- *; [|injection Ha as <-; by apply IH].
    apply res_bind_ret in Ha as (p & Hp & [= <-]). destruct (IH Hd) as [-> ->]. split; [done|].
    simpl. by rewrite Hp, fmap_app, <- app_assoc.
  - injection Ha as <-. by apply IH.
Qed.

(** ** Every request is answered *)

Lemma emit_entry_returns e p :
  Z.of_nat (length (encode (entry_value e))) <= 256 →
  ∃ p', emit_entry encode entryCallback entryDataCallback e p = Ret p'.
Proof.
  intros Hl. unfold emit_entry.
  destruct (Z.ltb_spec 256 (Z.of_nat (length (encode (entry_value e))))); [lia|].
  destruct entryCallback as [cb|]; [|eauto]. destruct (cb p _ _ true) as [p' []]; eauto.
Qed.

Lemma get_entries_returns j t1 t2 p :
  encodable encode j →
  ∃ p', mem_get_entries encode entryCallback entryDataCallback j t1 t2 p = Ret p'.
Proof.
  unfold encodable, mem_get_entries. intros He. revert p.
  induction (entries j) as [|e l IH]; intros p; simpl; [eauto|].
  apply list.Forall_cons in He as [He Hl].
  destruct ((t1 <=? time_ms e) && (time_ms e <=? t2)); simpl; [|by apply IH].
  destruct (emit_entry_returns e p He) as [p' ->]. by apply IH.
Qed.

Lemma get_entries_after_returns j t1 id p :
  encodable encode j →
  ∃ p', mem_get_entries_after encode entryCallback entryDataCallback j t1 id p = Ret p'.
Proof.
  unfold encodable, mem_get_entries_after. generalize false. intros b He. revert b p.
  induction (entries j) as [|e l IH]; intros b p; simpl; [eauto|].
  apply list.Forall_cons in He as [He Hl].
  destruct (b && (t1 <=? time_ms e)); simpl; [|by apply IH].
  destruct (emit_entry_returns e p He) as [p' ->]. by apply IH.
Qed.

(** The journals of a fixture can be encoded. *)
Definition journals_encodable (fix_ : FixtureDef) : Prop :=
  ∀ d j jd, fixture_journal fix_ d j = Some jd → encodable encode jd.

Lemma serve_activity_returns fix_ a s :
  journals_encodable fix_ → g_device (s_server s) = build_device fix_ →
  ∃ s', serve_activity a s = Ret s' ∧ g_device (s_server s') = build_device fix_.
Proof.
  intros He Hd. destruct a as [w|d j t1 t2|d j t1 id|change]; simpl.
  - eexists. split; [done|]. simpl. by rewrite serve_request_device.
  - rewrite (storage_fixture _ _ _ _ Hd). destruct (fixture_journal fix_ d j) as [jd|] eqn:Ej; [|eauto].
    simpl. destruct (get_entries_returns jd t1 t2 reply0 (He _ _ _ Ej)) as [p ->]. simpl. eauto.
  - rewrite (storage_fixture _ _ _ _ Hd). destruct (fixture_journal fix_ d j) as [jd|] eqn:Ej; [|eauto].
    simpl. destruct (get_entries_after_returns jd t1 id reply0 (He _ _ _ Ej)) as [p ->]. simpl. eauto.
  - eauto.
Qed.

Lemma serve_all_returns fix_ l s :
  journals_encodable fix_ → g_device (s_server s) = build_device fix_ →
  ∃ s', serve_all l s = Ret s' ∧ g_device (s_server s') = build_device fix_.
Proof.
  intros He. revert s. induction l as [|a l IH]; intros s Hd; simpl; [eauto|].
  destruct (serve_activity_returns fix_ a s He Hd) as (s1 & -> & Hd1). by apply IH.
Qed.

(** A world in which the flag is found cleared at the reading number [n];
    everything else is answered by [other], which has a state of its own. *)
Definition signal_after {W : Type} (other : W → ∀ B, MmsServerE B → B * W)
    (B : Type) (e : MmsServerE B) (s : W * nat) : B * (W * nat) :=
  match e in MmsServerE B return B * (W * nat) with
  | g_running => (negb (s.2 =? 0)%nat, (s.1, pred s.2))
  | e => let '(b, w) := other s.1 _ e in (b, (w, s.2))
  end.

Section signal.
Context {W : Type} (other : W → ∀ B, MmsServerE B → B * W).
Abbreviation world := (signal_after other).

Lemma ends_mms_turn fix_ fuel w n s :
  journals_encodable fix_ → g_device (s_server s) = build_device fix_ →
  ∃ s' w', ends fuel world (w, S n) (serve_turn s) (inl s') (w', n)
        ∧ g_device (s_server s') = build_device fix_.
Proof.
  intros He Hd. destruct (other w _ (MmsServer_waitReady 50)) as [u w1] eqn:E0.
  destruct (other w1 _ MmsServer_handleIncomingMessages) as [l1 w2] eqn:E1.
  destruct (serve_all_returns fix_ l1 s He Hd) as (s1 & Es1 & Hd1).
  destruct (other w2 _ MmsServer_handleBackgroundTasks) as [l2 w3] eqn:E2.
  destruct (serve_all_returns fix_ l2 s1 He Hd1) as (s2 & Es2 & Hd2).
  exists s2, w3. split; [|done]. unfold MmsServerRun.serve_turn.
  eapply ends_bind; [by apply ends_call|]. cbn [negb Nat.eqb pred fst snd].
  eapply ends_bind; [apply ends_call; cbn [signal_after fst snd]; by rewrite E0|].
  eapply ends_bind; [apply ends_call; cbn [signal_after fst snd]; by rewrite E1|]. rewrite Es1.
  eapply ends_bind; [apply ends_call; cbn [signal_after fst snd]; by rewrite E2|]. rewrite Es2. apply ends_done.
Qed.

Lemma ends_mms_loop fix_ fuel w n m s :
  journals_encodable fix_ → g_device (s_server s) = build_device fix_ → (n < m)%nat →
  ∃ s' w' t, turns (λ s st, exec fuel world st (serve_turn s)) m s (w, n) = Some (t, Ret s', (w', 0%nat)).
Proof.
  intros He. revert m s w. induction n as [|n IH]; intros m s w Hd Hm; (destruct m as [|m]; [lia|]).
  - exists s, w. apply turns_exit. unfold MmsServerRun.serve_turn.
    eapply ends_bind; [by apply ends_call|]. apply ends_done.
  - destruct (ends_mms_turn fix_ fuel w n s He Hd) as (s1 & w1 & Ht1 & Hd1).
    destruct (IH m s1 w1 Hd1 ltac:(lia)) as (s' & w' & Ht). exists s', w'. by eapply turns_again.
Qed.

Lemma ends_shutdown fuel w n arg dir f :
  ∃ g w', ends fuel world (w, n) (shutdown arg dir f) g (w', n).
Proof.
  destruct (other w _ MmsServer_stopListeningThreadless) as [u w1] eqn:E0.
  destruct (other w1 _ MmsServer_destroy) as [u2 w2] eqn:E1. eexists _, w2. unfold shutdown.
  eapply ends_bind; [apply ends_call; cbn [signal_after fst snd]; by rewrite E0|].
  eapply ends_bind; [apply ends_call; cbn [signal_after fst snd]; by rewrite E1|]. apply ends_done.
Qed.
End signal.

End served.

Section session.
Context `{ServerCacheLaws} `{!FileSystem} `{!FileTree}.
Context {P : Type} (reply0 : P) (encode : MmsValue → list Z).
Context (entryCallback : option (P → Z → Z → bool → P * bool)).
Context (entryDataCallback : option (P → option string → list Z → Z → bool → P * bool)).


(** C34: The MMS server ends with code 0 once the signal was handled, however
    many turns it has served and whatever it was asked in them, other requests
    in every turn: when it has started, and the encoding of every journal entry
    fits its buffer, no sequence of requests keeps it from its end. *)
Theorem mms_server_ends_on_signal {W : Type} (other : W → ∀ B, MmsServerE B → B * W) env argv f run fix_ w n :
  jl_handle_meta_flags (adapter_version env) argv "libiec61850" = None →
  start env argv f = Ret run → fixture_of env argv = Ret (Some fix_) →
  journals_encodable encode fix_ →
  ∃ f' w', ends (S n) (signal_after other) (w, n)
          (main reply0 encode entryCallback entryDataCallback env argv f) (Ret (0, f')) (w', 0%nat).
Proof.
  intros Hflags Hs Hf He. apply start_parts in Hs as Hg. destruct Hg as (fx & Hfx & Hg).
  rewrite Hf in Hfx. injection Hfx as <-. unfold main. rewrite Hflags, Hs.
  destruct (ends_mms_loop reply0 encode entryCallback entryDataCallback other fix_ (S n) w n (S n)
    (mk_serving (r_server run) (r_fs run) []) He) as (s' & w1 & Ht); [simpl; by rewrite Hg|lia|].
  destruct (ends_shutdown other (S n) w1 0
    (filestore_arg (scan_args (tail argv) (mk_server_args None None 1102))) (r_filestore run) (s_fs s'))
    as (g & w2 & Hend).
  exists g, w2. eapply ends_bind; [apply ends_line|].
  eapply ends_bind; [apply ends_repeat; exact Ht|].
  cbv iota beta zeta. eapply ends_bind; [exact Hend|apply ends_done].
Qed.
End session.

(** ** The file store *)

Section store.
Context `{FileTreeLaws}.

(** Two file systems with the same entries and contents, everywhere or outside
    a directory. *)
Definition same_outside (base : place) (f g : fs) : Prop :=
  ∀ q, ¬ under base q → present g q = present f q ∧ content g q = content f q.

Definition same_fs (f g : fs) : Prop :=
  ∀ q, present g q = present f q ∧ content g q = content f q.

#[export] Instance same_outside_refl base : Reflexive (same_outside base).
Proof. done. Qed.

#[export] Instance same_outside_trans base : Transitive (same_outside base).
Proof. intros f g h Hfg Hgh q Hq. destruct (Hfg q Hq), (Hgh q Hq). split; congruence. Qed.

Lemma present_way f l r : present f (l ++ r) = true → present f l = true.
Proof.
  induction r as [|x r IH] using rev_ind; [by rewrite app_nil_r|]. rewrite app_assoc.
  intros Hp%present_above. by apply IH.
Qed.

(** Two ways to the same place: one is a part of the other. *)
Lemma prefix_either (a b r r' : place) : a ++ r = b ++ r' → b `prefix_of` a ∨ a `prefix_of` b.
Proof.
  revert b. induction a as [|x a IH]; intros b Heq; [right; by apply prefix_nil|].
  destruct b as [|y b]; [left; by apply prefix_nil|]. injection Heq as -> Heq.
  destruct (IH _ Heq) as [Hp|Hp]; [left|right]; by apply prefix_cons.
Qed.

(** A path of which a beginning ends before a ["/"]. *)
Lemma absolute_app a b : a ≠ ""%string → place_of (a +:+ String "/" b) ≠ None → ∃ a', a = String "/" a'.
Proof.
  destruct a as [|c a]; [done|]. rewrite string_app_cons. intros _.
  destruct (Ascii.eqb_spec c "/") as [->|Hc]; [eauto|].
  intros Hn. exfalso. apply Hn. by destruct c as [[] [] [] [] [] [] [] []].
Qed.

(** A directory on the way to a file beneath [base]. *)
Lemma mkdir_way base f a b r :
  present f base = true → a ≠ ""%string → place_of (a +:+ String "/" b) ≠ None →
  forward (a +:+ String "/" b) → components (a +:+ String "/" b) = base ++ r →
  same_outside base f (mkdir f a).2 ∧ present (mkdir f a).2 base = true.
Proof.
  intros Hb Ha Habs Hfw Hc. destruct (absolute_app a b Ha Habs) as [a' ->].
  unfold forward in Hfw. rewrite components_app in Hc, Hfw.
  set (l := components (String "/" a')) in *.
  assert (place_of (String "/" a') = Some l) as Hl.
  { apply place_forward; [done|]. intros Hin. apply Hfw, elem_of_app. by left. }
  assert (under base l ∨ present f l = true) as Hor.
  { destruct (prefix_either _ _ _ _ Hc) as [Hu|[x ->]]; [by left|]. right. by eapply present_way. }
  split.
  - intros q Hq. split; [|apply content_mkdir]. rewrite (present_mkdir f _ l) by done.
    destruct (bool_decide_reflect (q = l)) as [->|Hne]; [|by rewrite orb_false_r].
    destruct Hor as [|Hp]; [done|]. by rewrite Hp.
  - by rewrite (present_mkdir f _ l), Hb by done.
Qed.

Lemma mkdirs_loop_way base done_ rest f e f' r :
  done_ ≠ ""%string → place_of (done_ +:+ rest) ≠ None → forward (done_ +:+ rest) →
  components (done_ +:+ rest) = base ++ r → present f base = true →
  mkdirs_loop done_ rest f = (e, f') → same_outside base f f' ∧ present f' base = true.
Proof.
  revert done_ f. induction rest as [|c rest IH]; intros d f Hd Habs Hfw Heq Hb; cbn [mkdirs_loop].
  { by intros [= _ <-]. }
  assert (d +:+ String c rest = (d +:+ String c "") +:+ rest) as Happ
    by (by rewrite string_app_assoc, string_app_cons, string_app_nil_l).
  assert (d +:+ String c "" ≠ ""%string) as Hd' by (by destruct d).
  destruct (Ascii.eqb_spec c "/") as [->|_]; [|apply IH; by rewrite <- ?Happ].
  destruct (mkdir_way base f d rest r Hb Hd Habs Hfw Heq) as [Hs Hb'].
  destruct (mkdir f d) as [err f1]. simpl in Hs, Hb'.
  destruct (negb (err =? 0) && negb (err =? EEXIST)); [by intros [= _ <-]|].
  intros Hm. apply IH in Hm as [Hs' ?]; [|by rewrite <- ?Happ..]. split; [|done]. by etrans.
Qed.

Lemma substring_app_ge n (a b : string) :
  (String.length a <= n)%nat →
  String.substring 0 n (a +:+ b) = a +:+ String.substring 0 (n - String.length a) b.
Proof.
  revert n. induction a as [|c a IH]; intros n Hn; [by rewrite Nat.sub_0_r|].
  simpl in Hn. destruct n as [|n]; [lia|]. rewrite !string_app_cons. simpl. f_equal. apply IH. lia.
Qed.

(** A path cut to its buffer still begins with the store. *)
Lemma snprintf_under n base (x : string) :
  slen base + 1 < Z.of_nat n → ∃ r, snprintf_s n ((base +:+ "/") +:+ x) = base +:+ String "/" r.
Proof.
  unfold slen, snprintf_s. intros Hn.
  rewrite substring_app_ge by (rewrite string_length_app; simpl; lia).
  eexists. by rewrite string_app_assoc, string_app_cons.
Qed.

(** The name of the store: an absolute path without [".."], not the root. *)
Definition plain_dir (dir : string) (base : place) : Prop :=
  place_of dir = Some base ∧ forward dir ∧ base ≠ [].

(** The path the program makes for a file does not lead back. *)
Definition stays (dir : string) (fd : FileDef) : Prop := forward (store_path (dir +:+ "/") fd).

Lemma plain_components dir base : plain_dir dir base → components dir = base.
Proof.
  intros (Hp & Hf & _). destruct dir as [|c dir]; [done|].
  assert (c = "/"%char) as -> by (by destruct c as [[] [] [] [] [] [] [] []]).
  rewrite place_forward in Hp by done. by injection Hp.
Qed.

Lemma plain_head dir base : plain_dir dir base → ∃ d, dir = String "/" d.
Proof.
  intros (Hp & _). destruct dir as [|c dir]; [done|].
  assert (c = "/"%char) as -> by (by destruct c as [[] [] [] [] [] [] [] []]). eauto.
Qed.

(** Where the path of a file leads. *)
Lemma store_place dir base fd :
  plain_dir dir base → slen dir < 1022 → stays dir fd →
  ∃ r path, store_path (dir +:+ "/") fd = String "/" path ∧
    components (String "/" path) = base ++ r ∧ place_of (String "/" path) = Some (base ++ r).
Proof.
  intros Hpl Hlen Hst. destruct (snprintf_under 1024 dir (file_name fd)) as [x Hx]; [lia|].
  unfold stays, store_path in Hst. unfold store_path. rewrite Hx in Hst |- *.
  pose proof (plain_components dir base Hpl) as Hc. destruct (plain_head dir base Hpl) as [d Hd].
  exists (components x), (d +:+ String "/" x). rewrite Hd, string_app_cons. split; [done|].
  rewrite Hd, string_app_cons in Hst.
  assert (components (String "/" (d +:+ String "/" x)) = base ++ components x) as Hcx.
  { by rewrite <- (string_app_cons "/" d), components_app, <- Hd, Hc. }
  split; [done|]. by rewrite place_forward, Hcx by done.
Qed.

Lemma store_file dir base fd f ok f' :
  plain_dir dir base → slen dir < 1022 → stays dir fd → present f base = true →
  populate_file (dir +:+ "/") fd f = Ret (ok, f') →
  same_outside base f f' ∧ present f' base = true.
Proof.
  intros Hpl Hlen Hst Hb Hp. destruct (store_place dir base fd Hpl Hlen Hst) as (r & path & Hpath & Hc & Hplace).
  unfold stays in Hst. unfold populate_file in Hp. unfold store_path in Hpath, Hst.
  cbv zeta in Hp. rewrite Hpath in Hp, Hst.
  set (p := String "/" path) in *. assert (under base (base ++ r)) as Hu by (by exists r).
  apply res_bind_ret in Hp as ([e f1] & Hm & Hp).
  assert (same_outside base f f1 ∧ present f1 base = true) as [Hs1 Hb1].
  { assert (mkdirs_loop "/" path f = (e, f1)) as Hl by (unfold p in Hm; simpl in Hm; congruence).
    refine (mkdirs_loop_way base "/" path f e f1 r _ _ _ _ _ Hl); done. }
  destruct (negb (e =? 0)); [by injection Hp as _ <-|].
  destruct (fopen_wb f1 p) as [f2|] eqn:Ho; [|by injection Hp as _ <-].
  assert (same_outside base f f2 ∧ present f2 base = true) as [Hs2 Hb2].
  { split.
    - intros q Hq. destruct (Hs1 q Hq) as [<- <-]. rewrite (present_open _ _ _ _ q Hplace Ho).
      assert (q ≠ base ++ r) by congruence. rewrite bool_decide_false by done. split; [done|].
      by apply (content_open _ _ _ _ Hplace) in Ho as [_ Ho]; apply Ho.
    - by rewrite (present_open _ _ _ _ base Hplace Ho), Hb1, orb_true_r. }
  assert (∀ ok f3, (if 0 <? size fd then let '(n, f) := fwrite f2 p (data fd) in (n =? size fd, f)
    else (true, f2)) = (ok, f3) → same_outside base f f3 ∧ present f3 base = true) as Hw.
  { intros ok' f3. destruct (0 <? size fd); [|by intros [= _ <-]].
    destruct (fwrite f2 p (data fd)) as [n f4] eqn:Ew. intros [= _ <-].
    assert (∀ q, present f4 q = present f2 q) as Hp4
      by (intros q; by rewrite <- (present_write f2 p (data fd)), Ew).
    split; [|by rewrite Hp4]. intros q Hq. destruct (Hs2 q Hq) as [<- <-]. split; [apply Hp4|].
    apply (content_open _ _ _ _ Hplace) in Ho as [Ho _].
    apply (content_write _ _ _ _ _ _ Hplace Ho Ew). congruence. }
  destruct (if 0 <? size fd then _ else _) as [ok' f3]. destruct (Hw _ _ eq_refl) as [Hs3 Hb3].
  destruct (negb ok'); [by injection Hp as _ <-|].
  destruct (negb (last_modified_ms fd =? 0)); injection Hp as _ <-; [|done].
  split; [|by rewrite present_utimes]. intros q Hq. rewrite present_utimes, content_utimes. by apply Hs3.
Qed.

Lemma store_files dir base l f ok f' :
  plain_dir dir base → slen dir < 1022 → Forall (stays dir) l → present f base = true →
  populate_filestore (dir +:+ "/") l f = Ret (ok, f') → same_outside base f f'.
Proof.
  intros Hpl Hlen Hst. revert f. induction Hst as [|fd l Hfd Hst IH]; intros f Hb Hp; [by injection Hp as _ <-|].
  cbn [populate_filestore] in Hp. apply res_bind_ret in Hp as ([ok1 f1] & Hf & Hp).
  eapply store_file in Hf as [Hs Hb1]; [|done..]. destruct ok1; [|by injection Hp as _ <-].
  etrans; [exact Hs|]. by apply IH.
Qed.

(** ** The removal *)

(** Removing entries, each before what it lies in, of a list that has all that
    lies beneath its entries. *)
Lemma visit_removes l f :
  Forall (λ p, forward p ∧ is_Some (place_of p)) l → NoDup (place_of <$> l) → Some [] ∉ place_of <$> l →
  (∀ q, Some q ∈ place_of <$> l → present f q = true) →
  (∀ q x, Some q ∈ place_of <$> l → present f (q ++ [x]) = true → Some (q ++ [x]) ∈ place_of <$> l) →
  (∀ l1 p l2 q x r, l = l1 ++ p :: l2 → place_of p = Some q → Some (q ++ x :: r) ∉ place_of <$> l2) →
  let g := (visit rm_entry l f).2 in
  (∀ q, Some q ∈ place_of <$> l → present g q = false)
  ∧ ∀ q, Some q ∉ place_of <$> l → present g q = present f q ∧ content g q = content f q.
Proof.
  revert f. induction l as [|p l IH]; intros f Hok Hnd Hroot Hin Hclosed Hord.
  { split; [intros q []%not_elem_of_nil|done]. }
  apply list.Forall_cons in Hok as [[Hfw [lp Hp]] Hok]. rewrite fmap_cons, Hp in Hnd, Hroot, Hin, Hclosed |- *.
  apply list.NoDup_cons in Hnd as [Hpl Hnd]. apply not_elem_of_cons in Hroot as [Hne Hroot].
  assert (∀ x, present f (lp ++ [x]) = false) as Hleaf.
  { intros x. apply not_true_is_false. intros Hx. apply Hclosed in Hx; [|by left].
    apply elem_of_cons in Hx as [Hx|Hx]; [|by apply (Hord [] p l lp x [])].
    injection Hx as Hx. apply (f_equal length) in Hx. rewrite length_app in Hx. simpl in Hx. lia. }
  destruct (remove_leaf f p lp) as [Hrm Hgone]; [done|done|by intros ->|by apply Hin; left|done|].
  assert (visit rm_entry (p :: l) f = visit rm_entry l (remove f p).2) as ->.
  { change (visit rm_entry (p :: l) f) with
      (let '(r, f1) := remove f p in if r =? 0 then visit rm_entry l f1 else (r, f1)).
    destruct (remove f p) as [e f1]. simpl in Hrm. by subst e. }
  assert (∀ q, q ≠ lp → present (remove f p).2 q = present f q ∧ content (remove f p).2 q = content f q)
    as Hframe by (intros q; by apply remove_frame).
  destruct (remove f p) as [e f1]. simpl in *.
  assert (∀ q, Some q ∈ place_of <$> l → q ≠ lp) as Hnel by (intros q Hq ->; done).
  destruct (IH f1) as [Hg Hsame]; [done|done|done|..].
  - intros q Hq. destruct (Hframe q) as [-> _]; [by apply Hnel|]. apply Hin. by right.
  - intros q x Hq Hx. destruct (decide (q ++ [x] = lp)) as [Heq|Hqr]; [congruence|].
    destruct (Hframe _ Hqr) as [Hf _]. rewrite Hf in Hx.
    apply Hclosed in Hx; [|by right]. apply elem_of_cons in Hx as [Hx|]; [|done]. by injection Hx.
  - intros l1 p' l2 q x r -> Hq. by apply (Hord (p :: l1) p' l2 q x r).
  - split.
    + intros q Hq. destruct (decide (Some q ∈ place_of <$> l)) as [|Hql]; [by apply Hg|].
      apply elem_of_cons in Hq as [[= ->]|]; [|done]. by destruct (Hsame lp Hpl) as [-> _].
    + intros q Hq. apply not_elem_of_cons in Hq as [Hqp Hql].
      destruct (Hsame q Hql) as [-> ->]. apply Hframe. congruence.
Qed.

(** [nftw] with [rm_entry] leaves nothing at or beneath the directory, and the
    rest as it was. *)
Lemma store_removed f dir base :
  plain_dir dir base →
  let g := (nftw f (dir +:+ "/") rm_entry).2 in
  (∀ q, under base q → present g q = false) ∧ same_outside base f g.
Proof.
  intros Hpl. pose proof (plain_components dir base Hpl) as Hc. destruct (plain_head dir base Hpl) as [d Hd].
  assert (components (dir +:+ "/") = base) as Hcd.
  { change "/"%string with (String "/" ""). rewrite components_app, Hc.
    change (components "") with (@nil string). by rewrite app_nil_r. }
  assert (forward (dir +:+ "/")) as Hfw by (unfold forward; rewrite Hcd, <- Hc; apply Hpl).
  assert (place_of (dir +:+ "/") = Some base) as Hp.
  { rewrite Hd, string_app_cons, place_forward; [|done|by rewrite <- (string_app_cons "/" d), <- Hd].
    by rewrite <- (string_app_cons "/" d), <- Hd, Hcd. }
  unfold nftw. destruct (visit_removes (walk f (dir +:+ "/")) f) as [Hgone Hsame].
  - by eapply walk_forward.
  - by eapply walk_nodup.
  - rewrite (walk_present f _ base) by done. intros [_ [r Hr]]. destruct Hpl as (_ & _ & Hne).
    by destruct base.
  - intros q Hq. by apply (walk_present f _ base) in Hq as [].
  - intros q x Hq Hx. apply (walk_present f _ base) in Hq as [_ Hu]; [|done..].
    apply (walk_present f _ base); [done..|]. split; [done|]. unfold under in *. etrans; [exact Hu|]. by eexists.
  - intros l1 p l2 q x r Hw Hq. by eapply walk_order.
  - split.
    + intros q Hu. destruct (decide (Some q ∈ place_of <$> walk f (dir +:+ "/"))) as [|Hq]; [by apply Hgone|].
      destruct (Hsame q Hq) as [-> _]. apply not_true_is_false. intros Hpr. apply Hq.
      by apply (walk_present f _ base).
    + intros q Hu. apply Hsame. intros Hq. by apply (walk_present f _ base) in Hq as [].
Qed.

End store.

(** ** The program *)

Section program.
Context `{MmsApi} `{!ServerCache} `{FileTreeLaws}.
Context {P : Type} (reply0 : P) (encode : MmsValue → list Z).
Context (entryCallback : option (P → Z → Z → bool → P * bool)).
Context (entryDataCallback : option (P → option string → list Z → Z → bool → P * bool)).

(** A file service touches nothing outside the base path. *)
Definition confined (base : place) (a : activity) : Prop :=
  match a with
  | FileService change => ∀ f, same_outside base f (change f)
  | _ => True
  end.

Lemma serve_activity_fs base a s s' :
  serve_activity reply0 encode entryCallback entryDataCallback a s = Ret s' → confined base a →
  same_outside base (s_fs s) (s_fs s').
Proof.
  destruct a as [w|d j t1 t2|d j t1 id|change]; simpl; intros Ha Hc.
  - by injection Ha as <-.
  - destruct (storage_of _ d j) as [ls|]; [|by injection Ha as <-].
    by apply res_bind_ret in Ha as (p & _ & [= <-]).
  - destruct (storage_of _ d j) as [ls|]; [|by injection Ha as <-].
    by apply res_bind_ret in Ha as (p & _ & [= <-]).
  - injection Ha as <-. apply Hc.
Qed.

Lemma serve_all_fs base l s s' :
  serve_all reply0 encode entryCallback entryDataCallback l s = Ret s' →
  Forall (confined base) l → same_outside base (s_fs s) (s_fs s').
Proof.
  revert s. induction l as [|a l IH]; intros s Hs Hc; simpl in Hs; [by injection Hs as <-|].
  apply res_bind_ret in Hs as (s1 & Ha & Hs). apply list.Forall_cons in Hc as [Hca Hcl].
  intros q Hq. destruct (IH _ Hs Hcl q Hq) as [-> ->].
  by apply (serve_activity_fs _ _ _ _ Ha Hca).
Qed.

Definition arguments (argv : list string) : server_args :=
  scan_args (tail argv) (mk_server_args None None 1102).

(** The store of a run without --filestore is the directory mkdtemp made, which
    did not exist before. *)
Definition fresh_store (env : environment) (argv : list string) (f : fs) (dir : string) (base : place) : Prop :=
  filestore_arg (arguments argv) = None ∧ tmp_directory env = Some dir ∧ plain_dir dir base
  ∧ slen dir < 511 ∧ (mkdir f dir).1 = 0.

(** The paths of the files of the fixture do not lead back out of the store. *)
Definition files_stay (env : environment) (argv : list string) (dir : string) : Prop :=
  ∀ fix_, fixture_of env argv = Ret (Some fix_) → Forall (stays dir) (files fix_).

Lemma start_store env argv f run dir base :
  start env argv f = Ret run → fresh_store env argv f dir base → files_stay env argv dir →
  r_filestore run = dir +:+ "/" ∧ same_outside base f (r_fs run).
Proof.
  intros Hs (Harg & Htmp & Hpl & Hlen & Hmk) Hstay. unfold start in Hs.
  apply res_bind_ret in Hs as (fx & Hfx & Hs). destruct fx as [fx|]; [|done].
  specialize (Hstay fx Hfx).
  destruct (negb (server_created env)); [done|].
  apply res_bind_ret in Hs as ([d f1] & Hbase & Hs). unfold filestore_base in Hbase.
  unfold arguments in Harg. rewrite Harg, Htmp in Hbase.
  assert (d = dir +:+ "/" ∧ f1 = (mkdir f dir).2) as [-> ->].
  { assert (snprintf_s 512 (dir +:+ "/") = dir +:+ "/") as Hsn.
    { unfold snprintf_s. apply substring_all. rewrite string_length_app. unfold slen in Hlen. simpl. lia. }
    rewrite Hsn in Hbase. by injection Hbase as <- <-. }
  apply res_bind_ret in Hs as ([ok f2] & Hpop & Hs). destruct ok; [|done]. cbn [negb] in Hs.
  destruct (register_domains _ _ _) as [c es]. destruct (negb (listening _ _)); [done|].
  injection Hs as <-. cbn [r_filestore r_fs]. split; [done|].
  assert (place_of dir = Some base) as Hp by apply Hpl.
  eapply (store_files dir base) in Hpop; [|done|lia|done|].
  - intros q Hq. destruct (Hpop q Hq) as [-> ->]. split; [|apply content_mkdir].
    rewrite (present_mkdir _ _ base), bool_decide_false by (done || by intros ->; apply Hq).
    by rewrite orb_false_r.
  - by rewrite (present_mkdir _ _ base), Hmk, bool_decide_true, orb_true_r by done.
Qed.

Lemma shutdown_runs dir (f : fs) t g :
  runs (shutdown None dir f) t g → g = (nftw f dir rm_entry).2.
Proof.
  intros Hr. unfold shutdown in Hr.
  apply runs_bind in Hr as (? & ? & ? & _ & _ & Hr). apply runs_bind in Hr as (? & ? & ? & _ & _ & Hr).
  by destruct Hr as [_ ->].
Qed.

(** Removing a store that was new leaves what was there before it. *)
Lemma store_gone dir base f g :
  plain_dir dir base → (mkdir f dir).1 = 0 → same_outside base f g →
  same_fs f (nftw g (dir +:+ "/") rm_entry).2.
Proof.
  intros Hpl Hmk Hfg. destruct (store_removed g dir base Hpl) as [Hgone Hsame]. intros q.
  destruct (decide (base `prefix_of` q)) as [Hu|Hn].
  - assert (present f q = false) as Hq.
    { destruct Hu as [r ->]. apply not_true_is_false. intros Hp.
      apply present_way in Hp. apply (mkdir_fresh _ _ base) in Hmk; [congruence|apply Hpl]. }
    rewrite (Hgone q Hu), Hq. split; [done|]. by rewrite !present_content by auto.
  - destruct (Hfg q Hn) as [<- <-]. by apply Hsame.
Qed.

End program.

(** ** A run of three turns *)

Definition run_domain : DomainDef :=
  mk_domain "D" (vars sample_domain) [mk_journal "J" sample_log].

Definition run_model : FixtureDef :=
  mk_fixture "mms-v2" "v" "m" "r" 0 0 [run_domain] sample_files (reports sample_model).

Definition run_env : environment :=
  mk_environment None (λ _, Ret (Some run_model)) (Some "/tmp/x") true (λ _, true).

Definition run_fs : fs := mk_rfs [["tmp"]; ["tmp"; "other"]] [(["tmp"; "other"; "f"], [7])] [].

Definition run_started : running :=
  match start run_env sample_argv run_fs with
  | Ret r => r
  | _ => mk_running 0 "" run_fs "" (mk_server [] [] [] cache_empty [])
  end.

(** In every turn two writes the handler gets, of a value that alternates, one
    with an index range, a request for a journal and a new directory in the
    store. *)
Definition run_world (k : Z) (B : Type) (e : @MmsServerE ref_mms ref_cache ref_fs B) : B * Z :=
  (match e in MmsServerE B return B with
   | g_running => true
   | MmsServer_waitReady _ => tt
   | MmsServer_handleIncomingMessages =>
       [ Write (HandledWrite (mk_write 0 "ro" (-1) (VBool false) 1)); ReadEntries 0 0 150 200;
         Write (RangeWrite 0 "b" range_change);
         Write (HandledWrite (mk_write 0 "b" (-1) (VBool (Z.even k)) 1)) ]
   | MmsServer_handleBackgroundTasks => [ FileService (λ f, (mkdir f "/tmp/x/new").2) ]
   | MmsServer_stopListeningThreadless => tt
   | MmsServer_destroy => tt
   end, k + 1).

Definition run_main : prog (@MmsServerE ref_mms ref_cache ref_fs) (res (Z * fs)) :=
  main [] encode_bool (Some record_entry) (Some record_data) run_env sample_argv run_fs.

Definition run_trace : list (event (@MmsServerE ref_mms ref_cache ref_fs)) :=
  trace_of (exec 4 (signal_after run_world) (0, 3%nat) run_main).

Lemma run_model_encodable : journals_encodable encode_bool run_model.
Proof.
  intros [|[|d]] [|[|j]] jd; try done. intros [= <-]. exact sample_encodable.
Qed.

Definition run_left : fs :=
  match exec 4 (signal_after run_world) (0, 3%nat) run_main with
  | Some (_, Ret (_, f), _) => f
  | _ => empty_fs
  end.

Definition loop_exec : option (list (event (@MmsServerE ref_mms ref_cache ref_fs)) * res serving * (Z * nat)) :=
  exec 4 (signal_after run_world) (0, 3%nat)
    (serve_clients [] encode_bool (Some record_entry) (Some record_data) run_started).

Definition run_served : serving :=
  match loop_exec with
  | Some (_, Ret s, _) => s
  | _ => mk_serving (r_server run_started) empty_fs []
  end.

Lemma loop_runs_served :
  runs (serve_clients [] encode_bool (Some record_entry) (Some record_data) run_started)
    (trace_of loop_exec) (Ret run_served).
Proof.
  assert (match loop_exec with Some (_, Ret _, _) => true | _ => false end = true) as Hc by (vm_compute; reflexivity).
  unfold run_served. destruct loop_exec as [[[t r] w]|] eqn:Hl; [|discriminate].
  destruct r as [s| |]; [|discriminate..]. unfold loop_exec in Hl.
  exact (exec_runs 4 (signal_after run_world) (0, 3%nat) _ t (Ret s) w Hl).
Qed.


Lemma mms_server_ends_on_signal_witness :
  ∃ f' w', ends 4 (signal_after run_world) (0, 3%nat) run_main (Ret (0, f')) (w', 0%nat).
Proof.
  apply (mms_server_ends_on_signal [] encode_bool (Some record_entry) (Some record_data) run_world run_env
    sample_argv run_fs run_started run_model 0 3%nat);
    [reflexivity|reflexivity|reflexivity|exact run_model_encodable].
Defined.

Definition run_store : place := ["tmp"; "x"].

Lemma run_confined : Forall (confined run_store) (activities run_trace).
Proof.
  assert (∀ f : fs, same_outside run_store f (mkdir f "/tmp/x/new").2) as Hmk.
  { intros f q Hq. split; [|apply content_mkdir].
    rewrite (present_mkdir f "/tmp/x/new" ["tmp"; "x"; "new"]) by reflexivity.
    rewrite bool_decide_false, orb_false_r; [done|]. intros ->. apply Hq. by eexists. }
  repeat (constructor; [first [exact I|exact Hmk]|]). constructor.
Qed.

Lemma run_main_runs : runs run_main run_trace (Ret (0, run_left)).
Proof.
  assert (match exec 4 (signal_after run_world) (0, 3%nat) run_main with
    | Some (_, Ret (c, _), _) => c =? 0 | _ => false end = true) as Hc by (vm_compute; reflexivity).
  unfold run_trace, run_left.
  destruct (exec 4 (signal_after run_world) (0, 3%nat) run_main) as [[[t r] w]|] eqn:Hl; [|discriminate].
  destruct r as [[c f]| |]; [|discriminate..]. apply Z.eqb_eq in Hc as ->.
  exact (exec_runs 4 (signal_after run_world) (0, 3%nat) _ t (Ret (0, f)) w Hl).
Qed.


(** ** A file that leads out of the store

    The names of the files of a fixture are not checked: one that leads back is
    written outside the temporary directory and stays there after the run. *)
Definition leak_env : environment :=
  mk_environment None
    (λ _, Ret (Some (mk_fixture "mms-v2" "v" "m" "r" 0 0 [] [mk_file "../leak" [1; 2] 2 0] [])))
    (Some "/tmp/x") true (λ _, true).

Definition leak_left : fs :=
  match exec 4 (signal_after run_world) (0, 0%nat)
    (main [] encode_bool (Some record_entry) (Some record_data) leak_env sample_argv run_fs) with
  | Some (_, Ret (0, f), _) => f
  | _ => empty_fs
  end.

Lemma file_leaks :
  content run_fs ["tmp"; "leak"] = None ∧ content leak_left ["tmp"; "leak"] = Some [1; 2] ∧
  present leak_left run_store = false.
Proof. split_and!; by vm_compute. Qed.
