(* ===== verification/IedCommon.v ===== *)
(** * What the IED programs share

    The calls of [iec61850_client.h] that ied_client.c, ied_controller.c and
    ied_reporter.c make, with the answers libiec61850 can give, the names of
    its errors, the error line and the option loop, which each of the three
    files has a copy of. *)

From Stdlib Require Import ZArith Lia String Ascii SpecFloat.
From stdpp Require Import base tactics list strings numbers option.
From S2P Require Import Prelude CText JsonLines Args Mms Interact.

Local Open Scope Z_scope.

(** The errors the programs tell apart; the others are [IED_ERROR_OTHER]. *)
Inductive IedClientError : Set :=
| IED_ERROR_OK
| IED_ERROR_NOT_CONNECTED
| IED_ERROR_ALREADY_CONNECTED
| IED_ERROR_CONNECTION_LOST
| IED_ERROR_SERVICE_NOT_SUPPORTED
| IED_ERROR_TIMEOUT
| IED_ERROR_ACCESS_DENIED
| IED_ERROR_OBJECT_DOES_NOT_EXIST
| IED_ERROR_OBJECT_EXISTS
| IED_ERROR_OBJECT_ACCESS_UNSUPPORTED
| IED_ERROR_TYPE_INCONSISTENT
| IED_ERROR_OTHER.

#[export] Instance IedClientError_eq_dec : EqDecision IedClientError.
Proof. solve_decision. Defined.

Definition ied_ok (e : IedClientError) : bool :=
  match e with IED_ERROR_OK => true | _ => false end.

Definition ied_error_str (err : IedClientError) : string :=
  match err with
  | IED_ERROR_OK => "ok"
  | IED_ERROR_NOT_CONNECTED => "not-connected"
  | IED_ERROR_ALREADY_CONNECTED => "already-connected"
  | IED_ERROR_CONNECTION_LOST => "connection-lost"
  | IED_ERROR_SERVICE_NOT_SUPPORTED => "service-not-supported"
  | IED_ERROR_TIMEOUT => "timeout"
  | IED_ERROR_ACCESS_DENIED => "access-denied"
  | IED_ERROR_OBJECT_DOES_NOT_EXIST => "object-does-not-exist"
  | IED_ERROR_OBJECT_EXISTS => "object-exists"
  | IED_ERROR_OBJECT_ACCESS_UNSUPPORTED => "object-access-unsupported"
  | IED_ERROR_TYPE_INCONSISTENT => "type-inconsistent"
  | IED_ERROR_OTHER => "unknown-error"
  end.

Inductive FunctionalConstraint : Set :=
| IEC61850_FC_ST
| IEC61850_FC_MX
| IEC61850_FC_CF
| IEC61850_FC_DC.

(** A [ClientReport], by what its accessors give: rptID, seqNum, the values of
    the data set and for each member the reason of its inclusion. *)
Inductive ReasonForInclusion : Set :=
| IEC61850_REASON_NOT_INCLUDED
| IEC61850_REASON_DATA_CHANGE
| IEC61850_REASON_QUALITY_CHANGE
| IEC61850_REASON_DATA_UPDATE
| IEC61850_REASON_INTEGRITY
| IEC61850_REASON_GI
| IEC61850_REASON_OTHER.

Record ClientReport `{MmsApi} := mk_client_report {
  report_rptId : option string;
  report_seqNum : Z;
  report_dataSetValues : option MmsValue;
  report_reason : Z → ReasonForInclusion
}.

(** The calls.  A control object client is a number; a data set is its size
    and its values; a wait ends with the reports the callback was called with
    until then and whether the semaphore was posted. *)
Inductive IedE `{MmsApi} : Type → Type :=
| IedConnection_connect (host : string) (port : Z) : IedE IedClientError
| IedConnection_close : IedE unit
| IedConnection_getServerDirectory : IedE (list string * IedClientError)
| IedConnection_getLogicalDeviceDirectory (ld : string) : IedE (list string * IedClientError)
| IedConnection_getLogicalNodeDirectory (ln : string) : IedE (list string * IedClientError)
| IedConnection_readBooleanValue (ref : string) (fc : FunctionalConstraint)
  : IedE (bool * IedClientError)
| IedConnection_readFloatValue (ref : string) (fc : FunctionalConstraint)
  : IedE (spec_float * IedClientError)
| IedConnection_readInt32Value (ref : string) (fc : FunctionalConstraint)
  : IedE (Z * IedClientError)
| IedConnection_readUnsigned32Value (ref : string) (fc : FunctionalConstraint)
  : IedE (Z * IedClientError)
| IedConnection_readStringValue (ref : string) (fc : FunctionalConstraint)
  : IedE (option string * IedClientError)
| IedConnection_readObject (ref : string) (fc : FunctionalConstraint)
  : IedE (option MmsValue * IedClientError)
| IedConnection_writeInt32Value (ref : string) (fc : FunctionalConstraint) (v : Z)
  : IedE IedClientError
| IedConnection_writeBooleanValue (ref : string) (fc : FunctionalConstraint) (v : bool)
  : IedE IedClientError
| IedConnection_readDataSetValues (ref : string)
  : IedE (Z * option MmsValue * IedClientError)
| ControlObjectClient_create (ref : string) : IedE (option Z)
| ControlObjectClient_select (ctrl : Z) : IedE bool
| ControlObjectClient_selectWithValue (ctrl : Z) (v : MmsValue) : IedE bool
| ControlObjectClient_operate (ctrl : Z) (v : MmsValue) (time : Z) : IedE bool
| ControlObjectClient_getLastApplError (ctrl : Z) : IedE IedClientError
| ControlObjectClient_destroy (ctrl : Z) : IedE unit
| IedConnection_getRCBValues (ref : string) : IedE (option string * bool * IedClientError)
| IedConnection_installReportHandler (ref rptId : string) : IedE unit
| IedConnection_setRCBValues (ref : string) (rptEna : bool) : IedE IedClientError
| sem_timedwait (seconds : Z) : IedE (list ClientReport * bool).

(** ** Lines *)

(** [emit_error]; [target] is [None] for a null pointer. *)
Definition error_line (op : string) (target : option string) (msg : string) : string :=
  "{" +:+ member "operation" op +:+ "," +:+
  match target with Some t => member "target" t +:+ "," | None => "" end +:+
  Q "ok" +:+ ":false," +:+ member "error" msg +:+ "}" +:+ newline.

(** [{"operation":op,"target":target,"ok":true}] with more members. *)
Definition ok_line (op : string) (target : option string) (more : string) : string :=
  "{" +:+ member "operation" op +:+ "," +:+
  match target with Some t => member "target" t +:+ "," | None => "" end +:+
  Q "ok" +:+ ":true" +:+ more +:+ "}" +:+ newline.

(** [,"name":text] *)
Definition raw_member (name text : string) : string := "," +:+ Q name +:+ ":" +:+ text.

Definition bool_text (b : bool) : string := if b then "true" else "false".

Definition conclude_line : string := ok_line "conclude" None "".

(** ** Options

    The loop that skips what it does not know and an option without a value. *)
Fixpoint scan_options (valued args : list string) (m : given) : given :=
  match args with
  | [] => m
  | a :: rest =>
      if one_of a valued then
        match rest with
        | v :: rest' => scan_options valued rest' ((a, v) :: m)
        | [] => m
        end
      else scan_options valued rest m
  end.

(** [atoi] of the last value of an option. *)
Definition option_atoi (m : given) (k : string) (d : Z) : Z :=
  match option_value m k with Some v => atoi v | None => d end.

(** Answers that accept every call; the witnesses of the specifications are
    runs against servers built on them. *)
Definition accepts `{MmsApi} {B} (e : IedE B) : B :=
  match e in IedE B return B with
  | IedConnection_connect _ _ => IED_ERROR_OK
  | IedConnection_close => tt
  | IedConnection_getServerDirectory => ([], IED_ERROR_OK)
  | IedConnection_getLogicalDeviceDirectory _ => ([], IED_ERROR_OK)
  | IedConnection_getLogicalNodeDirectory _ => ([], IED_ERROR_OK)
  | IedConnection_readBooleanValue _ _ => (true, IED_ERROR_OK)
  | IedConnection_readFloatValue _ _ => (S754_zero false, IED_ERROR_OK)
  | IedConnection_readInt32Value _ _ => (4, IED_ERROR_OK)
  | IedConnection_readUnsigned32Value _ _ => (4, IED_ERROR_OK)
  | IedConnection_readStringValue _ _ => (None, IED_ERROR_OK)
  | IedConnection_readObject _ _ => (None, IED_ERROR_OK)
  | IedConnection_writeInt32Value _ _ _ => IED_ERROR_OK
  | IedConnection_writeBooleanValue _ _ _ => IED_ERROR_OK
  | IedConnection_readDataSetValues _ => (0, None, IED_ERROR_OK)
  | ControlObjectClient_create _ => Some 7
  | ControlObjectClient_select _ => true
  | ControlObjectClient_selectWithValue _ _ => true
  | ControlObjectClient_operate _ _ _ => true
  | ControlObjectClient_getLastApplError _ => IED_ERROR_OK
  | ControlObjectClient_destroy _ => tt
  | IedConnection_getRCBValues _ => (None, false, IED_ERROR_OK)
  | IedConnection_installReportHandler _ _ => tt
  | IedConnection_setRCBValues _ _ => IED_ERROR_OK
  | sem_timedwait _ => ([], true)
  end.
