(* ===== verification/IedController.v ===== *)
(** * ied_controller.c

    The control client: direct operate, select before operate, and select
    with value before operate, chosen by the data object. *)

From Stdlib Require Import ZArith Lia String Ascii SpecFloat.
From stdpp Require Import base tactics list strings numbers option.
From S2P Require Import Prelude CText JsonLines Args Mms Interact IedCommon.

Local Open Scope Z_scope.
Local Open Scope prog_scope.

Record DoConfig := mk_do {
  ctl_ref : string;
  ctlmodel_ref : string;
  stval_ref : string;
  expected_ctlmodel : Z
}.

Definition DO_CONFIGS : list DoConfig :=
  [ mk_do "InteropLD/GGIO1.SPCSO1" "InteropLD/GGIO1.SPCSO1.ctlModel"
      "InteropLD/GGIO1.SPCSO1.stVal" 1;
    mk_do "InteropLD/GGIO1.SPCSO2" "InteropLD/GGIO1.SPCSO2.ctlModel"
      "InteropLD/GGIO1.SPCSO2.stVal" 2;
    mk_do "InteropLD/GGIO1.SPCSO3" "InteropLD/GGIO1.SPCSO3.ctlModel"
      "InteropLD/GGIO1.SPCSO3.stVal" 4 ].

(** The text after the last [c], the whole text when there is none. *)
Fixpoint after_last (c : ascii) (s : string) : string :=
  match s with
  | EmptyString => EmptyString
  | String d s' => if lacks c s' then if Ascii.eqb d c then s' else s
                   else after_last c s'
  end.

Fixpoint find_do (do_name : string) (l : list DoConfig) : option DoConfig :=
  match l with
  | [] => None
  | cfg :: l' =>
      if String.eqb do_name (after_last "." (ctl_ref cfg)) then Some cfg else find_do do_name l'
  end.

Section controller.
Context `{MmsApi}.

Abbreviation program := (prog IedE).

Definition emit_error (op : string) (target : option string) (msg : string) : program unit :=
  line (error_line op target msg).

Definition op_read_ctlmodel (cfg : DoConfig) : program bool :=
  let! r := call (IedConnection_readInt32Value (ctlmodel_ref cfg) IEC61850_FC_CF) in
  let '(val, err) := r in
  let target_buf := snprintf_s 128 (ctlmodel_ref cfg +:+ "[CF]") in
  if negb (ied_ok err) then
    emit_error "read-ctlmodel" (Some target_buf) (ied_error_str err);; done_ false
  else
    line (ok_line "read-ctlmodel" (Some target_buf) (raw_member "value" (fmt_d val)));;
    done_ true.

(** The message of a control service that returned false. *)
Definition control_error (err : IedClientError) (msg : string) : string :=
  if negb (ied_ok err) then ied_error_str err else msg.

Definition op_select (cfg : DoConfig) : program bool :=
  let! ctrl := call (ControlObjectClient_create (ctl_ref cfg)) in
  match ctrl with
  | None =>
      emit_error "select" (Some (ctl_ref cfg)) "failed to create ControlObjectClient";;
      done_ false
  | Some ctrl =>
      let! ok := call (ControlObjectClient_select ctrl) in
      let! err := call (ControlObjectClient_getLastApplError ctrl) in
      call (ControlObjectClient_destroy ctrl);;
      if negb ok then
        emit_error "select" (Some (ctl_ref cfg)) (control_error err "select returned false");;
        done_ false
      else
        line (ok_line "select" (Some (ctl_ref cfg)) "");;
        done_ true
  end.

Definition operate_line (cfg : DoConfig) (ctlVal : bool) : string :=
  ok_line "operate" (Some (ctl_ref cfg)) (raw_member "ctlval" (bool_text ctlVal)).

Definition op_select_with_value (cfg : DoConfig) (ctlVal : bool) : program bool :=
  let! ctrl := call (ControlObjectClient_create (ctl_ref cfg)) in
  match ctrl with
  | None =>
      emit_error "select-with-value" (Some (ctl_ref cfg)) "failed to create ControlObjectClient";;
      done_ false
  | Some ctrl =>
      let val := MmsValue_newBoolean ctlVal in
      let! ok := call (ControlObjectClient_selectWithValue ctrl val) in
      let! err := call (ControlObjectClient_getLastApplError ctrl) in
      if negb ok then
        emit_error "select-with-value" (Some (ctl_ref cfg))
          (control_error err "selectWithValue returned false");;
        call (ControlObjectClient_destroy ctrl);;
        done_ false
      else
        line (ok_line "select-with-value" (Some (ctl_ref cfg)) "");;
        let! ok := call (ControlObjectClient_operate ctrl val 0) in
        let! err := call (ControlObjectClient_getLastApplError ctrl) in
        call (ControlObjectClient_destroy ctrl);;
        if negb ok then
          emit_error "operate" (Some (ctl_ref cfg)) (control_error err "operate returned false");;
          done_ false
        else
          line (operate_line cfg ctlVal);;
          done_ true
  end.

Definition op_operate (cfg : DoConfig) (ctlVal : bool) : program bool :=
  let! ctrl := call (ControlObjectClient_create (ctl_ref cfg)) in
  match ctrl with
  | None =>
      emit_error "operate" (Some (ctl_ref cfg)) "failed to create ControlObjectClient";;
      done_ false
  | Some ctrl =>
      let val := MmsValue_newBoolean ctlVal in
      let! ok := call (ControlObjectClient_operate ctrl val 0) in
      let! err := call (ControlObjectClient_getLastApplError ctrl) in
      call (ControlObjectClient_destroy ctrl);;
      if negb ok then
        emit_error "operate" (Some (ctl_ref cfg)) (control_error err "operate returned false");;
        done_ false
      else
        line (operate_line cfg ctlVal);;
        done_ true
  end.

Definition op_read_stval (cfg : DoConfig) : program bool :=
  let! r := call (IedConnection_readBooleanValue (stval_ref cfg) IEC61850_FC_ST) in
  let '(val, err) := r in
  let target_buf := snprintf_s 128 (stval_ref cfg +:+ "[ST]") in
  if negb (ied_ok err) then
    emit_error "read-stval" (Some target_buf) (ied_error_str err);; done_ false
  else
    line (ok_line "read-stval" (Some target_buf) (raw_member "value" (bool_text val)));;
    done_ true.

(** [IedConnection_close] and the line after it. *)
Definition conclude : program Z :=
  call IedConnection_close;;
  line conclude_line;;
  done_ 0.

(** The program once connected. *)
Definition control_sequence (cfg : DoConfig) (ctlVal : bool) : program Z :=
  op_read_ctlmodel cfg;;
  let! selected := (if expected_ctlmodel cfg =? 2 then op_select cfg else done_ true) in
  if negb selected then conclude
  else if expected_ctlmodel cfg =? 4 then
    op_select_with_value cfg ctlVal;;
    op_read_stval cfg;;
    conclude
  else
    op_operate cfg ctlVal;;
    op_read_stval cfg;;
    conclude.

Definition controller_options : list string := ["--host"; "--port"; "--ctlval"; "--do"].

(** The program; the result is the exit code. *)
Definition main (version : option string) (argv : list string) : program Z :=
  match jl_handle_meta_flags version argv "libiec61850" with
  | Some l => line l;; done_ 0
  | None =>
      let m := scan_options controller_options (tail argv) [] in
      let host := option_string m "--host" "localhost" in
      let port := option_atoi m "--port" 1102 in
      let ctlVal := negb (option_atoi m "--ctlval" 1 =? 0) in
      let do_name := option_string m "--do" "SPCSO1" in
      if (port <=? 0) || (65535 <? port) then done_ 1
      else
        match find_do do_name DO_CONFIGS with
        | None => done_ 1
        | Some cfg =>
            let! err := call (IedConnection_connect host port) in
            if negb (ied_ok err) then done_ 2
            else control_sequence cfg ctlVal
        end
  end.

End controller.
