(* ===== verification/IedControllerSpec.v ===== *)
(** * Theorems about ied_controller.c

    Whatever the server answers: an operate is sent only as the control model
    of the object allows, every control object client is released, the
    program concludes, and what it reports of an operate is what the operate
    returned. *)

From Stdlib Require Import ZArith Lia String Ascii SpecFloat.
From stdpp Require Import base tactics list strings numbers option.
From S2P Require Import Prelude CText JsonLines Args Mms RefMms Interact IedCommon IedController.

Local Open Scope Z_scope.

Section actions.
Context `{MmsApi}.

(** The control services and the connection in a run, with what they
    returned. *)
Inductive action : Type :=
| Connected (ok : bool)
| Created (ctrl : Z) (ref : string)
| Selected (ctrl : Z) (ok : bool)
| SelectedWith (ctrl : Z) (v : MmsValue) (ok : bool)
| Operated (ctrl : Z) (v : MmsValue) (ok : bool)
| Destroyed (ctrl : Z)
| Closed.

Definition action_of (ev : event IedE) : option action :=
  match ev with
  | called e b =>
      match e in IedE B return B → option action with
      | IedConnection_connect _ _ => λ err, Some (Connected (ied_ok err))
      | ControlObjectClient_create ref => λ c, (λ c, Created c ref) <$> c
      | ControlObjectClient_select c => λ ok, Some (Selected c ok)
      | ControlObjectClient_selectWithValue c v => λ ok, Some (SelectedWith c v ok)
      | ControlObjectClient_operate c v _ => λ ok, Some (Operated c v ok)
      | ControlObjectClient_destroy c => λ _, Some (Destroyed c)
      | IedConnection_close => λ _, Some Closed
      | _ => λ _, None
      end b
  | printed _ => None
  end.

Definition actions (t : list (event IedE)) : list action := omap action_of t.

Lemma actions_app t1 t2 : actions (t1 ++ t2) = actions t1 ++ actions t2.
Proof. apply omap_app. Qed.

(** ** The runs of the operations *)

Definition val_of (b : bool) : MmsValue := MmsValue_newBoolean b.

(** The actions of an operation and whether it wrote the line of a successful
    operate. *)
Inductive op_run (cfg : DoConfig) (v : bool) : list action → bool → Prop :=
| op_no_client : op_run cfg v [] false
| op_operated c ok :
    op_run cfg v [Created c (ctl_ref cfg); Operated c (val_of v) ok; Destroyed c] ok.

Inductive sbow_run (cfg : DoConfig) (v : bool) : list action → bool → Prop :=
| sbow_no_client : sbow_run cfg v [] false
| sbow_refused c :
    sbow_run cfg v [Created c (ctl_ref cfg); SelectedWith c (val_of v) false; Destroyed c] false
| sbow_operated c ok :
    sbow_run cfg v [Created c (ctl_ref cfg); SelectedWith c (val_of v) true;
                    Operated c (val_of v) ok; Destroyed c] ok.

Inductive select_run (cfg : DoConfig) : list action → bool → Prop :=
| select_no_client : select_run cfg [] false
| select_done c ok :
    select_run cfg [Created c (ctl_ref cfg); Selected c ok; Destroyed c] ok.

(** The only lines that can say that an operate succeeded. *)
Definition is_operate_line (cfg : DoConfig) (v : bool) (l : string) : bool :=
  String.eqb l (operate_line cfg v).

Definition says_operated (cfg : DoConfig) (v : bool) (t : list (event IedE)) : bool :=
  existsb (is_operate_line cfg v) (lines t).

Lemma says_operated_app cfg v t1 t2 :
  says_operated cfg v (t1 ++ t2) = says_operated cfg v t1 || says_operated cfg v t2.
Proof. unfold says_operated. by rewrite lines_app, existsb_app. Qed.

Ltac runs := repeat match goal with
  | H : runs _ _ _ |- _ => run_step H
  | H : runs (match ?x with _ => _ end) _ _ |- _ => destruct x eqn:?
  end.

Lemma error_operate cfg v msg :
  cfg ∈ DO_CONFIGS → is_operate_line cfg v (error_line "operate" (Some (ctl_ref cfg)) msg) = false.
Proof. intros Hc. by repeat (apply elem_of_cons in Hc as [->|Hc]; [done|]); apply elem_of_nil in Hc. Qed.

Lemma operate_line_eq cfg v : is_operate_line cfg v (operate_line cfg v) = true.
Proof. unfold is_operate_line. apply String.eqb_refl. Qed.

Lemma says_called {B} cfg v (e : IedE B) b t :
  says_operated cfg v (called e b :: t) = says_operated cfg v t.
Proof. done. Qed.

Lemma says_printed cfg v l t :
  says_operated cfg v (printed l :: t) = is_operate_line cfg v l || says_operated cfg v t.
Proof. done. Qed.

(** Finish the run of an operation: its events are known. *)
Ltac run_done :=
  bool_hyps; subst; cbn [app]; split;
  [cbn [actions omap list_omap action_of fmap option_fmap option_map]; eauto using op_run, sbow_run, select_run|];
  repeat first [rewrite says_called | rewrite says_printed | rewrite error_operate by done
               | rewrite operate_line_eq]; reflexivity.

Lemma op_operate_runs cfg v t ok :
  cfg ∈ DO_CONFIGS → runs (op_operate cfg v) t ok →
  op_run cfg v (actions t) ok ∧ says_operated cfg v t = ok.
Proof. intros Hc Hr. unfold op_operate, emit_error in Hr. runs; run_done. Qed.

Lemma op_select_runs cfg v t ok :
  runs (op_select cfg) t ok → select_run cfg (actions t) ok ∧ says_operated cfg v t = false.
Proof. intros Hr. unfold op_select, emit_error in Hr. runs; run_done. Qed.

Lemma op_select_with_value_runs cfg v t ok :
  cfg ∈ DO_CONFIGS → runs (op_select_with_value cfg v) t ok →
  sbow_run cfg v (actions t) ok ∧ says_operated cfg v t = ok.
Proof. intros Hc Hr. unfold op_select_with_value, emit_error in Hr. runs; run_done. Qed.

Lemma op_read_runs cfg v t ok :
  runs (op_read_ctlmodel cfg) t ok ∨ runs (op_read_stval cfg) t ok →
  actions t = [] ∧ says_operated cfg v t = false.
Proof.
  intros [Hr|Hr]; unfold op_read_ctlmodel, op_read_stval, emit_error in Hr; runs; run_done.
Qed.

Lemma conclude_runs cfg v t code :
  runs conclude t code →
  code = 0 ∧ actions t = [Closed] ∧ lines t = [conclude_line] ∧ says_operated cfg v t = false.
Proof. intros Hr. unfold conclude in Hr. runs. done. Qed.

(** The run of a connected program: what it did before it closed the
    connection, and whether it said that it operated. *)
Inductive control_run (cfg : DoConfig) (v : bool) : list action → bool → Prop :=
| run_direct acts said :
    expected_ctlmodel cfg = 1 → op_run cfg v acts said → control_run cfg v acts said
| run_not_selected acts :
    expected_ctlmodel cfg = 2 → select_run cfg acts false → control_run cfg v acts false
| run_selected acts1 acts2 said :
    expected_ctlmodel cfg = 2 → select_run cfg acts1 true → op_run cfg v acts2 said →
    control_run cfg v (acts1 ++ acts2) said
| run_with_value acts said :
    expected_ctlmodel cfg = 4 → sbow_run cfg v acts said → control_run cfg v acts said.

Lemma models cfg : cfg ∈ DO_CONFIGS →
  expected_ctlmodel cfg = 1 ∨ expected_ctlmodel cfg = 2 ∨ expected_ctlmodel cfg = 4.
Proof.
  intros Hc. repeat (apply elem_of_cons in Hc as [->|Hc]; [simpl; lia|]). by apply elem_of_nil in Hc.
Qed.

(** An operation, the reading of the status and the conclusion. *)
Lemma then_conclude cfg v {A} (p : prog IedE A) t code :
  runs (p;; op_read_stval cfg;; conclude)%prog t code →
  ∃ t1 t2 a, t = t1 ++ t2 ∧ runs p t1 a ∧ code = 0 ∧ actions t2 = [Closed] ∧
    says_operated cfg v t2 = false ∧ ∃ l, lines t2 = l ++ [conclude_line].
Proof.
  intros Hr. apply runs_bind in Hr as (t1 & t2 & a & -> & Hop & Hr).
  apply runs_bind in Hr as (t3 & t4 & st & -> & Hst & Hr).
  destruct (op_read_runs cfg v t3 st (or_intror Hst)) as [Ha3 Hs3].
  destruct (conclude_runs cfg v t4 code Hr) as (-> & Ha4 & Hl4 & Hs4).
  exists t1, (t3 ++ t4), a. rewrite actions_app, says_operated_app, lines_app, Ha3, Hs3, Ha4, Hs4, Hl4.
  eauto 10.
Qed.

(** What a connected program leaves: its actions, its last line, its claim. *)
Definition controlled (cfg : DoConfig) (v : bool) (t : list (event IedE)) : Prop :=
  ∃ acts, actions t = acts ++ [Closed] ∧ control_run cfg v acts (says_operated cfg v t) ∧
    ∃ l, lines t = l ++ [conclude_line].

Lemma controlled_app cfg v t1 t2 :
  control_run cfg v (actions t1) (says_operated cfg v t1) →
  actions t2 = [Closed] → says_operated cfg v t2 = false →
  (∃ l, lines t2 = l ++ [conclude_line]) → controlled cfg v (t1 ++ t2).
Proof.
  intros Hc Ha2 Hs2 [l Hl]. exists (actions t1).
  rewrite actions_app, says_operated_app, lines_app, Ha2, Hs2, Hl, orb_false_r.
  split; [done|]. split; [done|]. exists (lines t1 ++ l). by rewrite app_assoc.
Qed.

Lemma control_sequence_runs cfg v t code :
  cfg ∈ DO_CONFIGS → runs (control_sequence cfg v) t code → code = 0 ∧ controlled cfg v t.
Proof.
  intros Hc Hr. unfold control_sequence in Hr.
  apply runs_bind in Hr as (t1 & t2 & m & -> & Hm & Hr).
  destruct (op_read_runs cfg v t1 m (or_introl Hm)) as [Ha1 Hs1].
  apply runs_bind in Hr as (t3 & t4 & sel & -> & Hsel & Hr). rewrite app_assoc.
  assert (actions (t1 ++ t3) = actions t3) as Ha by by rewrite actions_app, Ha1.
  assert (says_operated cfg v (t1 ++ t3) = says_operated cfg v t3) as Hs
    by by rewrite says_operated_app, Hs1.
  destruct (models cfg Hc) as [Hmod|[Hmod|Hmod]]; rewrite Hmod in Hsel, Hr;
    cbn [negb Z.eqb Pos.eqb] in Hsel.
  - destruct Hsel as [-> ->]. cbn [negb Z.eqb Pos.eqb] in Hr.
    apply (then_conclude cfg v) in Hr as (t5 & t6 & ok & -> & Hop & -> & Ha6 & Hs6 & Hl6).
    destruct (op_operate_runs cfg v t5 ok Hc Hop) as [Ha5 Hs5].
    split; [done|]. rewrite app_assoc. apply controlled_app; auto.
    rewrite actions_app, says_operated_app, Ha, Hs, Hs5. by apply run_direct.
  - destruct (op_select_runs cfg v t3 sel Hsel) as [Ha3 Hs3].
    destruct sel; cbn [negb Z.eqb Pos.eqb] in Hr.
    + apply (then_conclude cfg v) in Hr as (t5 & t6 & ok & -> & Hop & -> & Ha6 & Hs6 & Hl6).
      destruct (op_operate_runs cfg v t5 ok Hc Hop) as [Ha5 Hs5].
      split; [done|]. rewrite app_assoc. apply controlled_app; auto.
      rewrite actions_app, says_operated_app, Ha, Hs, Hs3, Hs5. by apply run_selected.
    + destruct (conclude_runs cfg v t4 code Hr) as (-> & Ha4 & Hl4 & Hs4).
      split; [done|]. apply controlled_app; auto; [|by exists []].
      rewrite Ha, Hs, Hs3. by apply run_not_selected.
  - destruct Hsel as [-> ->]. cbn [negb Z.eqb Pos.eqb] in Hr.
    apply (then_conclude cfg v) in Hr as (t5 & t6 & ok & -> & Hop & -> & Ha6 & Hs6 & Hl6).
    destruct (op_select_with_value_runs cfg v t5 ok Hc Hop) as [Ha5 Hs5].
    split; [done|]. rewrite app_assoc. apply controlled_app; auto.
    rewrite actions_app, says_operated_app, Ha, Hs, Hs5. by apply run_with_value.
Qed.

(** ** The program *)

Definition chosen (argv : list string) : option DoConfig :=
  find_do (option_string (scan_options controller_options (tail argv) []) "--do" "SPCSO1") DO_CONFIGS.

Definition chosen_value (argv : list string) : bool :=
  negb (option_atoi (scan_options controller_options (tail argv) []) "--ctlval" 1 =? 0).

Lemma find_do_elem do_name l cfg : find_do do_name l = Some cfg → cfg ∈ l.
Proof.
  induction l as [|c l IH]; simpl; [done|]. case_match; intros Hf.
  - injection Hf as <-. constructor.
  - constructor. by apply IH.
Qed.

(** The four ends of the program. *)
Inductive main_run (argv : list string) (t : list (event IedE)) : Z → Prop :=
| main_meta : actions t = [] → main_run argv t 0
| main_usage : t = [] → main_run argv t 1
| main_refused : actions t = [Connected false] → lines t = [] → main_run argv t 2
| main_controlled cfg t' err host port :
    chosen argv = Some cfg → ied_ok err = true →
    t = called (IedConnection_connect host port) err :: t' →
    controlled cfg (chosen_value argv) t' → main_run argv t 0.

Lemma controller_main_runs version argv t code : runs (main version argv) t code → main_run argv t code.
Proof.
  intros Hr. unfold main in Hr. destruct (jl_handle_meta_flags version argv "libiec61850").
  { runs. by constructor. }
  cbv zeta in Hr. destruct ((_ <=? 0) || _). { runs. by constructor. }
  destruct (find_do _ _) as [cfg|] eqn:Hf; [|runs; by constructor].
  apply runs_bind in Hr as (t1 & t2 & err & -> & Hc & Hr). apply runs_call in Hc as ->.
  destruct (ied_ok err) eqn:He; cbn [negb] in Hr.
  - apply control_sequence_runs in Hr as [-> Hr]; [|by eapply find_do_elem].
    by eapply main_controlled.
  - runs. apply main_refused; [|done]. simpl. by rewrite He.
Qed.

(** ** What the runs satisfy *)

(** What the control model asks for before an operate. *)
Definition permitted (cfg : DoConfig) (before : list action) (c : Z) (w : MmsValue) : Prop :=
  Created c (ctl_ref cfg) ∈ before ∧
  (expected_ctlmodel cfg = 1 ∨
   expected_ctlmodel cfg = 2 ∧
     (∃ c', Created c' (ctl_ref cfg) ∈ before ∧ Selected c' true ∈ before) ∨
   expected_ctlmodel cfg = 4 ∧ SelectedWith c w true ∈ before).

Definition is_operate (a : action) : bool := match a with Operated _ _ _ => true | _ => false end.

Ltac walk pre := repeat (destruct pre as [|? pre]; simplify_eq/=).

Lemma control_run_permitted cfg v acts said before c w ok after :
  control_run cfg v acts said → acts ++ [Closed] = before ++ Operated c w ok :: after →
  permitted cfg before c w ∧ w = val_of v ∧ existsb is_operate (before ++ after) = false.
Proof.
  intros Hrun Heq. unfold permitted.
  destruct Hrun as [acts said Hm Ho|acts Hm Hs|acts1 acts2 said Hm Hs Ho|acts said Hm Ho];
    try (inversion Hs; subst; clear Hs); try (inversion Ho; subst; clear Ho); simpl in Heq;
    walk before; (split; [split; [by repeat constructor|]|done]).
  - by left.
  - right; left. split; [done|]. eexists. split; by repeat constructor.
  - right; right. split; [done|]. by repeat constructor.
Qed.

Definition created_of (a : action) : option Z := match a with Created c _ => Some c | _ => None end.
Definition destroyed_of (a : action) : option Z := match a with Destroyed c => Some c | _ => None end.

Lemma control_run_released cfg v acts said :
  control_run cfg v acts said → omap created_of acts = omap destroyed_of acts.
Proof.
  intros Hrun. destruct Hrun as [acts said Hm Ho|acts Hm Hs|acts1 acts2 said Hm Hs Ho|acts said Hm Ho];
    try (inversion Hs; subst; clear Hs); try (inversion Ho; subst; clear Ho); done.
Qed.

Lemma no_operate acts c w ok : existsb is_operate acts = false → Operated c w ok ∉ acts.
Proof.
  intros Hf Hin. induction acts as [|a acts IH]; [by apply elem_of_nil in Hin|].
  simpl in Hf. apply orb_false_iff in Hf as [Ha Hf].
  apply elem_of_cons in Hin as [<-|Hin]; [done|]. by apply IH.
Qed.

Lemma one_operate before after c w ok :
  existsb is_operate before = false → existsb is_operate after = false →
  ok = true ↔ ∃ c', Operated c' w true ∈ before ++ Operated c w ok :: after.
Proof.
  intros Hb Ha. split.
  - intros ->. exists c. apply elem_of_app. right. constructor.
  - intros [c' Hin]. apply elem_of_app in Hin as [Hin|Hin]; [by apply no_operate in Hin|].
    apply elem_of_cons in Hin as [[= _ <-]|Hin]; [done|by apply no_operate in Hin].
Qed.

Lemma control_run_said cfg v acts said :
  control_run cfg v acts said → said = true ↔ ∃ c, Operated c (val_of v) true ∈ acts.
Proof.
  assert (∀ l, existsb is_operate l = false →
    false = true ↔ ∃ c, Operated c (val_of v) true ∈ l) as Hno.
  { intros l Hl. split; [done|]. intros [c Hin]. by apply no_operate in Hin. }
  intros Hrun. destruct Hrun as [acts said Hm Ho|acts Hm Hs|acts1 acts2 said Hm Hs Ho|acts said Hm Ho];
    try (inversion Hs; subst; clear Hs); try (inversion Ho; subst; clear Ho); try by apply Hno.
  - by apply (one_operate [_] [_]).
  - by apply (one_operate [_; _; _; _] [_]).
  - by apply (one_operate [_; _] [_]).
Qed.

(** ** The theorems *)

(** C2: Whatever the server answers, the IED controller operates a control
    object at most once, on the connected server, through a client of the
    configured object, with the value of the command line, and only after the
    select (SBO) or select-with-value of that very value (SBOw) was accepted. *)
Theorem controller_operates_as_permitted version argv t code before c w ok after :
  runs (main version argv) t code →
  actions t = before ++ Operated c w ok :: after →
  ∃ cfg, chosen argv = Some cfg ∧ w = val_of (chosen_value argv) ∧
    Connected true ∈ before ∧ permitted cfg before c w ∧
    existsb is_operate (before ++ after) = false.
Proof.
  intros Hr Heq. apply controller_main_runs in Hr. destruct Hr as [Ha| Ht |Ha _|cfg t' err host port Hch He -> Hc].
  - rewrite Ha in Heq. by destruct before.
  - subst t. by destruct before.
  - rewrite Ha in Heq. walk before.
  - destruct Hc as (acts & Ha & Hrun & _). exists cfg. simpl in Heq. rewrite He in Heq.
    fold (actions t') in Heq. rewrite Ha in Heq. destruct before as [|a before]; [done|]. injection Heq as <- Heq.
    destruct (control_run_permitted _ _ _ _ _ _ _ _ _ Hrun Heq) as ([Hcr Hm] & -> & Hno).
    split; [done|]. split; [done|]. split; [constructor|]. split; [|done].
    split; [by constructor|].
    destruct Hm as [Hm|[(Hm & c' & H1 & H2)|[Hm H1]]]; [by left|right; left|right; right].
    + split; [done|]. exists c'. split; by constructor.
    + split; [done|]. by constructor.
Qed.

(** Every end of the program. *)
Theorem controller_concludes version argv t code :
  runs (main version argv) t code →
  (code = 0 ∧ actions t = []) ∨ (code = 1 ∧ t = []) ∨
  (code = 2 ∧ actions t = [Connected false] ∧ lines t = []) ∨
  (code = 0 ∧ ∃ acts l, actions t = Connected true :: acts ++ [Closed] ∧
     omap created_of acts = omap destroyed_of acts ∧ lines t = l ++ [conclude_line]).
Proof.
  intros Hr. apply controller_main_runs in Hr. destruct Hr as [Ha| Ht |Ha Hl|cfg t' err host port Hch He -> Hc].
  - by left.
  - right; by left.
  - right; right; by left.
  - right; right; right. split; [done|]. destruct Hc as (acts & Ha & Hrun & l & Hl).
    exists acts, l. simpl. rewrite He. fold (actions t') (lines t'). rewrite Ha.
    split; [done|]. split; [by eapply control_run_released|done].
Qed.

(** The IED controller says that it operated exactly when an operate was
    accepted. *)
Theorem controller_says_what_it_did cfg v t code :
  cfg ∈ DO_CONFIGS → runs (control_sequence cfg v) t code →
  says_operated cfg v t = true ↔ ∃ c, Operated c (val_of v) true ∈ actions t.
Proof.
  intros Hc Hr. apply control_sequence_runs in Hr as [_ (acts & Ha & Hrun & _)]; [|done].
  rewrite (control_run_said _ _ _ _ Hrun), Ha. f_equiv. intros c. rewrite elem_of_app.
  split; [by left|]. intros [Hin|Hin]; [done|].
  apply elem_of_cons in Hin as [Hin|Hin]; [done|by apply elem_of_nil in Hin].
Qed.

End actions.

(** ** A server that accepts everything *)

Definition ready_server `{MmsApi} (B : Type) (e : IedE B) (s : unit) : B * unit := (accepts e, s).

Definition sbow_argv : list string := ["ied_controller"; "--do"; "SPCSO3"; "--ctlval"; "0"].

Definition sbow_trace : list (event (IedE (H := ref_mms))) :=
  trace_of (exec 0 ready_server tt (main (H := ref_mms) None sbow_argv)).

Lemma controller_operates_as_permitted_witness :
  ∃ cfg, chosen sbow_argv = Some cfg ∧
    (val_of (H := ref_mms) false) = val_of (chosen_value sbow_argv) ∧
    Connected true ∈ [Connected true; Created 7 "InteropLD/GGIO1.SPCSO3";
                      SelectedWith 7 (val_of (H := ref_mms) false) true] ∧
    permitted cfg [Connected true; Created 7 "InteropLD/GGIO1.SPCSO3";
                   SelectedWith 7 (val_of (H := ref_mms) false) true] 7 (val_of false) ∧
    existsb is_operate ([Connected true; Created 7 "InteropLD/GGIO1.SPCSO3";
                   SelectedWith 7 (val_of (H := ref_mms) false) true] ++ [Destroyed 7; Closed]) = false.
Proof.
  apply (controller_operates_as_permitted (H := ref_mms) None sbow_argv sbow_trace 0 _ 7 _ true).
  - by apply (exec_runs 0 ready_server tt _ sbow_trace 0 tt).
  - reflexivity.
Defined.

Lemma controller_concludes_witness :
  (0 = 0 ∧ actions sbow_trace = []) ∨ (0 = 1 ∧ sbow_trace = []) ∨
  (0 = 2 ∧ actions sbow_trace = [Connected false] ∧ lines sbow_trace = []) ∨
  (0 = 0 ∧ ∃ acts l, actions sbow_trace = Connected true :: acts ++ [Closed] ∧
     omap created_of acts = omap destroyed_of acts ∧ lines sbow_trace = l ++ [conclude_line]).
Proof.
  apply (controller_concludes (H := ref_mms) None sbow_argv sbow_trace 0).
  by apply (exec_runs 0 ready_server tt _ sbow_trace 0 tt).
Defined.

Definition direct_cfg : DoConfig :=
  mk_do "InteropLD/GGIO1.SPCSO1" "InteropLD/GGIO1.SPCSO1.ctlModel" "InteropLD/GGIO1.SPCSO1.stVal" 1.

Definition direct_trace : list (event (IedE (H := ref_mms))) :=
  trace_of (exec 0 ready_server tt (control_sequence (H := ref_mms) direct_cfg true)).

Lemma controller_says_what_it_did_witness :
  says_operated direct_cfg true direct_trace = true ↔
  ∃ c, Operated (H := ref_mms) c (val_of true) true ∈ actions direct_trace.
Proof.
  apply (controller_says_what_it_did (H := ref_mms) direct_cfg true direct_trace 0).
  - apply list_elem_of_here.
  - by apply (exec_runs 0 ready_server tt _ direct_trace 0 tt).
Defined.
