(* ===== verification/IedReporter.v ===== *)
(** * ied_reporter.c

    The client of the report control block: it enables reporting, writes the
    status that triggers a report, waits for the report and writes what the
    callback kept of it. *)

From Stdlib Require Import ZArith Lia String Ascii SpecFloat.
From stdpp Require Import base tactics list strings numbers option.
From S2P Require Import Prelude CText JsonLines Args Mms Interact IedCommon.

Local Open Scope Z_scope.
Local Open Scope prog_scope.

Definition RCB_REF : string := "InteropLD/LLN0.RP.urcb01".
Definition RCB_RPTID : string := "interop_urcb01".
Definition SPS1_REF : string := "InteropLD/GGIO1.SPS1.stVal".
Definition DS_SIZE : Z := 2.

(** The semaphore apart: its count is that of the reports received. *)
Record ReportState := mk_report_state {
  received : bool;
  rptID : string;
  seqNum : Z;
  inclusion : Z → bool;
  val0 : bool;
  val0_present : bool;
  val1 : Z;
  val1_present : bool;
  reasons : list ReasonForInclusion
}.

(** After [memset]. *)
Definition report_state_zero : ReportState :=
  mk_report_state false "" 0 (λ _, false) false false 0 false [].

Definition reason_count (st : ReportState) : Z := Z.of_nat (length (reasons st)).

(** This file's [ied_error_str] has no case for
    [IED_ERROR_OBJECT_ACCESS_UNSUPPORTED]. *)
Definition reporter_error_str (err : IedClientError) : string :=
  match err with
  | IED_ERROR_OK => "ok"
  | IED_ERROR_NOT_CONNECTED => "not-connected"
  | IED_ERROR_ALREADY_CONNECTED => "already-connected"
  | IED_ERROR_CONNECTION_LOST => "connection-lost"
  | IED_ERROR_SERVICE_NOT_SUPPORTED => "service-not-supported"
  | IED_ERROR_TIMEOUT => "timeout"
  | IED_ERROR_ACCESS_DENIED => "access-denied"
  | IED_ERROR_OBJECT_DOES_NOT_EXIST => "object-does-not-exist"
  | IED_ERROR_OBJECT_EXISTS => "object-exists"
  | IED_ERROR_TYPE_INCONSISTENT => "type-inconsistent"
  | _ => "unknown-error"
  end.

Definition reason_included (r : ReasonForInclusion) : bool :=
  match r with IEC61850_REASON_NOT_INCLUDED => false | _ => true end.

Definition reason_str (r : ReasonForInclusion) : string :=
  match r with
  | IEC61850_REASON_DATA_CHANGE => "data-change"
  | IEC61850_REASON_QUALITY_CHANGE => "quality-change"
  | IEC61850_REASON_DATA_UPDATE => "data-update"
  | IEC61850_REASON_INTEGRITY => "integrity"
  | IEC61850_REASON_GI => "gi"
  | _ => "unknown"
  end.

(** The text between brackets. *)
Definition bracketed (l : list string) : string := "[" +:+ String.concat "," l +:+ "]".

Section reporter.
Context `{MmsApi}.

Abbreviation program := (prog IedE).

(** *** The report callback *)

Definition dataset_values_size (dsValues : option MmsValue) : Z :=
  let n := match dsValues with
           | Some v =>
               if bool_decide (MmsValue_getType v = MMS_STRUCTURE)
                  || bool_decide (MmsValue_getType v = MMS_ARRAY)
               then MmsValue_getArraySize v else 0
           | None => 0
           end in
  if DS_SIZE <? n then DS_SIZE else n.

(** One turn of the loop over the members. *)
Definition report_member (report : ClientReport) (n : Z) (st : ReportState) (i : Z) : ReportState :=
  let reason := report_reason report i in
  let included := reason_included reason in
  let st := mk_report_state (received st) (rptID st) (seqNum st)
              (λ j, if j =? i then included else inclusion st j)
              (val0 st) (val0_present st) (val1 st) (val1_present st)
              (if included && (reason_count st <? DS_SIZE) then reasons st ++ [reason]
               else reasons st) in
  if negb included || (n <=? i) then st
  else
    match report_dataSetValues report ≫= λ v, MmsValue_getElement v i with
    | None => st
    | Some mval =>
        if (i =? 0) && bool_decide (MmsValue_getType mval = MMS_BOOLEAN) then
          mk_report_state (received st) (rptID st) (seqNum st) (inclusion st)
            (MmsValue_getBoolean mval) true (val1 st) (val1_present st) (reasons st)
        else if (i =? 1) && bool_decide (MmsValue_getType mval = MMS_INTEGER) then
          mk_report_state (received st) (rptID st) (seqNum st) (inclusion st)
            (val0 st) (val0_present st) (MmsValue_toInt32 mval) true (reasons st)
        else st
    end.

Definition reportCallback (st : ReportState) (report : ClientReport) : ReportState :=
  let st := mk_report_state (received st) (snprintf_s 128 (default "" (report_rptId report)))
              (report_seqNum report) (inclusion st) (val0 st) (val0_present st) (val1 st)
              (val1_present st) [] in
  let st := fold_left (report_member report (dataset_values_size (report_dataSetValues report)))
              (range DS_SIZE) st in
  mk_report_state true (rptID st) (seqNum st) (inclusion st) (val0 st) (val0_present st)
    (val1 st) (val1_present st) (reasons st).

(** *** Lines *)

Definition report_line (st : ReportState) : string :=
  "{" +:+ member "operation" "receive-report" +:+ "," +:+ Q "ok" +:+ ":true," +:+
  member "rptID" (rptID st) +:+ "," +:+ Q "seqNum" +:+ ":" +:+ fmt_u (seqNum st) +:+ "," +:+
  Q "inclusion" +:+ ":" +:+ bracketed ((λ i, bool_text (inclusion st i)) <$> range DS_SIZE) +:+ "," +:+
  Q "values" +:+ ":" +:+ bracketed
    ((if inclusion st 0
      then [if val0_present st then bool_text (val0 st) else "null"] else []) ++
     (if inclusion st 1
      then [if val1_present st then fmt_d (val1 st) else "null"] else [])) +:+ "," +:+
  Q "reasons" +:+ ":" +:+ bracketed ((λ r, Q (reason_str r)) <$> reasons st) +:+ "}" +:+ newline.

Definition emit_report (st : ReportState) : program unit := line (report_line st).

Definition emit_error (op : string) (target : option string) (msg : string) : program unit :=
  line (error_line op target msg).

(** *** The sequence, part by part *)

Definition SPS1_ST : string := SPS1_REF +:+ "[ST]".
Definition no_report : string := "timeout-waiting-for-dchg-report".

Definition get_rcb_line (rpt : option string) (ena : bool) : string :=
  ok_line "get-rcb" (Some RCB_REF)
    ("," +:+ member "rptID" (default "" rpt) +:+ raw_member "rptEna" (bool_text ena)).

Definition write_status (initial : bool) : program unit :=
  let! err := call (IedConnection_writeBooleanValue SPS1_REF IEC61850_FC_ST (negb initial)) in
  if negb (ied_ok err) then emit_error "write" (Some SPS1_ST) (reporter_error_str err)
  else line (ok_line "write" (Some SPS1_ST) "").

(** The wait of ten seconds, during which the callback runs. *)
Definition receive_report (st : ReportState) : program unit :=
  let! r := call (sem_timedwait 10) in
  let '(reports, posted) := r in
  let st := fold_left reportCallback reports st in
  if posted && received st then emit_report st
  else emit_error "receive-report" None no_report.

Definition disable_rcb : program unit :=
  let! err := call (IedConnection_setRCBValues RCB_REF false) in
  if negb (ied_ok err) then emit_error "disable-rcb" (Some RCB_REF) (reporter_error_str err)
  else line (ok_line "disable-rcb" (Some RCB_REF) "").

(** The program once connected. *)
Definition report_sequence (initial : bool) : program Z :=
  let! r := call (IedConnection_getRCBValues RCB_REF) in
  let '(rpt, ena, err) := r in
  if negb (ied_ok err) then
    emit_error "get-rcb" (Some RCB_REF) (reporter_error_str err);;
    call IedConnection_close;;
    done_ 0
  else
    line (get_rcb_line rpt ena);;
    call (IedConnection_installReportHandler RCB_REF RCB_RPTID);;
    let! err := call (IedConnection_setRCBValues RCB_REF true) in
    if negb (ied_ok err) then
      emit_error "enable-rcb" (Some RCB_REF) (reporter_error_str err);;
      call IedConnection_close;;
      done_ 0
    else
      line (ok_line "enable-rcb" (Some RCB_REF) "");;
      write_status initial;;
      receive_report report_state_zero;;
      disable_rcb;;
      call IedConnection_close;;
      line conclude_line;;
      done_ 0.

Definition reporter_options : list string := ["--host"; "--port"; "--sps1-initial"].

(** The program; the result is the exit code. *)
Definition main (version : option string) (argv : list string) : program Z :=
  match jl_handle_meta_flags version argv "libiec61850" with
  | Some l => line l;; done_ 0
  | None =>
      let m := scan_options reporter_options (tail argv) [] in
      let host := option_string m "--host" "localhost" in
      let port := option_atoi m "--port" 1102 in
      let initial := negb (option_atoi m "--sps1-initial" 1 =? 0) in
      if (port <=? 0) || (65535 <? port) then done_ 1
      else
        let! err := call (IedConnection_connect host port) in
        if negb (ied_ok err) then done_ 2
        else report_sequence initial
  end.

End reporter.
