(* ===== verification/IedReporterSpec.v ===== *)
(** * Theorems about ied_reporter.c

    What the report callback keeps of a report and the line written of it,
    every end of the program with the lines it leaves, and that reporting is
    disabled again whenever it was enabled. *)

From Stdlib Require Import ZArith Lia String Ascii SpecFloat.
From stdpp Require Import base tactics list strings numbers option.
From S2P Require Import Prelude CText JsonLines Args Mms RefMms Interact IedCommon IedReporter.

Local Open Scope Z_scope.

Section spec.
Context `{MmsApi}.

(** ** A report and its line *)

Definition included (r : ClientReport) (i : Z) : bool := reason_included (report_reason r i).

Definition report_compound (r : ClientReport) : bool :=
  match report_dataSetValues r with
  | Some v => match MmsValue_getType v with MMS_STRUCTURE | MMS_ARRAY => true | _ => false end
  | None => false
  end.

(** The member [i] of the data set, where it is there. *)
Definition report_element (r : ClientReport) (i : Z) : option MmsValue :=
  match report_dataSetValues r with
  | Some v =>
      if report_compound r && (i <? MmsValue_getArraySize v) then MmsValue_getElement v i else None
  | None => None
  end.

(** The text of the value a report gives a member: of a boolean first, of an
    integer second; a value of another type, or none, gives nothing. *)
Definition member_given (r : ClientReport) (i : Z) : option string :=
  if included r i then
    match report_element r i with
    | Some v =>
        match MmsValue_getType v with
        | MMS_BOOLEAN => if i =? 0 then Some (bool_text (MmsValue_getBoolean v)) else None
        | MMS_INTEGER => if i =? 1 then Some (fmt_d (MmsValue_toInt32 v)) else None
        | _ => None
        end
    | None => None
    end
  else None.

(** What the line has of a member after some reports: the value the last of
    them that gave it one did, and null when none has. *)
Definition member_text (rs : list ClientReport) (i : Z) : string :=
  default "null" (list.last (omap (λ r, member_given r i) rs)).

(** The members a report includes. *)
Definition included_members (r : ClientReport) : list Z := filter (λ i, included r i = true) [0; 1].

Lemma report_element_first r n i :
  n = dataset_values_size (report_dataSetValues r) → i = 0 ∨ i = 1 →
  (if n <=? i then None else report_dataSetValues r ≫= λ v, MmsValue_getElement v i)
  = report_element r i.
Proof.
  intros -> Hi. unfold dataset_values_size, report_element, report_compound, DS_SIZE.
  destruct (report_dataSetValues r) as [v|]; [|by destruct Hi as [-> | ->]].
  cbn [mbind option_bind].
  assert (∀ n, ((if 2 <? n then 2 else n) <=? i) = negb (i <? n)) as Hn.
  { intros n. destruct (Z.ltb_spec 2 n), (Z.ltb_spec i n); simpl; lia. }
  rewrite Hn. assert ((i <? 0) = false) as H0 by lia.
  destruct (MmsValue_getType v);
    repeat first [rewrite bool_decide_eq_true_2 by done | rewrite bool_decide_eq_false_2 by done];
    cbn [orb andb]; rewrite ?H0; try done; by destruct (i <? MmsValue_getArraySize v).
Qed.

Lemma included_members_cases r :
  included_members r
  = (if included r 0 then [0] else []) ++ (if included r 1 then [1] else []).
Proof. unfold included_members. rewrite !list.filter_cons. by destruct (included r 0), (included r 1). Qed.

(** The values the line has of a state. *)
Definition state_values (st : ReportState) : list string :=
  (if inclusion st 0
   then [if val0_present st then bool_text (val0 st) else "null"] else []) ++
  (if inclusion st 1
   then [if val1_present st then fmt_d (val1 st) else "null"] else []).

(** One turn of the callback's loop, field by field. *)
Ltac turn_cases :=
  unfold report_member; cbv zeta; destruct (negb _ || _); [done|];
  destruct (report_dataSetValues _ ≫= _); [|done];
  cbn [Z.eqb Pos.eqb andb]; repeat match goal with |- context [if ?b && bool_decide ?P then _ else _] =>
    destruct (b && bool_decide P)
  | |- context [if bool_decide ?P then _ else _] => destruct (bool_decide P) end; done.

Lemma report_member_inclusion r n st i j :
  inclusion (report_member r n st i) j = if j =? i then included r i else inclusion st j.
Proof. turn_cases. Qed.

Lemma report_member_kept r n st i :
  rptID (report_member r n st i) = rptID st ∧ seqNum (report_member r n st i) = seqNum st.
Proof. turn_cases. Qed.

Lemma report_member_reasons r n st i :
  reasons (report_member r n st i)
  = if included r i && (reason_count st <? 2) then reasons st ++ [report_reason r i] else reasons st.
Proof. turn_cases. Qed.

(** What a state holds of the members. *)
Definition held0 (st : ReportState) : option string :=
  if val0_present st then Some (bool_text (val0 st)) else None.
Definition held1 (st : ReportState) : option string :=
  if val1_present st then Some (fmt_d (val1 st)) else None.

(** A value that is given replaces the one that is held. *)
Definition replaced (given held : option string) : option string :=
  match given with Some x => Some x | None => held end.

Lemma report_member_val0 r st :
  held0 (report_member r (dataset_values_size (report_dataSetValues r)) st 0)
  = replaced (member_given r 0) (held0 st).
Proof.
  unfold held0, member_given, included. rewrite <- (report_element_first r _ 0 eq_refl (or_introl eq_refl)).
  unfold report_member. destruct (reason_included _); [|done]. cbn [negb orb].
  destruct (_ <=? 0); [done|].
  destruct (report_dataSetValues r ≫= _) as [v|]; [|done].
  by destruct (MmsValue_getType v).
Qed.

Lemma report_member_val1 r st :
  held1 (report_member r (dataset_values_size (report_dataSetValues r)) st 1)
  = replaced (member_given r 1) (held1 st).
Proof.
  unfold held1, member_given, included. rewrite <- (report_element_first r _ 1 eq_refl (or_intror eq_refl)).
  unfold report_member. destruct (reason_included _); [|done]. cbn [negb orb].
  destruct (_ <=? 1); [done|].
  destruct (report_dataSetValues r ≫= _) as [v|]; [|done].
  by destruct (MmsValue_getType v).
Qed.

Lemma report_member_other0 r n st : held0 (report_member r n st 1) = held0 st.
Proof. unfold held0. turn_cases. Qed.

Lemma report_member_other1 r n st : held1 (report_member r n st 0) = held1 st.
Proof. unfold held1. turn_cases. Qed.

Lemma report_callback_state st0 r :
  let st := reportCallback st0 r in
  rptID st = snprintf_s 128 (default "" (report_rptId r)) ∧ seqNum st = report_seqNum r ∧
  inclusion st 0 = included r 0 ∧ inclusion st 1 = included r 1 ∧
  held0 st = replaced (member_given r 0) (held0 st0) ∧ held1 st = replaced (member_given r 1) (held1 st0) ∧
  reasons st = report_reason r <$> included_members r.
Proof.
  intros st. unfold st, reportCallback. change (range DS_SIZE) with [0; 1]. cbn [fold_left].
  set (n := dataset_values_size (report_dataSetValues r)).
  set (st1 := mk_report_state _ (snprintf_s _ _) _ _ _ _ _ _ _). cbn [rptID seqNum inclusion reasons].
  change (held0 st0) with (held0 st1). change (held1 st0) with (held1 st1).
  destruct (report_member_kept r n (report_member r n st1 0) 1) as [-> ->].
  destruct (report_member_kept r n st1 0) as [-> ->].
  split; [done|]. split; [done|]. rewrite !report_member_inclusion. cbn [Z.eqb Pos.eqb].
  split; [done|]. split; [done|].
  split; [transitivity (held0 (report_member r n (report_member r n st1 0) 1)); [done|];
          rewrite report_member_other0; apply report_member_val0|].
  split; [transitivity (held1 (report_member r n (report_member r n st1 0) 1)); [done|];
          unfold n; rewrite report_member_val1, report_member_other1; done|].
  rewrite included_members_cases, !report_member_reasons. unfold reason_count.
  rewrite !report_member_reasons. by destruct (included r 0), (included r 1).
Qed.

(** What is held after some reports. *)
Lemma reports_held rs :
  let st := fold_left reportCallback rs report_state_zero in
  held0 st = list.last (omap (λ r, member_given r 0) rs) ∧
  held1 st = list.last (omap (λ r, member_given r 1) rs).
Proof.
  induction rs as [|r rs [IH0 IH1]] using rev_ind; [done|]. cbv zeta. rewrite fold_left_app.
  cbn [fold_left]. destruct (report_callback_state (fold_left reportCallback rs report_state_zero) r)
    as (_ & _ & _ & _ & -> & -> & _).
  rewrite !omap_app, !list.last_app, IH0, IH1. cbn [omap list_omap].
  by destruct (member_given r 0), (member_given r 1).
Qed.

(** The line of a report, from its parts. *)
Definition report_text (id : string) (seq : Z) (incl values why : list string) : string :=
  "{" +:+ member "operation" "receive-report" +:+ "," +:+ Q "ok" +:+ ":true," +:+
  member "rptID" id +:+ "," +:+ Q "seqNum" +:+ ":" +:+ fmt_u seq +:+ "," +:+
  Q "inclusion" +:+ ":" +:+ bracketed incl +:+ "," +:+
  Q "values" +:+ ":" +:+ bracketed values +:+ "," +:+
  Q "reasons" +:+ ":" +:+ bracketed why +:+ "}" +:+ newline.

Definition described (rs : list ClientReport) (r : ClientReport) : string :=
  report_text (snprintf_s 128 (default "" (report_rptId r))) (report_seqNum r)
    ((λ i, bool_text (included r i)) <$> [0; 1])
    (member_text (rs ++ [r]) <$> included_members r)
    ((λ i, Q (reason_str (report_reason r i))) <$> included_members r).

Lemma report_line_text st :
  report_line st
  = report_text (rptID st) (seqNum st) ((λ i, bool_text (inclusion st i)) <$> range DS_SIZE)
      (state_values st) ((λ r, Q (reason_str r)) <$> reasons st).
Proof. reflexivity. Qed.

Lemma state_values_held st :
  state_values st = (if inclusion st 0 then [default "null" (held0 st)] else []) ++
                    (if inclusion st 1 then [default "null" (held1 st)] else []).
Proof. unfold state_values, held0, held1. by destruct (val0_present st), (val1_present st). Qed.

(** A report that gives every member it includes a value. *)
Definition gives_all (r : ClientReport) : Prop :=
  Forall (λ i, is_Some (member_given r i)) (included_members r).

Lemma member_text_given rs r i x : member_given r i = Some x → member_text (rs ++ [r]) i = x.
Proof.
  intros Hg. unfold member_text. rewrite omap_app. cbn [omap list_omap]. rewrite Hg.
  by rewrite list.last_snoc.
Qed.

(** C22: The line of the last of any number of reports received names the
    report, the members it includes, a value for each of these and its reason,
    in order: the value is the one of the report when it has the type of the
    data set, otherwise the last value of that member an earlier report had, or
    null when none had; so for the first report, or one with a value for each
    included member, the line describes that report alone. *)
Theorem report_line_describes rs r :
  report_line (fold_left reportCallback (rs ++ [r]) report_state_zero) = described rs r ∧
  (rs = [] ∨ gives_all r → described rs r = described [] r).
Proof.
  split.
  - rewrite report_line_text, state_values_held. unfold described, member_text.
    destruct (reports_held (rs ++ [r])) as [-> ->].
    rewrite fold_left_app. cbn [fold_left].
    destruct (report_callback_state (fold_left reportCallback rs report_state_zero) r)
      as (-> & -> & H0 & H1 & _ & _ & ->).
    rewrite H0, H1. rewrite <- list_fmap_compose. change (range DS_SIZE) with [0; 1].
    rewrite !fmap_cons, H0, H1, included_members_cases.
    by destruct (included r 0), (included r 1).
  - intros [->|Hall]; [done|]. unfold described. f_equal. apply list_fmap_ext. intros k i Hi.
    apply list_elem_of_lookup_2 in Hi. unfold gives_all in Hall. rewrite list.Forall_forall in Hall.
    destruct (Hall i Hi) as [x Hx]. by rewrite !(member_text_given _ r i x).
Qed.

(** ** The runs of the program *)

(** What a run did to the control block and the connection. *)
Inductive rcb_action : Type :=
| Connected (ok : bool)
| Enabled (ok : bool)
| Wrote (v ok : bool)
| Waited (reports : list ClientReport) (posted : bool)
| Disabled (ok : bool)
| Closed.

Definition action_of (ev : event IedE) : option rcb_action :=
  match ev with
  | called e b =>
      match e in IedE B return B → option rcb_action with
      | IedConnection_connect _ _ => λ err, Some (Connected (ied_ok err))
      | IedConnection_setRCBValues _ ena => λ err,
          Some (if ena then Enabled (ied_ok err) else Disabled (ied_ok err))
      | IedConnection_writeBooleanValue _ _ v => λ err, Some (Wrote v (ied_ok err))
      | sem_timedwait _ => λ x, Some (Waited x.1 x.2)
      | IedConnection_close => λ _, Some Closed
      | _ => λ _, None
      end b
  | printed _ => None
  end.

Definition rcb_actions (t : list (event IedE)) : list rcb_action := omap action_of t.

(** The line of an operation: [ok] or the error. *)
Definition outcome_line (op : string) (target : option string) (err : IedClientError) : string :=
  if ied_ok err then ok_line op target "" else error_line op target (reporter_error_str err).

(** The line of the wait: the last state the callback left, or the time-out. *)
Definition wait_line (reports : list ClientReport) (posted : bool) : string :=
  let st := fold_left reportCallback reports report_state_zero in
  if posted && received st then report_line st
  else error_line "receive-report" None no_report.

(** The ends of the connected program, with their lines. *)
Inductive sequence_run (initial : bool) : list rcb_action → list string → Prop :=
| rcb_unknown err :
    ied_ok err = false →
    sequence_run initial [Closed] [outcome_line "get-rcb" (Some RCB_REF) err]
| rcb_refused rpt ena err :
    ied_ok err = false →
    sequence_run initial [Enabled false; Closed]
      [get_rcb_line rpt ena; outcome_line "enable-rcb" (Some RCB_REF) err]
| rcb_reported rpt ena err reports posted err' :
    sequence_run initial
      [Enabled true; Wrote (negb initial) (ied_ok err); Waited reports posted;
       Disabled (ied_ok err'); Closed]
      [get_rcb_line rpt ena; ok_line "enable-rcb" (Some RCB_REF) "";
       outcome_line "write" (Some SPS1_ST) err; wait_line reports posted;
       outcome_line "disable-rcb" (Some RCB_REF) err'; conclude_line].

Lemma rcb_actions_app t1 t2 : rcb_actions (t1 ++ t2) = rcb_actions t1 ++ rcb_actions t2.
Proof. apply omap_app. Qed.

(** The events of a run are known: its actions and lines. *)
Ltac run_done :=
  cbn [app rcb_actions lines omap list_omap action_of];
  repeat match goal with H : ied_ok _ = _ |- _ => rewrite H; clear H end; done.

(** A run of one of the three short operations. *)
Lemma write_status_runs initial t u :
  runs (write_status initial) t u →
  ∃ err, rcb_actions t = [Wrote (negb initial) (ied_ok err)] ∧
    lines t = [outcome_line "write" (Some SPS1_ST) err].
Proof.
  intros Hr. unfold write_status, emit_error in Hr. run_step Hr. run_step Hr0. exists a.
  unfold outcome_line. destruct (ied_ok a) eqn:Ha; cbn [negb] in Hr1; run_step Hr1; run_done.
Qed.

Lemma disable_rcb_runs t u :
  runs disable_rcb t u →
  ∃ err, rcb_actions t = [Disabled (ied_ok err)] ∧
    lines t = [outcome_line "disable-rcb" (Some RCB_REF) err].
Proof.
  intros Hr. unfold disable_rcb, emit_error in Hr. run_step Hr. run_step Hr0. exists a.
  unfold outcome_line. destruct (ied_ok a) eqn:Ha; cbn [negb] in Hr1; run_step Hr1; run_done.
Qed.

Lemma receive_report_runs t u :
  runs (receive_report report_state_zero) t u →
  ∃ reports posted, rcb_actions t = [Waited reports posted] ∧ lines t = [wait_line reports posted].
Proof.
  intros Hr. unfold receive_report, emit_error, emit_report in Hr. run_step Hr. run_step Hr0.
  destruct a as [reports posted]. exists reports, posted. unfold wait_line. cbv zeta.
  destruct (posted && _); run_step Hr1; done.
Qed.

Ltac runs := repeat match goal with
  | H : runs (match ?x with _ => _ end) _ _ |- _ => destruct x eqn:?
  | H : runs _ _ _ |- _ => run_step H
  end.

Lemma outcome_error op target err :
  ied_ok err = false → error_line op target (reporter_error_str err) = outcome_line op target err.
Proof. unfold outcome_line. by intros ->. Qed.

(** Every branch of the connected program. *)
Theorem report_sequence_runs initial t code :
  runs (report_sequence initial) t code →
  code = 0 ∧ sequence_run initial (rcb_actions t) (lines t).
Proof.
  intros Hr. unfold report_sequence, emit_error in Hr. runs; bool_hyps; (split; [done|]);
    rewrite ?outcome_error by done.
  - by apply rcb_unknown.
  - pose proof (rcb_refused initial o b a2 Heqb1) as Hrun. rewrite <- Heqb1 in Hrun at 1. exact Hrun.
  - match goal with H : runs (write_status _) _ _ |- _ =>
      apply write_status_runs in H as (ew & Aw & Lw) end.
    match goal with H : runs (receive_report _) _ _ |- _ =>
      apply receive_report_runs in H as (reports & posted & Ar & Lr) end.
    match goal with H : runs disable_rcb _ _ |- _ =>
      apply disable_rcb_runs in H as (ed & Ad & Ld) end.
    rewrite !rcb_actions_app, !lines_app, Aw, Lw, Ar, Lr, Ad, Ld.
    pose proof (rcb_reported initial o b ew reports posted ed) as Hrun.
    rewrite <- Heqb1 in Hrun at 1. exact Hrun.
Qed.

(** The initial status the program is told of. *)
Definition told_initial (argv : list string) : bool :=
  negb (option_atoi (scan_options reporter_options (tail argv) []) "--sps1-initial" 1 =? 0).

(** The four ends of the program. *)
Inductive main_run (argv : list string) (t : list (event IedE)) : Z → Prop :=
| main_meta : rcb_actions t = [] → main_run argv t 0
| main_usage : t = [] → main_run argv t 1
| main_refused : rcb_actions t = [Connected false] → lines t = [] → main_run argv t 2
| main_connected acts :
    rcb_actions t = Connected true :: acts →
    sequence_run (told_initial argv) acts (lines t) → main_run argv t 0.

Lemma reporter_main_runs version argv t code : runs (main version argv) t code → main_run argv t code.
Proof.
  intros Hr. unfold main in Hr. destruct (jl_handle_meta_flags version argv "libiec61850").
  { runs. by constructor. }
  cbv zeta in Hr. destruct ((_ <=? 0) || _). { runs. by constructor. }
  apply runs_bind in Hr as (t1 & t2 & err & -> & Hc & Hr). apply runs_call in Hc as ->.
  destruct (ied_ok err) eqn:He; cbn [negb] in Hr.
  - apply report_sequence_runs in Hr as [-> Hr]. eapply main_connected; [|exact Hr].
    cbn. by rewrite He.
  - runs. apply main_refused; [|done]. cbn. by rewrite He.
Qed.

(** C24: An IED reporter that has enabled the report control block disables it
    again and closes the connection, whatever the write and the wait gave, after
    saying what was received. *)
Theorem reporter_disables version argv t code before after :
  runs (main version argv) t code →
  rcb_actions t = before ++ Enabled true :: after →
  code = 0 ∧ before = [Connected true] ∧
  ∃ wrote reports posted ok, after = [wrote; Waited reports posted; Disabled ok; Closed] ∧
    wait_line reports posted ∈ lines t ∧ conclude_line ∈ lines t.
Proof.
  intros Hr Heq. apply reporter_main_runs in Hr.
  destruct Hr as [Ha|Ht|Ha _|acts Ha Hs].
  - rewrite Ha in Heq. by destruct before.
  - subst t. by destruct before.
  - rewrite Ha in Heq. by repeat (destruct before as [|? before]; simplify_eq/=).
  - rewrite Ha in Heq. destruct Hs as [err He|rpt ena err He|rpt ena err reports posted err'];
      repeat (destruct before as [|? before]; simplify_eq/=).
    split; [done|]. split; [done|]. eexists _, reports, posted, _. split; [done|].
    split; do 3 apply list_elem_of_further; [apply list_elem_of_here|].
    do 2 apply list_elem_of_further. apply list_elem_of_here.
Qed.

End spec.

(** ** A server that sends one report *)

Definition one_report : @ClientReport ref_mms :=
  @mk_client_report ref_mms (Some "interop_urcb01") 7
    (Some (MmsValue_setElement (MmsValue_createEmptyStructure 2) 0 (MmsValue_newBoolean false)))
    (λ i, if i =? 0 then IEC61850_REASON_DATA_CHANGE else IEC61850_REASON_NOT_INCLUDED).

Definition report_server (B : Type) (e : @IedE ref_mms B) (s : unit) : B * unit :=
  (match e in IedE B return B with
   | sem_timedwait _ => ([one_report], true)
   | IedConnection_getRCBValues _ => (Some "interop_urcb01", false, IED_ERROR_OK)
   | e => (accepts e)
   end, s).

Definition report_trace : list (event (@IedE ref_mms)) :=
  trace_of (exec 0 report_server tt (main (H := ref_mms) None ["ied_reporter"])).

Lemma reporter_disables_witness :
  0 = 0 ∧ [Connected (H := ref_mms) true] = [Connected true] ∧
  ∃ wrote reports posted ok,
    [Wrote (H := ref_mms) false true; Waited [one_report] true; Disabled true; Closed]
    = [wrote; Waited reports posted; Disabled ok; Closed] ∧
    wait_line reports posted ∈ lines report_trace ∧ conclude_line ∈ lines report_trace.
Proof.
  apply (reporter_disables (H := ref_mms) None ["ied_reporter"] report_trace 0).
  - by apply (exec_runs 0 report_server tt _ report_trace 0 tt).
  - reflexivity.
Defined.

Lemma report_sequence_runs_witness :
  ∃ tr, 0 = 0 ∧ sequence_run (H := ref_mms) true (rcb_actions tr) (lines tr).
Proof.
  exists (trace_of (exec 0 report_server tt (report_sequence (H := ref_mms) true))).
  apply (report_sequence_runs (H := ref_mms) true _ 0).
  by eapply (exec_runs 0 report_server tt).
Defined.

(** A second report that includes the first member without a value of it. *)
Definition bare_report : @ClientReport ref_mms :=
  @mk_client_report ref_mms (Some "interop_urcb01") 8 None
    (λ i, if i =? 0 then IEC61850_REASON_GI else IEC61850_REASON_NOT_INCLUDED).

Lemma report_line_describes_witness :
  report_line (fold_left (reportCallback (H := ref_mms)) [bare_report; one_report] report_state_zero)
  = described (H := ref_mms) [bare_report] one_report ∧
  described (H := ref_mms) [bare_report] one_report = described [] one_report.
Proof.
  destruct (report_line_describes (H := ref_mms) [bare_report] one_report) as [Hl Hd].
  split; [exact Hl|]. apply Hd. right. constructor; [|constructor]. by eexists.
Defined.

(** The callback does not forget the values of the report before: after both
    reports the line says false for the member, null after the second alone. *)
Lemma report_value_stale :
  member_text (H := ref_mms) [one_report; bare_report] 0 = "false" ∧
  member_text (H := ref_mms) [bare_report] 0 = "null".
Proof. by vm_compute. Qed.
