(* ===== verification/IedClient.v ===== *)
(** * ied_client.c

    The client of the basic services: a fixed sequence of directory requests,
    reads, a write and a data set read, each of which writes one line. *)

From Stdlib Require Import ZArith Lia String Ascii SpecFloat.
From stdpp Require Import base tactics list strings numbers option.
From S2P Require Import Prelude CText CFloat JsonLines Args Mms Interact IedCommon.

Local Open Scope Z_scope.
Local Open Scope prog_scope.

(** *** resolve_interop_ld *)

(** The last [n] characters, and whether a name of at least nine ends in
    InteropLD. *)
Definition string_tail (n : nat) (s : string) : string :=
  String.substring (String.length s - n) n s.

Definition ends_in_interop (name : string) : bool :=
  (9 <=? slen name) && String.eqb (string_tail 9 name) "InteropLD".

Definition resolve_interop_ld (names : list string) (out_len : nat) : option string :=
  match List.find (fun name => String.eqb name "InteropLD") names with
  | Some name => Some (snprintf_s out_len name)
  | None =>
      match List.find ends_in_interop names with
      | Some name => Some (snprintf_s out_len name)
      | None =>
          match names with
          | name :: _ => Some (snprintf_s out_len name)
          | [] => None
          end
      end
  end.

Section client.
Context `{MmsApi}.
(** Functions of libiec61850. *)
Context (Dbpos_fromMmsValue : MmsValue → Z) (FunctionalConstraint_toString : FunctionalConstraint → string).

Abbreviation program := (prog IedE).

Definition emit_error (op : string) (target : option string) (msg : string) : program unit :=
  line (error_line op target msg).

Definition emit_names (op : string) (target : option string) (names : list string) : program unit :=
  line (ok_line op target
    (raw_member "names" ("[" +:+ String.concat "," (Q <$> names) +:+ "]"))).

(** [emit_bool], [emit_float], [emit_int] and [emit_string] differ in the text
    of the value. *)
Definition read_line (target value : string) : string :=
  ok_line "read" (Some target) (raw_member "value" value).

Definition emit_bool (target : string) (value : bool) : program unit :=
  line (read_line target (bool_text value)).
Definition emit_float (target : string) (value : spec_float) : program unit :=
  line (read_line target (fmt_g 6 (to_double value))).
Definition emit_int (target : string) (value : Z) : program unit :=
  line (read_line target (fmt_d value)).
Definition emit_string (target : string) (value : option string) : program unit :=
  line (read_line target (Q (default "" value))).
Definition emit_write_ok (target : string) : program unit :=
  line (ok_line "write" (Some target) "").

(** [target[256]]: the reference with its constraint. *)
Definition target_of (ref : string) (fc : FunctionalConstraint) : string :=
  snprintf_s 256 (ref +:+ "[" +:+ FunctionalConstraint_toString fc +:+ "]").

(** *** The operations *)

(** The logical device found is the second component; [ld_out] is left as it
    was when there is none. *)
Definition op_get_server_directory (ld_out : string) (ld_len : nat) : program (bool * string) :=
  let! r := call IedConnection_getServerDirectory in
  let '(lds, err) := r in
  if negb (ied_ok err) then
    emit_error "get-server-directory" None (ied_error_str err);; done_ (false, ld_out)
  else
    emit_names "get-server-directory" None lds;;
    match resolve_interop_ld lds ld_len with
    | None =>
        emit_error "get-server-directory" None "no logical device found";; done_ (false, ld_out)
    | Some ld => done_ (true, ld)
    end.

Definition op_get_ld_directory (ld : string) : program bool :=
  let! r := call (IedConnection_getLogicalDeviceDirectory ld) in
  let '(lns, err) := r in
  if negb (ied_ok err) then
    emit_error "get-ld-directory" (Some ld) (ied_error_str err);; done_ false
  else emit_names "get-ld-directory" (Some ld) lns;; done_ true.

Definition op_get_ln_directory (ld_ln : string) : program bool :=
  let! r := call (IedConnection_getLogicalNodeDirectory ld_ln) in
  let '(dos, err) := r in
  if negb (ied_ok err) then
    emit_error "get-ln-directory" (Some ld_ln) (ied_error_str err);; done_ false
  else emit_names "get-ln-directory" (Some ld_ln) dos;; done_ true.

Definition op_read_bool (ref : string) (fc : FunctionalConstraint) : program bool :=
  let! r := call (IedConnection_readBooleanValue ref fc) in
  let '(val, err) := r in
  let target := target_of ref fc in
  if negb (ied_ok err) then
    emit_error "read" (Some target) (ied_error_str err);; done_ false
  else emit_bool target val;; done_ true.

Definition op_read_float (ref : string) (fc : FunctionalConstraint) : program bool :=
  let! r := call (IedConnection_readFloatValue ref fc) in
  let '(val, err) := r in
  let target := target_of ref fc in
  if negb (ied_ok err) then
    emit_error "read" (Some target) (ied_error_str err);; done_ false
  else emit_float target val;; done_ true.

Definition op_read_int (ref : string) (fc : FunctionalConstraint) : program bool :=
  let! r := call (IedConnection_readInt32Value ref fc) in
  let '(val, err) := r in
  let target := target_of ref fc in
  if negb (ied_ok err) then
    emit_error "read" (Some target) (ied_error_str err);; done_ false
  else emit_int target val;; done_ true.

Definition op_read_dbpos (ref : string) (fc : FunctionalConstraint) : program bool :=
  let! r := call (IedConnection_readObject ref fc) in
  let '(val, err) := r in
  let target := target_of ref fc in
  if negb (ied_ok err) then
    emit_error "read" (Some target) (ied_error_str err);; done_ false
  else
    match val with
    | Some v =>
        if bool_decide (MmsValue_getType v = MMS_BIT_STRING) then
          emit_int target (i32 (Dbpos_fromMmsValue v));; done_ true
        else emit_error "read" (Some target) "unexpected-type";; done_ false
    | None => emit_error "read" (Some target) "unexpected-type";; done_ false
    end.

Definition op_read_uint (ref : string) (fc : FunctionalConstraint) : program bool :=
  let! r := call (IedConnection_readUnsigned32Value ref fc) in
  let '(val, err) := r in
  let target := target_of ref fc in
  if negb (ied_ok err) then
    emit_error "read" (Some target) (ied_error_str err);; done_ false
  else line (read_line target (fmt_u val));; done_ true.

Definition op_read_string (ref : string) (fc : FunctionalConstraint) : program bool :=
  let! r := call (IedConnection_readStringValue ref fc) in
  let '(val, err) := r in
  let target := target_of ref fc in
  if negb (ied_ok err) then
    emit_error "read" (Some target) (ied_error_str err);; done_ false
  else emit_string target val;; done_ true.

Definition op_write_int (ref : string) (fc : FunctionalConstraint) (value : Z) : program bool :=
  let! err := call (IedConnection_writeInt32Value ref fc value) in
  let target := target_of ref fc in
  if negb (ied_ok err) then
    emit_error "write" (Some target) (ied_error_str err);; done_ false
  else emit_write_ok target;; done_ true.

(** The text of a member of a data set. *)
Definition dataset_value (val : option MmsValue) : string :=
  match val with
  | None => "null"
  | Some v =>
      match MmsValue_getType v with
      | MMS_BOOLEAN => bool_text (MmsValue_getBoolean v)
      | MMS_INTEGER => fmt_d (MmsValue_toInt32 v)
      | MMS_UNSIGNED => fmt_u (MmsValue_toUint32 v)
      | MMS_FLOAT => fmt_g 6 (to_double (MmsValue_toFloat v))
      | MMS_VISIBLE_STRING => Q (MmsValue_toString v)
      | _ => "null"
      end
  end.

Definition op_read_dataset (dsRef : string) : program bool :=
  let! r := call (IedConnection_readDataSetValues dsRef) in
  let '(n, dsArray, err) := r in
  if negb (ied_ok err) then
    emit_error "read-dataset" (Some dsRef) (ied_error_str err);; done_ false
  else
    line (ok_line "read-dataset" (Some dsRef)
      (raw_member "values"
        ("[" +:+ String.concat ","
           ((λ i, dataset_value (dsArray ≫= λ a, MmsValue_getElement a i)) <$> range n)
         +:+ "]")));;
    done_ true.

(** *** main *)

Definition associate_line : string := ok_line "associate" None "".

(** [ref[256]] *)
Definition ref_of (ld rest : string) : string := snprintf_s 256 (ld +:+ rest).

(** The operations after the server directory, in order. *)
Definition operations (ld : string) : list (program bool) :=
  [ op_get_ld_directory ld;
    op_get_ln_directory (ref_of ld "/GGIO1");
    op_read_bool (ref_of ld "/GGIO1.SPS1.stVal") IEC61850_FC_ST;
    op_read_float (ref_of ld "/MMXU1.TotW.mag.f") IEC61850_FC_MX;
    op_read_dbpos (ref_of ld "/GGIO1.DPS1.stVal") IEC61850_FC_ST;
    op_read_uint (ref_of ld "/MMTR1.TotVAh.actVal") IEC61850_FC_ST;
    op_read_int (ref_of ld "/LLN0.Mod.ctlModel") IEC61850_FC_CF;
    op_read_string (ref_of ld "/LLN0.Mod.d") IEC61850_FC_DC;
    op_write_int (ref_of ld "/LLN0.Mod.stVal") IEC61850_FC_ST 5;
    op_read_dataset (ref_of ld "/LLN0$dsInterop") ].

(** [failed |= !op] for each. *)
Fixpoint run_all (ops : list (program bool)) (failed : bool) : program bool :=
  match ops with
  | [] => done_ failed
  | op :: ops => let! ok := op in run_all ops (failed || negb ok)
  end.

(** The program once connected. *)
Definition client_sequence : program Z :=
  line associate_line;;
  let! r := op_get_server_directory "" 128 in
  let '(ok, ld) := r in
  let ld := if String.eqb ld "" then "InteropLD" else ld in
  let! failed := run_all (operations ld) (negb ok) in
  call IedConnection_close;;
  line conclude_line;;
  done_ (if failed then 3 else 0).

Definition client_options : list string := ["--host"; "--port"].

(** The program; the result is the exit code. *)
Definition main (version : option string) (argv : list string) : program Z :=
  match jl_handle_meta_flags version argv "libiec61850" with
  | Some l => line l;; done_ 0
  | None =>
      let m := scan_options client_options (tail argv) [] in
      let host := option_string m "--host" "localhost" in
      let port := option_atoi m "--port" 1102 in
      if (port <=? 0) || (65535 <? port) then done_ 1
      else
        let! err := call (IedConnection_connect host port) in
        if negb (ied_ok err) then
          emit_error "associate" None (ied_error_str err);; done_ 2
        else client_sequence
  end.

End client.
