(* ===== verification/IedClientSpec.v ===== *)
(** * Theorems about ied_client.c

    The logical device the program chooses; and whatever the server answers,
    every operation is attempted and leaves its line, the program concludes,
    and its exit code says whether they all succeeded. *)

From Stdlib Require Import ZArith Lia String Ascii SpecFloat.
From stdpp Require Import base tactics list strings numbers option.
From S2P Require Import Prelude CText CFloat JsonLines Args Mms RefMms Interact IedCommon IedClient.

Local Open Scope Z_scope.

(** ** The logical device *)

Lemma find_spec {A} (f : A → bool) (l : list A) :
  match List.find f l with
  | Some x => ∃ before after, l = before ++ x :: after ∧ f x = true ∧
                Forall (λ y, f y = false) before
  | None => Forall (λ y, f y = false) l
  end.
Proof.
  induction l as [|a l IH]; simpl; [constructor|]. destruct (f a) eqn:Ha.
  - by exists [], l.
  - destruct (List.find f l) as [x|].
    + destruct IH as (before & after & -> & Hx & Hb). exists (a :: before), after.
      split; [done|]. split; [done|]. by constructor.
    + by constructor.
Qed.

(** The bare name if the server has it, else the first that ends in it, else
    the first. *)
Theorem resolve_interop_ld_prefers names n :
  match resolve_interop_ld names n with
  | None => names = []
  | Some ld =>
      ∃ before name after, names = before ++ name :: after ∧ ld = snprintf_s n name ∧
        (name = "InteropLD" ∨
         "InteropLD" ∉ names ∧
         (ends_in_interop name = true ∧ Forall (λ s, ends_in_interop s = false) before ∨
          before = [] ∧ Forall (λ s, ends_in_interop s = false) names))
  end.
Proof.
  unfold resolve_interop_ld.
  pose proof (find_spec (λ name, String.eqb name "InteropLD") names) as Hbare.
  destruct (List.find _ names) as [name|].
  { destruct Hbare as (before & after & -> & Hn%String.eqb_eq & _). exists before, name, after. auto. }
  assert ("InteropLD" ∉ names) as Hno.
  { intros Hin. rewrite list.Forall_forall in Hbare. by apply Hbare in Hin. }
  pose proof (find_spec ends_in_interop names) as Hend.
  destruct (List.find _ names) as [name|].
  { destruct Hend as (before & after & -> & Hn & Hb). exists before, name, after. auto 10. }
  destruct names as [|name names]; [done|]. exists [], name, names. auto 10.
Qed.

(** ** The runs *)

Section runs.
Context `{MmsApi}.
Context (dbpos : MmsValue → Z) (fcs : FunctionalConstraint → string).

(** What an operation is: one request, and whether its answer counts as a
    success, with the line it leaves. *)
Record operation := mk_operation {
  op_answer : Type;
  op_request : IedE op_answer;
  op_result : op_answer → bool * string
}.

(** An answer with an error leaves an error line; another one is shown, [inl]
    as members of the line and [inr] as an error after all. *)
Definition shown {A} (op target : string) (show : A → string + string) (a : A) (err : IedClientError)
  : bool * string :=
  if ied_ok err then
    match show a with
    | inl more => (true, ok_line op (Some target) more)
    | inr msg => (false, error_line op (Some target) msg)
    end
  else (false, error_line op (Some target) (ied_error_str err)).

Definition names_member (names : list string) : string + string :=
  inl (raw_member "names" ("[" +:+ String.concat "," (Q <$> names) +:+ "]")).

Definition value_member {A} (text : A → string) (a : A) : string + string :=
  inl (raw_member "value" (text a)).

Definition listing (op target : string) (e : IedE (list string * IedClientError)) : operation :=
  mk_operation _ e (λ r, shown op target names_member r.1 r.2).

Definition reading {A} (ref : string) (fc : FunctionalConstraint)
    (e : string → FunctionalConstraint → IedE (A * IedClientError)) (show : A → string + string) : operation :=
  mk_operation _ (e ref fc) (λ r, shown "read" (target_of fcs ref fc) show r.1 r.2).

Definition dbpos_member (v : option MmsValue) : string + string :=
  match v with
  | Some v =>
      if bool_decide (MmsValue_getType v = MMS_BIT_STRING)
      then value_member fmt_d (i32 (dbpos v)) else inr "unexpected-type"
  | None => inr "unexpected-type"
  end.

Definition dataset_member (r : Z * option MmsValue) : string + string :=
  inl (raw_member "values" ("[" +:+ String.concat ","
         ((λ i, dataset_value (r.2 ≫= λ a, MmsValue_getElement a i)) <$> range r.1) +:+ "]")).

(** The operations of the program, in order. *)
Definition specified (ld : string) : list operation :=
  [ listing "get-ld-directory" ld (IedConnection_getLogicalDeviceDirectory ld);
    listing "get-ln-directory" (ref_of ld "/GGIO1")
      (IedConnection_getLogicalNodeDirectory (ref_of ld "/GGIO1"));
    reading (ref_of ld "/GGIO1.SPS1.stVal") IEC61850_FC_ST IedConnection_readBooleanValue
      (value_member bool_text);
    reading (ref_of ld "/MMXU1.TotW.mag.f") IEC61850_FC_MX IedConnection_readFloatValue
      (value_member (λ x, fmt_g 6 (to_double x)));
    reading (ref_of ld "/GGIO1.DPS1.stVal") IEC61850_FC_ST IedConnection_readObject dbpos_member;
    reading (ref_of ld "/MMTR1.TotVAh.actVal") IEC61850_FC_ST IedConnection_readUnsigned32Value
      (value_member fmt_u);
    reading (ref_of ld "/LLN0.Mod.ctlModel") IEC61850_FC_CF IedConnection_readInt32Value
      (value_member fmt_d);
    reading (ref_of ld "/LLN0.Mod.d") IEC61850_FC_DC IedConnection_readStringValue
      (value_member (λ s, Q (default "" s)));
    mk_operation _ (IedConnection_writeInt32Value (ref_of ld "/LLN0.Mod.stVal") IEC61850_FC_ST 5)
      (λ err, shown "write" (target_of fcs (ref_of ld "/LLN0.Mod.stVal") IEC61850_FC_ST) (λ _, inl "") tt err);
    mk_operation _ (IedConnection_readDataSetValues (ref_of ld "/LLN0$dsInterop"))
      (λ r, shown "read-dataset" (ref_of ld "/LLN0$dsInterop") dataset_member r.1 r.2) ].

(** The events of operations, and which of them went well. *)
Inductive performed : list operation → list (event IedE) → list bool → Prop :=
| performed_nil : performed [] [] []
| performed_cons o os a t oks :
    performed os t oks →
    performed (o :: os) (called (op_request o) a :: printed (op_result o a).2 :: t) ((op_result o a).1 :: oks).

(** A program that performs one operation. *)
Definition performs (p : prog IedE bool) (o : operation) : Prop :=
  ∀ t ok, runs p t ok → ∃ a, t = [called (op_request o) a; printed (op_result o a).2] ∧ ok = (op_result o a).1.

(** The request and its answer, then the line of each case of it. *)
Ltac perform :=
  intros t ok Hr; apply runs_bind in Hr as (t1 & t2 & a & -> & Hc & Hr); apply runs_call in Hc as ->;
  exists a; revert Hr; cbn [op_result op_request listing reading];
  unfold shown, names_member, value_member, dbpos_member, dataset_member;
  repeat match goal with x : _ * _ |- _ => destruct x end; cbv beta iota zeta; cbn [fst snd];
  repeat match goal with
    | |- context [ied_ok ?e] => destruct (ied_ok e); cbn [negb]
    | |- context [bool_decide ?P] => destruct (bool_decide P)
    | v : option MmsValue |- _ => destruct v as [v|]; cbv beta iota
    end;
  intros Hr; apply runs_bind in Hr as (t3 & t4 & u & -> & Hl & Hr); apply runs_line in Hl as ->;
  destruct Hr as [-> ->]; done.

Lemma get_ld_directory_performs ld :
  performs (op_get_ld_directory ld)
    (listing "get-ld-directory" ld (IedConnection_getLogicalDeviceDirectory ld)).
Proof. unfold op_get_ld_directory, emit_error, emit_names. perform. Qed.

Lemma get_ln_directory_performs ln :
  performs (op_get_ln_directory ln)
    (listing "get-ln-directory" ln (IedConnection_getLogicalNodeDirectory ln)).
Proof. unfold op_get_ln_directory, emit_error, emit_names. perform. Qed.

Lemma read_bool_performs r fc :
  performs (op_read_bool fcs r fc) (reading r fc IedConnection_readBooleanValue (value_member bool_text)).
Proof. unfold op_read_bool, emit_error, emit_bool, read_line. perform. Qed.

Lemma read_float_performs r fc :
  performs (op_read_float fcs r fc)
    (reading r fc IedConnection_readFloatValue (value_member (λ x, fmt_g 6 (to_double x)))).
Proof. unfold op_read_float, emit_error, emit_float, read_line. perform. Qed.

Lemma read_int_performs r fc :
  performs (op_read_int fcs r fc) (reading r fc IedConnection_readInt32Value (value_member fmt_d)).
Proof. unfold op_read_int, emit_error, emit_int, read_line. perform. Qed.

Lemma read_dbpos_performs r fc :
  performs (op_read_dbpos dbpos fcs r fc) (reading r fc IedConnection_readObject dbpos_member).
Proof. unfold op_read_dbpos, emit_error, emit_int, read_line. perform. Qed.

Lemma read_uint_performs r fc :
  performs (op_read_uint fcs r fc) (reading r fc IedConnection_readUnsigned32Value (value_member fmt_u)).
Proof. unfold op_read_uint, emit_error, read_line. perform. Qed.

Lemma read_string_performs r fc :
  performs (op_read_string fcs r fc)
    (reading r fc IedConnection_readStringValue (value_member (λ s, Q (default "" s)))).
Proof. unfold op_read_string, emit_error, emit_string, read_line. perform. Qed.

Lemma write_int_performs r fc v :
  performs (op_write_int fcs r fc v)
    (mk_operation _ (IedConnection_writeInt32Value r fc v)
       (λ err, shown "write" (target_of fcs r fc) (λ _, inl "") tt err)).
Proof. unfold op_write_int, emit_error, emit_write_ok. perform. Qed.

Lemma read_dataset_performs r :
  performs (op_read_dataset r)
    (mk_operation _ (IedConnection_readDataSetValues r) (λ a, shown "read-dataset" r dataset_member a.1 a.2)).
Proof. unfold op_read_dataset, emit_error. perform. Qed.

Create HintDb ied_client.
#[local] Hint Resolve get_ld_directory_performs get_ln_directory_performs read_bool_performs
  read_float_performs read_int_performs read_dbpos_performs read_uint_performs read_string_performs
  write_int_performs read_dataset_performs : ied_client.

Lemma operations_perform ld : Forall2 performs (operations dbpos fcs ld) (specified ld).
Proof. unfold operations, specified. repeat constructor; auto with ied_client nocore. Qed.

Lemma run_all_performs ps os failed t failed' :
  Forall2 performs ps os → runs (run_all ps failed) t failed' →
  ∃ oks, performed os t oks ∧ failed' = failed || existsb negb oks.
Proof.
  intros Hps. revert failed t. induction Hps as [|p o ps os Hp _ IH]; intros failed t Hr.
  - destruct Hr as [-> ->]. exists []. rewrite orb_false_r. split; [constructor|done].
  - cbn [run_all] in Hr. apply runs_bind in Hr as (t1 & t2 & ok & -> & H1 & H2).
    destruct (Hp t1 ok H1) as (a & -> & ->). apply IH in H2 as (oks & Ho & ->).
    exists ((op_result o a).1 :: oks). split; [by constructor|]. simpl. by rewrite orb_assoc.
Qed.

(** The server directory: its lines, and the logical device that is used. *)
Definition directory_result (r : list string * IedClientError) : list string * bool * string :=
  if ied_ok r.2 then
    let names := ok_line "get-server-directory" None
                   (raw_member "names" ("[" +:+ String.concat "," (Q <$> r.1) +:+ "]")) in
    match resolve_interop_ld r.1 128 with
    | Some ld => ([names], true, ld)
    | None => ([names; error_line "get-server-directory" None "no logical device found"], false, "")
    end
  else ([error_line "get-server-directory" None (ied_error_str r.2)], false, "").

Lemma server_directory_performs n t r :
  n = 128%nat → runs (op_get_server_directory "" n) t r →
  ∃ a, t = called IedConnection_getServerDirectory a :: (printed <$> (directory_result a).1.1) ∧
       r = ((directory_result a).1.2, (directory_result a).2).
Proof.
  intros -> Hr. unfold op_get_server_directory, emit_error, emit_names in Hr.
  apply runs_bind in Hr as (t1 & t2 & a & -> & Hc & Hr). apply runs_call in Hc as ->.
  exists a. revert Hr. unfold directory_result. destruct a as [names err]. cbv beta iota. cbn [fst snd].
  destruct (ied_ok err); cbn [negb];
    intros Hr; apply runs_bind in Hr as (t3 & t4 & u & -> & Hl & Hr); apply runs_line in Hl as ->;
    [|by destruct Hr as [-> ->]].
  revert Hr. destruct (resolve_interop_ld names 128) as [ld|]; intros Hr; [by destruct Hr as [-> ->]|].
  apply runs_bind in Hr as (t5 & t6 & u' & -> & Hl & Hr). apply runs_line in Hl as ->.
  by destruct Hr as [-> ->].
Qed.

Definition used_ld (ld : string) : string := if String.eqb ld "" then "InteropLD" else ld.

(** The whole sequence. *)
Definition sequence_runs (t : list (event IedE)) (code : Z) : Prop :=
  ∃ dir t' oks,
    t = printed associate_line :: called IedConnection_getServerDirectory dir ::
        (printed <$> (directory_result dir).1.1) ++ t' ++
        [called IedConnection_close tt; printed conclude_line] ∧
    performed (specified (used_ld (directory_result dir).2)) t' oks ∧
    code = if forallb id ((directory_result dir).1.2 :: oks) then 0 else 3.

Lemma failed_code ok oks : (if negb ok || existsb negb oks then 3 else 0) = if forallb id (ok :: oks) then 0 else 3.
Proof. destruct ok; simpl; [|done]. induction oks as [|[] oks IH]; simpl; auto. Qed.

Lemma client_sequence_runs t code : runs (client_sequence dbpos fcs) t code → sequence_runs t code.
Proof.
  intros Hr. unfold client_sequence in Hr.
  apply runs_bind in Hr as (t0 & t1 & u & -> & Hl & Hr). apply runs_line in Hl as ->.
  apply runs_bind in Hr as (t2 & t3 & r & -> & Hdir & Hr).
  apply server_directory_performs in Hdir as (dir & -> & ->); [|done]. cbv beta iota zeta in Hr.
  apply runs_bind in Hr as (t4 & t5 & failed & -> & Hops & Hr).
  eapply run_all_performs in Hops as (oks & Hall & ->); [|apply operations_perform].
  apply runs_bind in Hr as (t6 & t7 & [] & -> & Hcl & Hr). apply runs_call in Hcl as ->.
  apply runs_bind in Hr as (t8 & t9 & u'' & -> & Hl & Hr). apply runs_line in Hl as ->.
  destruct Hr as [-> ->]. exists dir, t4, oks. split; [done|]. split; [done|]. apply failed_code.
Qed.

(** C16: Whatever the server answers, the IED client is a run of its table of
    operations: after the server directory, each operation in order asks once
    and leaves the one line its answer calls for, a failure stops nothing, the
    connection is closed, and the exit code is 3 exactly when an operation
    failed. *)
Theorem client_reports_everything t code :
  runs (client_sequence dbpos fcs) t code → sequence_runs t code.
Proof. apply client_sequence_runs. Qed.

(** The program connects once, and a connection that fails is reported. *)
Theorem client_main_runs version argv t code :
  runs (main dbpos fcs version argv) t code →
  (t = [] ∧ code = 1) ∨ (∃ l, t = [printed l] ∧ code = 0) ∨
  (∃ host port err, code = 2 ∧ ied_ok err = false ∧ 0 < port <= 65535 ∧
     t = [called (IedConnection_connect host port) err;
          printed (error_line "associate" None (ied_error_str err))]) ∨
  (∃ host port err t', ied_ok err = true ∧ 0 < port <= 65535 ∧
     t = called (IedConnection_connect host port) err :: t' ∧ sequence_runs t' code).
Proof.
  intros Hr. unfold main in Hr. destruct (jl_handle_meta_flags version argv "libiec61850") as [l|].
  { right; left. exists l. apply runs_bind in Hr as (t1 & t2 & u & -> & Hl & Hr).
    apply runs_line in Hl as ->. by destruct Hr as [-> ->]. }
  cbv zeta in Hr. set (port := option_atoi _ _ _) in Hr.
  destruct ((port <=? 0) || (65535 <? port)) eqn:Hport. { left. by destruct Hr as [-> ->]. }
  right; right. bool_hyps. assert (0 < port <= 65535) as Hp by lia.
  apply runs_bind in Hr as (t1 & t2 & err & -> & Hc & Hr). apply runs_call in Hc as ->.
  destruct (ied_ok err) eqn:He; cbn [negb] in Hr.
  - right. eexists _, port, err, t2. split; [done|]. split; [done|]. split; [done|].
    by apply client_sequence_runs.
  - left. apply runs_bind in Hr as (t3 & t4 & u & -> & Hl & Hr).
    apply runs_line in Hl as ->. destruct Hr as [-> ->]. by eexists _, port, err.
Qed.

End runs.

(** ** A server with every object *)

Definition full_server (B : Type) (e : @IedE ref_mms B) (s : unit) : B * unit :=
  (match e in IedE B return B with
   | IedConnection_getServerDirectory => (["OtherLD"; "InteropIEDInteropLD"], IED_ERROR_OK)
   | IedConnection_readObject _ _ => (Some (MmsValue_newBitString 2), IED_ERROR_OK)
   | e => accepts e
   end, s).

Definition fc_text (fc : FunctionalConstraint) : string :=
  match fc with
  | IEC61850_FC_ST => "ST"
  | IEC61850_FC_MX => "MX"
  | IEC61850_FC_CF => "CF"
  | IEC61850_FC_DC => "DC"
  end.

Definition full_run := exec 0 full_server tt (client_sequence (H := ref_mms) (λ _, 2) fc_text).

Lemma client_reports_everything_witness :
  sequence_runs (H := ref_mms) (λ _, 2) fc_text (trace_of full_run) 0.
Proof.
  apply (client_reports_everything (H := ref_mms) (λ _, 2) fc_text).
  by apply (exec_runs 0 full_server tt _ _ 0 tt).
Defined.

Definition full_main_trace :=
  trace_of (exec 0 full_server tt (main (H := ref_mms) (λ _, 2) fc_text None ["ied_client"])).

Lemma client_main_runs_witness :
  (full_main_trace = [] ∧ 0 = 1) ∨ (∃ l, full_main_trace = [printed l] ∧ 0 = 0) ∨
  (∃ host port err, 0 = 2 ∧ ied_ok err = false ∧ 0 < port <= 65535 ∧
     full_main_trace = [called (IedConnection_connect host port) err;
          printed (error_line "associate" None (ied_error_str err))]) ∨
  (∃ host port err t', ied_ok err = true ∧ 0 < port <= 65535 ∧
     full_main_trace = called (IedConnection_connect host port) err :: t' ∧
     sequence_runs (H := ref_mms) (λ _, 2) fc_text t' 0).
Proof.
  apply (client_main_runs (H := ref_mms) (λ _, 2) fc_text None ["ied_client"]).
  by apply (exec_runs 0 full_server tt _ _ 0 tt).
Defined.
