(* ===== verification/IedServer.v ===== *)
(** * ied_server.c

    The server of the static model: the initial values, the control handlers,
    and the life of the process from its start to the signal that ends it. *)

From Stdlib Require Import ZArith Lia String Ascii SpecFloat.
From stdpp Require Import base tactics list strings numbers option.
From S2P Require Import Prelude CText CFloat JsonLines Args Mms Interact IedCommon.

Local Open Scope Z_scope.
Local Open Scope prog_scope.

(** The attributes of the static model the program names,
    [iedModel_InteropLD_...]; the file that declares them is generated. *)
Inductive DataAttribute : Set :=
| LLN0_Mod_stVal
| LLN0_Mod_ctlModel
| LLN0_Mod_d
| LLN0_Beh_stVal
| GGIO1_SPS1_stVal
| GGIO1_SPS1_d
| GGIO1_DPS1_stVal
| GGIO1_SPCSO1_stVal
| GGIO1_SPCSO1_ctlModel
| GGIO1_SPCSO2_stVal
| GGIO1_SPCSO2_ctlModel
| GGIO1_SPCSO3_stVal
| GGIO1_SPCSO3_ctlModel
| MMXU1_TotW_mag_f
| MMTR1_TotVAh_actVal
| GGIO1_SetInt1_setVal.

#[export] Instance DataAttribute_eq_dec : EqDecision DataAttribute.
Proof. solve_decision. Defined.

Inductive ControlObject : Set := GGIO1_SPCSO1 | GGIO1_SPCSO2 | GGIO1_SPCSO3.

#[export] Instance ControlObject_eq_dec : EqDecision ControlObject.
Proof. solve_decision. Defined.

Inductive ServerFC : Set := FC_CF | FC_DC | FC_SP | FC_ST.

Inductive Dbpos : Set :=
  DBPOS_INTERMEDIATE_STATE | DBPOS_OFF | DBPOS_ON | DBPOS_BAD_STATE.

(** A value of an attribute. *)
Inductive attribute_value : Type :=
| AInt (v : Z)
| AUnsigned (v : Z)
| AString (v : string)
| ABool (v : bool)
| ADbpos (v : Dbpos)
| AFloat (v : spec_float).

Inductive ControlHandlerResult : Set := CONTROL_RESULT_FAILED | CONTROL_RESULT_OK.

(** A call of a control handler by the server: its object, the value, [None]
    for a null pointer, and the test flag. *)
Record control_call `{MmsApi} := mk_control_call {
  cc_object : ControlObject;
  cc_value : option MmsValue;
  cc_test : bool
}.

(** What clients do to the server: a control, for which the library calls the
    handler of the object, and a write of an attribute, which the library
    applies by itself where the access policy allows it. *)
Inductive client_activity `{MmsApi} :=
| Control (c : control_call)
| AttributeWrite (a : DataAttribute) (v : attribute_value).

(** The calls of [iec61850_server.h] and [hal_thread.h]; [g_running] is the
    reading of the flag the signal handler clears, a sleep ends with what
    clients did until then, and [client_wrote] is no call of the program: it
    marks where the library applied a client's write. *)
Inductive IedServerE `{MmsApi} : Type → Type :=
| IedServer_create : IedServerE bool
| IedServer_setWriteAccessPolicy (fc : ServerFC) (allow : bool) : IedServerE unit
| IedServer_updateInt32AttributeValue (a : DataAttribute) (v : Z) : IedServerE unit
| IedServer_updateUnsignedAttributeValue (a : DataAttribute) (v : Z) : IedServerE unit
| IedServer_updateVisibleStringAttributeValue (a : DataAttribute) (v : string) : IedServerE unit
| IedServer_updateBooleanAttributeValue (a : DataAttribute) (v : bool) : IedServerE unit
| IedServer_updateDbposValue (a : DataAttribute) (v : Dbpos) : IedServerE unit
| IedServer_updateFloatAttributeValue (a : DataAttribute) (v : spec_float) : IedServerE unit
| IedServer_setControlHandler (o : ControlObject) : IedServerE unit
| IedServer_start (port : Z) : IedServerE unit
| IedServer_isRunning : IedServerE bool
| g_running : IedServerE bool
| Thread_sleep (ms : Z) : IedServerE (list client_activity)
| client_wrote (a : DataAttribute) (v : attribute_value) : IedServerE unit
| IedServer_stop : IedServerE unit
| IedServer_destroy : IedServerE unit.

Section server.
Context `{MmsApi}.
(** [iedModel.name], of the generated model. *)
Context (iedModel_name : string).

Abbreviation program := (prog IedServerE).

Definition set_initial_values : program unit :=
  call (IedServer_updateInt32AttributeValue LLN0_Mod_stVal 1);;
  call (IedServer_updateInt32AttributeValue LLN0_Mod_ctlModel 1);;
  call (IedServer_updateVisibleStringAttributeValue LLN0_Mod_d "mode");;
  call (IedServer_updateInt32AttributeValue LLN0_Beh_stVal 1);;
  call (IedServer_updateBooleanAttributeValue GGIO1_SPS1_stVal false);;
  call (IedServer_updateVisibleStringAttributeValue GGIO1_SPS1_d "status point");;
  call (IedServer_updateDbposValue GGIO1_DPS1_stVal DBPOS_ON);;
  call (IedServer_updateBooleanAttributeValue GGIO1_SPCSO1_stVal false);;
  call (IedServer_updateInt32AttributeValue GGIO1_SPCSO1_ctlModel 1);;
  call (IedServer_updateBooleanAttributeValue GGIO1_SPCSO2_stVal false);;
  call (IedServer_updateInt32AttributeValue GGIO1_SPCSO2_ctlModel 2);;
  call (IedServer_updateBooleanAttributeValue GGIO1_SPCSO3_stVal false);;
  call (IedServer_updateInt32AttributeValue GGIO1_SPCSO3_ctlModel 4);;
  call (IedServer_updateFloatAttributeValue MMXU1_TotW_mag_f (to_float (strtod "1234.5")));;
  call (IedServer_updateUnsignedAttributeValue MMTR1_TotVAh_actVal 42);;
  call (IedServer_updateInt32AttributeValue GGIO1_SetInt1_setVal 0).

(** *** Control handlers *)

Definition spcso1_control_handler (value : option MmsValue) (test : bool)
  : program ControlHandlerResult :=
  match value with
  | Some v =>
      if negb test then
        let ctlVal := MmsValue_getBoolean v in
        call (IedServer_updateBooleanAttributeValue GGIO1_SPCSO1_stVal ctlVal);;
        done_ CONTROL_RESULT_OK
      else done_ CONTROL_RESULT_OK
  | None => done_ CONTROL_RESULT_OK
  end.

Definition spcso2_control_handler (value : option MmsValue) (test : bool)
  : program ControlHandlerResult :=
  match value with
  | Some v =>
      if negb test then
        let ctlVal := MmsValue_getBoolean v in
        call (IedServer_updateBooleanAttributeValue GGIO1_SPCSO2_stVal ctlVal);;
        done_ CONTROL_RESULT_OK
      else done_ CONTROL_RESULT_OK
  | None => done_ CONTROL_RESULT_OK
  end.

Definition spcso3_control_handler (value : option MmsValue) (test : bool)
  : program ControlHandlerResult :=
  match value with
  | Some v =>
      if negb test then
        let ctlVal := MmsValue_getBoolean v in
        call (IedServer_updateBooleanAttributeValue GGIO1_SPCSO3_stVal ctlVal);;
        done_ CONTROL_RESULT_OK
      else done_ CONTROL_RESULT_OK
  | None => done_ CONTROL_RESULT_OK
  end.

(** The handler registered for an object. *)
Definition control_handler (c : control_call) : program ControlHandlerResult :=
  match cc_object c with
  | GGIO1_SPCSO1 => spcso1_control_handler (cc_value c) (cc_test c)
  | GGIO1_SPCSO2 => spcso2_control_handler (cc_value c) (cc_test c)
  | GGIO1_SPCSO3 => spcso3_control_handler (cc_value c) (cc_test c)
  end.

Fixpoint handle_activities (cs : list client_activity) : program unit :=
  match cs with
  | [] => done_ tt
  | Control c :: cs => control_handler c;; handle_activities cs
  | AttributeWrite a v :: cs => call (client_wrote a v);; handle_activities cs
  end.

(** [while (g_running) Thread_sleep(100)] *)
Definition serve_turn (_ : unit) : program (unit + unit) :=
  let! running := call g_running in
  if negb running then done_ (inr tt)
  else
    let! cs := call (Thread_sleep 100) in
    handle_activities cs;;
    done_ (inl tt).

Definition configure : program unit :=
  call (IedServer_setWriteAccessPolicy FC_CF true);;
  call (IedServer_setWriteAccessPolicy FC_DC true);;
  call (IedServer_setWriteAccessPolicy FC_SP true);;
  call (IedServer_setWriteAccessPolicy FC_ST true);;
  set_initial_values;;
  call (IedServer_setControlHandler GGIO1_SPCSO1);;
  call (IedServer_setControlHandler GGIO1_SPCSO2);;
  call (IedServer_setControlHandler GGIO1_SPCSO3).

(** The program after its options; the result is the exit code. *)
Definition serve (version : option string) (port : Z) : program Z :=
  let! created := call IedServer_create in
  if negb created then done_ 1
  else
    configure;;
    call (IedServer_start port);;
    let! running := call IedServer_isRunning in
    if negb running then
      call IedServer_destroy;;
      done_ 1
    else
      let addr_buf := snprintf_s 64 ("0.0.0.0:" +:+ fmt_d port) in
      line (jl_ready version addr_buf "iec61850-v3" "libiec61850" (Some iedModel_name));;
      repeat_ serve_turn tt;;
      call IedServer_stop;;
      call IedServer_destroy;;
      done_ 0.

Definition main (version : option string) (argv : list string) : program Z :=
  match jl_handle_meta_flags version argv "libiec61850" with
  | Some l => line l;; done_ 0
  | None =>
      let port := option_atoi (scan_options ["--port"] (tail argv) []) "--port" 1102 in
      if (port <=? 0) || (65535 <? port) then done_ 1 else serve version port
  end.

End server.
