(* ===== verification/IedServerSpec.v ===== *)
(** * Theorems about ied_server.c

    The values the server starts with, the status a control leaves, and the
    life of the process. *)

From Stdlib Require Import ZArith Lia String Ascii SpecFloat.
From stdpp Require Import base tactics list strings numbers option.
From S2P Require Import Prelude CText CFloat JsonLines Args Mms RefMms Interact IedCommon IedServer.

Local Open Scope Z_scope.

Section spec.
Context `{MmsApi}.
Context (model_name : string).

(** ** The attributes of a trace *)

Definition update_of (ev : event IedServerE) : option (DataAttribute * attribute_value) :=
  match ev with
  | called e _ =>
      match e with
      | IedServer_updateInt32AttributeValue a v => Some (a, AInt v)
      | IedServer_updateUnsignedAttributeValue a v => Some (a, AUnsigned v)
      | IedServer_updateVisibleStringAttributeValue a v => Some (a, AString v)
      | IedServer_updateBooleanAttributeValue a v => Some (a, ABool v)
      | IedServer_updateDbposValue a v => Some (a, ADbpos v)
      | IedServer_updateFloatAttributeValue a v => Some (a, AFloat v)
      | client_wrote a v => Some (a, v)
      | _ => None
      end
  | printed _ => None
  end.

(** The value an attribute has after a trace. *)
Definition store := DataAttribute → option attribute_value.

Definition updated (σ : store) (ev : event IedServerE) : store :=
  match update_of ev with
  | Some (a, v) => λ b, if bool_decide (a = b) then Some v else σ b
  | None => σ
  end.

Definition store_after (σ : store) (t : list (event IedServerE)) : store := fold_left updated t σ.

Lemma store_after_app σ t1 t2 : store_after σ (t1 ++ t2) = store_after (store_after σ t1) t2.
Proof. apply fold_left_app. Qed.

(** ** The initial values

    The table of fixtures/iec61850/values.json. *)
Definition values_json : list (DataAttribute * attribute_value) :=
  [ (LLN0_Mod_stVal, AInt 1);
    (LLN0_Mod_ctlModel, AInt 1);
    (LLN0_Mod_d, AString "mode");
    (LLN0_Beh_stVal, AInt 1);
    (GGIO1_SPS1_stVal, ABool false);
    (GGIO1_SPS1_d, AString "status point");
    (GGIO1_SPCSO1_stVal, ABool false);
    (GGIO1_SPCSO1_ctlModel, AInt 1);
    (GGIO1_SPCSO2_stVal, ABool false);
    (GGIO1_SPCSO2_ctlModel, AInt 2);
    (GGIO1_SPCSO3_stVal, ABool false);
    (GGIO1_SPCSO3_ctlModel, AInt 4);
    (MMXU1_TotW_mag_f, AFloat (S754_finite false 10113024 (-13)));
    (GGIO1_DPS1_stVal, ADbpos DBPOS_ON);
    (MMTR1_TotVAh_actVal, AUnsigned 42);
    (GGIO1_SetInt1_setVal, AInt 0) ].

Definition seeded (σ : store) : Prop := Forall (λ av, σ av.1 = Some av.2) values_json.

Ltac run_cases := repeat match goal with
  | H : runs (match ?x with _ => _ end) _ _ |- _ => destruct x eqn:?
  | H : runs _ _ _ |- _ => run_step H
  end.

Lemma set_initial_values_runs σ t u : runs set_initial_values t u → seeded (store_after σ t).
Proof.
  intros Hr. unfold set_initial_values in Hr. run_cases. subst.
  repeat (constructor; [reflexivity|]). constructor.
Qed.

Lemma configure_runs σ t u : runs configure t u → seeded (store_after σ t).
Proof.
  intros Hr. unfold configure in Hr.
  do 4 (apply runs_bind in Hr as (? & ? & ? & -> & Hc & Hr); apply runs_call in Hc as ->).
  apply runs_bind in Hr as (t1 & t2 & u1 & -> & Hs & Hr). run_cases. subst.
  rewrite !store_after_app. simpl store_after. by eapply set_initial_values_runs.
Qed.

(** ** Controls and writes of clients *)

Definition activities_of (ev : event IedServerE) : list client_activity :=
  match ev with
  | called e b =>
      match e in IedServerE B return B → list client_activity with
      | Thread_sleep _ => λ cs, cs
      | _ => λ _, []
      end b
  | printed _ => []
  end.

(** What clients did in a trace, in order. *)
Definition activities (t : list (event IedServerE)) : list client_activity := t ≫= activities_of.

Lemma activities_app t1 t2 : activities (t1 ++ t2) = activities t1 ++ activities t2.
Proof. apply bind_app. Qed.

Definition status_of (o : ControlObject) : DataAttribute :=
  match o with
  | GGIO1_SPCSO1 => GGIO1_SPCSO1_stVal
  | GGIO1_SPCSO2 => GGIO1_SPCSO2_stVal
  | GGIO1_SPCSO3 => GGIO1_SPCSO3_stVal
  end.

(** The status an activity sets for an object: a control of the object that has
    a value and is no test the value, a write of the status what is written, and
    any other activity none. *)
Definition sets_status (o : ControlObject) (act : client_activity) : option attribute_value :=
  match act with
  | Control c =>
      match cc_value c with
      | Some v => if bool_decide (cc_object c = o) && negb (cc_test c) then Some (ABool (MmsValue_getBoolean v)) else None
      | None => None
      end
  | AttributeWrite a v => if bool_decide (a = status_of o) then Some v else None
  end.

(** What the last of the activities that set it did, and false before. *)
Definition last_status (o : ControlObject) (x : attribute_value) (acts : list client_activity) : attribute_value :=
  default x (list.last (omap (sets_status o) acts)).

Lemma last_status_app o x l1 l2 : last_status o x (l1 ++ l2) = last_status o (last_status o x l1) l2.
Proof.
  unfold last_status. rewrite omap_app, list.last_app.
  by destruct (list.last (omap (sets_status o) l2)).
Qed.

Lemma control_handler_runs c t r o σ x :
  runs (control_handler c) t r → σ (status_of o) = Some x →
  r = CONTROL_RESULT_OK ∧ activities t = [] ∧
  store_after σ t (status_of o) = Some (last_status o x [Control c]).
Proof.
  intros Hr Hσ. unfold control_handler, spcso1_control_handler, spcso2_control_handler,
    spcso3_control_handler in Hr. unfold last_status.
  destruct c as [o' v test]. destruct o', v as [v|], test, o;
    cbn [cc_object cc_value cc_test negb] in Hr;
    run_cases; (split; [done|]; split; [done|]; first [exact Hσ | reflexivity]).
Qed.

Lemma client_wrote_runs a v t u o σ x :
  runs (call (client_wrote a v)) t u → σ (status_of o) = Some x →
  activities t = [] ∧ store_after σ t (status_of o) = Some (last_status o x [AttributeWrite a v]).
Proof.
  intros Hr Hσ. apply runs_call in Hr as ->. split; [done|].
  unfold last_status. cbn [omap list_omap sets_status store_after fold_left]. unfold updated. cbn [update_of].
  by destruct (bool_decide (a = status_of o)).
Qed.

Lemma handle_activities_runs cs t u o σ x :
  runs (handle_activities cs) t u → σ (status_of o) = Some x →
  activities t = [] ∧ store_after σ t (status_of o) = Some (last_status o x cs).
Proof.
  revert σ x t. induction cs as [|act cs IH]; intros σ x t Hr Hσ; cbn [handle_activities] in Hr.
  - by destruct Hr as [-> ->].
  - change (act :: cs) with ([act] ++ cs). rewrite last_status_app.
    destruct act as [c|a v]; apply runs_bind in Hr as (t1 & t2 & r & -> & Hc & Hr);
      rewrite activities_app, store_after_app.
    + eapply control_handler_runs in Hc as (_ & Hc1 & Hs); [|done]. rewrite Hc1. by eapply IH.
    + eapply client_wrote_runs in Hc as [Hc1 Hs]; [|done]. rewrite Hc1. by eapply IH.
Qed.

Lemma serve_turn_runs s t u o σ x :
  runs (serve_turn s) t u → σ (status_of o) = Some x →
  store_after σ t (status_of o) = Some (last_status o x (activities t)).
Proof.
  intros Hr Hσ. unfold serve_turn in Hr.
  apply runs_bind in Hr as (t1 & t2 & running & -> & Hc & Hr). apply runs_call in Hc as ->.
  destruct running; cbn [negb] in Hr.
  - apply runs_bind in Hr as (t3 & t4 & cs & -> & Hc & Hr). apply runs_call in Hc as ->.
    apply runs_bind in Hr as (t5 & t6 & u' & -> & Hh & Hr). destruct Hr as [-> ->].
    eapply handle_activities_runs in Hh as [Hc Hs]; [|exact Hσ].
    rewrite !activities_app, Hc. change (activities [called (Thread_sleep 100) cs]) with (cs ++ []).
    rewrite !app_nil_r. exact Hs.
  - destruct Hr as [-> ->]. done.
Qed.

Lemma serve_loop_runs t u o σ x :
  runs (repeat_ serve_turn tt) t u → σ (status_of o) = Some x →
  store_after σ t (status_of o) = Some (last_status o x (activities t)).
Proof.
  intros Hr. apply runs_repeat in Hr. revert σ x.
  induction Hr as [s t r Hs|s t1 s' t2 r Hs _ IH]; intros σ x Hσ.
  - by eapply serve_turn_runs.
  - rewrite store_after_app, activities_app, last_status_app. eapply IH, serve_turn_runs; done.
Qed.

Lemma seeded_status σ o : seeded σ → σ (status_of o) = Some (ABool false).
Proof.
  intros Hs. unfold seeded, values_json in Hs. repeat (apply list.Forall_cons in Hs as [? Hs]).
  by destruct o.
Qed.

Lemma configure_no_activities t u : runs configure t u → activities t = [].
Proof. intros Hr. unfold configure, set_initial_values in Hr. run_cases.
  by subst. Qed.

(** The loop ends with the reading that found the flag cleared. *)
Lemma serve_loop_last t x :
  runs (repeat_ serve_turn tt) t x → ∃ t', t = t' ++ [called g_running false].
Proof.
  intros Hr. apply runs_repeat in Hr. induction Hr as [s t r Hs|s t1 s' t2 r Hs _ [t' ->]].
  - unfold serve_turn in Hs. exists [].
    apply runs_bind in Hs as (t1 & t2 & running & -> & Hc & Hs). apply runs_call in Hc as ->.
    destruct running; cbn [negb] in Hs; [|by destruct Hs as [-> _]].
    do 2 apply runs_bind in Hs as (? & ? & ? & -> & _ & Hs). by destruct Hs.
  - exists (t1 ++ t'). by rewrite app_assoc.
Qed.


(** C26: The IED server has the values of the fixture before it starts, says it
    is ready only when it runs, and stops and destroys the server when its loop
    ends. *)
Theorem server_life version port t code :
  runs (serve model_name version port) t code →
  (t = [called IedServer_create false] ∧ code = 1) ∨
  ∃ conf rest, t = called IedServer_create true :: conf ++ called (IedServer_start port) tt :: rest ∧
    seeded (store_after (λ _, None) conf) ∧
    ((rest = [called IedServer_isRunning false; called IedServer_destroy tt] ∧ code = 1) ∨
     ∃ turns, rest = called IedServer_isRunning true ::
         printed (jl_ready version (snprintf_s 64 ("0.0.0.0:" +:+ fmt_d port)) "iec61850-v3"
                    "libiec61850" (Some model_name)) ::
         turns ++ [called g_running false; called IedServer_stop tt; called IedServer_destroy tt] ∧
       code = 0).
Proof.
  intros Hr. unfold serve in Hr.
  apply runs_bind in Hr as (t1 & t2 & created & -> & Hc & Hr). apply runs_call in Hc as ->.
  destruct created; cbn [negb] in Hr; [|left; by destruct Hr as [-> ->]]. right.
  apply runs_bind in Hr as (t3 & t4 & u & -> & Hconf & Hr).
  apply runs_bind in Hr as (t5 & t6 & [] & -> & Hc & Hr). apply runs_call in Hc as ->.
  exists t3, t6. split; [done|]. split; [by eapply configure_runs|].
  apply runs_bind in Hr as (t7 & t8 & running & -> & Hc & Hr). apply runs_call in Hc as ->.
  destruct running; cbn [negb] in Hr.
  - right. cbv zeta in Hr.
    apply runs_bind in Hr as (t9 & t10 & u2 & -> & Hc & Hr). apply runs_line in Hc as ->.
    apply runs_bind in Hr as (t11 & t12 & u3 & -> & Hloop & Hr).
    apply runs_bind in Hr as (t13 & t14 & [] & -> & Hc & Hr). apply runs_call in Hc as ->.
    apply runs_bind in Hr as (t15 & t16 & [] & -> & Hc & Hr). apply runs_call in Hc as ->.
    destruct Hr as [-> ->]. apply serve_loop_last in Hloop as [turns ->].
    exists turns. split; [|done]. by rewrite <- app_assoc.
  - left. apply runs_bind in Hr as (t9 & t10 & [] & -> & Hc & Hr). apply runs_call in Hc as ->.
    by destruct Hr as [-> ->].
Qed.

(** ** The signal *)

(** A world in which the flag is found cleared at the reading number [n];
    everything else is answered by [other], which has a state of its own, so that
    no two answers need be the same. *)
Definition signal_after {W : Type} (other : W → ∀ B, IedServerE B → B * W)
    (B : Type) (e : IedServerE B) (s : W * nat) : B * (W * nat) :=
  match e in IedServerE B return B * (W * nat) with
  | g_running => (negb (s.2 =? 0)%nat, (s.1, pred s.2))
  | e => let '(b, w) := other s.1 _ e in (b, (w, s.2))
  end.

Section signal.
Context {W : Type} (other : W → ∀ B, IedServerE B → B * W).
Abbreviation world := (signal_after other).

(** The program ends, at some state of the world, the flag still to be read as
    often. *)
Definition ends_at {A} (fuel : nat) (w : W) (n : nat) (p : prog IedServerE A) (a : A) (m : nat) : Prop :=
  ∃ w', ends fuel world (w, n) p a (w', m).

Lemma ends_at_done {A} fuel w n (a : A) : ends_at fuel w n (done_ a) a n.
Proof. exists w. apply ends_done. Qed.

Lemma ends_at_bind {A B} fuel w n (p : prog IedServerE A) (f : A → prog IedServerE B) a m b m' :
  ends_at fuel w n p a m → (∀ w, ends_at fuel w m (f a) b m') → ends_at fuel w n (pbind p f) b m'.
Proof. intros [w' Hp] Hf. destruct (Hf w') as [w'' Hw]. exists w''. by eapply ends_bind. Qed.

(** Calls other than the reading of the flag. *)
Lemma ends_other {B A} fuel w n (e : IedServerE B) (f : B → prog IedServerE A) a m :
  (∀ w n, world B e (w, n) = ((other w B e).1, ((other w B e).2, n))) →
  (∀ w', ends_at fuel w' n (f (other w B e).1) a m) → ends_at fuel w n (pbind (call e) f) a m.
Proof.
  intros He Hf. destruct (Hf (other w B e).2) as [w' Hw]. exists w'. eapply ends_bind; [|exact Hw].
  apply ends_call. apply He.
Qed.

Ltac answered := intros ? ?; cbn [signal_after fst snd]; by destruct (other _ _ _).

Lemma ends_handle_activities fuel w n cs : ends_at fuel w n (handle_activities cs) tt n.
Proof.
  revert w. induction cs as [|[[o v test]|x v] cs IH]; intros w; [apply ends_at_done| |].
  - simpl handle_activities. apply ends_at_bind with CONTROL_RESULT_OK n; [|exact IH].
    destruct o, v as [v|], test; try apply ends_at_done; apply ends_other; try answered; intros; apply ends_at_done.
  - simpl handle_activities. apply ends_other; [answered|exact IH].
Qed.

Lemma ends_serve_loop fuel w n m :
  (n < m)%nat →
  ∃ t w', turns (λ s st, exec fuel world st (serve_turn s)) m tt (w, n) = Some (t, tt, (w', 0%nat)).
Proof.
  revert w m. induction n as [|n IH]; intros w m Hm; (destruct m as [|m]; [lia|]).
  - enough (ends fuel world (w, 0%nat) (serve_turn tt) (inr tt) (w, 0%nat)) as He.
    { destruct (turns_exit fuel world _ _ serve_turn tt tt m He) as [t Ht]. by exists t, w. }
    unfold serve_turn. eapply ends_bind; [by apply ends_call|]. apply ends_done.
  - assert (ends_at fuel w (S n) (serve_turn tt) (inl tt) n) as [w1 He].
    { unfold serve_turn. eapply (ends_at_bind _ _ _ _ _ true); [exists w; by apply ends_call|].
      intros w'. cbn [negb]. apply ends_other; [answered|]. intros w2.
      eapply ends_at_bind; [apply ends_handle_activities|]. intros w3. apply ends_at_done. }
    destruct (IH w1 m ltac:(lia)) as (t & w2 & Ht).
    destruct (turns_again fuel world _ _ _ serve_turn tt tt tt m He (ex_intro _ t Ht)) as [t' Ht'].
    by exists t', w2.
Qed.

Lemma ends_at_call {B} fuel w n (e : IedServerE B) :
  (∀ w n, world B e (w, n) = ((other w B e).1, ((other w B e).2, n))) →
  ∃ b, ends_at fuel w n (call e) b n.
Proof. intros He. exists (other w B e).1, (other w B e).2. apply ends_call, He. Qed.

Lemma ends_at_then {A} fuel w n (e : IedServerE unit) (p : prog IedServerE A) a m :
  (∀ w n, world unit e (w, n) = ((other w unit e).1, ((other w unit e).2, n))) →
  (∀ w', ends_at fuel w' n p a m) → ends_at fuel w n (pbind (call e) (λ _, p)) a m.
Proof. intros He Hp. by apply ends_other. Qed.

Lemma ends_at_unit fuel w n (e : IedServerE unit) :
  (∀ w n, world unit e (w, n) = ((other w unit e).1, ((other w unit e).2, n))) →
  ends_at fuel w n (call e) tt n.
Proof. intros He. destruct (ends_at_call fuel w n e He) as [[] Hb]. exact Hb. Qed.

Lemma ends_configure fuel w n : ends_at fuel w n configure tt n.
Proof.
  unfold configure. do 4 (apply ends_at_then; [answered|intros]).
  eapply (ends_at_bind _ _ _ _ _ tt).
  - unfold set_initial_values. do 15 (apply ends_at_then; [answered|intros ?]). apply ends_at_unit. answered.
  - intros ?. do 2 (apply ends_at_then; [answered|intros ?]). apply ends_at_unit. answered.
Qed.

(** C18: The IED server, once it has started and runs, ends with code 0 once the
    signal was handled, however many turns it has served and whatever the
    library answers meanwhile: any control calls and client writes, others in
    every turn. *)
Theorem server_ends_on_signal version port w n :
  (∀ w, (other w bool IedServer_create).1 = true) → (∀ w, (other w bool IedServer_isRunning).1 = true) →
  ∃ w', ends (S n) world (w, n) (serve model_name version port) 0 (w', 0%nat).
Proof.
  intros Hcreate Hrunning. unfold serve. change (ends_at (S n) w n (serve model_name version port) 0 0).
  unfold serve. apply ends_other; [answered|]. rewrite Hcreate. cbn [negb]. intros w1.
  eapply ends_at_bind; [apply ends_configure|]. intros w2.
  apply ends_other; [answered|]. intros w3. apply ends_other; [answered|]. rewrite Hrunning. cbn [negb]. cbv zeta.
  intros w4. eapply ends_at_bind; [exists w4; apply ends_line|]. intros w5.
  eapply (ends_at_bind _ _ _ _ _ tt).
  { destruct (ends_serve_loop (S n) w5 n (S n) ltac:(lia)) as (t & w6 & Ht). exists w6. by eapply ends_repeat, ex_intro. }
  intros w6. do 2 (apply ends_at_then; [answered|intros ?]). apply ends_at_done.
Qed.
End signal.
End spec.

(** ** A server that is operated and stopped *)

(** In each turn one object is operated more, and in the second a client writes
    the status of another. *)
Definition operated_server (k : Z) (B : Type) (e : @IedServerE ref_mms B) : B * Z :=
  (match e in IedServerE B return B with
   | IedServer_create => true
   | IedServer_setWriteAccessPolicy _ _ => tt
   | IedServer_updateInt32AttributeValue _ _ => tt
   | IedServer_updateUnsignedAttributeValue _ _ => tt
   | IedServer_updateVisibleStringAttributeValue _ _ => tt
   | IedServer_updateBooleanAttributeValue _ _ => tt
   | IedServer_updateDbposValue _ _ => tt
   | IedServer_updateFloatAttributeValue _ _ => tt
   | IedServer_setControlHandler _ => tt
   | IedServer_start _ => tt
   | IedServer_isRunning => true
   | g_running => true
   | Thread_sleep _ =>
       Control (@mk_control_call ref_mms GGIO1_SPCSO2 (Some (MmsValue_newBoolean (k =? 30))) false) ::
       Control (@mk_control_call ref_mms GGIO1_SPCSO1 (Some (MmsValue_newBoolean true)) true) ::
       (if k =? 30 then [] else [AttributeWrite GGIO1_SPCSO3_stVal (ABool true)])
   | client_wrote _ _ => tt
   | IedServer_stop => tt
   | IedServer_destroy => tt
   end, k + 1).

Abbreviation operated_run :=
  (exec 4 (signal_after operated_server) (0, 3%nat) (serve (H := ref_mms) "InteropIED" None 1102)).

Lemma server_ends_on_signal_witness :
  ∃ w', ends 4 (signal_after operated_server) (0, 3%nat) (serve (H := ref_mms) "InteropIED" None 1102) 0 (w', 0%nat).
Proof. by apply (server_ends_on_signal (H := ref_mms) "InteropIED" operated_server None 1102 0 3%nat). Defined.

Definition operated_trace : list (event (@IedServerE ref_mms)) := trace_of operated_run.

Lemma operated_runs : runs (serve (H := ref_mms) "InteropIED" None 1102) operated_trace 0.
Proof.
  assert (match operated_run with Some (_, c, _) => c =? 0 | None => false end = true) as Hc
    by (vm_compute; reflexivity).
  unfold operated_trace. revert Hc. destruct operated_run as [[[t c] w]|] eqn:Hr; [|done].
  intros ->%Z.eqb_eq. by eapply exec_runs.
Qed.


Lemma server_life_witness :
  (operated_trace = [called IedServer_create false] ∧ 0 = 1) ∨
  ∃ conf rest,
    operated_trace = called IedServer_create true :: conf ++ called (IedServer_start 1102) tt :: rest ∧
    seeded (store_after (λ _, None) conf) ∧
    ((rest = [called IedServer_isRunning false; called IedServer_destroy tt] ∧ 0 = 1) ∨
     ∃ turns, rest = called IedServer_isRunning true ::
         printed (jl_ready None (snprintf_s 64 ("0.0.0.0:" +:+ fmt_d 1102)) "iec61850-v3"
                    "libiec61850" (Some "InteropIED")) ::
         turns ++ [called g_running false; called IedServer_stop tt; called IedServer_destroy tt] ∧
       0 = 0).
Proof. apply (server_life (H := ref_mms) "InteropIED" None 1102 operated_trace 0), operated_runs. Defined.
