(* ===== verification/IedSystem.v ===== *)
(** * The IED programs together

    What the client programs do to the server of ied_server.c: the controller
    reads back the status it set; and two defaults that do not do what the
    documents say. *)

From Stdlib Require Import ZArith Lia String Ascii SpecFloat.
From stdpp Require Import base tactics list strings numbers option.
From S2P Require Import Prelude CText CFloat JsonLines Args Mms RefMms Interact IedCommon.
From S2P Require Import IedController IedControllerSpec IedReporter IedReporterSpec IedServer IedServerSpec.

Local Open Scope Z_scope.

(** ** Controller and server *)

Section system.
Context `{MmsApi} `{!MmsLaws}.

(** The control objects of the server that the data objects of the controller
    name. *)
Definition configured (cfg : DoConfig) (o : ControlObject) : Prop :=
  (cfg, o) ∈ zip DO_CONFIGS [GGIO1_SPCSO1; GGIO1_SPCSO2; GGIO1_SPCSO3].

Definition ctlmodel_of (o : ControlObject) : DataAttribute :=
  match o with
  | GGIO1_SPCSO1 => GGIO1_SPCSO1_ctlModel
  | GGIO1_SPCSO2 => GGIO1_SPCSO2_ctlModel
  | GGIO1_SPCSO3 => GGIO1_SPCSO3_ctlModel
  end.

(** The server's handler ran for a control: the store has its updates. *)
Definition handled (σ : store) (c : control_call) (σ' : store) : Prop :=
  ∃ t r, runs (control_handler c) t r ∧ σ' = store_after σ t.

Ltac run_cases := repeat match goal with
  | H : runs (match ?x with _ => _ end) _ _ |- _ => destruct x eqn:?
  | H : runs _ _ _ |- _ => run_step H
  end.

Lemma handled_status σ o w σ' :
  handled σ (mk_control_call _ o (Some w) false) σ' →
  σ' (status_of o) = Some (ABool (MmsValue_getBoolean w)) ∧ ∀ a, a ≠ status_of o → σ' a = σ a.
Proof.
  intros (t & r & Hr & ->). unfold control_handler, spcso1_control_handler, spcso2_control_handler,
    spcso3_control_handler in Hr. destruct o; cbn [cc_object cc_value cc_test negb] in Hr;
    run_cases; (split; [done|]; intros x Hx; cbn in Hx |- *; unfold updated; cbn [update_of];
    by rewrite bool_decide_eq_false_2 by congruence).
Qed.

(** What the libraries promise of the way between controller and server, while
    no other client acts: a read that succeeds gives what the server's store
    has, a control client is of the object its reference names, an operate that
    succeeds has run the handler of that object with the value operated, one
    that fails may have, and nothing else changes the store. *)
Class ControlPath {W : Type} (net : ∀ B, IedE B → W → B * W) := {
  server_store : W → store;
  client_names : W → Z → ControlObject → Prop;
  path_ctlmodel w cfg o n err w' :
    configured cfg o → net _ (IedConnection_readInt32Value (ctlmodel_ref cfg) IEC61850_FC_CF) w = ((n, err), w') →
    server_store w' = server_store w ∧
    (ied_ok err = true → server_store w (ctlmodel_of o) = Some (AInt n));
  path_status w cfg o b err w' :
    configured cfg o → net _ (IedConnection_readBooleanValue (stval_ref cfg) IEC61850_FC_ST) w = ((b, err), w') →
    server_store w' = server_store w ∧
    (ied_ok err = true → server_store w (status_of o) = Some (ABool b));
  path_create w cfg o r w' :
    configured cfg o → net _ (ControlObjectClient_create (ctl_ref cfg)) w = (r, w') →
    server_store w' = server_store w ∧ ∀ c, r = Some c → client_names w' c o;
  path_select w c o ok w' :
    client_names w c o → net _ (ControlObjectClient_select c) w = (ok, w') →
    server_store w' = server_store w ∧ client_names w' c o;
  path_select_with_value w c o v ok w' :
    client_names w c o → net _ (ControlObjectClient_selectWithValue c v) w = (ok, w') →
    server_store w' = server_store w ∧ client_names w' c o;
  path_operate w c o v ok w' :
    client_names w c o → net _ (ControlObjectClient_operate c v 0) w = (ok, w') →
    handled (server_store w) (mk_control_call _ o (Some v) false) (server_store w') ∨
    ok = false ∧ server_store w' = server_store w;
  path_error w c err w' :
    net _ (ControlObjectClient_getLastApplError c) w = (err, w') →
    server_store w' = server_store w ∧ ∀ c o, client_names w c o → client_names w' c o;
  path_destroy w c u w' : net _ (ControlObjectClient_destroy c) w = (u, w') → server_store w' = server_store w;
  path_close w u w' : net _ IedConnection_close w = (u, w') → server_store w' = server_store w
}.

(** ** The abstract control cycle *)

(** The line of an operation that has come to [ok]. *)
Definition said (op target : string) (rest : string) (ok : bool) (l : string) : Prop :=
  if ok then l = ok_line op (Some target) rest else ∃ msg, l = error_line op (Some target) msg.

Definition ctlmodel_said (cfg : DoConfig) (ok : bool) (l : string) : Prop :=
  said "read-ctlmodel" (ctlmodel_ref cfg +:+ "[CF]") (raw_member "value" (fmt_d (expected_ctlmodel cfg))) ok l.

Definition status_said (cfg : DoConfig) (o : ControlObject) (σ : store) (ok : bool) (l : string) : Prop :=
  ∃ b, (ok = true → σ (status_of o) = Some (ABool b)) ∧
    said "read-stval" (stval_ref cfg +:+ "[ST]") (raw_member "value" (bool_text b)) ok l.

(** The selection a control model asks for before the operate. *)
Definition selection_of (cfg : DoConfig) : option string :=
  if expected_ctlmodel cfg =? 2 then Some "select"
  else if expected_ctlmodel cfg =? 4 then Some "select-with-value" else None.

Definition operated (σ : store) (o : ControlObject) (v : bool) (σ' : store) : Prop :=
  σ' (status_of o) = Some (ABool v) ∧ ∀ a, a ≠ status_of o → σ' a = σ a.

(** The selection and the operate: whether each was accepted, the lines, and the
    store after. *)
Inductive commanded (cfg : DoConfig) (o : ControlObject) (v : bool) (σ : store) :
    bool → bool → list string → store → Prop :=
| selection_refused op msg :
    selection_of cfg = Some op →
    commanded cfg o v σ false false [error_line op (Some (ctl_ref cfg)) msg] σ
| operate_refused msg σ' :
    σ' = σ ∨ operated σ o v σ' →
    commanded cfg o v σ true false
      (from_option (λ op, [ok_line op (Some (ctl_ref cfg)) ""]) [] (selection_of cfg) ++
       [error_line "operate" (Some (ctl_ref cfg)) msg]) σ'
| operate_accepted σ' :
    operated σ o v σ' →
    commanded cfg o v σ true true
      (from_option (λ op, [ok_line op (Some (ctl_ref cfg)) ""]) [] (selection_of cfg) ++
       [ok_line "operate" (Some (ctl_ref cfg)) (raw_member "ctlval" (bool_text v))]) σ'.

(** The control model is read, the object commanded, its status read back; after
    a selection before operate that is refused it is not. *)
Inductive control_cycle (cfg : DoConfig) (o : ControlObject) (v : bool) (σ : store) :
    list string → store → Prop :=
| cycle_stopped ok l ls :
    expected_ctlmodel cfg = 2 → ctlmodel_said cfg ok l → commanded cfg o v σ false false ls σ →
    control_cycle cfg o v σ (l :: ls ++ [conclude_line]) σ
| cycle_read_back ok l selected accepted ls σ' ok' l' :
    ctlmodel_said cfg ok l → commanded cfg o v σ selected accepted ls σ' →
    (expected_ctlmodel cfg = 2 → selected = true) → status_said cfg o σ' ok' l' →
    control_cycle cfg o v σ (l :: ls ++ [l'; conclude_line]) σ'.

(** The lines when all goes well. *)
Definition control_lines (cfg : DoConfig) (v : bool) : list string :=
  [ok_line "read-ctlmodel" (Some (ctlmodel_ref cfg +:+ "[CF]"))
     (raw_member "value" (fmt_d (expected_ctlmodel cfg)))] ++
  from_option (λ op, [ok_line op (Some (ctl_ref cfg)) ""]) [] (selection_of cfg) ++
  [ok_line "operate" (Some (ctl_ref cfg)) (raw_member "ctlval" (bool_text v));
   ok_line "read-stval" (Some (stval_ref cfg +:+ "[ST]")) (raw_member "value" (bool_text v));
   conclude_line].

(** An answer that accepts. *)
Definition accepting (ev : event IedE) : bool :=
  match ev with
  | called e b =>
      match e in IedE B return B → bool with
      | IedConnection_readInt32Value _ _ => λ r, ied_ok r.2
      | IedConnection_readBooleanValue _ _ => λ r, ied_ok r.2
      | ControlObjectClient_create _ => λ r, bool_decide (is_Some r)
      | ControlObjectClient_select _ => λ ok, ok
      | ControlObjectClient_selectWithValue _ _ => λ ok, ok
      | ControlObjectClient_operate _ _ _ => λ ok, ok
      | _ => λ _, true
      end b
  | printed _ => true
  end.

Definition positive (ev : event IedE) : Prop := accepting ev = true.

(** ** The controller refines the cycle *)

Lemma configured_cases cfg o :
  configured cfg o →
  selection_of cfg = (if expected_ctlmodel cfg =? 2 then Some "select"
                      else if expected_ctlmodel cfg =? 4 then Some "select-with-value" else None) ∧
  snprintf_s 128 (ctlmodel_ref cfg +:+ "[CF]") = ctlmodel_ref cfg +:+ "[CF]" ∧
  snprintf_s 128 (stval_ref cfg +:+ "[ST]") = stval_ref cfg +:+ "[ST]" ∧
  (expected_ctlmodel cfg = 1 ∨ expected_ctlmodel cfg = 2 ∨ expected_ctlmodel cfg = 4) ∧
  ∀ σ, seeded σ → σ (ctlmodel_of o) = Some (AInt (expected_ctlmodel cfg)).
Proof.
  unfold configured, DO_CONFIGS. cbn [zip zip_with]. intros Hc. split; [done|].
  assert (∀ σ, seeded σ → σ GGIO1_SPCSO1_ctlModel = Some (AInt 1) ∧ σ GGIO1_SPCSO2_ctlModel = Some (AInt 2) ∧
    σ GGIO1_SPCSO3_ctlModel = Some (AInt 4)) as Hs.
  { intros σ Hσ. unfold seeded, values_json in Hσ. repeat (apply list.Forall_cons in Hσ as [? Hσ]). done. }
  repeat (apply elem_of_cons in Hc as [[= -> ->]|Hc];
    [split; [done|]; split; [done|]; split; [simpl; lia|]; intros σ Hσ; apply (Hs σ Hσ)|]).
  by apply elem_of_nil in Hc.
Qed.

Section cycle.
Context {W : Type} (net : ∀ B, IedE B → W → B * W) `{!ControlPath net}.
Context (cfg : DoConfig) (o : ControlObject).
Hypothesis Hcfg : configured cfg o.

Abbreviation does := (does 0 net).

(** The call and what follows, with the law of the call. *)
Ltac step law H :=
  apply does_bind, does_call; intros ? ? H; eapply law in H; [|by eauto..]; try cbv beta iota zeta.
Ltac answer := apply does_bind, does_call; intros ? ? ?.

Lemma read_ctlmodel_does w :
  seeded (server_store w) →
  does w (op_read_ctlmodel cfg) (λ t ok w',
    server_store w' = server_store w ∧ (Forall positive t → ok = true) ∧
    ∃ l, lines t = [l] ∧ ctlmodel_said cfg ok l).
Proof.
  intros Hs. destruct (configured_cases cfg o Hcfg) as (_ & Hcf & _ & _ & Hm). unfold op_read_ctlmodel.
  apply does_bind, does_call. intros [n err] w1 Hr. apply (path_ctlmodel _ _ o) in Hr as [Hw Hn]; [|done].
  rewrite Hcf. cbv zeta. destruct (ied_ok err) eqn:Herr; cbn [negb]; apply does_bind, does_line, does_done.
  - split; [done|]. split; [done|]. eexists. split; [done|].
    specialize (Hn eq_refl). rewrite (Hm _ Hs) in Hn. injection Hn as <-. done.
  - split; [done|]. split; [|by eexists; split; [|eexists]].
    intros Hp. inversion Hp as [|?? H1 _]. unfold positive in H1. simpl in H1. congruence.
Qed.

Lemma read_stval_does w :
  does w (op_read_stval cfg) (λ t ok w',
    server_store w' = server_store w ∧ (Forall positive t → ok = true) ∧
    ∃ l, lines t = [l] ∧ status_said cfg o (server_store w) ok l).
Proof.
  destruct (configured_cases cfg o Hcfg) as (_ & _ & Hst & _). unfold op_read_stval.
  apply does_bind, does_call. intros [b err] w1 Hr. apply (path_status _ _ o) in Hr as [Hw Hb]; [|done].
  rewrite Hst. cbv zeta. destruct (ied_ok err) eqn:Herr; cbn [negb]; apply does_bind, does_line, does_done.
  - split; [done|]. split; [done|]. eexists. split; [done|]. exists b. by split; [intros _; apply Hb|].
  - split; [done|]. split; [|eexists; split; [done|]; exists b; by split; [|eexists]].
    intros Hp. inversion Hp as [|?? H1 _]. unfold positive in H1. simpl in H1. congruence.
Qed.

Lemma conclude_does w :
  does w conclude (λ t code w', code = 0 ∧ server_store w' = server_store w ∧ lines t = [conclude_line]).
Proof.
  unfold conclude. apply does_bind, does_call. intros u w1 Hc. apply path_close in Hc.
  apply does_bind, does_line, does_done. done.
Qed.

(** What an operation of a control client does: [Q] of its result, its line and
    the store. *)
Definition op_does (w : W) (p : prog IedE bool) (Q : bool → list string → store → Prop) : Prop :=
  does w p (λ t ok w', (Forall positive t → ok = true) ∧ Q ok (lines t) (server_store w')).

Lemma select_does w :
  op_does w (op_select cfg) (λ ok ls σ, σ = server_store w ∧
    ∃ l, ls = [l] ∧ said "select" (ctl_ref cfg) "" ok l).
Proof.
  unfold op_does, op_select. apply does_bind, does_call. intros r w1 Hr.
  apply (path_create _ _ o) in Hr as [Hw1 Hn]; [|done]. destruct r as [c|].
  - specialize (Hn c eq_refl).
    apply does_bind, does_call. intros ok w2 Hs. apply (path_select _ _ o) in Hs as [Hw2 Hn2]; [|done].
    apply does_bind, does_call. intros err w3 He. apply path_error in He as [Hw3 _].
    apply does_bind, does_call. intros u w4 Hd. apply path_destroy in Hd.
    destruct ok; cbn [negb]; apply does_bind, does_line, does_done.
    + split; [done|]. split; [congruence|]. by eexists.
    + split; [|split; [congruence|by eexists; split; [|eexists]]].
      intros Hp. do 2 (apply list.Forall_cons in Hp as [? Hp]). done.
  - apply does_bind, does_line, does_done. split; [|split; [congruence|by eexists; split; [|eexists]]].
    intros Hp. by apply list.Forall_cons in Hp as [? _].
Qed.

Lemma operated_of_handled σ v σ' : handled σ (mk_control_call _ o (Some (val_of v)) false) σ' → operated σ o v σ'.
Proof. intros Hh. apply handled_status in Hh as [Hv Ho]. split; [|done]. rewrite Hv. unfold val_of. by rewrite getBoolean_new. Qed.

(** The lines and the store of an operate. *)
Definition operate_done (v : bool) (σ : store) (ok : bool) (ls : list string) (σ' : store) : Prop :=
  (∃ l, ls = [l] ∧ said "operate" (ctl_ref cfg) (raw_member "ctlval" (bool_text v)) ok l) ∧
  (operated σ o v σ' ∨ ok = false ∧ σ' = σ).

Lemma operate_does w v : op_does w (op_operate cfg v) (operate_done v (server_store w)).
Proof.
  unfold op_does, op_operate. apply does_bind, does_call. intros r w1 Hr.
  apply (path_create _ _ o) in Hr as [Hw1 Hn]; [|done]. destruct r as [c|].
  - specialize (Hn c eq_refl). cbv zeta.
    apply does_bind, does_call. intros ok w2 Hs. apply (path_operate _ _ o) in Hs; [|done].
    apply does_bind, does_call. intros err w3 He. apply path_error in He as [Hw3 _].
    apply does_bind, does_call. intros u w4 Hd. apply path_destroy in Hd. rewrite Hw1 in Hs.
    assert (operated (server_store w) o v (server_store w4) ∨ ok = false ∧ server_store w4 = server_store w) as Hop.
    { rewrite Hd, Hw3. destruct Hs as [Hh|Hs]; [left; by apply operated_of_handled|by right]. }
    destruct ok; cbn [negb]; apply does_bind, does_line, does_done.
    + split; [done|]. split; [by eexists|done].
    + split; [|split; [by eexists; split; [|eexists]|done]].
      intros Hp. do 2 (apply list.Forall_cons in Hp as [? Hp]). done.
  - apply does_bind, does_line, does_done. split; [|split; [by eexists; split; [|eexists]|by right]].
    intros Hp. by apply list.Forall_cons in Hp as [? _].
Qed.

Lemma select_with_value_does w v :
  op_does w (op_select_with_value cfg v) (λ ok ls σ,
    (ok = false ∧ σ = server_store w ∧ ∃ msg, ls = [error_line "select-with-value" (Some (ctl_ref cfg)) msg]) ∨
    ∃ ls', ls = ok_line "select-with-value" (Some (ctl_ref cfg)) "" :: ls' ∧
      operate_done v (server_store w) ok ls' σ).
Proof.
  unfold op_does, op_select_with_value. apply does_bind, does_call. intros r w1 Hr.
  apply (path_create _ _ o) in Hr as [Hw1 Hn]; [|done]. destruct r as [c|].
  - specialize (Hn c eq_refl). cbv zeta.
    apply does_bind, does_call. intros ok1 w2 Hs. apply (path_select_with_value _ _ o) in Hs as [Hw2 Hn2]; [|done].
    apply does_bind, does_call. intros err w3 He. apply path_error in He as [Hw3 Hn3].
    destruct ok1; cbn [negb]; apply does_bind, does_line.
    + apply does_bind, does_call. intros ok w4 Ho. apply (path_operate _ _ o) in Ho; [|by apply Hn3].
      apply does_bind, does_call. intros err' w5 He'. apply path_error in He' as [Hw5 _].
      apply does_bind, does_call. intros u w6 Hd. apply path_destroy in Hd. rewrite Hw3, Hw2, Hw1 in Ho.
      assert (operated (server_store w) o v (server_store w6) ∨ ok = false ∧ server_store w6 = server_store w) as Hop.
      { rewrite Hd, Hw5. destruct Ho as [Hh|Ho]; [left; by apply operated_of_handled|by right]. }
      destruct ok; cbn [negb]; apply does_bind, does_line, does_done.
      * split; [done|]. right. eexists. split; [done|]. split; [by eexists|done].
      * split; [|right; eexists; split; [done|]; split; [by eexists; split; [|eexists]|done]].
        intros Hp. do 5 (apply list.Forall_cons in Hp as [? Hp]). done.
    + apply does_bind, does_call. intros u w4 Hd. apply path_destroy in Hd. apply does_done.
      split; [|left; split; [done|]; split; [congruence|by eexists]].
      intros Hp. do 2 (apply list.Forall_cons in Hp as [? Hp]). done.
  - apply does_bind, does_line, does_done. split; [|left; split; [done|]; split; [done|by eexists]].
    intros Hp. by apply list.Forall_cons in Hp as [? _].
Qed.

(** The status read back and the end. *)
Lemma read_back_does w :
  does w (op_read_stval cfg;; conclude) (λ t code w',
    code = 0 ∧ server_store w' = server_store w ∧ ∃ ok l, lines t = [l; conclude_line] ∧
    status_said cfg o (server_store w) ok l ∧ (Forall positive t → ok = true)).
Proof.
  apply does_bind. eapply does_mono; [apply read_stval_does|]. intros t1 ok w1 (Hw1 & Hp & l & Hl & Hs).
  eapply does_mono; [apply conclude_does|]. intros t2 code w2 (-> & Hw2 & Hc).
  split; [done|]. split; [congruence|]. exists ok, l. rewrite lines_app, Hl, Hc. split; [done|]. split; [done|].
  intros Hall. apply Forall_app in Hall as [Hall _]. auto.
Qed.

(** What the operation that commands the object has come to. *)
Lemma operate_commanded v σ selected ok ls σ' :
  selected = from_option (λ op, [ok_line op (Some (ctl_ref cfg)) ""]) [] (selection_of cfg) →
  operate_done v σ ok ls σ' → commanded cfg o v σ true ok (selected ++ ls) σ'.
Proof.
  intros -> ((l & -> & Hl) & Hop). destruct ok.
  - destruct Hop as [Hop|[? _]]; [|done]. rewrite Hl. by apply operate_accepted.
  - destruct Hl as [msg ->]. apply operate_refused. destruct Hop as [Hop|[_ Hop]]; auto.
Qed.

Lemma status_said_operated v σ σ' l :
  operated σ o v σ' → status_said cfg o σ' true l →
  l = ok_line "read-stval" (Some (stval_ref cfg +:+ "[ST]")) (raw_member "value" (bool_text v)).
Proof. intros [Hv _] (b & Hb & Hl). rewrite Hv in Hb. specialize (Hb eq_refl). by injection Hb as ->. Qed.

(** The end of the program, after the control model was said and the object
    commanded. *)
Definition cycle_done (σ : store) (v : bool) (t : list (event IedE)) (code : Z) (w' : W) : Prop :=
  code = 0 ∧ control_cycle cfg o v σ (lines t) (server_store w') ∧
  (Forall positive t → lines t = control_lines cfg v ∧ operated σ o v (server_store w')).

(** Reading back after a command of which [t] are the events so far. *)
Lemma cycle_reads_back σ v ok l selected accepted ls t w :
  ctlmodel_said cfg ok l → commanded cfg o v σ selected accepted ls (server_store w) →
  (expected_ctlmodel cfg = 2 → selected = true) → lines t = l :: ls →
  (Forall positive t → ok = true ∧ accepted = true) →
  does w (op_read_stval cfg;; conclude) (λ t' code w', cycle_done σ v (t ++ t') code w').
Proof.
  intros Hl Hc Hsel Ht Hpos. eapply does_mono; [apply read_back_does|].
  intros t' code w' (-> & Hw' & ok' & l' & Hl' & Hs & Hpos'). split; [done|]. rewrite lines_app, Ht, Hl', Hw'.
  split; [by eapply (cycle_read_back _ _ _ _ ok l selected accepted)|].
  intros Hall. apply Forall_app in Hall as [Hall Hall']. destruct (Hpos Hall) as [-> ->].
  specialize (Hpos' Hall') as ->. inversion Hc; subst. split; [|done].
  unfold control_lines. rewrite Hl. cbn [app]. f_equal. rewrite <- app_assoc. f_equal. cbn [app].
  by rewrite (status_said_operated v σ _ _ ltac:(done) Hs).
Qed.

Lemma cycle_operates σ v ok l t w selected :
  ctlmodel_said cfg ok l → server_store w = σ → lines t = l :: selected →
  selected = from_option (λ op, [ok_line op (Some (ctl_ref cfg)) ""]) [] (selection_of cfg) →
  (Forall positive t → ok = true) →
  does w (op_operate cfg v;; op_read_stval cfg;; conclude)%prog (λ t' code w', cycle_done σ v (t ++ t') code w').
Proof.
  intros Hl Hσ Ht Hsel Hpos. apply does_bind. eapply does_mono; [apply operate_does|].
  intros t1 ok1 w1 (Hp1 & Hop). rewrite Hσ in Hop. cbv beta.
  eapply does_mono; [eapply (cycle_reads_back σ v ok l true ok1 _ (t ++ t1)); [done| |done| |]|].
  - by eapply operate_commanded.
  - rewrite lines_app, Ht. done.
  - intros Hall. apply Forall_app in Hall as [Ha Hb]. auto.
  - intros t2 code w2. by rewrite app_assoc.
Qed.

(** C6: The IED controller on a server whose configuration is the seeded one,
    over any libraries that keep the laws of the control path (a read gives what
    the server has, an operate that is accepted has run the control handler of
    the server): whatever is refused on the way, its lines and the values of the
    server are a run of the abstract control cycle of the object, and when all
    answers are positive they are the control model, the accepted selection that
    the model asks for, the operate and a status that reads back as the value
    operated, and that status is the one value of the server that has changed. *)
Theorem controller_reads_back w v :
  seeded (server_store w) →
  ∃ t w', exec 0 net w (control_sequence cfg v) = Some (t, 0, w') ∧
    control_cycle cfg o v (server_store w) (lines t) (server_store w') ∧
    (Forall positive t → lines t = control_lines cfg v ∧ operated (server_store w) o v (server_store w')).
Proof.
  intros Hs. enough (does w (control_sequence cfg v) (cycle_done (server_store w) v)) as (t & c & w' & He & -> & Hc).
  { by exists t, w'. }
  destruct (configured_cases cfg o Hcfg) as (Hsel & _ & _ & Hm & _).
  unfold control_sequence. apply does_bind. eapply does_mono; [by apply read_ctlmodel_does|].
  intros t1 ok w1 (Hw1 & Hp1 & l & Hl & Hsaid). cbv beta.
  destruct Hm as [Hm|[Hm|Hm]]; rewrite Hm in Hsel |- *; cbn [Z.eqb Pos.eqb] in Hsel |- *.
  - apply does_bind, does_done. cbn [negb]. by apply (cycle_operates _ v ok l t1 w1 []); rewrite ?Hsel.
  - apply does_bind. eapply does_mono; [apply select_does|].
    intros t2 ok2 w2 (Hp2 & Hw2 & l2 & Hl2 & Hs2). cbv beta. destruct ok2; cbn [negb].
    + eapply does_mono; [eapply (cycle_operates (server_store w) v ok l (t1 ++ t2) w2 [l2])|].
      * done.
      * congruence.
      * by rewrite lines_app, Hl, Hl2.
      * rewrite Hsel, Hs2. done.
      * intros Hall. apply Forall_app in Hall as [Ha Hb]. auto.
      * intros t3 code w3. by rewrite app_assoc.
    + eapply does_mono; [apply conclude_does|]. intros t3 code w3 (-> & Hw3 & Hl3). split; [done|].
      rewrite !lines_app, Hl, Hl2, Hl3, Hw3, Hw2, Hw1. destruct Hs2 as [msg ->]. split.
      * by eapply (cycle_stopped _ _ _ _ ok l [_]); [|done|eapply selection_refused].
      * intros Hall. apply Forall_app in Hall as [_ Hall]. apply Forall_app in Hall as [Hall _]. by apply Hp2 in Hall.
  - apply does_bind, does_done. cbn [negb]. apply does_bind.
    eapply does_mono; [apply select_with_value_does|]. intros t2 ok2 w2 (Hp2 & Hop). cbv beta.
    rewrite Hw1 in Hop. destruct Hop as [(-> & Hw2 & msg & Hl2)|(ls & Hl2 & Hop)].
    + eapply does_mono; [eapply (cycle_reads_back (server_store w) v ok l false false _ (t1 ++ t2) w2); [done| | | |]|].
      * rewrite Hw2. by eapply selection_refused.
      * rewrite Hm. done.
      * by rewrite lines_app, Hl, Hl2.
      * intros Hall. apply Forall_app in Hall as [Ha Hb]. auto.
      * intros t3 code w3. cbv beta. by rewrite <- app_assoc.
    + eapply does_mono; [eapply (cycle_reads_back (server_store w) v ok l true ok2 _ (t1 ++ t2) w2); [done| |done| |]|].
      * eapply operate_commanded; [|exact Hop]. rewrite Hsel. reflexivity.
      * by rewrite lines_app, Hl, Hl2.
      * intros Hall. apply Forall_app in Hall as [Ha Hb]. auto.
      * intros t3 code w3. cbv beta. by rewrite <- app_assoc.
Qed.

End cycle.

(** ** Defaults *)

(** The value the reporter writes to trigger a report, when it is not told the
    initial one, is the one the server started with: nothing changes. *)
Theorem reporter_default_is_no_change version t code before ok after σ v :
  seeded σ → runs (IedReporter.main version ["ied_reporter"]) t code →
  rcb_actions t = before ++ Wrote v ok :: after → σ GGIO1_SPS1_stVal = Some (ABool v).
Proof.
  intros Hσ Hr Heq. apply IedReporterSpec.reporter_main_runs in Hr.
  destruct Hr as [Ha|Ht|Ha _|acts Ha Hs].
  - rewrite Ha in Heq. by destruct before.
  - subst t. by destruct before.
  - rewrite Ha in Heq. by repeat (destruct before as [|? before]; simplify_eq/=).
  - rewrite Ha in Heq. destruct Hs as [err He|rpt ena err He|rpt ena err reports posted err'];
      repeat (destruct before as [|? before]; simplify_eq/=).
    unfold seeded, values_json in Hσ. by repeat (apply list.Forall_cons in Hσ as [? Hσ]).
Qed.

(** The text true of the contract's usage is not 1. *)
Theorem controller_ctlval_true version t code before c w ok after :
  runs (IedController.main version ["ied_controller"; "--ctlval"; "true"]) t code →
  IedControllerSpec.actions t = before ++ Operated c w ok :: after → w = val_of false.
Proof.
  intros Hr Heq. apply IedControllerSpec.controller_main_runs in Hr.
  destruct Hr as [Ha|Ht|Ha _|cfg t' err host port _ He -> Hc].
  - rewrite Ha in Heq. by destruct before.
  - subst t. by destruct before.
  - rewrite Ha in Heq. by repeat (destruct before as [|? before]; simplify_eq/=).
  - destruct Hc as (acts & Ha & Hrun & _). simpl in Heq. rewrite He in Heq.
    fold (IedControllerSpec.actions t') in Heq. rewrite Ha in Heq.
    destruct before as [|a before]; [done|]. injection Heq as _ Heq.
    by destruct (control_run_permitted _ _ _ _ _ _ _ _ _ Hrun Heq) as (_ & -> & _).
Qed.

End system.

(** ** Witnesses *)

Definition seeded_store : store :=
  λ a, (snd <$> List.find (λ av, bool_decide (a = av.1)) values_json).

(** *** A network with the server's store and one selection *)

Definition server_answers (B : Type) (e : @IedServerE ref_mms B) (s : unit) : B * unit :=
  (match e in IedServerE B return B with
   | IedServer_create => true
   | IedServer_isRunning => true
   | g_running => true
   | Thread_sleep _ => []
   | IedServer_setWriteAccessPolicy _ _ | IedServer_updateInt32AttributeValue _ _
   | IedServer_updateUnsignedAttributeValue _ _ | IedServer_updateVisibleStringAttributeValue _ _
   | IedServer_updateBooleanAttributeValue _ _ | IedServer_updateDbposValue _ _
   | IedServer_updateFloatAttributeValue _ _ | IedServer_setControlHandler _ | IedServer_start _
   | client_wrote _ _ | IedServer_stop | IedServer_destroy => tt
   end, s).

(** The store after the server's handler ran. *)
Definition controlled (σ : store) (c : @control_call ref_mms) : store :=
  store_after σ (trace_of (exec 0 server_answers tt (control_handler c))).

Lemma controlled_handled σ c : handled (H := ref_mms) σ c (controlled σ c).
Proof.
  unfold handled, controlled.
  assert (∃ t r, exec 0 server_answers tt (control_handler c) = Some (t, r, tt)) as (t & r & He).
  { destruct c as [o v test]. by destruct o, v, test; eexists _, _. }
  exists t, r. rewrite He. split; [|done]. by eapply exec_runs.
Qed.

Definition objects : list (string * ControlObject) :=
  [("InteropLD/GGIO1.SPCSO1", GGIO1_SPCSO1); ("InteropLD/GGIO1.SPCSO2", GGIO1_SPCSO2);
   ("InteropLD/GGIO1.SPCSO3", GGIO1_SPCSO3)].

Definition client_of (o : ControlObject) : Z :=
  match o with GGIO1_SPCSO1 => 1 | GGIO1_SPCSO2 => 2 | GGIO1_SPCSO3 => 3 end.

Definition object_of_client (c : Z) : ControlObject :=
  if c =? 1 then GGIO1_SPCSO1 else if c =? 2 then GGIO1_SPCSO2 else GGIO1_SPCSO3.

(** The attribute [suffix] of the object a reference names. *)
Definition attribute_at (suffix : string) (f : ControlObject → DataAttribute) (ref : string)
  : option DataAttribute :=
  (λ x, f x.2) <$> List.find (λ x, String.eqb ref (x.1 +:+ suffix)) objects.

(** Operating an object that is selected before needs its selection, which it
    takes away; another selection can not be made meanwhile. *)
Definition network (B : Type) (e : @IedE ref_mms B) (w : store * option ControlObject)
  : B * (store * option ControlObject) :=
  let '(σ, selected) := w in
  match e in IedE B return B * (store * option ControlObject) with
  | ControlObjectClient_create ref =>
      ((λ x, client_of x.2) <$> List.find (λ x, String.eqb ref x.1) objects, w)
  | ControlObjectClient_select c | ControlObjectClient_selectWithValue c _ =>
      if bool_decide (selected = None ∨ selected = Some (object_of_client c))
      then (true, (σ, Some (object_of_client c))) else (false, w)
  | ControlObjectClient_operate c v _ =>
      let o := object_of_client c in
      if bool_decide (o = GGIO1_SPCSO1 ∨ selected = Some o)
      then (true, (controlled σ (mk_control_call _ o (Some v) false), None)) else (false, w)
  | IedConnection_readBooleanValue ref _ =>
      match attribute_at ".stVal" status_of ref ≫= σ with
      | Some (ABool b) => ((b, IED_ERROR_OK), w)
      | _ => ((false, IED_ERROR_OBJECT_DOES_NOT_EXIST), w)
      end
  | IedConnection_readInt32Value ref _ =>
      match attribute_at ".ctlModel" ctlmodel_of ref ≫= σ with
      | Some (AInt n) => ((n, IED_ERROR_OK), w)
      | _ => ((0, IED_ERROR_OBJECT_DOES_NOT_EXIST), w)
      end
  | e => (accepts e, w)
  end.

Ltac configured_case Hc :=
  unfold configured, DO_CONFIGS in Hc; cbn [zip zip_with] in Hc;
  repeat (apply elem_of_cons in Hc as [[= -> ->]|Hc]; [|]); [..|by apply elem_of_nil in Hc].

#[export, refine] Instance network_path : ControlPath (H := ref_mms) network :=
  { server_store := fst; client_names _ c o := object_of_client c = o }.
Proof.
  - intros [σ sel] cfg o n err w' Hc Hr. unfold network in Hr.
    assert (attribute_at ".ctlModel" ctlmodel_of (ctlmodel_ref cfg) = Some (ctlmodel_of o)) as Ha
      by (configured_case Hc; reflexivity).
    rewrite Ha in Hr. cbn [mbind option_bind fst] in *.
    destruct (σ (ctlmodel_of o)) as [[]|]; by simplify_eq/=.
  - intros [σ sel] cfg o b err w' Hc Hr. unfold network in Hr.
    assert (attribute_at ".stVal" status_of (stval_ref cfg) = Some (status_of o)) as Ha
      by (configured_case Hc; reflexivity).
    rewrite Ha in Hr. cbn [mbind option_bind fst] in *.
    destruct (σ (status_of o)) as [[]|]; by simplify_eq/=.
  - intros [σ sel] cfg o r w' Hc Hr. unfold network in Hr.
    assert ((λ x, client_of x.2) <$> List.find (λ x, String.eqb (ctl_ref cfg) x.1) objects = Some (client_of o)) as Ha
      by (configured_case Hc; reflexivity).
    rewrite Ha in Hr. simplify_eq/=. split; [done|]. intros c [= <-]. by destruct o.
  - intros [σ sel] c o ok w' Hc Hr. unfold network in Hr. by case_bool_decide; simplify_eq/=.
  - intros [σ sel] c o v ok w' Hc Hr. unfold network in Hr. by case_bool_decide; simplify_eq/=.
  - intros [σ sel] c o v ok w' Hc Hr. unfold network in Hr. rewrite Hc in Hr.
    case_bool_decide; simplify_eq/=; [left; apply controlled_handled|by right].
  - intros [σ sel] c err w' Hr. by simplify_eq/=.
  - intros [σ sel] c u w' Hr. by simplify_eq/=.
  - intros [σ sel] u w' Hr. by simplify_eq/=.
Defined.

Definition sbo_cfg : DoConfig :=
  mk_do "InteropLD/GGIO1.SPCSO2" "InteropLD/GGIO1.SPCSO2.ctlModel" "InteropLD/GGIO1.SPCSO2.stVal" 2.

Lemma sbo_configured : configured sbo_cfg GGIO1_SPCSO2.
Proof. right. left. Qed.

Lemma controller_reads_back_witness :
  ∃ t w', exec 0 network (seeded_store, None) (control_sequence (H := ref_mms) sbo_cfg true) = Some (t, 0, w') ∧
    control_cycle sbo_cfg GGIO1_SPCSO2 true seeded_store (lines t) w'.1 ∧
    (Forall (positive (H := ref_mms)) t →
     lines t = control_lines sbo_cfg true ∧ operated seeded_store GGIO1_SPCSO2 true w'.1).
Proof.
  pose proof (controller_reads_back (H := ref_mms) network sbo_cfg GGIO1_SPCSO2 sbo_configured (seeded_store, None) true) as Hr.
  cbn [server_store network_path fst] in Hr. apply Hr.
  repeat (constructor; [reflexivity|]). constructor.
Defined.

(** There all its answers are positive. *)
Lemma network_positive cfg o v :
  configured cfg o →
  ∃ t code w, exec 0 network (seeded_store, None) (control_sequence (H := ref_mms) cfg v) = Some (t, code, w) ∧
    forallb (accepting (H := ref_mms)) t = true.
Proof.
  intros Hc. assert (match exec 0 network (seeded_store, None) (control_sequence (H := ref_mms) cfg v) with
    | Some (t, _, _) => forallb (accepting (H := ref_mms)) t | None => false end = true) as Ht.
  { configured_case Hc; destruct v; vm_compute; reflexivity. }
  destruct (exec _ _ _ _) as [[[t code] w]|]; [|done]. by exists t, code, w.
Qed.

Definition default_report_trace : list (event (@IedE ref_mms)) :=
  trace_of (exec 0 report_server tt (IedReporter.main (H := ref_mms) None ["ied_reporter"])).

Lemma reporter_default_is_no_change_witness :
  seeded_store GGIO1_SPS1_stVal = Some (ABool false).
Proof.
  apply (reporter_default_is_no_change (H := ref_mms) None default_report_trace 0
    [IedReporterSpec.Connected true; Enabled true] true
    [Waited [one_report] true; Disabled true; IedReporterSpec.Closed]).
  - repeat (constructor; [reflexivity|]). constructor.
  - by apply (exec_runs 0 report_server tt _ default_report_trace 0 tt).
  - reflexivity.
Defined.

Definition true_trace : list (event (@IedE ref_mms)) :=
  trace_of (exec 0 ready_server tt
    (IedController.main (H := ref_mms) None ["ied_controller"; "--ctlval"; "true"])).

Lemma controller_ctlval_true_witness : val_of (H := ref_mms) false = val_of (H := ref_mms) false.
Proof.
  apply (controller_ctlval_true (H := ref_mms) None true_trace 0
    [IedControllerSpec.Connected true; Created 7 "InteropLD/GGIO1.SPCSO1"] 7 _ true
    [Destroyed 7; IedControllerSpec.Closed]).
  - by apply (exec_runs 0 ready_server tt _ true_trace 0 tt).
  - reflexivity.
Defined.
