(* ===== verification/JsonText.v ===== *)
(** * JSON texts

    A reader of compact JSON texts, the specification of what the programs
    write: [parses s t] says that the text [s] is the JSON value [t].  And the
    texts that render a value in front of a delimiter, part by part. *)

From Stdlib Require Import ZArith Lia String Ascii.
From stdpp Require Import base tactics list strings numbers option.
From S2P Require Import Prelude CText.

Local Open Scope Z_scope.

Inductive jtree : Type :=
| JNull
| JBool (b : bool)
| JNumber (text : string)
| JString (s : string)
| JArray (l : list jtree)
| JObject (l : list (string * jtree)).

(** ** Reading *)

(** The rest after a prefix. *)
Fixpoint strip (p s : string) : option string :=
  match p, s with
  | EmptyString, _ => Some s
  | String c p, String d s => if Ascii.eqb c d then strip p s else None
  | _, _ => None
  end.

(** A code point below 65536 in UTF-8. *)
Definition utf8 (n : Z) : string :=
  if n <? 128 then String (chr n) ""
  else if n <? 2048 then String (chr (192 + n / 64)) (String (chr (128 + n mod 64)) "")
  else String (chr (224 + n / 4096))
         (String (chr (128 + n / 64 mod 64)) (String (chr (128 + n mod 64)) "")).

(** The character a letter after a backslash stands for. *)
Definition escaped (c : ascii) : option ascii :=
  if Ascii.eqb c "034" || Ascii.eqb c "\" || Ascii.eqb c "/" then Some c
  else if Ascii.eqb c "b" then Some (chr 8)
  else if Ascii.eqb c "t" then Some (chr 9)
  else if Ascii.eqb c "n" then Some (chr 10)
  else if Ascii.eqb c "f" then Some (chr 12)
  else if Ascii.eqb c "r" then Some (chr 13)
  else None.

(** The characters of a string up to its closing quote. *)
Fixpoint parse_chars (s : string) : option (string * string) :=
  match s with
  | EmptyString => None
  | String c r =>
      if Ascii.eqb c "034" then Some ("", r)
      else if Ascii.eqb c "\" then
        match r with
        | EmptyString => None
        | String d r =>
            if Ascii.eqb d "u" then
              match r with
              | String a (String b (String x (String y r))) =>
                  if (hex_value a <? 0) || (hex_value b <? 0) || (hex_value x <? 0)
                     || (hex_value y <? 0) then None
                  else
                    let n := hex_value a * 4096 + hex_value b * 256 + hex_value x * 16 + hex_value y in
                    match parse_chars r with
                    | Some (t, r) => Some (utf8 n +:+ t, r)
                    | None => None
                    end
              | _ => None
              end
            else
              match escaped d, parse_chars r with
              | Some e, Some (t, r) => Some (String e t, r)
              | _, _ => None
              end
        end
      else if code c <? 32 then None
      else
        match parse_chars r with
        | Some (t, r) => Some (String c t, r)
        | None => None
        end
  end.

(** *** Numbers *)

Fixpoint skip_digits (s : string) : string :=
  match s with
  | String c r => if isdigit c then skip_digits r else s
  | EmptyString => s
  end.

(** The rest after one digit or more. *)
Definition digits1 (s : string) : option string :=
  match s with
  | String c r => if isdigit c then Some (skip_digits r) else None
  | EmptyString => None
  end.

Definition number_int (s : string) : option string :=
  match s with
  | String c r => if Ascii.eqb c "0" then Some r else digits1 s
  | EmptyString => None
  end.

Definition number_frac (s : string) : option string :=
  match s with
  | String c r => if Ascii.eqb c "." then digits1 r else Some s
  | EmptyString => Some s
  end.

Definition skip_sign (s : string) : string :=
  match s with
  | String c r => if Ascii.eqb c "+" || Ascii.eqb c "-" then r else s
  | EmptyString => s
  end.

Definition number_exp (s : string) : option string :=
  match s with
  | String c r => if Ascii.eqb c "e" || Ascii.eqb c "E" then digits1 (skip_sign r) else Some s
  | EmptyString => Some s
  end.

(** The grammar of numbers. *)
Definition skip_minus (s : string) : string :=
  match s with
  | String c r => if Ascii.eqb c "-" then r else s
  | EmptyString => s
  end.

Definition number_rest (s : string) : option string :=
  match number_int (skip_minus s) with
  | Some r => match number_frac r with Some r => number_exp r | None => None end
  | None => None
  end.

Definition json_number (s : string) : bool :=
  match number_rest s with Some r => String.eqb r "" | None => false end.

Definition number_char (c : ascii) : bool :=
  isdigit c || Ascii.eqb c "-" || Ascii.eqb c "+" || Ascii.eqb c "." || Ascii.eqb c "e" || Ascii.eqb c "E".

(** The longest text of number characters. *)
Fixpoint number_token (s : string) : string * string :=
  match s with
  | String c r =>
      if number_char c then let '(t, r) := number_token r in (String c t, r) else ("", s)
  | EmptyString => ("", "")
  end.

(** *** Values

    [fuel] bounds the number of values and members read. *)
Fixpoint parse_value (fuel : nat) (s : string) : option (jtree * string) :=
  match fuel with
  | O => None
  | S fuel =>
      match strip "null" s, strip "true" s, strip "false" s with
      | Some r, _, _ => Some (JNull, r)
      | _, Some r, _ => Some (JBool true, r)
      | _, _, Some r => Some (JBool false, r)
      | _, _, _ =>
          match s with
          | EmptyString => None
          | String c r =>
              if Ascii.eqb c "034" then
                match parse_chars r with Some (t, r) => Some (JString t, r) | None => None end
              else if Ascii.eqb c "[" then
                match strip "]" r with
                | Some r => Some (JArray [], r)
                | None =>
                    match parse_elements fuel r with
                    | Some (l, r) => Some (JArray l, r)
                    | None => None
                    end
                end
              else if Ascii.eqb c "{" then
                match strip "}" r with
                | Some r => Some (JObject [], r)
                | None =>
                    match parse_members fuel r with
                    | Some (l, r) => Some (JObject l, r)
                    | None => None
                    end
                end
              else
                let '(t, r) := number_token s in
                if json_number t then Some (JNumber t, r) else None
          end
      end
  end
with parse_elements (fuel : nat) (s : string) : option (list jtree * string) :=
  match fuel with
  | O => None
  | S fuel =>
      match parse_value fuel s with
      | Some (t, String c r) =>
          if Ascii.eqb c "]" then Some ([t], r)
          else if Ascii.eqb c "," then
            match parse_elements fuel r with Some (l, r) => Some (t :: l, r) | None => None end
          else None
      | _ => None
      end
  end
with parse_members (fuel : nat) (s : string) : option (list (string * jtree) * string) :=
  match fuel with
  | O => None
  | S fuel =>
      match strip dquote s ≫= parse_chars with
      | Some (k, String c r) =>
          if Ascii.eqb c ":" then
            match parse_value fuel r with
            | Some (t, String c r) =>
                if Ascii.eqb c "}" then Some ([(k, t)], r)
                else if Ascii.eqb c "," then
                  match parse_members fuel r with
                  | Some (l, r) => Some ((k, t) :: l, r)
                  | None => None
                  end
                else None
            | _ => None
            end
          else None
      | _ => None
      end
  end.

Definition parses (s : string) (t : jtree) : Prop := ∃ fuel, parse_value fuel s = Some (t, "").

(** ** More fuel reads the same *)

Lemma parse_mono n :
  (∀ m s x, (n <= m)%nat → parse_value n s = Some x → parse_value m s = Some x) ∧
  (∀ m s x, (n <= m)%nat → parse_elements n s = Some x → parse_elements m s = Some x) ∧
  (∀ m s x, (n <= m)%nat → parse_members n s = Some x → parse_members m s = Some x).
Proof.
  induction n as [|n (IHv & IHe & IHm)]; [done|].
  split; [|split]; intros m s x Hm Hx; (destruct m as [|m]; [lia|]);
    cbn [parse_value parse_elements parse_members] in Hx |- *;
    (assert (n <= m)%nat as Hnm by lia).
  - destruct (strip "null" s), (strip "true" s), (strip "false" s); try done.
    destruct s as [|c r]; [done|]. destruct (Ascii.eqb c "034"); [done|].
    destruct (Ascii.eqb c "[").
    { destruct (strip "]" r); [done|].
      destruct (parse_elements n r) as [[l r']|] eqn:He; [|done]. by rewrite (IHe m _ _ Hnm He). }
    destruct (Ascii.eqb c "{"); [|done]. destruct (strip "}" r); [done|].
    destruct (parse_members n r) as [[l r']|] eqn:He; [|done]. by rewrite (IHm m _ _ Hnm He).
  - destruct (parse_value n s) as [[t [|c r]]|] eqn:Hv; [done| |done].
    rewrite (IHv m _ _ Hnm Hv). destruct (Ascii.eqb c "]"); [done|].
    destruct (Ascii.eqb c ","); [|done].
    destruct (parse_elements n r) as [[l r']|] eqn:He; [|done]. by rewrite (IHe m _ _ Hnm He).
  - destruct (strip dquote s ≫= parse_chars) as [[k [|c r]]|]; [done| |done].
    destruct (Ascii.eqb c ":"); [|done].
    destruct (parse_value n r) as [[t [|c' r']]|] eqn:Hv; [done| |done].
    rewrite (IHv m _ _ Hnm Hv). destruct (Ascii.eqb c' "}"); [done|].
    destruct (Ascii.eqb c' ","); [|done].
    destruct (parse_members n r') as [[l r'']|] eqn:He; [|done]. by rewrite (IHm m _ _ Hnm He).
Qed.

Lemma parse_value_mono n m s x :
  (n <= m)%nat → parse_value n s = Some x → parse_value m s = Some x.
Proof. apply parse_mono. Qed.

(** A text is at most one value. *)
Lemma parses_unique s t t' : parses s t → parses s t' → t = t'.
Proof.
  intros [n Hn] [m Hm].
  apply (parse_value_mono _ (Nat.max n m)) in Hn, Hm; [|lia..]. congruence.
Qed.
