(* ===== verification/JsonRender.v ===== *)
(** * Rendering JSON

    The texts that read as a value in front of a delimiter: strings, numbers,
    arrays and objects from their parts. *)

From Stdlib Require Import ZArith Lia String Ascii.
From stdpp Require Import base tactics list strings numbers option.
From S2P Require Import Prelude CText JsonText.

Local Open Scope Z_scope.

(** What can follow a value. *)
Definition delim (rest : string) : Prop :=
  match rest with
  | EmptyString => True
  | String c _ => c = ","%char ∨ c = "]"%char ∨ c = "}"%char
  end.

Definition renders (s : string) (t : jtree) : Prop :=
  ∃ n, ∀ m rest, (n <= m)%nat → delim rest → parse_value m (s +:+ rest) = Some (t, rest).

Lemma renders_parses s t : renders s t → parses s t.
Proof.
  intros [n Hn]. exists n. specialize (Hn n "" (le_n n) I). by rewrite string_app_nil_r in Hn.
Qed.

(** ** Words *)

Lemma renders_null : renders "null" JNull.
Proof. exists 1%nat. intros m rest Hm _. by destruct m; [lia|]. Qed.

Lemma renders_bool (b : bool) : renders (if b then "true" else "false") (JBool b).
Proof. exists 1%nat. intros m rest Hm _. destruct m; [lia|]. by destruct b. Qed.

(** ** Numbers *)

Definition all_number (s : string) : bool := forallb number_char (String.list_ascii_of_string s).

(** Every part of a number is made of number characters. *)
Definition eats (f : string → option string) : Prop :=
  ∀ s r, f s = Some r → ∃ p, s = p +:+ r ∧ all_number p = true.

Lemma number_char_digit c : isdigit c = true → number_char c = true.
Proof. unfold number_char. by intros ->. Qed.

Lemma skip_digits_eats s : ∃ p, s = p +:+ skip_digits s ∧ all_number p = true.
Proof.
  induction s as [|c s IH]; [by exists ""|]. simpl. destruct (isdigit c) eqn:Hc; [|by exists ""].
  destruct IH as (p & Hs & Hp). exists (String c p). split; [by rewrite string_app_cons, <- Hs|].
  unfold all_number in *. simpl. by rewrite number_char_digit.
Qed.

Lemma digits1_eats : eats digits1.
Proof.
  intros [|c s] r Hr; simpl in Hr; [done|]. destruct (isdigit c) eqn:Hc; [|done].
  injection Hr as <-. destruct (skip_digits_eats s) as (p & Hs & Hp). exists (String c p).
  split; [by rewrite string_app_cons, <- Hs|]. unfold all_number in *. simpl.
  by rewrite number_char_digit.
Qed.

Lemma eats_cons c s r (f : string → option string) :
  number_char c = true → eats f → f s = Some r → ∃ p, String c s = p +:+ r ∧ all_number p = true.
Proof.
  intros Hc Hf Hr. destruct (Hf s r Hr) as (p & -> & Hp). exists (String c p).
  split; [done|]. unfold all_number in *. simpl. by rewrite Hc.
Qed.

Lemma number_int_eats : eats number_int.
Proof.
  intros [|c s] r Hr; simpl in Hr; [done|]. destruct (Ascii.eqb_spec c "0") as [->|Hc].
  - injection Hr as <-. by exists "0".
  - by apply digits1_eats.
Qed.

Lemma number_frac_eats : eats number_frac.
Proof.
  intros [|c s] r Hr; simpl in Hr; [injection Hr as <-; by exists ""|].
  destruct (Ascii.eqb_spec c ".") as [->|Hc]; [|injection Hr as <-; by exists ""].
  by eapply eats_cons; [|apply digits1_eats|].
Qed.

Lemma skip_sign_eats s r : digits1 (skip_sign s) = Some r → ∃ p, s = p +:+ r ∧ all_number p = true.
Proof.
  intros Hr. destruct s as [|c s]; simpl in Hr; [done|].
  destruct (Ascii.eqb c "+" || Ascii.eqb c "-") eqn:Hc.
  - eapply eats_cons; [|apply digits1_eats|done].
    unfold number_char. apply orb_true_iff in Hc as [->| ->]; by rewrite ?orb_true_r.
  - by apply digits1_eats in Hr.
Qed.

Lemma number_exp_eats : eats number_exp.
Proof.
  intros [|c s] r Hr; simpl in Hr; [injection Hr as <-; by exists ""|].
  destruct (Ascii.eqb c "e" || Ascii.eqb c "E") eqn:Hc; [|injection Hr as <-; by exists ""].
  apply skip_sign_eats in Hr as (p & -> & Hp). exists (String c p). split; [done|].
  unfold all_number in *. simpl. rewrite Hp. unfold number_char.
  apply orb_true_iff in Hc as [->| ->]; by rewrite ?orb_true_r.
Qed.

Lemma all_number_app p q : all_number (p +:+ q) = all_number p && all_number q.
Proof.
  unfold all_number. induction p as [|c p IH]; [done|]. rewrite string_app_cons. simpl.
  by rewrite IH, andb_assoc.
Qed.

Lemma json_number_chars s : json_number s = true → all_number s = true.
Proof.
  unfold json_number, number_rest. intros Hn.
  destruct (number_int (skip_minus s)) as [r1|] eqn:H1; [|done].
  destruct (number_frac r1) as [r2|] eqn:H2; [|done].
  destruct (number_exp r2) as [r3|] eqn:H3; [|done]. apply String.eqb_eq in Hn as ->.
  apply number_int_eats in H1 as (p1 & H1 & Hp1). apply number_frac_eats in H2 as (p2 & -> & Hp2).
  apply number_exp_eats in H3 as (p3 & -> & Hp3). rewrite string_app_nil_r in H1.
  assert (all_number (skip_minus s) = true) as Hs.
  { by rewrite H1, !all_number_app, Hp1, Hp2, Hp3. }
  destruct s as [|c s]; [done|]. simpl in Hs. destruct (Ascii.eqb_spec c "-") as [->|]; [|done].
  unfold all_number in *. simpl. by rewrite Hs.
Qed.

Lemma number_token_app s rest :
  all_number s = true → delim rest → number_token (s +:+ rest) = (s, rest).
Proof.
  intros Hs Hd. induction s as [|c s IH].
  - destruct rest as [|c rest]; [done|]. by destruct Hd as [->|[->| ->]].
  - unfold all_number in *. simpl in Hs. apply andb_true_iff in Hs as [Hc Hs].
    rewrite string_app_cons. simpl. by rewrite Hc, IH.
Qed.

(** A number character begins no other value. *)
Lemma number_char_other c :
  number_char c = true →
  (Ascii.eqb "n" c || Ascii.eqb "t" c || Ascii.eqb "f" c || Ascii.eqb c "034" || Ascii.eqb c "["
   || Ascii.eqb c "{") = false.
Proof. by destruct c as [[] [] [] [] [] [] [] []]. Qed.

Lemma renders_number s : json_number s = true → renders s (JNumber s).
Proof.
  intros Hn. pose proof (json_number_chars s Hn) as Hs. exists 1%nat. intros m rest Hm Hd.
  destruct m as [|m]; [lia|]. destruct s as [|c s]; [done|].
  assert (number_char c = true) as Hc.
  { unfold all_number in Hs. simpl in Hs. by apply andb_true_iff in Hs as [? _]. }
  apply number_char_other in Hc. rewrite !orb_false_iff in Hc. destruct Hc as [[[[[H1 H2] H3] H4] H5] H6].
  rewrite string_app_cons. cbn [parse_value strip]. rewrite H1, H2, H3, H4, H5, H6.
  rewrite <- string_app_cons, number_token_app by done. by rewrite Hn.
Qed.

(** ** Strings *)

(** The characters of a string in front of its closing quote. *)
Definition chars (body s : string) : Prop :=
  ∀ rest, parse_chars (body +:+ String "034" rest) = Some (s, rest).

Lemma chars_nil : chars "" "".
Proof. done. Qed.

Lemma chars_cons_plain c body s :
  (Ascii.eqb c "034" || Ascii.eqb c "\" || (code c <? 32)) = false →
  chars body s → chars (String c body) (String c s).
Proof.
  intros Hc Hb rest. rewrite !orb_false_iff in Hc. destruct Hc as [[H1 H2] H3].
  rewrite string_app_cons. cbn [parse_chars]. by rewrite H1, H2, H3, Hb.
Qed.

(** A text without quotes, backslashes and control characters is itself. *)
Definition plain (s : string) : bool :=
  forallb (λ c, negb (Ascii.eqb c "034" || Ascii.eqb c "\" || (code c <? 32)))
    (String.list_ascii_of_string s).

Lemma chars_plain s : plain s = true → chars s s.
Proof.
  unfold plain. induction s as [|c s IH]; intros Hs; [done|]. simpl in Hs.
  apply andb_true_iff in Hs as [Hc Hs]. apply negb_true_iff in Hc.
  apply chars_cons_plain; [done|]. by apply IH.
Qed.

Lemma renders_string body s : chars body s → renders (dquote +:+ body +:+ dquote) (JString s).
Proof.
  intros Hb. exists 1%nat. intros m rest Hm _. destruct m as [|m]; [lia|].
  rewrite !string_app_assoc. unfold dquote at 1. cbn [parse_value strip string_app_cons].
  rewrite string_app_cons, string_app_nil_l. cbn [parse_value strip Ascii.eqb].
  change (dquote +:+ rest) with (String "034" rest). by rewrite Hb.
Qed.

(** ** Arrays and objects *)

Lemma parse_value_closing m c r : c = "]"%char ∨ c = "}"%char → parse_value m (String c r) = None.
Proof. by intros [->| ->]; destruct m. Qed.

(** The first text of a list does not begin with a closing bracket. *)
Lemma renders_strip s t c rest :
  renders s t → c = "]"%char ∨ c = "}"%char → delim rest → strip (String c "") (s +:+ rest) = None.
Proof.
  intros [n Hn] Hc Hd. specialize (Hn n rest (le_n n) Hd).
  destruct (s +:+ rest) as [|d r]; [done|]. simpl. destruct (Ascii.eqb_spec c d) as [->|]; [|done].
  by rewrite parse_value_closing in Hn.
Qed.

Lemma concat_cons sep (x y : string) l :
  String.concat sep (x :: y :: l) = x +:+ sep +:+ String.concat sep (y :: l).
Proof. done. Qed.

Lemma parse_elements_concat x t ls ts :
  renders x t → Forall2 renders ls ts →
  ∃ n, ∀ m rest, (n <= m)%nat →
    parse_elements m (String.concat "," (x :: ls) +:+ String "]" rest) = Some (t :: ts, rest).
Proof.
  intros Hx Hls. revert x t Hx. induction Hls as [|y u ls ts Hy _ IH]; intros x t [n Hn].
  - exists (S n). intros m rest Hm. destruct m as [|m]; [lia|]. cbn [parse_elements String.concat].
    rewrite Hn; [done|lia|]. simpl. auto.
  - destruct (IH y u Hy) as [n' Hn']. exists (S (Nat.max n n')). intros m rest Hm.
    destruct m as [|m]; [lia|]. rewrite concat_cons, !string_app_assoc. cbn [parse_elements].
    rewrite Hn; [|lia|simpl; auto].
    rewrite string_app_cons, string_app_nil_l. cbn [Ascii.eqb Bool.eqb].
    rewrite Hn'; [done|lia].
Qed.

Lemma parse_array m r :
  parse_value (S m) ("[" +:+ r) =
  match strip "]" r with
  | Some r => Some (JArray [], r)
  | None => match parse_elements m r with Some (l, r) => Some (JArray l, r) | None => None end
  end.
Proof. done. Qed.

Lemma parse_object m r :
  parse_value (S m) ("{" +:+ r) =
  match strip "}" r with
  | Some r => Some (JObject [], r)
  | None => match parse_members m r with Some (l, r) => Some (JObject l, r) | None => None end
  end.
Proof. done. Qed.

Lemma renders_array ls ts :
  Forall2 renders ls ts → renders ("[" +:+ String.concat "," ls +:+ "]") (JArray ts).
Proof.
  intros Hls. destruct Hls as [|x t ls ts Hx Hls].
  { exists 1%nat. intros m rest Hm _. by destruct m; [lia|]. }
  destruct (parse_elements_concat x t ls ts Hx Hls) as [n Hn]. exists (S n).
  intros m rest Hm _. destruct m as [|m]; [lia|]. rewrite !string_app_assoc, parse_array.
  change ("]" +:+ rest) with (String "]" rest).
  assert (strip "]" (String.concat "," (x :: ls) +:+ String "]" rest) = None) as Hs.
  { destruct ls as [|y ls]; [|rewrite concat_cons, !string_app_assoc];
      (eapply renders_strip; [done|auto|simpl; auto]). }
  rewrite Hs, Hn by lia. done.
Qed.

(** A member: its key, a colon and its value. *)
Definition member_renders (s : string) (kt : string * jtree) : Prop :=
  ∃ key value, s = dquote +:+ key +:+ dquote +:+ ":" +:+ value ∧ chars key kt.1 ∧ renders value kt.2.

Lemma parse_members_step key k value rest m :
  chars key k →
  parse_members (S m) ((dquote +:+ key +:+ dquote +:+ ":" +:+ value) +:+ rest) =
  match parse_value m (value +:+ rest) with
  | Some (t, String c r) =>
      if Ascii.eqb c "}" then Some ([(k, t)], r)
      else if Ascii.eqb c "," then
        match parse_members m r with Some (l, r) => Some ((k, t) :: l, r) | None => None end
      else None
  | _ => None
  end.
Proof.
  intros Hk. cbn [parse_members]. rewrite !string_app_assoc. unfold dquote at 2.
  rewrite string_app_cons, string_app_nil_l. cbn [strip dquote Ascii.eqb Bool.eqb mbind option_bind].
  change (dquote +:+ ":" +:+ value +:+ rest) with (String "034" (String ":" (value +:+ rest))).
  by rewrite Hk.
Qed.

Lemma parse_members_concat x kt ls ts :
  member_renders x kt → Forall2 member_renders ls ts →
  ∃ n, ∀ m rest, (n <= m)%nat →
    parse_members m (String.concat "," (x :: ls) +:+ String "}" rest) = Some (kt :: ts, rest).
Proof.
  intros Hx Hls. revert x kt Hx.
  induction Hls as [|y u ls ts Hy _ IH]; intros x [k t] (key & value & -> & Hk & [n Hn]).
  - exists (S n). intros m rest Hm. destruct m as [|m]; [lia|]. cbn [String.concat].
    rewrite (parse_members_step _ k) by done. simpl in Hn. rewrite Hn; [done|lia|simpl; auto].
  - destruct (IH y u Hy) as [n' Hn']. exists (S (Nat.max n n')). intros m rest Hm.
    destruct m as [|m]; [lia|]. rewrite concat_cons, string_app_assoc.
    rewrite (parse_members_step _ k) by done. simpl in Hn. rewrite Hn; [|lia|simpl; auto].
    rewrite string_app_assoc, string_app_cons, string_app_nil_l. cbn [Ascii.eqb Bool.eqb].
    rewrite Hn'; [done|lia].
Qed.

Lemma renders_object ls ts :
  ls ≠ [] → Forall2 member_renders ls ts → renders ("{" +:+ String.concat "," ls +:+ "}") (JObject ts).
Proof.
  intros Hne Hls. destruct Hls as [|x kt ls ts Hx Hls]; [done|].
  destruct (parse_members_concat x kt ls ts Hx Hls) as [n Hn]. exists (S n).
  intros m rest Hm _. destruct m as [|m]; [lia|]. rewrite !string_app_assoc, parse_object.
  change ("}" +:+ rest) with (String "}" rest).
  assert (strip "}" (String.concat "," (x :: ls) +:+ String "}" rest) = None) as Hs.
  { destruct Hx as (key & value & -> & _). by destruct ls. }
  rewrite Hs, Hn by lia. done.
Qed.
