(* ===== verification/JsonNumbers.v ===== *)
(** * Numbers as JSON

    What [%u], [%d] and [%g] print is a JSON number, for [%g] of a double that
    is finite. *)

From Stdlib Require Import ZArith Lia String Ascii SpecFloat.
From stdpp Require Import base tactics list strings numbers option.
From S2P Require Import Prelude CText CFloat JsonText JsonRender.

Local Open Scope Z_scope.

Definition starts_no_digit (rest : string) : bool :=
  match rest with String c _ => negb (isdigit c) | EmptyString => true end.

Lemma skip_digits_fmt w n rest :
  starts_no_digit rest = true → skip_digits (fmt_fixed 10 w n +:+ rest) = rest.
Proof.
  revert n rest. induction w as [|w IH]; intros n rest Hr; simpl fmt_fixed.
  - rewrite string_app_nil_l. destruct rest as [|c rest]; [done|]. simpl in *.
    by destruct (isdigit c).
  - assert (∀ m, skip_digits (fmt_fixed 10 w m +:+ String (digit (n mod 10)) rest)
      = skip_digits (String (digit (n mod 10)) rest)) as Hgo.
    { clear IH. generalize (String (digit (n mod 10)) rest). clear. intros r m. revert m r.
      induction w as [|w IH]; intros m r; [done|]. simpl. rewrite string_app_assoc, IH.
      simpl. rewrite isdigit_digit; [done|]. apply Z.mod_pos_bound. lia. }
    rewrite string_app_assoc. change (String (digit (n mod 10)) "" +:+ rest) with (String (digit (n mod 10)) rest).
    rewrite Hgo. simpl. rewrite isdigit_digit by (apply Z.mod_pos_bound; lia).
    specialize (IH 0 rest Hr). clear -Hr. destruct rest as [|c rest]; [done|]. simpl in *.
    by destruct (isdigit c).
Qed.

Lemma digits1_fmt w n rest :
  starts_no_digit rest = true → digits1 (fmt_fixed 10 (S w) n +:+ rest) = Some rest.
Proof.
  intros Hr. pose proof (skip_digits_fmt (S w) n rest Hr) as Hs.
  assert (∃ c s, fmt_fixed 10 (S w) n = String c s ∧ isdigit c = true) as (c & s & Hf & Hc).
  { clear. revert n. induction w as [|w IH]; intros n.
    - exists (digit (n mod 10)), "". split; [done|]. apply isdigit_digit, Z.mod_pos_bound. lia.
    - destruct (IH (n / 10)) as (c & s & Hf & Hc). simpl fmt_fixed in Hf |- *. rewrite Hf.
      eexists c, _. by rewrite string_app_cons. }
  rewrite Hf, string_app_cons in Hs |- *. simpl in Hs |- *. rewrite Hc in Hs |- *. by rewrite Hs.
Qed.

Lemma number_int_fmt_u n rest :
  is_u64 n → starts_no_digit rest = true → number_int (fmt_u n +:+ rest) = Some rest.
Proof.
  intros Hn Hr. destruct (decide (n = 0)) as [->|Hne]; [done|].
  destruct (fmt_u_head n) as (d & s & Hf & Hd); [lia|].
  assert (number_int (fmt_u n +:+ rest) = digits1 (fmt_u n +:+ rest)) as ->.
  { rewrite Hf, string_app_cons. simpl. destruct (Ascii.eqb_spec (digit d) "0") as [H0|]; [|done].
    apply digit_zero_iff in H0; lia. }
  unfold fmt_u. pose proof (ndigits_pos 19 n). destruct (ndigits 19 n) as [|w]; [lia|].
  by apply digits1_fmt.
Qed.

Lemma skip_minus_fmt_u n rest : is_u64 n → skip_minus (fmt_u n +:+ rest) = fmt_u n +:+ rest.
Proof.
  intros Hn. destruct (decide (n = 0)) as [->|Hne]; [done|].
  destruct (fmt_u_head n) as (d & s & Hf & Hd); [lia|]. rewrite Hf, string_app_cons. simpl.
  destruct (Ascii.eqb_spec (digit d) "-") as [H0|]; [|done].
  assert (isdigit (digit d) = true) as Hdig by (apply isdigit_digit; lia). by rewrite H0 in Hdig.
Qed.

(** A number with what follows its integer part. *)
Lemma number_rest_fmt n rest (neg : bool) :
  is_u64 n → starts_no_digit rest = true →
  number_rest ((if neg then "-" else "") +:+ fmt_u n +:+ rest)
  = match number_frac rest with Some r => number_exp r | None => None end.
Proof.
  intros Hn Hr. unfold number_rest.
  assert (skip_minus ((if neg then "-" else "") +:+ fmt_u n +:+ rest) = fmt_u n +:+ rest) as ->.
  { destruct neg; [done|]. rewrite string_app_nil_l. by apply skip_minus_fmt_u. }
  by rewrite number_int_fmt_u.
Qed.

Lemma json_number_u n : is_u64 n → json_number (fmt_u n) = true.
Proof.
  intros Hn. unfold json_number. pose proof (number_rest_fmt n "" false Hn eq_refl) as Hr.
  rewrite string_app_nil_l, string_app_nil_r in Hr. by rewrite Hr.
Qed.

Lemma json_number_d n : is_i64 n → json_number (fmt_d n) = true.
Proof.
  intros Hn. unfold fmt_d. destruct (Z.ltb_spec n 0); [|apply json_number_u; lia].
  assert (is_u64 (- n)) as Hu by lia.
  unfold json_number. pose proof (number_rest_fmt (- n) "" true Hu eq_refl) as Hr.
  rewrite string_app_nil_r in Hr. by rewrite Hr.
Qed.

(** ** [%g] *)

Lemma fraction_cases w n : fraction w n = "" ∨ ∃ w' n', fraction w n = "." +:+ fmt_fixed 10 (S w') n'.
Proof.
  revert n. induction w as [|w IH]; intros n; [by left|]. simpl fraction.
  destruct (n mod 10 =? 0); [apply IH|]. right. by exists w, n.
Qed.

Lemma number_frac_fraction w n rest :
  starts_no_digit rest = true → number_frac rest = Some rest →
  starts_no_digit (fraction w n +:+ rest) = true ∧ number_frac (fraction w n +:+ rest) = Some rest.
Proof.
  intros Hr Hf. destruct (fraction_cases w n) as [->|(w' & n' & ->)].
  - by rewrite string_app_nil_l.
  - split; [done|]. rewrite string_app_assoc. by apply digits1_fmt.
Qed.

Lemma dlen_bounds f n :
  0 < n < 10 ^ (Z.of_nat f + 1) → 1 <= dlen f n ∧ 10 ^ (dlen f n - 1) <= n < 10 ^ dlen f n.
Proof.
  revert n. induction f as [|f IH]; intros n Hn; simpl dlen; [simpl in *; lia|].
  destruct (Z.ltb_spec n 10); [simpl; lia|].
  rewrite Nat2Z.inj_succ, Z.add_succ_l, Z.pow_succ_r in Hn by lia.
  destruct (IH (n / 10)) as [H1 [H2 H3]]; [lia|].
  replace (1 + dlen f (n / 10) - 1) with (dlen f (n / 10) - 1 + 1) by lia.
  rewrite (Z.add_comm 1), !Z.pow_add_r by lia. lia.
Qed.

(** [num / den < 10 ^ y], for an exponent of either sign. *)
Definition below (num den y : Z) : Prop := num * 10 ^ Z.max 0 (- y) < den * 10 ^ Z.max 0 y.

Lemma scale10_below num den y p :
  0 < num → 0 < den → 1 <= p → below num den y →
  let '(a, b) := scale10 num den (p - y) in 0 <= a ∧ 0 < b ∧ a < b * 10 ^ p.
Proof.
  intros Hn Hd Hp Hb. unfold below in Hb. unfold scale10.
  destruct (Z.leb_spec 0 (p - y)).
  - assert (0 < 10 ^ (p - y)) by (apply Z.pow_pos_nonneg; lia).
    split; [nia|]. split; [done|]. destruct (Z.le_gt_cases 0 y).
    + rewrite Z.max_l, Z.pow_0_r, Z.mul_1_r, Z.max_r in Hb by lia.
      replace p with (y + (p - y)) at 2 by lia. rewrite Z.pow_add_r by lia. nia.
    + rewrite Z.max_r, Z.max_l, Z.pow_0_r in Hb by lia.
      replace (p - y) with (- y + p) by lia. rewrite Z.pow_add_r by lia.
      assert (0 < 10 ^ p) by (apply Z.pow_pos_nonneg; lia). nia.
  - assert (0 < 10 ^ (- (p - y))) by (apply Z.pow_pos_nonneg; lia).
    split; [lia|]. split; [nia|].
    rewrite Z.max_l, Z.pow_0_r, Z.mul_1_r, Z.max_r in Hb by lia.
    replace y with (- (p - y) + p) in Hb by lia. rewrite Z.pow_add_r in Hb by lia. lia.
Qed.

Definition decimal_400 (n : Z) : Prop := 0 < n < 10 ^ 401.

Lemma log10_floor_below num den :
  decimal_400 num → decimal_400 den → below num den (log10_floor num den + 1).
Proof.
  intros Hn Hd. unfold log10_floor.
  destruct (dlen_bounds 400 num) as (H1 & H2 & H3); [exact Hn|].
  destruct (dlen_bounds 400 den) as (H4 & H5 & H6); [exact Hd|].
  set (l := dlen 400 num) in *. set (m := dlen 400 den) in *. clearbody l m.
  unfold decimal_400 in *. unfold scale10. destruct (Z.leb_spec 0 (- (l - m))).
  - destruct (Z.leb_spec den (num * 10 ^ (- (l - m)))).
    + unfold below. destruct (Z.le_gt_cases 0 (l - m + 1)).
      * rewrite Z.max_l, Z.max_r by lia. replace l with (m - 1 + (l - m + 1)) in H3 by lia.
        rewrite Z.pow_add_r in H3 by lia.
        assert (0 < 10 ^ (l - m + 1)) by (apply Z.pow_pos_nonneg; lia). nia.
      * rewrite Z.max_r, Z.max_l by lia.
        replace (m - 1) with (l + - (l - m + 1)) in H5 by lia. rewrite Z.pow_add_r in H5 by lia.
        assert (0 < 10 ^ (- (l - m + 1))) by (apply Z.pow_pos_nonneg; lia). nia.
    + unfold below. replace (l - m - 1 + 1) with (l - m) by lia.
      rewrite Z.max_r by lia. replace (Z.max 0 (l - m)) with 0 by lia. lia.
  - destruct (Z.leb_spec (den * 10 ^ (- - (l - m))) num).
    + unfold below. rewrite Z.max_l, Z.max_r by lia. replace l with (m - 1 + (l - m + 1)) in H3 by lia.
      rewrite Z.pow_add_r in H3 by lia.
      assert (0 < 10 ^ (l - m + 1)) by (apply Z.pow_pos_nonneg; lia). nia.
    + unfold below. replace (l - m - 1 + 1) with (l - m) by lia.
      rewrite Z.max_l, Z.max_r by lia. replace (- - (l - m)) with (l - m) in * by lia. lia.
Qed.

Lemma div_rne_le a b c : 0 <= a → 0 < b → 0 < c → a < b * c → 0 <= div_rne a b <= c.
Proof.
  intros Ha Hb Hc Hlt. unfold div_rne.
  assert (0 <= a / b < c) as Hq.
  { split; [by apply Z.div_pos|]. apply Z.div_lt_upper_bound; lia. }
  pose proof (Z.mod_pos_bound (a / b) 2). destruct (2 * (a mod b) ?= b); lia.
Qed.

Lemma sig_digits_below num den p :
  decimal_400 num → decimal_400 den → 1 <= p → 0 <= (sig_digits num den p).1 < 10 ^ p.
Proof.
  intros Hn Hd Hp. unfold sig_digits. pose proof (log10_floor_below num den Hn Hd) as Hb.
  set (x := log10_floor num den) in *. clearbody x.
  pose proof (scale10_below num den (x + 1) p ltac:(destruct Hn; lia) ltac:(destruct Hd; lia) Hp Hb) as Hs.
  replace (p - (x + 1)) with (p - 1 - x) in Hs by lia.
  destruct (scale10 num den (p - 1 - x)) as [a b]. destruct Hs as (Ha & Hb' & Hlt).
  assert (0 < 10 ^ (p - 1)) by (apply Z.pow_pos_nonneg; lia).
  assert (10 ^ p = 10 * 10 ^ (p - 1)) as Hpow.
  { replace p with (1 + (p - 1)) at 1 by lia. by rewrite Z.pow_add_r by lia. }
  pose proof (div_rne_le a b (10 ^ p) Ha Hb' ltac:(lia) Hlt) as Hr.
  destruct (Z.eqb_spec (div_rne a b) (10 ^ p)); simpl; lia.
Qed.

(** A printed positive number, with or without its sign. *)
Lemma json_number_g_pos p num den (neg : bool) :
  decimal_400 num → decimal_400 den → 1 <= p <= 17 →
  json_number ((if neg then "-" else "") +:+ fmt_g_pos p num den) = true.
Proof.
  intros Hn Hd Hp. pose proof (sig_digits_below num den p Hn Hd ltac:(lia)) as Hs.
  unfold fmt_g_pos. destruct (sig_digits num den p) as [d x]. simpl in Hs.
  assert (10 ^ p <= 10 ^ 17) as Hp17 by (apply Z.pow_le_mono_r; lia).
  change (10 ^ 17) with 100000000000000000 in Hp17.
  assert (∀ w, 0 <= w → is_u64 (d / 10 ^ w)) as Hu.
  { intros w Hw. assert (0 < 10 ^ w) by (apply Z.pow_pos_nonneg; lia).
    pose proof (Z.div_pos d (10 ^ w)). assert (d / 10 ^ w <= d) by (apply Z.div_le_upper_bound; nia). lia. }
  unfold json_number. destruct ((-4 <=? x) && (x <? p)) eqn:Hx.
  - bool_hyps.
    destruct (number_frac_fraction (Z.to_nat (p - 1 - x)) (d mod 10 ^ (p - 1 - x)) "" eq_refl eq_refl)
      as [H1 H2]. rewrite string_app_nil_r in H1, H2.
    rewrite number_rest_fmt; [by rewrite H2|apply Hu; lia|done].
  - assert (∀ (neg : bool) n, number_exp ("e" +:+ (if neg then "-" else "+") +:+ fmt_pad 2 n) = Some "") as He.
    { intros neg' n. unfold fmt_pad. change (Z.of_nat 2) with 2.
      assert (∀ w m, digits1 (fmt_fixed 10 (S w) m) = Some "") as Hdig.
      { intros w m. rewrite <- (string_app_nil_r (fmt_fixed _ _ _)). by apply digits1_fmt. }
      destruct (n <? 10 ^ 2); [by destruct neg'; apply Hdig|].
      unfold fmt_u. pose proof (ndigits_pos 19 n). destruct (ndigits 19 n) as [|w]; [lia|].
      destruct neg'; apply Hdig. }
    specialize (He (x <? 0) (Z.abs x)).
    set (e := "e" +:+ (if x <? 0 then "-" else "+") +:+ fmt_pad 2 (Z.abs x)) in *.
    assert (starts_no_digit e = true ∧ number_frac e = Some e) as [He1 He2] by done.
    destruct (number_frac_fraction (Z.to_nat (p - 1)) (d mod 10 ^ (p - 1)) e He1 He2) as [H1 H2].
    rewrite number_rest_fmt; [by rewrite H2, He|apply Hu; lia|done].
Qed.

(** *** Doubles *)

(** A finite value of the binary64 format. *)
Definition finite_double (d : spec_float) : bool :=
  match d with
  | S754_zero _ => true
  | S754_finite _ m e => bounded 53 1024 m e
  | _ => false
  end.

Lemma digits2_pos_bound m : Zpos m < 2 ^ Zpos (digits2_pos m).
Proof.
  induction m as [m IH|m IH|]; simpl digits2_pos; [..|done];
    rewrite Pos2Z.inj_succ, Z.pow_succ_r by lia; lia.
Qed.

Lemma bounded_range m e : bounded 53 1024 m e = true → Zpos m < 2 ^ 53 ∧ -1074 <= e <= 971.
Proof.
  unfold bounded, canonical_mantissa, fexp, emin. intros Hb. apply andb_true_iff in Hb as [Hc He].
  apply Z.leb_le in He. apply Z.eqb_eq in Hc.
  assert (Zpos (digits2_pos m) <= 53) as Hd by lia.
  split; [|lia]. eapply Z.lt_le_trans; [apply digits2_pos_bound|]. by apply Z.pow_le_mono_r.
Qed.

Theorem json_number_g p d :
  finite_double d = true → 1 <= p <= 17 → json_number (fmt_g p d) = true.
Proof.
  intros Hd Hp. destruct d as [[]|?| |s m e]; try done.
  apply bounded_range in Hd as [Hm He]. unfold fmt_g.
  assert (2 ^ 1074 < 10 ^ 401) as H1 by (by vm_compute).
  assert (2 ^ 1024 < 10 ^ 401) as H2 by (by vm_compute).
  assert (decimal_400 1) as Hone by (split; [lia|by vm_compute]).
  destruct (Z.leb_spec 0 e); (apply json_number_g_pos; [..|exact Hp]); [|exact Hone| |].
  - assert (0 < 2 ^ e) by (apply Z.pow_pos_nonneg; lia).
    assert (2 ^ e <= 2 ^ 971) as Hpe by (apply Z.pow_le_mono_r; lia).
    assert (2 ^ 1024 = 2 ^ 53 * 2 ^ 971) as Hsplit by (by vm_compute). rewrite Hsplit in H2.
    unfold decimal_400. clear -Hm Hpe H2 H0. revert Hm Hpe H2 H0.
    generalize (2 ^ 971) (2 ^ 53) (10 ^ 401) (2 ^ e). intros. nia.
  - assert (2 ^ 53 < 10 ^ 401) as H53 by (by vm_compute). unfold decimal_400. clear -Hm H53.
    revert Hm H53. generalize (2 ^ 53) (10 ^ 401). lia.
  - assert (0 < 2 ^ (- e)) by (apply Z.pow_pos_nonneg; lia).
    assert (2 ^ (- e) <= 2 ^ 1074) as Hpe by (apply Z.pow_le_mono_r; lia). unfold decimal_400.
    clear -Hpe H1 H0. revert Hpe H1 H0. generalize (2 ^ 1074) (10 ^ 401) (2 ^ (- e)). lia.
Qed.
