(* ===== verification/MmsClientCommon.v ===== *)
(** * What the MMS client programs share

    The calls of [mms_client_connection.h] that mms_client.c and
    mms_client_services.c make, with the answers libiec61850 can give, the
    names of its errors, and programs whose requests let the reports that
    arrived meanwhile be handled. *)

From Stdlib Require Import ZArith Lia String Ascii SpecFloat.
From stdpp Require Import base tactics list strings numbers option.
From S2P Require Import Prelude CText JsonLines Mms Interact.

Local Open Scope Z_scope.

(** ** Errors *)

(** The errors the programs tell apart; the others are [MMS_ERROR_OTHER]. *)
Inductive MmsError : Set :=
| MMS_ERROR_NONE
| MMS_ERROR_CONNECTION_LOST
| MMS_ERROR_SERVICE_TIMEOUT
| MMS_ERROR_PARSING_RESPONSE
| MMS_ERROR_REJECT_INVALID_PDU
| MMS_ERROR_REJECT_UNRECOGNIZED_SERVICE
| MMS_ERROR_ACCESS_OBJECT_NON_EXISTENT
| MMS_ERROR_ACCESS_OBJECT_ACCESS_DENIED
| MMS_ERROR_DEFINITION_OBJECT_UNDEFINED
| MMS_ERROR_FILE_FILE_NON_EXISTENT
| MMS_ERROR_FILE_OTHER
| MMS_ERROR_SERVICE_OTHER
| MMS_ERROR_OTHER.

#[export] Instance MmsError_eq_dec : EqDecision MmsError.
Proof. solve_decision. Defined.

Definition mms_ok (e : MmsError) : bool := match e with MMS_ERROR_NONE => true | _ => false end.

(** [MmsDataAccessError] is its number: success, and the codes 0 to 11 of the
    protocol in the order of the standard. *)
Definition DATA_ACCESS_ERROR_SUCCESS : Z := -1.

Definition dae_names : list string :=
  ["object-invalidated"; "hardware-fault"; "temporarily-unavailable"; "object-access-denied";
   "object-undefined"; "invalid-address"; "type-unsupported"; "type-inconsistent";
   "object-attribute-inconsistent"; "object-access-unsupported"; "object-non-existent";
   "object-value-invalid"].

(** [dae_str] of mms_client.c and [dae_name] of mms_client_services.c. *)
Definition dae_name (e : Z) : string :=
  if e =? DATA_ACCESS_ERROR_SUCCESS then "success"
  else if (0 <=? e) && (e <=? 11) then default "unknown" (dae_names !! Z.to_nat e)
  else "unknown".

(** [mms_error_str] of mms_client.c. *)
Definition mms_error_str (e : MmsError) : string :=
  match e with
  | MMS_ERROR_NONE => "none"
  | MMS_ERROR_CONNECTION_LOST => "connection-lost"
  | MMS_ERROR_SERVICE_TIMEOUT => "service-timeout"
  | _ => "mms-error"
  end.

(** [mms_err_name] of mms_client_services.c. *)
Definition mms_err_name (e : MmsError) : string :=
  match e with
  | MMS_ERROR_NONE => "none"
  | MMS_ERROR_CONNECTION_LOST => "connection-lost"
  | MMS_ERROR_SERVICE_TIMEOUT => "service-timeout"
  | MMS_ERROR_PARSING_RESPONSE => "parsing-response"
  | MMS_ERROR_REJECT_INVALID_PDU => "reject-invalid-pdu"
  | MMS_ERROR_REJECT_UNRECOGNIZED_SERVICE => "reject-unrecognized-service"
  | MMS_ERROR_ACCESS_OBJECT_NON_EXISTENT => "object-non-existent"
  | MMS_ERROR_ACCESS_OBJECT_ACCESS_DENIED => "object-access-denied"
  | MMS_ERROR_DEFINITION_OBJECT_UNDEFINED => "object-undefined"
  | MMS_ERROR_FILE_FILE_NON_EXISTENT => "file-non-existent"
  | MMS_ERROR_FILE_OTHER => "file-other"
  | MMS_ERROR_SERVICE_OTHER => "service-other"
  | MMS_ERROR_OTHER => "mms-error"
  end.

(** ** Data *)

(** An [MmsVariableSpecification] a server answered: the count of an array
    with its element type, the components of a structure. *)
Inductive var_spec : Type :=
| VarScalar (name : option string) (type : MmsType)
| VarArray (name : option string) (elementCount : Z) (element : var_spec)
| VarStructure (name : option string) (components : list var_spec).

Definition var_name (s : var_spec) : option string :=
  match s with
  | VarScalar name _ => name
  | VarArray name _ _ => name
  | VarStructure name _ => name
  end.

Definition var_type (s : var_spec) : MmsType :=
  match s with
  | VarScalar _ t => t
  | VarArray _ _ _ => MMS_ARRAY
  | VarStructure _ _ => MMS_STRUCTURE
  end.

(** An [MmsVariableAccessSpecification]: domain, if any, and item. *)
Definition access_spec : Type := option string * string.

Record server_identity := mk_identity {
  vendorName : option string;
  modelName : option string;
  revision : option string
}.

Record journal_entry `{MmsApi} := mk_journal_entry {
  entryID : option MmsValue;
  occurenceTime : option MmsValue;
  journalVariables : list (option string * option MmsValue)
}.

(** One call of the handler of information reports. *)
Record information_report `{MmsApi} := mk_information_report {
  ir_domain : option string;
  ir_name : string;
  ir_value : option MmsValue;
  ir_list : bool
}.

(** ** Calls

    An answer has what the call returns and leaves in its out parameters, the
    error last.  A request that calls back answers with the arguments of the
    calls.  [reports] are the information reports handled since the last time,
    and [connection_lost] the reading of the flag that the lost-connection
    handler sets. *)
Inductive MmsClientE `{MmsApi} : Type → Type :=
| MmsConnection_create : MmsClientE bool
| MmsConnection_setInformationReportHandler : MmsClientE unit
| MmsConnection_setRequestTimeout (ms : Z) : MmsClientE unit
| MmsConnection_setConnectionLostHandler : MmsClientE unit
| MmsConnection_connect (host : string) (port : Z) : MmsClientE MmsError
| MmsConnection_identify : MmsClientE (option server_identity * MmsError)
| MmsConnection_getServerStatus (extended : bool) : MmsClientE (Z * Z * MmsError)
| MmsConnection_getDomainNames : MmsClientE (option (list string) * MmsError)
| MmsConnection_getDomainVariableNames (domain : string)
  : MmsClientE (option (list string) * MmsError)
| MmsConnection_getDomainVariableListNames (domain : string)
  : MmsClientE (option (list string) * MmsError)
| MmsConnection_getDomainJournals (domain : string)
  : MmsClientE (option (list string) * MmsError)
| MmsConnection_getVMDVariableNames : MmsClientE (option (list string) * MmsError)
| MmsConnection_getVariableListNamesAssociationSpecific
  : MmsClientE (option (list string) * MmsError)
| MmsConnection_readVariable (domain item : string) : MmsClientE (option MmsValue * MmsError)
| MmsConnection_readVariableComponent (domain item component : string)
  : MmsClientE (option MmsValue * MmsError)
| MmsConnection_readArrayElements (domain item : string) (start count : Z)
  : MmsClientE (option MmsValue * MmsError)
| MmsConnection_readMultipleVariables (domain : string) (items : list string)
  : MmsClientE (option MmsValue * MmsError)
| MmsConnection_writeVariable (domain item : string) (v : MmsValue) : MmsClientE (Z * MmsError)
| MmsConnection_writeVariableComponent (domain item component : string) (v : MmsValue)
  : MmsClientE (Z * MmsError)
| MmsConnection_writeArrayElements (domain item : string) (start count : Z) (v : MmsValue)
  : MmsClientE (Z * MmsError)
| MmsConnection_writeMultipleVariables (domain : string) (items : list string) (vs : list MmsValue)
  : MmsClientE (option (list (option MmsValue)) * MmsError)
| MmsConnection_getVariableAccessAttributes (domain item : string)
  : MmsClientE (option var_spec * MmsError)
| MmsConnection_defineNamedVariableList (domain : option string) (name : string)
    (specs : list access_spec) : MmsClientE MmsError
| MmsConnection_defineNamedVariableListAssociationSpecific (name : string)
    (specs : list access_spec) : MmsClientE MmsError
| MmsConnection_readNamedVariableListDirectory (domain : option string) (name : string)
  : MmsClientE (option (list access_spec) * bool * MmsError)
| MmsConnection_readNamedVariableListDirectoryAssociationSpecific (name : string)
  : MmsClientE (option (list access_spec) * bool * MmsError)
| MmsConnection_readNamedVariableListValues (domain : option string) (name : string)
    (specWithResult : bool) : MmsClientE (option MmsValue * MmsError)
| MmsConnection_readNamedVariableListValuesAssociationSpecific (name : string)
    (specWithResult : bool) : MmsClientE (option MmsValue * MmsError)
| MmsConnection_writeNamedVariableList (associationSpecific : bool) (domain : option string)
    (name : string) (vs : list MmsValue)
  : MmsClientE (option (list (option MmsValue)) * MmsError)
| MmsConnection_deleteNamedVariableList (domain : option string) (name : string)
  : MmsClientE (bool * MmsError)
| MmsConnection_deleteAssociationSpecificNamedVariableList (name : string)
  : MmsClientE (bool * MmsError)
| MmsConnection_getFileDirectory (spec : option string) (continueAfter : option string)
  : MmsClientE (list (string * Z * Z) * bool * MmsError)
| MmsConnection_fileOpen (name : string) (position : Z) : MmsClientE (Z * Z * Z * MmsError)
| MmsConnection_fileRead (frsmId : Z) : MmsClientE (list (list Z) * bool * MmsError)
| MmsConnection_fileClose (frsmId : Z) : MmsClientE MmsError
| MmsConnection_fileDelete (name : string) : MmsClientE MmsError
| MmsConnection_fileRename (from to : string) : MmsClientE MmsError
| MmsConnection_obtainFile (source destination : string) : MmsClientE MmsError
| MmsConnection_readJournalTimeRange (domain item : string) (start stop : MmsValue)
  : MmsClientE (option (list journal_entry) * bool * MmsError)
| MmsConnection_readJournalStartAfter (domain item : string) (time entry : MmsValue)
  : MmsClientE (option (list journal_entry) * bool * MmsError)
| MmsConnection_conclude : MmsClientE MmsError
| MmsConnection_abort : MmsClientE MmsError
| MmsConnection_destroy : MmsClientE unit
| usleep (us : Z) : MmsClientE unit
| reports : MmsClientE (list information_report)
| connection_lost : MmsClientE bool.
