(* ===== verification/ServiceText.v ===== *)
(** * mms_client_services.c: texts

    The string builder and the JSON rendering of values, types and names.  A
    rendering is the list of the texts it prints into the builder. *)

From Stdlib Require Import ZArith Lia String Ascii SpecFloat.
From stdpp Require Import base tactics list strings numbers option.
From S2P Require Import Prelude CText CFloat JsonLines Mms Interact MmsClientCommon.

Local Open Scope Z_scope.
Local Open Scope c_scope.

(** ** The string builder

    The text and the capacity; [len] is the length of the text. *)
Record SB := mk_sb { sb_buf : string; sb_cap : Z }.

Definition sb_len (sb : SB) : Z := slen (sb_buf sb).

Definition sb_init : SB := mk_sb "" 1024.

(** [vsnprintf(buf, room, ...)] of a text: its length, or -1 when that is no
    [int], and what it writes. *)
Definition vsnprintf (room : Z) (text : string) : Z * string :=
  (if INT_MAX <? slen text then -1 else slen text,
   String.substring 0 (Z.to_nat (room - 1)) text).

(** [for (;;)]; a text that does not fit is written again in a larger buffer;
    lengths and capacities are [size_t]. *)
Fixpoint sb_printf_loop (fuel : nat) (sb : SB) (text : string) : option SB :=
  match fuel with
  | O => None
  | S fuel =>
      let room := u64 (sb_cap sb - sb_len sb) in
      let '(n, written) := vsnprintf room text in
      if n <? 0 then Some sb
      else if n <? room then Some (mk_sb (sb_buf sb +:+ written) (sb_cap sb))
      else sb_printf_loop fuel (mk_sb (sb_buf sb) ((sb_cap sb +u64 n) *u64 2)) text
  end.

(** Two turns are enough ([sb_printf_appends]). *)
Definition sb_printf (sb : SB) (text : string) : SB := default sb (sb_printf_loop 2 sb text).

(** The text of a builder after a list of prints. *)
Definition sb_prints (texts : list string) : string :=
  sb_buf (fold_left sb_printf texts sb_init).

(** ** Rendering *)

(** [\c], [\u00xx] or the character. *)
Definition sb_char (c : ascii) : string :=
  if Ascii.eqb c "034" || Ascii.eqb c "\" then String "\" (String c "")
  else if code c <? 32 then "\u" +:+ fmt_04x (code c)
  else String c "".

Definition sb_string (s : option string) : list string :=
  [dquote] ++ (sb_char <$> String.list_ascii_of_string (default "" s)) ++ [dquote].

Definition sb_hex (data : list Z) : list string := [dquote] ++ (fmt_02x <$> data) ++ [dquote].

(** The elements of a loop that prints a comma before all but the first. *)
Fixpoint with_commas (l : list (list string)) : list string :=
  match l with
  | [] => []
  | x :: l => x ++ concat ((λ y, "," :: y) <$> l)
  end.

Definition sb_bits (bits : list bool) : list string :=
  [dquote] ++ ((λ b : bool, if b then "1" else "0") <$> bits) ++ [dquote].

Section values.
Context `{MmsApi}.

(** [fuel] bounds the depth of the recursion. *)
Fixpoint sb_value (fuel : nat) (v : option MmsValue) : option (list string) :=
  match fuel with
  | O => None
  | S fuel =>
  match v with
  | None => Some ["null"]
  | Some v =>
      match MmsValue_getType v with
      | MMS_BOOLEAN => Some [if MmsValue_getBoolean v then "true" else "false"]
      | MMS_INTEGER => Some [fmt_d (MmsValue_toInt64 v)]
      | MMS_UNSIGNED => Some [fmt_u (MmsValue_toUint32 v)]
      | MMS_FLOAT =>
          if SFeqb (MmsValue_toDouble v) (to_double (MmsValue_toFloat v))
          then Some [fmt_g 9 (to_double (MmsValue_toFloat v))]
          else Some [fmt_g 17 (MmsValue_toDouble v)]
      | MMS_VISIBLE_STRING | MMS_STRING => Some (sb_string (Some (MmsValue_toString v)))
      | MMS_OCTET_STRING => Some (sb_hex (MmsValue_getOctetStringBuffer v))
      | MMS_BIT_STRING => Some (sb_bits (mms_bits v))
      | MMS_UTC_TIME => Some [fmt_u (MmsValue_getUtcTimeInMs v)]
      | MMS_BINARY_TIME => Some [fmt_u (MmsValue_getBinaryTimeAsUtcMs v)]
      | MMS_ARRAY | MMS_STRUCTURE =>
          l ← mapM (sb_value fuel) (mms_elements v);
          Some (["["] ++ with_commas l ++ ["]"])
      | MMS_DATA_ACCESS_ERROR =>
          Some ["{" +:+ member "error" (dae_name (MmsValue_getDataAccessError v)) +:+ "}"]
      | MMS_OTHER => Some ["null"]
      end
  end
  end.

End values.

Definition spec_type_name (t : MmsType) : string :=
  match t with
  | MMS_BOOLEAN => "boolean"
  | MMS_INTEGER => "integer"
  | MMS_UNSIGNED => "unsigned"
  | MMS_FLOAT => "float32"
  | MMS_VISIBLE_STRING => "visible-string"
  | MMS_STRING => "mms-string"
  | MMS_OCTET_STRING => "octet-string"
  | MMS_BIT_STRING => "bit-string"
  | MMS_UTC_TIME => "utc-time"
  | MMS_BINARY_TIME => "binary-time"
  | MMS_ARRAY => "array"
  | MMS_STRUCTURE => "structure"
  | _ => "unknown"
  end.

Fixpoint sb_spec (spec : var_spec) : list string :=
  ["{" +:+ member "type" (spec_type_name (var_type spec))] ++
  match spec with
  | VarArray _ count element =>
      ["," +:+ Q "count" +:+ ":" +:+ fmt_d count +:+ "," +:+ Q "element" +:+ ":"] ++ sb_spec element
  | VarStructure _ components =>
      ["," +:+ Q "components" +:+ ":["] ++
      with_commas
        ((λ c, ["{" +:+ Q "name" +:+ ":"] ++ sb_string (var_name c) ++
               ["," +:+ Q "spec" +:+ ":"] ++ sb_spec c ++ ["}"]) <$> components) ++
      ["]"]
  | VarScalar _ _ => []
  end ++
  ["}"].

Definition sb_names (names : list string) : list string :=
  ["["] ++ with_commas ((λ n, sb_string (Some n)) <$> names) ++ ["]"].

(** [begin] *)
Definition begin (op target : string) (ok : bool) : list string :=
  ["{" +:+ Q "operation" +:+ ":"] ++ sb_string (Some op) ++
  ["," +:+ Q "target" +:+ ":"] ++ sb_string (Some target) ++
  ["," +:+ Q "ok" +:+ ":" +:+ if ok then "true" else "false"].

(** [emit_line]: the text of the builder and a newline. *)
Definition line_text (texts : list string) : string := sb_prints texts +:+ newline.

(** The 64-bit FNV-1a hash. *)
Definition fnv1a64_step (h d : Z) : Z := u64 (Z.lxor h d * 1099511628211).
Definition fnv1a64 (d : list Z) : Z := fold_left fnv1a64_step d 14695981039346656037.
