(* ===== verification/ServiceTextSpec.v ===== *)
(** * Theorems about the texts of mms_client_services.c

    The string builder appends; what the renderings print reads as the JSON
    value they render; a line is an object with the operation, the target and
    the result first. *)

From Stdlib Require Import ZArith Lia String Ascii SpecFloat.
From stdpp Require Import base tactics list strings numbers option.
From S2P Require Import Prelude CText CFloat JsonLines JsonText JsonRender JsonNumbers Mms RefMms.
From S2P Require Import Interact MmsClientCommon ServiceText.

Local Open Scope Z_scope.
Local Open Scope c_scope.

(** ** The string builder *)

(** The text and its zero fit, and the buffer is at most four times as large as
    the text, but for the first one. *)
Definition sb_ok (sb : SB) : Prop :=
  sb_len sb < sb_cap sb ∧ sb_cap sb <= Z.max 1024 (4 * sb_len sb).

(** What no object of a 64-bit machine reaches. *)
Definition TEXT_MAX : Z := 2 ^ 59.

Lemma substring_whole s n : (String.length s <= n)%nat → String.substring 0 n s = s.
Proof.
  revert n. induction s as [|c s IH]; intros n Hn; [by destruct n|].
  simpl in Hn. destruct n as [|n]; [lia|]. simpl. by rewrite IH by lia.
Qed.

Lemma sb_printf_two buf cap text :
  sb_ok (mk_sb buf cap) → slen text <= INT_MAX → slen buf + slen text < 2 * TEXT_MAX →
  ∃ cap', sb_printf_loop 2 (mk_sb buf cap) text = Some (mk_sb (buf +:+ text) cap') ∧
    sb_ok (mk_sb (buf +:+ text) cap') ∧ cap <= cap'.
Proof.
  unfold sb_ok, sb_len, INT_MAX, TEXT_MAX. cbn [sb_cap sb_buf]. intros [Hlt Hcap] Hn Htot.
  pose proof (slen_nonneg text). pose proof (slen_nonneg buf). rewrite slen_app.
  assert (∀ room, slen text < room → String.substring 0 (Z.to_nat (room - 1)) text = text) as Hfit.
  { intros room Hr. apply substring_whole. unfold slen in Hr. lia. }
  unfold sb_printf_loop, vsnprintf, sb_len, INT_MAX. cbn [sb_cap sb_buf].
  destruct (Z.ltb_spec 2147483647 (slen text)); [lia|].
  destruct (Z.ltb_spec (slen text) 0); [lia|].
  rewrite (u64_id (cap - slen buf)) by lia.
  destruct (Z.ltb_spec (slen text) (cap - slen buf)).
  - rewrite Hfit by done. eexists. split; [done|]. lia.
  - rewrite (u64_id (cap + slen text)), (u64_id ((cap + slen text) * 2)) by lia.
    rewrite u64_id by lia.
    destruct (Z.ltb_spec (slen text) ((cap + slen text) * 2 - slen buf)); [|lia].
    rewrite Hfit by done. eexists. split; [done|]. lia.
Qed.

(** A text that is longer than an [int] can say is not appended. *)
Lemma sb_printf_long buf cap text :
  INT_MAX < slen text → sb_printf_loop 2 (mk_sb buf cap) text = Some (mk_sb buf cap).
Proof.
  intros Hn. unfold sb_printf_loop, vsnprintf. destruct (Z.ltb_spec INT_MAX (slen text)); [done|lia].
Qed.

(** C32: The string builder, its lengths in size_t, appends a text of up to
    INT_MAX characters whole and ignores a longer one, of which vsnprintf
    returns a negative number, as long as the builder stays below 2^60
    characters: the loop ends within two turns, the buffer has room for the text
    and its terminating zero, and its capacity never shrinks. *)
Theorem sb_printf_appends sb text :
  sb_ok sb → sb_len sb + slen text < 2 ^ 60 →
  sb_printf_loop 2 sb text = Some (sb_printf sb text) ∧
  sb_buf (sb_printf sb text) = (if INT_MAX <? slen text then sb_buf sb else sb_buf sb +:+ text) ∧
  sb_ok (sb_printf sb text) ∧ sb_cap sb <= sb_cap (sb_printf sb text).
Proof.
  destruct sb as [buf cap]. intros Hsb Htot. unfold sb_printf.
  destruct (Z.ltb_spec INT_MAX (slen text)) as [Hl|Hl].
  - by rewrite sb_printf_long.
  - destruct (sb_printf_two buf cap text Hsb Hl) as (cap' & -> & Hok & Hle); [|done].
    unfold sb_len, TEXT_MAX in *. cbn [sb_buf] in Htot. lia.
Qed.

Lemma sb_printf_appends_witness :
  sb_printf_loop 2 (mk_sb "ab" 4) "cdef" = Some (sb_printf (mk_sb "ab" 4) "cdef") ∧
  sb_buf (sb_printf (mk_sb "ab" 4) "cdef")
  = (if INT_MAX <? slen "cdef" then "ab"%string else "ab" +:+ "cdef") ∧
  sb_ok (sb_printf (mk_sb "ab" 4) "cdef") ∧ 4 <= sb_cap (sb_printf (mk_sb "ab" 4) "cdef").
Proof. apply (sb_printf_appends (mk_sb "ab" 4) "cdef"); [split; by vm_compute|by vm_compute]. Defined.

(** The whole of what was printed. *)
Definition cat (l : list string) : string := String.concat "" l.

Lemma cat_cons x l : cat (x :: l) = x +:+ cat l.
Proof. destruct l; [by rewrite string_app_nil_r|done]. Qed.

Lemma cat_app a b : cat (a ++ b) = cat a +:+ cat b.
Proof.
  induction a as [|x a IH]; [done|]. rewrite <- app_comm_cons, !cat_cons, IH. by rewrite string_app_assoc.
Qed.

Lemma cat_one x : cat [x] = x.
Proof. done. Qed.

(** A text of the length of a number, a name or a character, which all texts of
    the renderings are. *)
Definition short (x : string) : Prop := slen x <= 4096.

Lemma sb_printf_short sb x :
  sb_ok sb → short x → sb_len sb < TEXT_MAX →
  sb_buf (sb_printf sb x) = sb_buf sb +:+ x ∧ sb_ok (sb_printf sb x).
Proof.
  destruct sb as [buf cap]. unfold short, sb_len, sb_printf, TEXT_MAX. cbn [sb_buf]. intros Hok Hx Hl.
  destruct (sb_printf_two buf cap x Hok) as (cap' & -> & Hok' & _); [|unfold TEXT_MAX; lia|done].
  unfold INT_MAX. lia.
Qed.

Lemma slen_cat_cons x l : slen (cat (x :: l)) = slen x + slen (cat l).
Proof. by rewrite cat_cons, slen_app. Qed.

Lemma sb_prints_from l sb :
  sb_ok sb → Forall short l → sb_len sb + slen (cat l) < TEXT_MAX →
  sb_buf (fold_left sb_printf l sb) = sb_buf sb +:+ cat l.
Proof.
  intros Hok Hl. revert sb Hok. induction Hl as [|x l Hx _ IH]; intros sb Hok Hlen.
  - by rewrite string_app_nil_r.
  - rewrite slen_cat_cons in Hlen. pose proof (slen_nonneg x). pose proof (slen_nonneg (cat l)).
    destruct (sb_printf_short sb x Hok Hx) as [Hb Hok']; [unfold sb_len in *; lia|].
    cbn [fold_left]. rewrite IH; [by rewrite Hb, cat_cons, string_app_assoc|done|].
    unfold sb_len in *. rewrite Hb, slen_app. lia.
Qed.

Lemma sb_init_ok : sb_ok sb_init.
Proof. split; by vm_compute. Qed.

(** The string builder refines appending: its text is all that was printed. *)
Lemma sb_prints_all l : Forall short l → slen (cat l) < TEXT_MAX → sb_prints l = cat l.
Proof. intros Hl Hn. unfold sb_prints. by rewrite sb_prints_from by (done || apply sb_init_ok). Qed.

(** It never holds less than before, so that a text within the bound is the
    whole of what was printed. *)
Lemma sb_printf_grows sb x : sb_len sb <= sb_len (sb_printf sb x).
Proof.
  assert (∀ fuel sb sb', sb_printf_loop fuel sb x = Some sb' → sb_len sb <= sb_len sb') as Hg.
  { intros fuel. induction fuel as [|fuel IH]; intros sb0 sb' Hs; [done|].
    cbn [sb_printf_loop] in Hs. unfold vsnprintf in Hs. revert Hs.
    generalize (if INT_MAX <? slen x then -1 else slen x). intros n Hs.
    destruct (n <? 0); [by injection Hs as <-|]. destruct (n <? _).
    - injection Hs as <-. unfold sb_len. cbn [sb_buf]. rewrite slen_app.
      match goal with |- context [slen (substring ?a ?b ?c)] =>
        pose proof (slen_nonneg (substring a b c)) end. lia.
    - apply IH in Hs. exact Hs. }
  unfold sb_printf. destruct (sb_printf_loop 2 sb x) as [sb'|] eqn:E; [by eapply Hg|done].
Qed.

Lemma sb_prints_grows l sb : sb_len sb <= sb_len (fold_left sb_printf l sb).
Proof.
  revert sb. induction l as [|x l IH]; intros sb; simpl; [lia|].
  pose proof (IH (sb_printf sb x)). pose proof (sb_printf_grows sb x). lia.
Qed.

Lemma sb_prints_bounded l : Forall short l → slen (sb_prints l) < TEXT_MAX → sb_prints l = cat l.
Proof.
  unfold sb_prints. intros Hl. change (cat l) with ("" +:+ cat l). change ""%string with (sb_buf sb_init).
  generalize sb_init_ok. generalize sb_init. induction Hl as [|x l Hx _ IH]; intros sb Hok Hlen.
  - by rewrite string_app_nil_r.
  - cbn [fold_left] in *. pose proof (sb_prints_grows l (sb_printf sb x)) as Hg.
    pose proof (sb_printf_grows sb x). unfold sb_len in *.
    destruct (sb_printf_short sb x Hok Hx) as [Hb Hok']; [unfold sb_len; lia|].
    rewrite IH by done. by rewrite Hb, cat_cons, string_app_assoc.
Qed.

(** ** Strings *)

Lemma sb_char_parses c rest :
  parse_chars (sb_char c +:+ rest)
  = match parse_chars rest with Some (t, r) => Some (String c t, r) | None => None end.
Proof.
  unfold sb_char. destruct (Ascii.eqb c "034" || Ascii.eqb c "\") eqn:Hq.
  { apply orb_true_iff in Hq as [Hq%Ascii.eqb_eq|Hq%Ascii.eqb_eq]; by subst c. }
  apply orb_false_iff in Hq as [Hq1 Hq2]. destruct (Z.ltb_spec (code c) 32).
  - pose proof (code_range c) as Hr. unfold fmt_04x. simpl fmt_fixed.
    assert (∀ x y z w, ("\u" +:+ (((("" +:+ String x "") +:+ String y "") +:+ String z "") +:+ String w ""))
      +:+ rest = String "\" (String "u" (String x (String y (String z (String w rest)))))) as -> by done.
    cbn [parse_chars Ascii.eqb Bool.eqb].
    rewrite !hex_value_digit by lia.
    repeat match goal with |- context [?a <? 0] =>
      replace (a <? 0) with false by (symmetry; apply Z.ltb_ge; lia) end. cbn [orb].
    replace (_ * 4096 + _ * 256 + _ * 16 + _) with (code c) by lia.
    unfold utf8. replace (code c <? 128) with true by (symmetry; apply Z.ltb_lt; lia).
    rewrite chr_code. by destruct (parse_chars rest) as [[? ?]|].
  - rewrite string_app_cons, string_app_nil_l. cbn [parse_chars]. rewrite Hq1, Hq2.
    by replace (code c <? 32) with false by (symmetry; apply Z.ltb_ge; lia).
Qed.

Lemma sb_chars s : chars (cat (sb_char <$> String.list_ascii_of_string s)) s.
Proof.
  induction s as [|c s IH]; intros rest; [done|]. cbn [String.list_ascii_of_string fmap list_fmap].
  rewrite cat_cons, string_app_assoc, sb_char_parses, IH. done.
Qed.

Lemma cat_quoted l : cat ([dquote] ++ l ++ [dquote]) = dquote +:+ cat l +:+ dquote.
Proof. by rewrite !cat_app. Qed.

(** A string is read back as it was, whatever its characters. *)
Theorem sb_string_renders s : renders (cat (sb_string s)) (JString (default "" s)).
Proof. unfold sb_string. rewrite cat_quoted. apply renders_string, sb_chars. Qed.

Lemma plain_cat l : Forall (λ s, plain s = true) l → plain (cat l) = true.
Proof.
  intros Hl. induction Hl as [|x l Hx _ IH]; [done|]. rewrite cat_cons. revert Hx IH. unfold plain.
  generalize (cat l). intros r. induction x as [|c x IHx]; [done|]. rewrite string_app_cons. simpl.
  intros [-> Hx]%andb_true_iff Hr. by apply IHx.
Qed.

Lemma quoted_renders l :
  Forall (λ s, plain s = true) l → renders (cat ([dquote] ++ l ++ [dquote])) (JString (cat l)).
Proof. intros Hl. rewrite cat_quoted. by apply renders_string, chars_plain, plain_cat. Qed.

Lemma plain_fmt_fixed b w n : 0 < b <= 16 → plain (fmt_fixed b w n) = true.
Proof.
  intros Hb. revert n. induction w as [|w IH]; intros n; [done|]. simpl fmt_fixed.
  assert (∀ s c, plain s = true → plain (String c "") = true → plain (s +:+ String c "") = true) as Happ.
  { clear. intros s c. unfold plain. induction s as [|d s IH]; [done|]. rewrite string_app_cons. simpl.
    intros [-> Hs]%andb_true_iff Hc. by apply IH. }
  apply Happ; [done|]. pose proof (Z.mod_pos_bound n b). unfold plain. simpl. rewrite andb_true_r.
  apply negb_true_iff. pose proof (code_digit (n mod b)) as Hc.
  apply orb_false_iff. split; [apply orb_false_iff; split|].
  - apply Ascii.eqb_neq. intros He. rewrite He in Hc. change (code "034") with 34 in Hc.
    destruct (n mod b <? 10); lia.
  - apply Ascii.eqb_neq. intros He. rewrite He in Hc. change (code "\") with 92 in Hc.
    destruct (Z.ltb_spec (n mod b) 10); lia.
  - rewrite Hc by lia. destruct (Z.ltb_spec (n mod b) 10); lia.
Qed.

(** ** Lists *)

Lemma cat_with_commas ls : cat (with_commas ls) = String.concat "," (cat <$> ls).
Proof.
  destruct ls as [|x ls]; [done|]. cbn [with_commas]. rewrite cat_app, fmap_cons.
  revert x. induction ls as [|y ls IH]; intros x; [by rewrite string_app_nil_r|].
  rewrite fmap_cons. cbn [concat]. rewrite fmap_cons, concat_cons.
  cbn [app]. rewrite cat_cons, cat_app. by rewrite IH.
Qed.

Lemma cat_bracketed a ls z :
  cat ([a] ++ with_commas ls ++ [z]) = a +:+ String.concat "," (cat <$> ls) +:+ z.
Proof. by rewrite !cat_app, cat_with_commas. Qed.

(** ** Short texts *)

Lemma slen_fmt_fixed b w n : slen (fmt_fixed b w n) = Z.of_nat w.
Proof. unfold slen. by rewrite length_fmt_fixed. Qed.

Lemma slen_fmt_u n : slen (fmt_u n) <= 20.
Proof.
  unfold fmt_u. rewrite slen_fmt_fixed.
  assert (∀ f n, (ndigits f n <= S f)%nat) as Hd.
  { intros f. induction f as [|f IH]; intros m; simpl; [lia|]. destruct (_ <? _); [lia|].
    specialize (IH (m / 10)). lia. }
  specialize (Hd 19%nat n). lia.
Qed.

Lemma slen_fmt_d n : slen (fmt_d n) <= 21.
Proof.
  unfold fmt_d. pose proof (slen_fmt_u n). pose proof (slen_fmt_u (- n)).
  destruct (n <? 0); rewrite ?slen_app; [change (slen "-") with 1|]; lia.
Qed.

Lemma slen_fraction w n : slen (fraction w n) <= 1 + Z.of_nat w.
Proof.
  revert n. induction w as [|w IH]; intros n; cbn [fraction]; [change (slen "") with 0; lia|].
  destruct (_ =? _); [specialize (IH (n / 10)); lia|]. rewrite slen_app, slen_fmt_fixed.
  change (slen ".") with 1. lia.
Qed.

Lemma slen_fmt_pad n : slen (fmt_pad 2 n) <= 20.
Proof.
  unfold fmt_pad. destruct (n <? 10 ^ Z.of_nat 2); [rewrite slen_fmt_fixed; lia|apply slen_fmt_u].
Qed.

Lemma short_fmt_g p d : 1 <= p <= 20 → short (fmt_g p d).
Proof.
  intros Hp. unfold short.
  assert (∀ n m, slen (fmt_g_pos p n m) <= 100) as Hpos.
  { intros n m. unfold fmt_g_pos. destruct (sig_digits n m p) as [c x].
    destruct (_ && _) eqn:E; bool_hyps; rewrite ?slen_app.
    - pose proof (slen_fmt_u (c / 10 ^ (p - 1 - x))).
      pose proof (slen_fraction (Z.to_nat (p - 1 - x)) (c mod 10 ^ (p - 1 - x))). lia.
    - pose proof (slen_fmt_u (c / 10 ^ (p - 1))). pose proof (slen_fmt_u (Z.abs x)).
      pose proof (slen_fraction (Z.to_nat (p - 1)) (c mod 10 ^ (p - 1))).
      pose proof (slen_fmt_pad (Z.abs x)).
      change (slen "e") with 1. assert (slen (if x <? 0 then "-" else "+") = 1) by (by destruct (x <? 0)). lia. }
  destruct d as [s|s| |s m e]; simpl; [by destruct s|by destruct s|done|].
  rewrite slen_app. assert (slen (if s then "-" else "") <= 1) by (by destruct s).
  pose proof (Hpos (Zpos m * 2 ^ e) 1). pose proof (Hpos (Zpos m) (2 ^ (- e))).
  destruct (0 <=? e); lia.
Qed.

Lemma short_fmt_fixed b w n : (w <= 100)%nat → short (fmt_fixed b w n).
Proof. intros Hw. unfold short. rewrite slen_fmt_fixed. lia. Qed.

Lemma short_u n : short (fmt_u n).
Proof. unfold short. pose proof (slen_fmt_u n). lia. Qed.

Lemma short_d n : short (fmt_d n).
Proof. unfold short. pose proof (slen_fmt_d n). lia. Qed.

Lemma short_char c : short (sb_char c).
Proof.
  unfold sb_char, short. destruct (_ || _); [by vm_compute|]. destruct (_ <? _); [|by vm_compute].
  rewrite slen_app. unfold fmt_04x. rewrite slen_fmt_fixed. by vm_compute.
Qed.

(** A text put together from constants and numbers. *)
Ltac short_text :=
  unfold short, member, Q; rewrite ?slen_app;
  repeat match goal with
  | |- context [slen (fmt_u ?n)] => pose proof (slen_fmt_u n); generalize dependent (slen (fmt_u n)); intros
  | |- context [slen (fmt_d ?n)] => pose proof (slen_fmt_d n); generalize dependent (slen (fmt_d n)); intros
  | |- context [slen (fmt_fixed ?b ?w ?n)] => rewrite (slen_fmt_fixed b w n)
  | |- context [slen (if ?b then ?x else ?y)] => destruct b
  end;
  repeat match goal with
  | |- context [slen ?s] => let v := eval vm_compute in (slen s) in
                            lazymatch v with Z0 => idtac | Zpos _ => idtac end; change (slen s) with v
  end; lia.

Create HintDb short.
#[export] Hint Resolve short_u short_d short_char : short.

Lemma shorts_string s : Forall short (sb_string s).
Proof.
  unfold sb_string. repeat (apply Forall_app; split); [by repeat constructor| |by repeat constructor].
  apply list.Forall_fmap, list.Forall_true. intros c. apply short_char.
Qed.

Lemma shorts_hex d : Forall short (sb_hex d).
Proof.
  unfold sb_hex. repeat (apply Forall_app; split); [by repeat constructor| |by repeat constructor].
  apply list.Forall_fmap, list.Forall_true. intros c. by apply short_fmt_fixed; lia.
Qed.

Lemma shorts_bits l : Forall short (sb_bits l).
Proof.
  unfold sb_bits. repeat (apply Forall_app; split); [by repeat constructor| |by repeat constructor].
  apply list.Forall_fmap, list.Forall_true. by intros [].
Qed.

Lemma shorts_with_commas ls : Forall (Forall short) ls → Forall short (with_commas ls).
Proof.
  intros Hl. destruct Hl as [|x ls Hx Hl]; [constructor|]. cbn [with_commas]. apply Forall_app. split; [done|].
  induction Hl as [|y ls Hy _ IH]; [constructor|]. rewrite fmap_cons. cbn [concat].
  constructor; [done|]. by apply Forall_app.
Qed.

Lemma shorts_dae e : short ("{" +:+ member "error" (dae_name e) +:+ "}").
Proof.
  unfold dae_name. destruct (e =? _); [by vm_compute|]. destruct (_ && _); [|by vm_compute].
  destruct (dae_names !! Z.to_nat e) as [s|] eqn:Hs; [|by vm_compute]. cbn [default].
  apply list_elem_of_lookup_2 in Hs. unfold dae_names in Hs.
  repeat (apply elem_of_cons in Hs as [->|Hs]; [by vm_compute|]). by apply elem_of_nil in Hs.
Qed.

Create HintDb shorts.
#[export] Hint Resolve shorts_string shorts_hex shorts_bits : shorts.

(** Lists of texts put together. *)
Ltac shorts :=
  lazymatch goal with
  | |- Forall short (_ ++ _) => apply Forall_app; split; shorts
  | |- Forall short [] => apply list.Forall_nil_2
  | |- Forall short (_ :: _) => apply list.Forall_cons_2; [solve [auto with short nocore | short_text]|shorts]
  | |- Forall short (if ?b then _ else _) => destruct b; shorts
  | |- _ => try solve [eauto with shorts nocore]
  end.

Lemma shorts_begin op target ok : Forall short (begin op target ok).
Proof. unfold begin. shorts. Qed.

Lemma shorts_list {A} (f : A → list string) l : (∀ x, Forall short (f x)) → Forall short (with_commas (f <$> l)).
Proof. intros Hf. apply shorts_with_commas, list.Forall_fmap, list.Forall_true. exact Hf. Qed.

Lemma shorts_names l : Forall short (sb_names l).
Proof.
  unfold sb_names. apply Forall_app. split; [shorts|]. apply Forall_app. split; [|shorts].
  apply shorts_list. intros n. apply shorts_string.
Qed.
#[export] Hint Resolve shorts_begin shorts_names : shorts.

(** ** Values *)

Section values.
Context `{MmsApi}.

(** What a value is in JSON: octets are hexadecimal digits, bits binary ones,
    times milliseconds. *)
Fixpoint value_tree (fuel : nat) (v : option MmsValue) : option jtree :=
  match fuel with
  | O => None
  | S fuel =>
  match v with
  | None => Some JNull
  | Some v =>
      match MmsValue_getType v with
      | MMS_BOOLEAN => Some (JBool (MmsValue_getBoolean v))
      | MMS_INTEGER => Some (JNumber (fmt_d (MmsValue_toInt64 v)))
      | MMS_UNSIGNED => Some (JNumber (fmt_u (MmsValue_toUint32 v)))
      | MMS_FLOAT =>
          if SFeqb (MmsValue_toDouble v) (to_double (MmsValue_toFloat v))
          then Some (JNumber (fmt_g 9 (to_double (MmsValue_toFloat v))))
          else Some (JNumber (fmt_g 17 (MmsValue_toDouble v)))
      | MMS_VISIBLE_STRING | MMS_STRING => Some (JString (MmsValue_toString v))
      | MMS_OCTET_STRING => Some (JString (cat (fmt_02x <$> MmsValue_getOctetStringBuffer v)))
      | MMS_BIT_STRING => Some (JString (cat ((λ b : bool, if b then "1" else "0") <$> mms_bits v)))
      | MMS_UTC_TIME => Some (JNumber (fmt_u (MmsValue_getUtcTimeInMs v)))
      | MMS_BINARY_TIME => Some (JNumber (fmt_u (MmsValue_getBinaryTimeAsUtcMs v)))
      | MMS_ARRAY | MMS_STRUCTURE => JArray <$> mapM (value_tree fuel) (mms_elements v)
      | MMS_DATA_ACCESS_ERROR =>
          Some (JObject [("error", JString (dae_name (MmsValue_getDataAccessError v)))])
      | MMS_OTHER => Some JNull
      end
  end
  end.

(** A value within the nesting [n] whose floats are finite and whose times fit
    in their [uint64_t]. *)
Fixpoint printable (n : nat) (v : option MmsValue) : Prop :=
  match n with
  | O => False
  | S n =>
  match v with
  | None => True
  | Some v =>
      match MmsValue_getType v with
      | MMS_FLOAT =>
          finite_double (MmsValue_toDouble v) = true ∧
          finite_double (to_double (MmsValue_toFloat v)) = true
      | MMS_UTC_TIME => is_u64 (MmsValue_getUtcTimeInMs v)
      | MMS_BINARY_TIME => is_u64 (MmsValue_getBinaryTimeAsUtcMs v)
      | MMS_ARRAY | MMS_STRUCTURE => Forall (printable n) (mms_elements v)
      | _ => True
      end
  end
  end.

Lemma plain_dae e : plain (dae_name e) = true.
Proof.
  unfold dae_name. destruct (e =? _); [done|]. destruct ((0 <=? e) && (e <=? 11)); [|done].
  destruct (dae_names !! Z.to_nat e) as [s|] eqn:Hs; [|done]. cbn [default].
  apply list_elem_of_lookup_2 in Hs. unfold dae_names in Hs.
  repeat (apply elem_of_cons in Hs as [->|Hs]; [done|]). by apply elem_of_nil in Hs.
Qed.

Lemma mapM_renders {A} (f : A → option (list string)) (g : A → option jtree) l :
  Forall (λ x, ∃ ts t, f x = Some ts ∧ g x = Some t ∧ renders (cat ts) t) l →
  ∃ tss trees, mapM f l = Some tss ∧ mapM g l = Some trees ∧ Forall2 renders (cat <$> tss) trees.
Proof.
  intros Hl. induction Hl as [|x l (ts & t & Hf & Hg & Hr) _ (tss & trees & Hfs & Hgs & Hrs)].
  - by exists [], [].
  - exists (ts :: tss), (t :: trees). cbn [mapM]. rewrite Hf, Hg. simpl. rewrite Hfs, Hgs.
    split; [done|]. split; [done|]. by constructor.
Qed.

Lemma error_renders s :
  plain s = true → renders (cat ["{" +:+ member "error" s +:+ "}"]) (JObject [("error", JString s)]).
Proof.
  intros Hs. rewrite cat_one. apply (renders_object [member "error" s]); [done|].
  constructor; [|constructor]. exists "error", (Q s). split; [done|]. split; [by apply chars_plain|].
  by apply renders_string, chars_plain.
Qed.

(** A value within the nesting bound is printed, and what is printed reads as
    the value. *)
Lemma value_renders `{!MmsLaws} n v :
  printable n v →
  ∃ texts t, sb_value n v = Some texts ∧ value_tree n v = Some t ∧ renders (cat texts) t.
Proof.
  revert v. induction n as [|n IH]; intros v Hv; [done|]. cbn [printable] in Hv.
  cbn [sb_value value_tree]. destruct v as [v|]; [|eexists _, _; split; [done|]; split; [done|apply renders_null]].
  assert (∀ s, json_number s = true →
    ∃ texts t, Some [s] = Some texts ∧ Some (JNumber s) = Some t ∧ renders (cat texts) t) as Hnum.
  { intros s Hs. eexists _, _. split; [done|]. split; [done|]. rewrite cat_one. by apply renders_number. }
  assert (∀ l, Forall (printable n) l → ∃ texts t,
      (l' ← mapM (sb_value n) l; Some (["["] ++ with_commas l' ++ ["]"])) = Some texts ∧
      JArray <$> mapM (value_tree n) l = Some t ∧ renders (cat texts) t) as Harr.
  { intros l Hl. destruct (mapM_renders (sb_value n) (value_tree n) l) as (tss & trees & Hf & Hg & Hr).
    { eapply list.Forall_impl; [exact Hl|]. intros x Hx. by apply IH. }
    rewrite Hf, Hg. eexists _, _. split; [done|]. split; [done|]. rewrite cat_bracketed.
    by apply renders_array. }
  destruct (MmsValue_getType v) eqn:Ht; try (by apply Harr).
  - eexists _, _. split; [done|]. split; [done|]. rewrite cat_one. apply renders_bool.
  - eexists _, _. split; [done|]. split; [done|]. apply quoted_renders. apply list.Forall_fmap, list.Forall_true.
    by intros [].
  - apply Hnum, json_number_d, toInt64_range.
  - apply Hnum, json_number_u. pose proof (toUint32_range v). lia.
  - destruct Hv. destruct (SFeqb _ _); apply Hnum, json_number_g; done || lia.
  - eexists _, _. split; [done|]. split; [done|]. apply quoted_renders. apply list.Forall_fmap, list.Forall_true.
    intros b. by apply plain_fmt_fixed.
  - eexists _, _. split; [done|]. split; [done|]. apply sb_string_renders.
  - apply Hnum, json_number_u, Hv.
  - eexists _, _. split; [done|]. split; [done|]. apply sb_string_renders.
  - apply Hnum, json_number_u, Hv.
  - eexists _, _. split; [done|]. split; [done|]. apply error_renders, plain_dae.
  - eexists _, _. split; [done|]. split; [done|]. apply renders_null.
Qed.

(** Its texts are short. *)
Lemma shorts_value n v texts : sb_value n v = Some texts → Forall short texts.
Proof.
  revert v texts. induction n as [|n IH]; intros v texts Hv; [done|]. cbn [sb_value] in Hv.
  destruct v as [v|]; [|injection Hv as <-; by repeat constructor].
  assert (∀ l, (l' ← mapM (sb_value n) l; Some (["["] ++ with_commas l' ++ ["]"])) = Some texts →
    Forall short texts) as Harr.
  { intros l Hl. apply bind_Some in Hl as (ls & Hm & [= <-]). apply mapM_Some in Hm.
    apply list.Forall_cons_2; [by vm_compute|]. apply Forall_app. split; [|shorts].
    apply shorts_with_commas. clear -Hm IH.
    induction Hm as [|x ts l ls Hx _ IHm]; constructor; [by eapply IH|done]. }
  destruct (MmsValue_getType v); try (by eapply Harr); try (injection Hv as <-).
  - constructor; [|constructor]. by destruct (MmsValue_getBoolean v).
  - apply shorts_bits.
  - constructor; [apply short_d|constructor].
  - constructor; [apply short_u|constructor].
  - destruct (SFeqb _ _); injection Hv as <-; (constructor; [apply short_fmt_g; lia|constructor]).
  - apply shorts_hex.
  - apply shorts_string.
  - constructor; [apply short_u|constructor].
  - apply shorts_string.
  - constructor; [apply short_u|constructor].
  - constructor; [apply shorts_dae|constructor].
  - by repeat constructor.
Qed.

(** C30: What the MMS client prints for a value reads back as that value: an MMS
    value nested within the bound, its floats finite, is printed, and a JSON
    reader reads from the text, when it is shorter than 2^59 characters, the
    tree of the value and nothing else. *)
Theorem sb_value_renders `{!MmsLaws} n v :
  printable n v →
  ∃ texts t, sb_value n v = Some texts ∧ value_tree n v = Some t ∧
    (slen (sb_prints texts) < 2 ^ 59 →
     parses (sb_prints texts) t ∧ ∀ t', parses (sb_prints texts) t' → t' = t).
Proof.
  intros Hv. destruct (value_renders n v Hv) as (texts & t & He & Ht & Hr).
  apply renders_parses in Hr. exists texts, t. split; [done|]. split; [done|]. intros Hl.
  rewrite sb_prints_bounded by (done || by eapply shorts_value).
  split; [done|]. intros t' Ht'. by eapply parses_unique.
Qed.

End values.

(** ** Values *)

Definition nested_value : rmms :=
  VStruct 3 [(0, VArray 2 [(0, VInt (-5)); (1, VBool true)]); (1, VFloat 32 (strtod "1.5")); (2, VVisible "a\b")].

Lemma sb_value_renders_witness :
  ∃ texts t, sb_value 3 (Some nested_value : option (@MmsValue ref_mms)) = Some texts ∧
    value_tree 3 (Some nested_value : option (@MmsValue ref_mms)) = Some t ∧
    (slen (sb_prints texts) < 2 ^ 59 →
     parses (sb_prints texts) t ∧ ∀ t', parses (sb_prints texts) t' → t' = t).
Proof. apply (sb_value_renders (H := ref_mms) 3). repeat constructor. Defined.

(** A float that is not a number is printed as a text that is no JSON. *)
Lemma sb_value_nan t :
  sb_value 1 (Some (VFloat 32 S754_nan) : option (@MmsValue ref_mms)) = Some ["nan"] ∧ ¬ parses "nan" t.
Proof.
  split; [by vm_compute|]. intros [fuel Hp]. destruct fuel as [|fuel]; [done|].
  revert Hp. by vm_compute.
Qed.
