(* ===== verification/RefMmsClient.v ===== *)
(** * An MMS server to run the client against

    It answers every request of the client: values of several types, files it
    sends in pages and blocks, a journal, and a report while the client waits.
    It stands for no code of the repository. *)

From Stdlib Require Import ZArith Lia String Ascii SpecFloat.
From stdpp Require Import base tactics list strings numbers option.
From S2P Require Import Prelude CText CFloat Mms RefMms Interact MmsClientCommon.

Local Open Scope Z_scope.

(** What is left of a directory and of a file. *)
Record ref_files := mk_ref_files {
  rf_pages : list (list (string * Z * Z));
  rf_blocks : list (list (list Z));
  rf_reports : list (list (@information_report ref_mms))
}.

Definition ref_report : @information_report ref_mms :=
  @mk_information_report ref_mms (Some "interop") "interop-report"
    (Some (VArray 2 [(0, VBool true); (1, VInt 7)])) true.

Definition ref_structure : rmms :=
  VStruct 3 [(0, VBool true); (1, VFloat 64 (strtod "1.5")); (2, VVisible "ab")].

Definition ref_journal : list (@journal_entry ref_mms) :=
  [@mk_journal_entry ref_mms (Some (VOctets [1; 0])) (Some (VBinary 1704067201000))
     [(Some "integer", Some (VInt (-3))); (None, None)]].

Definition ref_answer {B} (e : @MmsClientE ref_mms B) : B :=
  let names := (Some ["one"; "two"], MMS_ERROR_NONE) in
  let value := (Some ref_structure : option (@MmsValue ref_mms), MMS_ERROR_NONE) in
  let specs := (Some [(Some "interop", "boolean"); (None, "list")], true, MMS_ERROR_NONE) in
  let results := (Some [Some (VBool true); None] : option (list (option (@MmsValue ref_mms))), MMS_ERROR_NONE) in
  let journal := (Some ref_journal, false, MMS_ERROR_NONE) in
  match e in MmsClientE B return B with
  | MmsConnection_create => true
  | MmsConnection_setInformationReportHandler => tt
  | MmsConnection_setRequestTimeout _ => tt
  | MmsConnection_setConnectionLostHandler => tt
  | MmsConnection_connect _ _ => MMS_ERROR_NONE
  | MmsConnection_identify => (Some (mk_identity (Some "vendor") None (Some "1")), MMS_ERROR_NONE)
  | MmsConnection_getServerStatus _ => (0, 0, MMS_ERROR_NONE)
  | MmsConnection_getDomainNames => names
  | MmsConnection_getDomainVariableNames _ => names
  | MmsConnection_getDomainVariableListNames _ => names
  | MmsConnection_getDomainJournals _ => names
  | MmsConnection_getVMDVariableNames => names
  | MmsConnection_getVariableListNamesAssociationSpecific => (None, MMS_ERROR_SERVICE_OTHER)
  | MmsConnection_readVariable _ _ => value
  | MmsConnection_readVariableComponent _ _ _ => value
  | MmsConnection_readArrayElements _ _ _ _ => value
  | MmsConnection_readMultipleVariables _ _ => value
  | MmsConnection_writeVariable _ _ _ => (-1, MMS_ERROR_NONE)
  | MmsConnection_writeVariableComponent _ _ _ _ => (-1, MMS_ERROR_NONE)
  | MmsConnection_writeArrayElements _ _ _ _ _ => (3, MMS_ERROR_NONE)
  | MmsConnection_writeMultipleVariables _ _ _ => results
  | MmsConnection_getVariableAccessAttributes _ _ =>
      (Some (VarStructure (Some "s") [VarArray (Some "a") 4 (VarScalar None MMS_INTEGER)]), MMS_ERROR_NONE)
  | MmsConnection_defineNamedVariableList _ _ _ => MMS_ERROR_NONE
  | MmsConnection_defineNamedVariableListAssociationSpecific _ _ => MMS_ERROR_SERVICE_OTHER
  | MmsConnection_readNamedVariableListDirectory _ _ => specs
  | MmsConnection_readNamedVariableListDirectoryAssociationSpecific _ => specs
  | MmsConnection_readNamedVariableListValues _ _ _ => value
  | MmsConnection_readNamedVariableListValuesAssociationSpecific _ _ => value
  | MmsConnection_writeNamedVariableList _ _ _ _ => results
  | MmsConnection_deleteNamedVariableList _ _ => (true, MMS_ERROR_NONE)
  | MmsConnection_deleteAssociationSpecificNamedVariableList _ => (true, MMS_ERROR_NONE)
  | MmsConnection_getFileDirectory _ _ => ([], false, MMS_ERROR_NONE)
  | MmsConnection_fileOpen _ _ => (1, 5, 1704067200000, MMS_ERROR_NONE)
  | MmsConnection_fileRead _ => ([], false, MMS_ERROR_NONE)
  | MmsConnection_fileClose _ => MMS_ERROR_NONE
  | MmsConnection_fileDelete _ => MMS_ERROR_NONE
  | MmsConnection_fileRename _ _ => MMS_ERROR_NONE
  | MmsConnection_obtainFile _ _ => MMS_ERROR_FILE_OTHER
  | MmsConnection_readJournalTimeRange _ _ _ _ => journal
  | MmsConnection_readJournalStartAfter _ _ _ _ => journal
  | MmsConnection_conclude => MMS_ERROR_NONE
  | MmsConnection_abort => MMS_ERROR_NONE
  | MmsConnection_destroy => tt
  | usleep _ => tt
  | reports => []
  | connection_lost => true
  end.

(** A page, a block, the reports of a sleep at a time. *)
Definition ref_server (B : Type) (e : @MmsClientE ref_mms B) (st : ref_files) : B * ref_files :=
  match e in MmsClientE B return B * ref_files with
  | MmsConnection_getFileDirectory _ _ =>
      match rf_pages st with
      | [] => (([], false, MMS_ERROR_NONE), st)
      | p :: ps => ((p, negb (bool_decide (ps = [])), MMS_ERROR_NONE), mk_ref_files ps (rf_blocks st) (rf_reports st))
      end
  | MmsConnection_fileRead _ =>
      match rf_blocks st with
      | [] => (([], false, MMS_ERROR_NONE), st)
      | b :: bs => ((b, negb (bool_decide (bs = [])), MMS_ERROR_NONE), mk_ref_files (rf_pages st) bs (rf_reports st))
      end
  | reports =>
      match rf_reports st with
      | [] => ([], st)
      | r :: rs => (r, mk_ref_files (rf_pages st) (rf_blocks st) rs)
      end
  | e => (ref_answer e, st)
  end.

Definition ref_pages : list (list (string * Z * Z)) :=
  [[("A.CFG", 10, 1704067200000); ("B.DAT", 20, 0)]; [("C.BIN", 4294967295, 5)]].

Definition ref_blocks : list (list (list Z)) := [[[1; 2]; [3]]; []; [[250; 255]]].

Definition ref_start : ref_files := mk_ref_files ref_pages ref_blocks [].

(** One that sends a report at two of the first requests. *)
Definition reporting_start : ref_files := mk_ref_files ref_pages ref_blocks [[ref_report]; []; [ref_report]].
