(* ===== verification/MmsServices.v ===== *)
(** * mms_client_services.c

    The service sequence of the MMS client: status, name lists, types,
    alternate access, named variable lists, files, journals and information
    reports, and the two associations that are aborted. *)

From Stdlib Require Import ZArith Lia String Ascii SpecFloat.
From stdpp Require Import base tactics list strings numbers option.
From S2P Require Import Prelude CText CFloat JsonLines Mms Interact MmsClientCommon ServiceText.

Local Open Scope Z_scope.
Local Open Scope prog_scope.

Section services.
Context `{MmsApi}.
(** A bound on the nesting of the values the server sends. *)
Context (depth : nat).

Abbreviation program := (prog MmsClientE).

(** ** Lines *)

Definition emit_line (texts : list string) : program unit := line (line_text texts).

Definition emit_ok (op target : string) : program unit :=
  emit_line (begin op target true ++ ["}"]).

Definition emit_fail (op target reason : string) : program unit :=
  emit_line (begin op target false ++ ["," +:+ Q "error" +:+ ":"] ++ sb_string (Some reason) ++ ["}"]).

(** A rendering of a value; the recursion of one that is nested deeper than
    [depth] overflows the stack. *)
Definition rendered {T} (texts : option T) (k : T → program unit) : program unit :=
  match texts with Some texts => k texts | None => undefined end.

Definition emit_value (op target : string) (v : option MmsValue) : program unit :=
  rendered (sb_value depth v) (λ texts,
    emit_line (begin op target true ++ ["," +:+ Q "value" +:+ ":"] ++ texts ++ ["}"])).

Definition emit_names (target : string) (names : list string) : program unit :=
  emit_line (begin "get-name-list" target true ++ ["," +:+ Q "names" +:+ ":"] ++ sb_names names ++ ["}"]).

Definition emit_read (op target : string) (err : MmsError) (v : option MmsValue) : program unit :=
  match v with
  | Some x =>
      if negb (mms_ok err) then emit_fail op target (mms_err_name err)
      else if bool_decide (MmsValue_getType x = MMS_DATA_ACCESS_ERROR)
           then emit_fail op target (dae_name (MmsValue_getDataAccessError x))
           else emit_value op target v
  | None => emit_fail op target (mms_err_name err)
  end.

Definition emit_write (op target : string) (err : MmsError) (dae : Z) : program unit :=
  if mms_ok err && (dae =? DATA_ACCESS_ERROR_SUCCESS) then emit_ok op target
  else if 0 <=? dae then emit_fail op target (dae_name dae)
  else emit_fail op target (mms_err_name err).

(** The loop over the results keeps the last failure. *)
Definition access_failure (failure : option string) (r : option MmsValue) : option string :=
  match r with
  | Some x =>
      if bool_decide (MmsValue_getType x = MMS_DATA_ACCESS_ERROR)
         && negb (MmsValue_getDataAccessError x =? DATA_ACCESS_ERROR_SUCCESS)
      then Some (dae_name (MmsValue_getDataAccessError x)) else failure
  | None => failure
  end.

(** [LinkedList_getNext] follows a null list. *)
Definition emit_access_results (op target : string) (err : MmsError)
    (results : option (list (option MmsValue))) : program unit :=
  if negb (mms_ok err) then emit_fail op target (mms_err_name err)
  else
    match results with
    | None => undefined
    | Some results =>
        match fold_left access_failure results None with
        | Some failure => emit_fail op target failure
        | None => emit_ok op target
        end
    end.

(** ** Information reports

    The handler writes a line and counts; it runs on the connection's thread
    while the program waits for an answer or sleeps, so a request comes with
    the reports of that time.  The count is threaded through. *)
Definition report_target (r : information_report) : string :=
  snprintf_s 160
    ((if ir_list r then "list:" else "var:") +:+
     match ir_domain r with Some d => d +:+ "/" | None => "" end +:+ ir_name r).

Definition report_handler (r : information_report) : program unit :=
  emit_value "information-report" (report_target r) (ir_value r).

Fixpoint handle_reports (rs : list information_report) (g_report_count : Z) : program Z :=
  match rs with
  | [] => done_ g_report_count
  | r :: rs => report_handler r;; handle_reports rs (i32 (g_report_count + 1))
  end.

Definition services_install_report_handler : program unit :=
  call MmsConnection_setInformationReportHandler.

(** A request or a sleep. *)
Definition request {B} (e : MmsClientE B) (g_report_count : Z) : program (B * Z) :=
  let! rs := call reports in
  let! g_report_count := handle_reports rs g_report_count in
  let! b := call e in
  done_ (b, g_report_count).

(** ** Services

    Each takes and gives the count of the reports. *)
Definition member_specs : list access_spec :=
  [(Some "interop", "boolean"); (Some "interop", "integer")].

Definition access_name (s : access_spec) : string :=
  snprintf_s 160 (match s.1 with Some d => d +:+ "/" | None => "" end +:+ s.2).

Definition emit_nvl_directory (target : string) (err : MmsError) (specs : option (list access_spec))
    (deletable : bool) : program unit :=
  match specs with
  | Some specs =>
      if negb (mms_ok err) then emit_fail "get-nvl-attrs" target (mms_err_name err)
      else
        emit_line (begin "get-nvl-attrs" target true ++
          ["," +:+ Q "value" +:+ ":{" +:+ Q "deletable" +:+ ":" +:+
           (if deletable then "true" else "false") +:+ "," +:+ Q "variables" +:+ ":["] ++
          with_commas ((λ s, sb_string (Some (access_name s))) <$> specs) ++ ["]}}"])
  | None => emit_fail "get-nvl-attrs" target (mms_err_name err)
  end.

Definition two_values (a b : MmsValue) : list MmsValue := [a; b].

(** A name list request and its line. *)
Definition name_list (e : MmsClientE (option (list string) * MmsError)) (target : string) (c : Z)
  : program Z :=
  let! r := request e c in
  let '((l, err), c) := r in
  match l with
  | Some names =>
      if negb (mms_ok err) then emit_fail "get-name-list" target (mms_err_name err);; done_ c
      else emit_names target names;; done_ c
  | None => emit_fail "get-name-list" target (mms_err_name err);; done_ c
  end.

Definition status (target : string) (extended : bool) (c : Z) : program Z :=
  let! r := request (MmsConnection_getServerStatus extended) c in
  let '((logical, physical, err), c) := r in
  if negb (mms_ok err) then emit_fail "status" target (mms_err_name err);; done_ c
  else
    emit_line (begin "status" target true ++
      ["," +:+ Q "value" +:+ ":{" +:+ Q "logical" +:+ ":" +:+ fmt_d logical +:+ "," +:+
       Q "physical" +:+ ":" +:+ fmt_d physical +:+ "}}"]);;
    done_ c.

Definition svc_status (c : Z) : program Z :=
  let! c := status "" false c in
  status "extended" true c.

Definition svc_name_lists (c : Z) : program Z :=
  let! c := name_list (MmsConnection_getDomainJournals "interop") "interop/journals" c in
  let! c := name_list MmsConnection_getVMDVariableNames "vmd/variables" c in
  name_list (MmsConnection_getDomainVariableNames "unknown-domain") "unknown-domain/variables" c.

Definition type_spec (item : string) (c : Z) : program Z :=
  let target := snprintf_s 64 ("interop/" +:+ item) in
  let! r := request (MmsConnection_getVariableAccessAttributes "interop" item) c in
  let '((spec, err), c) := r in
  match spec with
  | Some spec =>
      if negb (mms_ok err) then emit_fail "get-var-access-attr" target (mms_err_name err);; done_ c
      else
        emit_line (begin "get-var-access-attr" target true ++
          ["," +:+ member "type" (spec_type_name (var_type spec)) +:+ "," +:+ Q "value" +:+ ":"] ++
          sb_spec spec ++ ["}"]);;
        done_ c
  | None => emit_fail "get-var-access-attr" target (mms_err_name err);; done_ c
  end.

Definition svc_type_specs (c : Z) : program Z :=
  let! c := type_spec "array-rw" c in
  type_spec "structure-rw" c.

(** A read or write request and its line. *)
Definition read_with (op : string) (e : MmsClientE (option MmsValue * MmsError)) (target : string)
    (c : Z) : program Z :=
  let! r := request e c in
  let '((v, err), c) := r in
  emit_read op target err v;; done_ c.

Definition write_with (op : string) (e : MmsClientE (Z * MmsError)) (target : string) (c : Z)
  : program Z :=
  let! r := request e c in
  let '((dae, err), c) := r in
  emit_write op target err dae;; done_ c.

Definition svc_alternate_access (c : Z) : program Z :=
  let! c := read_with "read-array-elements"
              (MmsConnection_readArrayElements "interop" "array" 1 3) "interop/array[1:4]" c in
  let! c := read_with "read-array-elements"
              (MmsConnection_readArrayElements "interop" "array" 2 0) "interop/array[2]" c in
  let! c := read_with "read-component"
              (MmsConnection_readVariableComponent "interop" "structure-rw" "count")
              "interop/structure-rw$count" c in
  let elem := MmsValue_newIntegerFromInt32 21 in
  let! c := write_with "write-array-elements"
              (MmsConnection_writeArrayElements "interop" "array-rw" 1 0 elem)
              "interop/array-rw[1]" c in
  let range_ := MmsValue_createEmptyArray 2 in
  let range_ := MmsValue_setElement range_ 0 (MmsValue_newIntegerFromInt32 33) in
  let range_ := MmsValue_setElement range_ 1 (MmsValue_newIntegerFromInt32 44) in
  let! c := write_with "write-array-elements"
              (MmsConnection_writeArrayElements "interop" "array-rw" 2 2 range_)
              "interop/array-rw[2:4]" c in
  let count := MmsValue_newIntegerFromInt32 99 in
  let! c := write_with "write-component"
              (MmsConnection_writeVariableComponent "interop" "structure-rw" "count" count)
              "interop/structure-rw$count" c in
  let! c := read_with "read" (MmsConnection_readVariable "interop" "array-rw") "interop/array-rw" c in
  read_with "read" (MmsConnection_readVariable "interop" "structure-rw") "interop/structure-rw" c.

(** The operations on named variable lists, with their lines. *)
Definition done_or_fail (op target : string) (e : MmsClientE MmsError) (c : Z) : program Z :=
  let! r := request e c in
  let '(err, c) := r in
  if negb (mms_ok err) then emit_fail op target (mms_err_name err);; done_ c
  else emit_ok op target;; done_ c.

Definition nvl_directory (e : MmsClientE (option (list access_spec) * bool * MmsError))
    (target : string) (c : Z) : program Z :=
  let! r := request e c in
  let '((l, deletable, err), c) := r in
  emit_nvl_directory target err l deletable;; done_ c.

Definition write_nvl (associationSpecific : bool) (domain : option string) (name target : string)
    (a b : MmsValue) (c : Z) : program Z :=
  let! r := request (MmsConnection_writeNamedVariableList associationSpecific domain name (two_values a b)) c in
  let '((results, err), c) := r in
  emit_access_results "write-nvl" target err results;; done_ c.

Definition delete_nvl (e : MmsClientE (bool * MmsError)) (target : string) (c : Z) : program Z :=
  let! r := request e c in
  let '((deleted, err), c) := r in
  if deleted && mms_ok err then emit_ok "delete-nvl" target;; done_ c
  else emit_fail "delete-nvl" target (mms_err_name err);; done_ c.

Definition svc_nvl_domain (c : Z) : program Z :=
  let! c := done_or_fail "define-nvl" "interop/svclist"
              (MmsConnection_defineNamedVariableList (Some "interop") "svclist" member_specs) c in
  let! c := name_list (MmsConnection_getDomainVariableListNames "interop") "interop/nvl" c in
  let! c := nvl_directory
              (MmsConnection_readNamedVariableListDirectory (Some "interop") "svclist")
              "interop/svclist" c in
  let! c := read_with "read-nvl"
              (MmsConnection_readNamedVariableListValues (Some "interop") "svclist" true)
              "interop/svclist?spec" c in
  let! c := write_nvl false (Some "interop") "svclist" "interop/svclist"
              (MmsValue_newBoolean true) (MmsValue_newIntegerFromInt32 77) c in
  let! c := read_with "read-nvl"
              (MmsConnection_readNamedVariableListValues (Some "interop") "svclist" false)
              "interop/svclist" c in
  delete_nvl (MmsConnection_deleteNamedVariableList (Some "interop") "svclist") "interop/svclist" c.

Definition svc_nvl_vmd (c : Z) : program Z :=
  let! c := done_or_fail "define-nvl" "vmd/vmdlist"
              (MmsConnection_defineNamedVariableList None "vmdlist" member_specs) c in
  let! c := nvl_directory (MmsConnection_readNamedVariableListDirectory None "vmdlist")
              "vmd/vmdlist" c in
  let! c := read_with "read-nvl" (MmsConnection_readNamedVariableListValues None "vmdlist" false)
              "vmd/vmdlist" c in
  let! c := delete_nvl (MmsConnection_deleteNamedVariableList None "vmdlist") "vmd/vmdlist" c in
  let! c := nvl_directory (MmsConnection_readNamedVariableListDirectory None "interop-report")
              "vmd/interop-report" c in
  read_with "read-nvl" (MmsConnection_readNamedVariableListValues None "interop-report" false)
    "vmd/interop-report" c.

Definition svc_nvl_association (c : Z) : program Z :=
  let! c := done_or_fail "define-nvl" "aa/aalist"
              (MmsConnection_defineNamedVariableListAssociationSpecific "aalist" member_specs) c in
  let! c := name_list MmsConnection_getVariableListNamesAssociationSpecific "aa/nvl" c in
  let! c := nvl_directory
              (MmsConnection_readNamedVariableListDirectoryAssociationSpecific "aalist")
              "aa/aalist" c in
  let! c := read_with "read-nvl"
              (MmsConnection_readNamedVariableListValuesAssociationSpecific "aalist" false)
              "aa/aalist" c in
  let! c := write_nvl true None "aalist" "aa/aalist"
              (MmsValue_newBoolean true) (MmsValue_newIntegerFromInt32 (-123)) c in
  delete_nvl (MmsConnection_deleteAssociationSpecificNamedVariableList "aalist") "aa/aalist" c.

Definition svc_named_variable_lists (c : Z) : program Z :=
  let! c := svc_nvl_domain c in
  let! c := svc_nvl_vmd c in
  svc_nvl_association c.

(** *** Files *)

Record DirCollector := mk_dir { dc_sb : list string; dc_count : Z; dc_last : string }.

Definition dir_handler (dc : DirCollector) (entry : string * Z * Z) : DirCollector :=
  let '(filename, size, lastModified) := entry in
  mk_dir
    (dc_sb dc ++ (if dc_count dc =? 0 then [] else [","]) ++ ["{" +:+ Q "name" +:+ ":"] ++
     sb_string (Some filename) ++
     ["," +:+ Q "size" +:+ ":" +:+ fmt_u size +:+ "," +:+ Q "lastModified" +:+ ":" +:+
      fmt_u lastModified +:+ "}"])
    (dc_count dc + 1) (snprintf_s 256 filename).

(** What [while (more && err == MMS_ERROR_NONE)] keeps. *)
Record dir_state := mk_dir_state {
  ds_more : bool;
  ds_err : MmsError;
  ds_after : string;
  ds_dc : DirCollector;
  ds_count : Z
}.

(** One turn; a page that does not bring a new last name ends the loop. *)
Definition directory_turn (spec : option string) (s : dir_state)
  : program (dir_state + MmsError * DirCollector * Z) :=
  if ds_more s && mms_ok (ds_err s) then
    let! r := request (MmsConnection_getFileDirectory spec
                (if String.eqb (ds_after s) "" then None else Some (ds_after s))) (ds_count s) in
    let '((entries, more, err), c) := r in
    let dc := fold_left dir_handler entries (ds_dc s) in
    if more && String.eqb (ds_after s) (dc_last dc) then done_ (inr (err, dc, c))
    else done_ (inl (mk_dir_state more err (snprintf_s 256 (dc_last dc)) dc c))
  else done_ (inr (ds_err s, ds_dc s, ds_count s)).

Definition file_directory (spec : option string) (target : string) (c : Z) : program Z :=
  let dc := mk_dir (begin "file-directory" target true ++ ["," +:+ Q "value" +:+ ":["]) 0 "" in
  let! r := repeat_ (directory_turn spec) (mk_dir_state true MMS_ERROR_NONE "" dc c) in
  let '(err, dc, c) := r in
  if negb (mms_ok err) then emit_fail "file-directory" target (mms_err_name err);; done_ c
  else emit_line (dc_sb dc ++ ["]}"]);; done_ c.

Record read_state := mk_read_state {
  rs_more : bool;
  rs_err : MmsError;
  rs_data : list Z;
  rs_count : Z
}.

(** The data of a block are appended. *)
Definition file_read_handler (b buffer : list Z) : list Z := b ++ buffer.

(** One turn of the reading loop. *)
Definition read_turn (frsm : Z) (s : read_state) : program (read_state + MmsError * list Z * Z) :=
  if rs_more s && mms_ok (rs_err s) then
    let! r := request (MmsConnection_fileRead frsm) (rs_count s) in
    let '((blocks, more, err), c) := r in
    done_ (inl (mk_read_state more err (fold_left file_read_handler blocks (rs_data s)) c))
  else done_ (inr (rs_err s, rs_data s, rs_count s)).

(** [b.len] is a [size_t]. *)
Definition file_read_line (target : string) (size lastModified : Z) (data : list Z) : list string :=
  let len := u64 (Z.of_nat (length data)) in
  begin "file-read" target true ++
  ["," +:+ Q "value" +:+ ":{" +:+ Q "size" +:+ ":" +:+ fmt_u size +:+ "," +:+
   Q "lastModified" +:+ ":" +:+ fmt_u lastModified +:+ "," +:+
   Q "length" +:+ ":" +:+ fmt_u len +:+ "," +:+
   Q "fnv1a" +:+ ":" +:+ Q (fmt_fixed 16 16 (fnv1a64 data))] ++
  (if len <=? 256
   then ["," +:+ Q "data" +:+ ":"] ++ sb_hex data else []) ++
  ["}}"].

Definition file_read (name : string) (position : Z) (target : string) (c : Z) : program Z :=
  let! r := request (MmsConnection_fileOpen name position) c in
  let '((frsm, size, lastModified, err), c) := r in
  if negb (mms_ok err) then emit_fail "file-read" target (mms_err_name err);; done_ c
  else
    let! r := repeat_ (read_turn frsm) (mk_read_state true MMS_ERROR_NONE [] c) in
    let '(err, data, c) := r in
    (if negb (mms_ok err) then emit_fail "file-read" target (mms_err_name err)
     else emit_line (file_read_line target size lastModified data));;
    done_or_fail "file-close" target (MmsConnection_fileClose frsm) c.

Definition svc_files (c : Z) : program Z :=
  let! c := file_directory None "" c in
  let! c := file_directory (Some "COMTRADE") "COMTRADE" c in
  let! c := file_directory (Some "COMTRADE\") "COMTRADE\" c in
  let! c := file_read "REC01.CFG" 0 "REC01.CFG" c in
  let! c := file_read "REC01.DAT" 4 "REC01.DAT@4" c in
  let! c := file_read "LARGE.BIN" 0 "LARGE.BIN" c in
  let! c := file_read "NOTIME.TXT" 0 "NOTIME.TXT" c in
  let! c := file_read "NO-SUCH.FILE" 0 "NO-SUCH.FILE" c in
  let! c := done_or_fail "file-delete" "DELETE.ME" (MmsConnection_fileDelete "DELETE.ME") c in
  let! c := done_or_fail "file-rename" "RENAME.ME->RENAMED.ME"
              (MmsConnection_fileRename "RENAME.ME" "RENAMED.ME") c in
  let! c := done_or_fail "obtain-file" "REC01.CFG->OBTAINED.CFG"
              (MmsConnection_obtainFile "REC01.CFG" "OBTAINED.CFG") c in
  file_directory None "after-changes" c.

(** *** Journals *)

Definition journal_variable (jv : option string * option MmsValue) : option (list string) :=
  value ← sb_value depth jv.2;
  Some (["{" +:+ Q "tag" +:+ ":"] ++ sb_string jv.1 ++ ["," +:+ Q "value" +:+ ":"] ++ value ++ ["}"]).

Definition journal_entry_texts (je : journal_entry) : option (list string) :=
  id ← sb_value depth (entryID je);
  time ← sb_value depth (occurenceTime je);
  vars ← mapM journal_variable (journalVariables je);
  Some (["{" +:+ Q "id" +:+ ":"] ++ id ++ ["," +:+ Q "time" +:+ ":"] ++ time ++
        ["," +:+ Q "variables" +:+ ":["] ++ with_commas vars ++ ["]}"]).

Definition emit_journal (target : string) (err : MmsError) (entries : option (list journal_entry))
    (more : bool) : program unit :=
  match entries with
  | Some entries =>
      if negb (mms_ok err) then emit_fail "read-journal" target (mms_err_name err)
      else
        rendered (mapM journal_entry_texts entries) (λ texts,
          emit_line (begin "read-journal" target true ++
            ["," +:+ Q "value" +:+ ":{" +:+ Q "moreFollows" +:+ ":" +:+
             (if more then "true" else "false") +:+ "," +:+ Q "entries" +:+ ":["] ++
            with_commas texts ++ ["]}}"]))
  | None => emit_fail "read-journal" target (mms_err_name err)
  end.

Definition binary_time (ms : Z) : MmsValue := MmsValue_setBinaryTime MmsValue_newBinaryTime ms.

Definition journal_with (e : MmsClientE (option (list journal_entry) * bool * MmsError))
    (target : string) (c : Z) : program Z :=
  let! r := request e c in
  let '((entries, more, err), c) := r in
  emit_journal target err entries more;; done_ c.

Definition journal_t1 : Z := 1704067201000.
Definition journal_t4 : Z := 1704067204000.

Definition svc_journals (c : Z) : program Z :=
  let! c := journal_with
              (MmsConnection_readJournalTimeRange "interop" "log1" (binary_time journal_t1)
                 (binary_time journal_t4)) "interop/log1" c in
  let entry := MmsValue_setOctetString (MmsValue_newOctetString 8 8) [2; 0; 0; 0; 0; 0; 0; 0] in
  let! c := journal_with
              (MmsConnection_readJournalStartAfter "interop" "log1"
                 (binary_time (journal_t1 + 1000)) entry) "interop/log1@after-2" c in
  journal_with
    (MmsConnection_readJournalTimeRange "interop" "nolog" (binary_time journal_t1)
       (binary_time journal_t4)) "interop/nolog" c.

(** *** Reports *)

Record wait_state := mk_wait {
  waited : Z;
  last_count : Z;
  quiet : Z;
  wait_count : Z
}.

(** One turn of the wait of 3 s, cut short by 300 ms of quiet. *)
Definition wait_turn (before : Z) (s : wait_state) : program (wait_state + Z) :=
  if (waited s <? 3000) && (quiet s <? 300) then
    let! r := request (usleep (50 * 1000)) (wait_count s) in
    let '(_, n) := r in
    if negb (n =? last_count s) then done_ (inl (mk_wait (waited s + 50) n 0 n))
    else if before <? n then done_ (inl (mk_wait (waited s + 50) (last_count s) (quiet s + 50) n))
    else done_ (inl (mk_wait (waited s + 50) (last_count s) (quiet s) n))
  else done_ (inr (wait_count s)).

Definition svc_reports (c : Z) : program Z :=
  let before := c in
  let one := MmsValue_newIntegerFromInt32 1 in
  let! c := write_with "write" (MmsConnection_writeVariable "interop" "report-trigger" one)
              "interop/report-trigger" c in
  let! c := repeat_ (wait_turn before) (mk_wait 0 before 0 c) in
  read_with "read" (MmsConnection_readVariable "interop" "boolean")
    "interop/boolean#after-reports" c.

(** ** Entry points *)

Definition run_services (c : Z) : program Z :=
  let! c := svc_status c in
  let! c := svc_name_lists c in
  let! c := svc_type_specs c in
  let! c := svc_alternate_access c in
  let! c := svc_named_variable_lists c in
  let! c := svc_files c in
  let! c := svc_journals c in
  svc_reports c.

Definition run_server_abort (host : string) (port : Z) : program unit :=
  call MmsConnection_create;;
  call (MmsConnection_setRequestTimeout 3000);;
  call MmsConnection_setConnectionLostHandler;;
  let! err := call (MmsConnection_connect host port) in
  if negb (mms_ok err) then
    emit_fail "server-abort" "" (mms_err_name err);;
    call MmsConnection_destroy
  else
    let trigger := MmsValue_newIntegerFromInt32 (-1) in
    let! r := call (MmsConnection_writeVariable "interop" "report-trigger" trigger) in
    let '(_, err) := r in
    let! lost := call connection_lost in
    (if lost && negb (mms_ok err) then emit_ok "server-abort" ""
     else if negb lost then emit_fail "server-abort" "" "connection-not-lost"
     else emit_fail "server-abort" "" "write-succeeded");;
    call MmsConnection_destroy.

Definition run_abort (host : string) (port : Z) : program unit :=
  call MmsConnection_create;;
  let! err := call (MmsConnection_connect host port) in
  if negb (mms_ok err) then
    emit_fail "abort" "" (mms_err_name err);;
    call MmsConnection_destroy
  else
    let! r := call (MmsConnection_readVariable "interop" "boolean") in
    let '(v, err) := r in
    emit_read "read" "interop/boolean#before-abort" err v;;
    let! err := call MmsConnection_abort in
    (if negb (mms_ok err) then emit_fail "abort" "" (mms_err_name err) else emit_ok "abort" "");;
    call MmsConnection_destroy.

End services.
