(* ===== verification/ServiceLines.v ===== *)
(** * The lines of mms_client_services.c

    A line is a JSON object whose first members are the operation, the target
    and the result; here for every kind of line the program writes. *)

From Stdlib Require Import ZArith Lia String Ascii SpecFloat.
From stdpp Require Import base tactics list strings numbers option.
From S2P Require Import Prelude CText CFloat JsonLines JsonText JsonRender JsonNumbers Mms.
From S2P Require Import Interact MmsClientCommon ServiceText ServiceTextSpec MmsServices.

Local Open Scope Z_scope.

(** A line that is an object with these members first. *)
Definition json_line (l : string) : Prop :=
  ∃ text op target ok ms, l = text +:+ newline ∧
    parses text (JObject (("operation", JString op) :: ("target", JString target) ::
                          ("ok", JBool ok) :: ms)).

(** Texts that print more members, each with its comma. *)
Definition extra (more : list string) (ms : list (string * jtree)) : Prop :=
  ∃ ls, cat more = cat ((λ l, "," +:+ l) <$> ls) ∧ Forall2 member_renders ls ms.

Lemma extra_nil : extra [] [].
Proof. by exists []. Qed.

Lemma extra_app more more' ms ms' : extra more ms → extra more' ms' → extra (more ++ more') (ms ++ ms').
Proof.
  intros (ls & Hc & Hr) (ls' & Hc' & Hr'). exists (ls ++ ls'). rewrite fmap_app, !cat_app, Hc, Hc'.
  split; [done|]. by apply Forall2_app.
Qed.

Lemma member_renders_intro key v t : plain key = true → renders v t → member_renders (Q key +:+ ":" +:+ v) (key, t).
Proof.
  intros Hk Hv. exists key, v. unfold Q. rewrite !string_app_assoc. split; [done|].
  split; [by apply chars_plain|done].
Qed.

Lemma extra_member key texts t :
  plain key = true → renders (cat texts) t → extra (["," +:+ Q key +:+ ":"] ++ texts) [(key, t)].
Proof.
  intros Hk Ht. exists [Q key +:+ ":" +:+ cat texts]. split.
  - cbn [app fmap list_fmap]. rewrite !cat_cons. unfold cat at 2. cbn [String.concat].
    by rewrite !string_app_assoc, string_app_nil_r.
  - constructor; [|constructor]. by apply member_renders_intro.
Qed.

Lemma concat_cat_commas l ls : String.concat "," (l :: ls) = l +:+ cat ((λ l, "," +:+ l) <$> ls).
Proof.
  revert l. induction ls as [|x ls IH]; intros l; [by rewrite string_app_nil_r|].
  rewrite concat_cons, fmap_cons, cat_cons, IH. by rewrite string_app_assoc.
Qed.

Lemma begin_text op target ok :
  cat (begin op target ok)
  = "{" +:+ String.concat ","
      [Q "operation" +:+ ":" +:+ cat (sb_string (Some op));
       Q "target" +:+ ":" +:+ cat (sb_string (Some target));
       Q "ok" +:+ ":" +:+ (if ok then "true" else "false")].
Proof.
  unfold begin. rewrite !cat_app, !cat_one. cbn [String.concat]. by rewrite !string_app_assoc.
Qed.

Lemma line_renders op target ok more ms :
  extra more ms →
  renders (cat (begin op target ok) +:+ cat more +:+ "}")
    (JObject (("operation", JString op) :: ("target", JString target) :: ("ok", JBool ok) :: ms)).
Proof.
  intros (ls & -> & Hr). rewrite begin_text, concat_cat_commas.
  pose proof (renders_object
    ((Q "operation" +:+ ":" +:+ cat (sb_string (Some op))) ::
     (Q "target" +:+ ":" +:+ cat (sb_string (Some target))) ::
     (Q "ok" +:+ ":" +:+ (if ok then "true" else "false")) :: ls)
    (("operation", JString op) :: ("target", JString target) :: ("ok", JBool ok) :: ms)) as Hobj.
  rewrite concat_cat_commas, !fmap_cons, !cat_cons in Hobj.
  cbn [fmap list_fmap]. rewrite !cat_cons. change (cat []) with "".
  rewrite !string_app_assoc in *. rewrite string_app_nil_l. apply Hobj; [done|].
  do 2 (constructor; [apply member_renders_intro; [done|apply sb_string_renders]|]).
  constructor; [apply member_renders_intro; [done|apply renders_bool]|done].
Qed.

(** A line that is one when it is no longer than any text of a 64-bit machine
    is: the string builder counts its capacity in a [size_t]. *)
Definition line_ok (l : string) : Prop := slen l < TEXT_MAX → json_line l.

(** The line printed by a list of texts that are together such an object. *)
Lemma json_line_renders op target ok texts ms :
  Forall short texts →
  renders (cat texts) (JObject (("operation", JString op) :: ("target", JString target) ::
                                ("ok", JBool ok) :: ms)) →
  line_ok (line_text texts).
Proof.
  intros Hs Hr. unfold line_ok, line_text. intros Hl. rewrite slen_app in Hl.
  pose proof (slen_nonneg newline). rewrite sb_prints_bounded by (done || lia).
  exists (cat texts), op, target, ok, ms. split; [done|]. by apply renders_parses.
Qed.

Lemma json_line_intro op target ok texts more ms :
  Forall short texts → cat texts = cat (begin op target ok) +:+ cat more +:+ "}" → extra more ms →
  line_ok (line_text texts).
Proof.
  intros Hs He Hm. apply (json_line_renders op target ok _ ms); [done|]. rewrite He. by apply line_renders.
Qed.

Lemma json_line_begin op target ok more ms :
  Forall short more → extra more ms → line_ok (line_text (begin op target ok ++ more ++ ["}"])).
Proof. intros Hs Hm. apply (json_line_intro op target ok _ more ms); [shorts|by rewrite !cat_app|done]. Qed.

(** An object of members that are texts. *)
Lemma object_renders ls ts :
  ls ≠ [] → Forall2 (λ kv kt, kv.1 = kt.1 ∧ plain kt.1 = true ∧ renders kv.2 kt.2) ls ts →
  renders ("{" +:+ String.concat "," ((λ kv, Q kv.1 +:+ ":" +:+ kv.2) <$> ls) +:+ "}") (JObject ts).
Proof.
  intros Hne Hr. apply renders_object; [by destruct ls|].
  clear Hne. induction Hr as [|[k v] [k' t] ls ts (Hkk & Hk & Hv) _ IH]; [constructor|].
  cbn [fst snd] in Hkk, Hk, Hv. subst k'. rewrite fmap_cons. constructor; [|done]. by apply member_renders_intro.
Qed.

(** ** Types *)

Fixpoint spec_ok (s : var_spec) : Prop :=
  match s with
  | VarScalar _ _ => True
  | VarArray _ count element => is_i32 count ∧ spec_ok element
  | VarStructure _ components => fold_right (λ c P, spec_ok c ∧ P) True components
  end.

Fixpoint spec_tree (s : var_spec) : jtree :=
  match s with
  | VarScalar _ _ => JObject [("type", JString (spec_type_name (var_type s)))]
  | VarArray _ count element =>
      JObject [("type", JString "array"); ("count", JNumber (fmt_d count)); ("element", spec_tree element)]
  | VarStructure _ components =>
      JObject [("type", JString "structure");
               ("components",
                JArray ((λ c, JObject [("name", JString (default "" (var_name c)));
                                       ("spec", spec_tree c)]) <$> components))]
  end.

Section var_spec_induction.
Context (P : var_spec → Prop).
Hypothesis Hscalar : ∀ name t, P (VarScalar name t).
Hypothesis Harray : ∀ name n e, P e → P (VarArray name n e).
Hypothesis Hstructure : ∀ name l, Forall P l → P (VarStructure name l).
Fixpoint var_spec_nested_ind (s : var_spec) : P s :=
  match s with
  | VarScalar name t => Hscalar name t
  | VarArray name n e => Harray name n e (var_spec_nested_ind e)
  | VarStructure name l =>
      Hstructure name l
        ((fix go l : Forall P l :=
            match l with
            | [] => @List.Forall_nil _ P
            | c :: l => @List.Forall_cons _ P c l (var_spec_nested_ind c) (go l)
            end) l)
  end.
End var_spec_induction.

Lemma plain_type t : plain (spec_type_name t) = true.
Proof. by destruct t. Qed.

Lemma quoted_plain s : plain s = true → renders (Q s) (JString s).
Proof. intros Hs. by apply renders_string, chars_plain. Qed.

Lemma is_i32_i64 n : is_i32 n → is_i64 n.
Proof. intros. lia. Qed.

Lemma short_type t : short (spec_type_name t).
Proof. by destruct t. Qed.

Lemma slen_type t : slen (spec_type_name t) <= 20.
Proof. by destruct t. Qed.

Lemma short_type_member t : short ("{" +:+ member "type" (spec_type_name t)).
Proof. by destruct t. Qed.
#[export] Hint Resolve short_type_member : short.

Lemma shorts_spec s : Forall short (sb_spec s).
Proof.
  induction s as [name t|name n e IH|name l IH] using var_spec_nested_ind; cbn [sb_spec]; [shorts..|].
  shorts. apply shorts_with_commas, list.Forall_fmap. eapply list.Forall_impl; [exact IH|].
  intros c Hc. unfold compose. shorts.
Qed.
#[export] Hint Resolve shorts_spec : shorts.

(** The type of a variable reads as its tree. *)
Lemma sb_spec_renders s : spec_ok s → renders (cat (sb_spec s)) (spec_tree s).
Proof.
  induction s as [name t|name n e IH|name l IH] using var_spec_nested_ind; intros Hs.
  - pose proof (object_renders [("type", Q (spec_type_name t))] [("type", JString (spec_type_name t))]) as Ho.
    cbn [sb_spec var_type app spec_tree]. rewrite !cat_cons. change (cat []) with "".
    rewrite string_app_nil_r, string_app_assoc.
    apply Ho; [done|]. constructor; [|constructor]. split; [done|]. split; [done|].
    apply quoted_plain, plain_type.
  - destruct Hs as [Hn He]. specialize (IH He).
    pose proof (object_renders [("type", Q "array"); ("count", fmt_d n); ("element", cat (sb_spec e))]
      [("type", JString "array"); ("count", JNumber (fmt_d n)); ("element", spec_tree e)]) as Ho.
    cbn [spec_tree sb_spec var_type]. rewrite !cat_app, !cat_one.
    cbn [fmap list_fmap fst snd String.concat] in Ho. unfold member. rewrite !string_app_assoc in *.
    apply Ho; [done|].
    constructor; [split; [done|]; split; [done|]; by apply quoted_plain|].
    constructor; [split; [done|]; split; [done|]; by apply renders_number, json_number_d, is_i32_i64|].
    constructor; [by split|constructor].
  - pose proof (object_renders
      [("type", Q "structure");
       ("components", "[" +:+ String.concat "," (cat <$> ((λ c, ["{" +:+ Q "name" +:+ ":"] ++ sb_string (var_name c) ++
               ["," +:+ Q "spec" +:+ ":"] ++ sb_spec c ++ ["}"]) <$> l)) +:+ "]")]
      [("type", JString "structure");
       ("components", JArray ((λ c, JObject [("name", JString (default "" (var_name c)));
                                       ("spec", spec_tree c)]) <$> l))]) as Ho.
    cbn [spec_tree sb_spec var_type]. rewrite !cat_app, cat_with_commas, !cat_one.
    rewrite !fmap_cons in Ho. cbn [fst snd fmap list_fmap] in Ho. rewrite concat_cons in Ho.
    cbn [String.concat] in Ho. unfold member. rewrite !string_app_assoc in *.
    apply Ho; [done|].
    constructor; [split; [done|]; split; [done|]; by apply quoted_plain|].
    constructor; [|constructor]. split; [done|]. split; [done|]. cbn [snd]. apply renders_array.
    clear Ho. induction IH as [|c l Hc _ IHl]; [constructor|]. cbn [spec_ok fold_right] in Hs.
    destruct Hs as [Hsc Hsl]. rewrite !fmap_cons. constructor; [|by apply IHl].
    pose proof (object_renders [("name", cat (sb_string (var_name c))); ("spec", cat (sb_spec c))]
      [("name", JString (default "" (var_name c))); ("spec", spec_tree c)]) as Ho.
    rewrite !cat_app, !cat_one. cbn [fmap list_fmap fst snd String.concat] in Ho.
    rewrite !string_app_assoc in *. apply Ho; [done|].
    constructor; [split; [done|]; split; [done|]; apply sb_string_renders|].
    constructor; [|constructor]. split; [done|]. split; [done|]. by apply Hc.
Qed.
