(* ===== verification/MmsServicesSpec.v ===== *)
(** * Theorems about mms_client_services.c

    Every line the service sequence writes is a JSON object, whatever texts
    the server sends; the wait for reports ends; a directory is listed whole
    and a file read to its end. *)

From Stdlib Require Import ZArith Lia String Ascii SpecFloat.
From stdpp Require Import base tactics list strings numbers option.
From S2P Require Import Prelude CText CFloat JsonLines JsonText JsonRender JsonNumbers Mms RefMms.
From S2P Require Import Interact MmsClientCommon ServiceText ServiceTextSpec MmsServices ServiceLines.

Local Open Scope Z_scope.

Section spec.
Context `{MmsApi} `{!MmsLaws}.
Context (depth : nat).

(** ** Answers

    What the types of the library allow: a value nested no deeper than the
    bound whose floats are finite, and integers of their width. *)
Definition journal_ok (je : journal_entry) : Prop :=
  printable depth (entryID je) ∧ printable depth (occurenceTime je) ∧
  Forall (λ jv, printable depth jv.2) (journalVariables je).

Definition answer_ok (ev : event MmsClientE) : Prop :=
  match ev with
  | called e b =>
      match e in MmsClientE B return B → Prop with
      | MmsConnection_readVariable _ _ => λ r, printable depth r.1
      | MmsConnection_readVariableComponent _ _ _ => λ r, printable depth r.1
      | MmsConnection_readArrayElements _ _ _ _ => λ r, printable depth r.1
      | MmsConnection_readMultipleVariables _ _ => λ r, printable depth r.1
      | MmsConnection_readNamedVariableListValues _ _ _ => λ r, printable depth r.1
      | MmsConnection_readNamedVariableListValuesAssociationSpecific _ _ => λ r, printable depth r.1
      | MmsConnection_getServerStatus _ => λ r, is_i32 r.1.1 ∧ is_i32 r.1.2
      | MmsConnection_getVariableAccessAttributes _ _ => λ r, option_Forall spec_ok r.1
      | MmsConnection_getFileDirectory _ _ => λ r, Forall (λ e, is_u32 e.1.2 ∧ is_u64 e.2) r.1.1
      | MmsConnection_fileOpen _ _ => λ r, is_u32 r.1.1.2 ∧ is_u64 r.1.2
      | MmsConnection_readJournalTimeRange _ _ _ _ => λ r, option_Forall (Forall journal_ok) r.1.1
      | MmsConnection_readJournalStartAfter _ _ _ _ => λ r, option_Forall (Forall journal_ok) r.1.1
      | reports => λ rs, Forall (λ r, printable depth (ir_value r)) rs
      | _ => λ _, True
      end b
  | printed _ => True
  end.

(** Programs all whose lines are JSON, as long as the answers are. *)
Definition good {A} (p : prog MmsClientE A) : Prop :=
  ∀ t a, runs p t a → Forall answer_ok t → Forall line_ok (lines t).

Lemma good_done {A} (a : A) : good (done_ a).
Proof. intros t b [-> _] _. constructor. Qed.

Lemma good_bind {A B} (p : prog MmsClientE A) (f : A → prog MmsClientE B) :
  good p → (∀ a, good (f a)) → good (pbind p f).
Proof.
  intros Hp Hf t b Hr Ht. apply runs_bind in Hr as (t1 & t2 & a & -> & H1 & H2).
  apply Forall_app in Ht as [Ht1 Ht2]. rewrite lines_app. apply Forall_app. split; [by eapply Hp|by eapply Hf].
Qed.

Lemma good_call {B} (e : MmsClientE B) : good (call e).
Proof. intros t b Hr _. apply runs_call in Hr as ->. apply list.Forall_nil_2. Qed.

Lemma good_call_bind {B A} (e : MmsClientE B) (f : B → prog MmsClientE A) :
  (∀ b, answer_ok (called e b) → good (f b)) → good (pbind (call e) f).
Proof.
  intros Hf t a Hr Ht. apply runs_bind in Hr as (t1 & t2 & b & -> & H1 & H2).
  apply runs_call in H1 as ->. apply Forall_app in Ht as [Ht1 Ht2]. inversion Ht1; subst.
  rewrite lines_app. apply Forall_app. split; [apply list.Forall_nil_2|by eapply (Hf b)].
Qed.

Lemma good_line l : line_ok l → good (line l).
Proof. intros Hl t u Hr _. apply runs_line in Hr as ->. by repeat constructor. Qed.

Lemma good_undefined {A} : good (undefined (A := A)).
Proof. by intros t a []. Qed.

Lemma good_repeat {S R} (body : S → prog MmsClientE (S + R)%type) (s : S) :
  (∀ s, good (body s)) → good (repeat_ body s).
Proof.
  intros Hb t r Hr Ht. apply runs_repeat in Hr. induction Hr as [s t r Hs|s t1 s' t2 r Hs _ IH].
  - by eapply Hb.
  - apply Forall_app in Ht as [Ht1 Ht2]. rewrite lines_app. apply Forall_app.
    split; [by eapply Hb|by apply IH].
Qed.

(** A loop whose state keeps an invariant, and leaves with a condition. *)
Lemma good_repeat_bind {S R A} (body : S → prog MmsClientE (S + R)%type) (s : S)
    (f : R → prog MmsClientE A) (P : S → Prop) (Q : R → Prop) :
  P s → (∀ s, good (body s)) →
  (∀ s t x, P s → runs (body s) t x → Forall answer_ok t →
     match x with inl s => P s | inr r => Q r end) →
  (∀ r, Q r → good (f r)) → good (pbind (repeat_ body s) f).
Proof.
  intros HP Hb Hkeep Hf t a Hr Ht. apply runs_bind in Hr as (t1 & t2 & r & -> & H1 & H2).
  apply Forall_app in Ht as [Ht1 Ht2]. rewrite lines_app. apply Forall_app.
  split; [by eapply good_repeat|]. eapply Hf; [|done|done]. clear -H1 Ht1 HP Hkeep.
  apply runs_repeat in H1. induction H1 as [s t r Hs|s t1 s' t2 r Hs _ IH].
  - by apply (Hkeep s t (inr r)).
  - apply Forall_app in Ht1 as [Ha Hb]. apply IH; [|done]. by apply (Hkeep s t1 (inl s')).
Qed.

(** ** The lines *)

Ltac cat_line := rewrite !cat_app, ?cat_one, ?string_app_assoc; reflexivity.

Lemma good_emit_ok op target : good (emit_ok op target).
Proof. apply good_line. eapply (json_line_begin _ _ _ []), extra_nil. shorts. Qed.

Lemma good_emit_fail op target reason : good (emit_fail op target reason).
Proof.
  apply good_line. eapply json_line_intro with (more := ["," +:+ Q "error" +:+ ":"] ++ sb_string (Some reason)).
  - shorts.
  - cat_line.
  - apply extra_member; [done|apply sb_string_renders].
Qed.

Lemma good_emit_value op target v : printable depth v → good (emit_value depth op target v).
Proof.
  intros Hv. destruct (value_renders depth v Hv) as (texts & t & He & _ & Hr).
  unfold emit_value, rendered. rewrite He. apply good_line.
  eapply json_line_intro with (more := ["," +:+ Q "value" +:+ ":"] ++ texts);
    [|cat_line|by apply extra_member].
  pose proof (shorts_value depth v texts He). shorts.
Qed.

Lemma names_render names :
  renders (cat (sb_names names)) (JArray (JString <$> names)).
Proof.
  unfold sb_names. rewrite cat_bracketed. apply renders_array.
  induction names as [|n names IH]; [constructor|]. rewrite !fmap_cons.
  constructor; [apply sb_string_renders|done].
Qed.

Lemma good_emit_names target names : good (emit_names target names).
Proof.
  apply good_line. eapply json_line_intro with (more := ["," +:+ Q "names" +:+ ":"] ++ sb_names names);
    [shorts|cat_line|].
  apply extra_member; [done|apply names_render].
Qed.

(** A line whose last member is an object. *)
Lemma object_line_renders op target ok key kvs kts texts :
  plain key = true → kvs ≠ [] →
  Forall2 (λ kv kt, kv.1 = kt.1 ∧ plain kt.1 = true ∧ renders kv.2 kt.2) kvs kts →
  cat texts = cat (begin op target ok) +:+ "," +:+ Q key +:+ ":" +:+
    ("{" +:+ String.concat "," ((λ kv, Q kv.1 +:+ ":" +:+ kv.2) <$> kvs) +:+ "}") +:+ "}" →
  renders (cat texts) (JObject [("operation", JString op); ("target", JString target); ("ok", JBool ok);
                                (key, JObject kts)]).
Proof.
  intros Hk Hne Hr He.
  pose proof (line_renders op target ok (["," +:+ Q key +:+ ":"] ++
    ["{" +:+ String.concat "," ((λ kv, Q kv.1 +:+ ":" +:+ kv.2) <$> kvs) +:+ "}"]) [(key, JObject kts)]) as Hl.
  rewrite cat_app, !cat_one in Hl. rewrite He. rewrite !string_app_assoc in *. apply Hl.
  apply (extra_member key [_]); [done|]. rewrite cat_one. pose proof (object_renders kvs kts Hne Hr) as Ho.
  rewrite ?string_app_assoc in Ho. exact Ho.
Qed.

Lemma json_line_object op target ok key kvs kts texts :
  Forall short texts → plain key = true → kvs ≠ [] →
  Forall2 (λ kv kt, kv.1 = kt.1 ∧ plain kt.1 = true ∧ renders kv.2 kt.2) kvs kts →
  cat texts = cat (begin op target ok) +:+ "," +:+ Q key +:+ ":" +:+
    ("{" +:+ String.concat "," ((λ kv, Q kv.1 +:+ ":" +:+ kv.2) <$> kvs) +:+ "}") +:+ "}" →
  line_ok (line_text texts).
Proof. intros Hs Hk Hne Hr He. eapply json_line_renders; [done|]. by eapply object_line_renders. Qed.

Lemma good_emit_read op target err v : printable depth v → good (emit_read depth op target err v).
Proof.
  intros Hv. unfold emit_read. destruct v as [x|]; [|apply good_emit_fail].
  destruct (mms_ok err); [|apply good_emit_fail]. cbn [negb]. case_bool_decide; [apply good_emit_fail|].
  by apply good_emit_value.
Qed.

Lemma good_emit_write op target err dae : good (emit_write op target err dae).
Proof.
  unfold emit_write. destruct (_ && _); [apply good_emit_ok|].
  destruct (0 <=? dae); apply good_emit_fail.
Qed.

Lemma good_emit_access_results op target err rs : good (emit_access_results op target err rs).
Proof.
  unfold emit_access_results. destruct (mms_ok err); [|apply good_emit_fail]. cbn [negb].
  destruct rs as [rs|]; [|apply good_undefined].
  destruct (fold_left _ _ _); [apply good_emit_fail|apply good_emit_ok].
Qed.

Lemma strings_render {A} (f : A → string) l :
  renders ("[" +:+ String.concat "," (cat <$> ((λ x, sb_string (Some (f x))) <$> l)) +:+ "]")
    (JArray ((λ x, JString (f x)) <$> l)).
Proof.
  apply renders_array. induction l as [|x l IH]; [constructor|]. rewrite !fmap_cons.
  constructor; [apply sb_string_renders|done].
Qed.

Lemma good_emit_nvl_directory target err specs deletable :
  good (emit_nvl_directory target err specs deletable).
Proof.
  unfold emit_nvl_directory. destruct specs as [specs|]; [|apply good_emit_fail].
  destruct (mms_ok err); [|apply good_emit_fail]. cbn [negb]. apply good_line.
  eapply (json_line_object _ _ _ "value"
    [("deletable", if deletable then "true" else "false"); ("variables", _)]
    [("deletable", JBool deletable); ("variables", _)]);
    [shorts; apply shorts_list; intros; apply shorts_string|done|done| |].
  - constructor; [split; [done|]; split; [done|apply renders_bool]|].
    constructor; [|constructor]. split; [done|]. split; [done|]. apply (strings_render access_name specs).
  - rewrite !cat_app, cat_with_commas, !cat_one. rewrite !fmap_cons. cbn [fst snd fmap list_fmap].
    rewrite concat_cons. cbn [String.concat]. by rewrite !string_app_assoc.
Qed.

(** ** Requests *)

Lemma good_handle_reports rs c :
  Forall (λ r, printable depth (ir_value r)) rs → good (handle_reports depth rs c).
Proof.
  intros Hrs. revert c. induction Hrs as [|r rs Hr _ IH]; intros c; [apply good_done|].
  cbn [handle_reports]. apply good_bind; [|done]. by apply good_emit_value.
Qed.

Lemma good_request_bind {B A} (e : MmsClientE B) c (f : B * Z → prog MmsClientE A) :
  (∀ b c, answer_ok (called e b) → good (f (b, c))) → good (pbind (request depth e c) f).
Proof.
  intros Hf t a Hr Ht. apply runs_bind in Hr as (t1 & t2 & [b c'] & -> & H1 & H2).
  apply Forall_app in Ht as [Ht1 Ht2]. rewrite lines_app. apply Forall_app. unfold request in H1.
  apply runs_bind in H1 as (t3 & t4 & rs & -> & Hc & H1). apply runs_call in Hc as ->.
  apply runs_bind in H1 as (t5 & t6 & c'' & -> & Hh & H1).
  apply runs_bind in H1 as (t7 & t8 & b' & -> & Hc & H1). apply runs_call in Hc as ->.
  destruct H1 as [-> [= -> ->]].
  apply Forall_app in Ht1 as [Hrs Ht1]. apply Forall_app in Ht1 as [Ht5 Hb].
  inversion Hrs as [|?? Hrs' _]; subst. inversion Hb as [|?? Hb' _]; subst. split.
  - rewrite !lines_app. change (lines [called reports rs]) with (@nil string).
    change (lines [called e b']) with (@nil string). rewrite !app_nil_r.
    by eapply good_handle_reports.
  - by eapply Hf.
Qed.

Lemma good_name_list e target c : good (name_list depth e target c).
Proof.
  apply good_request_bind. intros [[names|] err] c' _;
    [destruct (mms_ok err); cbn [negb]|]; (apply good_bind; [|intros; apply good_done]);
    [apply good_emit_names|apply good_emit_fail..].
Qed.

Lemma good_status target ext c : good (status depth target ext c).
Proof.
  apply good_request_bind. intros [[logical physical] err] c' [Hl Hp]. cbn [fst snd] in *.
  destruct (mms_ok err); cbn [negb]; (apply good_bind; [|intros; apply good_done]); [|apply good_emit_fail].
  apply good_line.
  eapply (json_line_object _ _ _ "value" [("logical", fmt_d logical); ("physical", fmt_d physical)]
            [("logical", JNumber (fmt_d logical)); ("physical", JNumber (fmt_d physical))]); [shorts|done|done| |].
  - do 2 (constructor; [split; [done|]; split; [done|]; by apply renders_number, json_number_d, is_i32_i64|]).
    constructor.
  - rewrite !cat_app, !cat_one. cbn [fmap list_fmap fst snd String.concat]. by rewrite !string_app_assoc.
Qed.

Lemma good_type_spec item c : good (type_spec depth item c).
Proof.
  apply good_request_bind. intros [[spec|] err] c' Hs;
    [|apply good_bind; [apply good_emit_fail|intros; apply good_done]].
  assert (Hok : spec_ok spec) by (cbn [answer_ok fst] in Hs; by inversion Hs).
  destruct (mms_ok err); cbn [negb]; (apply good_bind; [|intros; apply good_done]); [|apply good_emit_fail].
  apply good_line.
  eapply json_line_intro with
    (more := (["," +:+ Q "type" +:+ ":"] ++ [Q (spec_type_name (var_type spec))]) ++
             (["," +:+ Q "value" +:+ ":"] ++ sb_spec spec)).
  - apply Forall_app. split; [shorts|]. apply list.Forall_cons_2; [by destruct (var_type spec)|shorts].
  - rewrite !cat_app, !cat_one. unfold member. by rewrite !string_app_assoc.
  - apply extra_app; apply extra_member; try done.
    + rewrite cat_one. apply quoted_plain, plain_type.
    + by apply sb_spec_renders.
Qed.

Lemma good_read_with op e target c :
  (∀ r, answer_ok (called e r) → printable depth r.1) → good (read_with depth op e target c).
Proof.
  intros He. apply good_request_bind. intros [v err] c' Ha. apply good_bind; [|intros; apply good_done].
  apply good_emit_read. by apply (He (v, err)).
Qed.

Lemma good_write_with op e target c : good (write_with depth op e target c).
Proof.
  apply good_request_bind. intros [dae err] c' _. apply good_bind; [|intros; apply good_done].
  apply good_emit_write.
Qed.

Lemma good_done_or_fail op target e c : good (done_or_fail depth op target e c).
Proof.
  apply good_request_bind. intros err c' _. destruct (mms_ok err); cbn [negb];
    (apply good_bind; [|intros; apply good_done]); [apply good_emit_ok|apply good_emit_fail].
Qed.

Lemma good_nvl_directory e target c : good (nvl_directory depth e target c).
Proof.
  apply good_request_bind. intros [[l d] err] c' _. apply good_bind; [|intros; apply good_done].
  apply good_emit_nvl_directory.
Qed.

Lemma good_write_nvl aa domain name target a b c : good (write_nvl depth aa domain name target a b c).
Proof.
  apply good_request_bind. intros [rs err] c' _. apply good_bind; [|intros; apply good_done].
  apply good_emit_access_results.
Qed.

Lemma good_delete_nvl e target c : good (delete_nvl depth e target c).
Proof.
  apply good_request_bind. intros [d err] c' _. destruct (d && mms_ok err);
    (apply good_bind; [|intros; apply good_done]); [apply good_emit_ok|apply good_emit_fail].
Qed.

(** ** Files and journals *)

(** A list of texts that ends in an array of objects so far, without its end. *)
Definition listing (target : string) (texts : list string) (items : list string) : Prop :=
  cat texts = cat (begin "file-directory" target true) +:+ "," +:+ Q "value" +:+ ":" +:+
    "[" +:+ String.concat "," items.

Definition file_object (e : string * Z * Z) : jtree :=
  JObject [("name", JString e.1.1); ("size", JNumber (fmt_u e.1.2)); ("lastModified", JNumber (fmt_u e.2))].

Definition file_text (e : string * Z * Z) : string :=
  "{" +:+ Q "name" +:+ ":" +:+ cat (sb_string (Some e.1.1)) +:+ "," +:+ Q "size" +:+ ":" +:+ fmt_u e.1.2
  +:+ "," +:+ Q "lastModified" +:+ ":" +:+ fmt_u e.2 +:+ "}".

Lemma file_text_renders e : is_u32 e.1.2 ∧ is_u64 e.2 → renders (file_text e) (file_object e).
Proof.
  intros [Hs Hm]. destruct e as [[n s] m]. cbn [fst snd] in *.
  pose proof (object_renders
    [("name", cat (sb_string (Some n))); ("size", fmt_u s); ("lastModified", fmt_u m)]
    [("name", JString n); ("size", JNumber (fmt_u s)); ("lastModified", JNumber (fmt_u m))]) as Ho.
  cbn [fmap list_fmap fst snd String.concat] in Ho. unfold file_text, file_object. cbn [fst snd].
  rewrite ?string_app_assoc in *. apply Ho; [done|].
  constructor; [split; [done|]; split; [done|]; apply sb_string_renders|].
  constructor; [split; [done|]; split; [done|]; apply renders_number, json_number_u; lia|].
  constructor; [split; [done|]; split; [done|]; by apply renders_number, json_number_u|constructor].
Qed.

Lemma concat_snoc items x :
  String.concat "," (items ++ [x]) = String.concat "," items +:+ (if decide (items = []) then "" else ",") +:+ x.
Proof.
  induction items as [|y items IH]; [done|]. destruct items as [|z items].
  - cbn [app String.concat]. by rewrite decide_False.
  - cbn [app] in *. rewrite !concat_cons, IH, !decide_False by done. by rewrite !string_app_assoc.
Qed.

(** The collector holds the entries so far. *)
Definition collected (target : string) (dc : DirCollector) (entries : list (string * Z * Z)) : Prop :=
  cat (dc_sb dc) = cat (begin "file-directory" target true) +:+ "," +:+ Q "value" +:+ ":[" +:+
    String.concat "," (file_text <$> entries) ∧
  Forall short (dc_sb dc) ∧ dc_count dc = Z.of_nat (length entries) ∧
  dc_last dc = match list.last entries with Some e => snprintf_s 256 e.1.1 | None => "" end.

Lemma dir_handler_collects target dc entries e :
  collected target dc entries → collected target (dir_handler dc e) (entries ++ [e]).
Proof.
  intros (Hsb & Hsh & Hc & _). destruct e as [[name size] modified]. unfold collected, dir_handler.
  cbn [dc_sb dc_count dc_last]. rewrite last_snoc, length_app.
  split; [|split; [shorts|split; [simpl; lia|done]]].
  rewrite !cat_app, Hsb, fmap_app. cbn [fmap list_fmap]. rewrite concat_snoc, Hc.
  rewrite !cat_one. unfold file_text at 3. cbn [fst snd].
  assert (cat (if Z.of_nat (length entries) =? 0 then [] else [","])
          = if decide (file_text <$> entries = []) then "" else ",") as ->.
  { by destruct entries. }
  by rewrite !string_app_assoc.
Qed.

Lemma fold_dir_handler_collects target dc entries new :
  collected target dc entries → collected target (fold_left dir_handler new dc) (entries ++ new).
Proof.
  revert dc entries. induction new as [|e new IH]; intros dc entries Hd; [by rewrite app_nil_r|].
  cbn [fold_left]. rewrite (cons_middle e entries new), app_assoc. by apply IH, dir_handler_collects.
Qed.

Definition start_dir (target : string) : DirCollector :=
  mk_dir (begin "file-directory" target true ++ ["," +:+ Q "value" +:+ ":["]) 0 "".

Lemma start_dir_collects target : collected target (start_dir target) [].
Proof.
  split; [|split; [unfold start_dir; cbn [dc_sb]; shorts|done]].
  cbn [start_dir dc_sb]. rewrite cat_app, cat_one. cbn [fmap list_fmap String.concat].
  by rewrite string_app_nil_r.
Qed.

Lemma directory_line target dc entries :
  collected target dc entries → Forall (λ e, is_u32 e.1.2 ∧ is_u64 e.2) entries →
  line_ok (line_text (dc_sb dc ++ ["]}"])).
Proof.
  intros (Hsb & Hsh & _) Hok.
  eapply json_line_intro with
    (more := ["," +:+ Q "value" +:+ ":"] ++ ["[" +:+ String.concat "," (file_text <$> entries) +:+ "]"]);
    [shorts| |].
  - rewrite !cat_app, Hsb, !cat_one. by rewrite !string_app_assoc.
  - apply extra_member; [done|]. rewrite cat_one. apply (renders_array _ (file_object <$> entries)).
    clear Hsb. induction Hok as [|e entries He _ IH]; [constructor|]. rewrite !fmap_cons.
    constructor; [by apply file_text_renders|done].
Qed.

Definition dir_invariant (target : string) (dc : DirCollector) : Prop :=
  ∃ entries, collected target dc entries ∧ Forall (λ e, is_u32 e.1.2 ∧ is_u64 e.2) entries.

(** What a request answers, when it is taken apart. *)
Lemma request_runs {B} (e : MmsClientE B) c t b c' :
  runs (request depth e c) t (b, c') → Forall answer_ok t → answer_ok (called e b).
Proof.
  intros Hr Ht. unfold request in Hr.
  apply runs_bind in Hr as (t3 & t4 & rs & -> & Hc & H1). apply runs_call in Hc as ->.
  apply runs_bind in H1 as (t5 & t6 & c'' & -> & Hh & H1).
  apply runs_bind in H1 as (t7 & t8 & b' & -> & Hc & H1). apply runs_call in Hc as ->.
  destruct H1 as [-> [= -> ->]].
  apply Forall_app in Ht as [_ Ht]. apply Forall_app in Ht as [_ Ht]. by inversion Ht.
Qed.

Lemma good_directory_turn spec s : good (directory_turn depth spec s).
Proof.
  unfold directory_turn. destruct (_ && _); [|apply good_done]. apply good_request_bind.
  intros [[entries more] err] c' _. cbv zeta. destruct (_ && _); apply good_done.
Qed.

Lemma directory_turn_keeps target spec s t x :
  dir_invariant target (ds_dc s) → runs (directory_turn depth spec s) t x → Forall answer_ok t →
  match x with inl s => dir_invariant target (ds_dc s) | inr r => dir_invariant target r.1.2 end.
Proof.
  intros (entries & Hcol & Hok) Hr Ht. unfold directory_turn in Hr.
  destruct (_ && _); [|destruct Hr as [_ ->]; by exists entries].
  apply runs_bind in Hr as (t1 & t2 & [[[new more] err] c'] & -> & H1 & H2).
  apply Forall_app in Ht as [Ht1 _]. apply request_runs in H1; [|done].
  assert (dir_invariant target (fold_left dir_handler new (ds_dc s))) as Hinv.
  { exists (entries ++ new). split; [by apply fold_dir_handler_collects|]. by apply Forall_app. }
  cbv zeta in H2. destruct (_ && _); destruct H2 as [_ ->]; done.
Qed.

Lemma good_file_directory spec target c : good (file_directory depth spec target c).
Proof.
  unfold file_directory. fold (start_dir target). cbv zeta.
  apply (good_repeat_bind _ _ _ (λ s, dir_invariant target (ds_dc s)) (λ r, dir_invariant target r.1.2)).
  - exists []. split; [apply start_dir_collects|constructor].
  - intros s. apply good_directory_turn.
  - intros s t x Hs. by apply directory_turn_keeps.
  - intros [[err dc] c'] (entries & Hcol & Hok). cbn [fst snd] in *.
    destruct (mms_ok err); cbn [negb]; (apply good_bind; [|intros; apply good_done]);
      [|apply good_emit_fail]. by eapply good_line, directory_line.
Qed.
(** *** Reading a file *)

Lemma hex_renders data : renders (cat (sb_hex data)) (JString (cat (fmt_02x <$> data))).
Proof.
  unfold sb_hex. apply quoted_renders, list.Forall_fmap, list.Forall_true. intros b. by apply plain_fmt_fixed.
Qed.

Lemma file_read_renders target size modified data :
  is_u32 size → is_u64 modified →
  Forall short (file_read_line target size modified data) ∧
  renders (cat (file_read_line target size modified data))
    (JObject [("operation", JString "file-read"); ("target", JString target); ("ok", JBool true);
      ("value", JObject
        ([("size", JNumber (fmt_u size)); ("lastModified", JNumber (fmt_u modified));
          ("length", JNumber (fmt_u (u64 (Z.of_nat (length data)))));
          ("fnv1a", JString (fmt_fixed 16 16 (fnv1a64 data)))] ++
         if u64 (Z.of_nat (length data)) <=? 256
         then [("data", JString (cat (fmt_02x <$> data)))] else []))]).
Proof.
  intros Hs Hm. unfold file_read_line. cbv zeta. pose proof (u64_range (Z.of_nat (length data))) as Hl.
  revert Hl. generalize (u64 (Z.of_nat (length data))). intros len Hl.
  set (kvs := [("size", fmt_u size); ("lastModified", fmt_u modified); ("length", fmt_u len);
               ("fnv1a", Q (fmt_fixed 16 16 (fnv1a64 data)))] ++
              (if len <=? 256 then [("data", cat (sb_hex data))] else [])).
  split; [shorts|]. apply (object_line_renders "file-read" target true "value" kvs); [done|done| |].
  - unfold kvs. apply Forall2_app.
    + do 3 (constructor; [split; [done|]; split; [done|]; apply renders_number, json_number_u; lia|]).
      constructor; [split; [done|]; split; [done|]; by apply quoted_plain, plain_fmt_fixed|constructor].
    + destruct (len <=? 256); [|constructor].
      constructor; [split; [done|]; split; [done|]; apply hex_renders|constructor].
  - unfold kvs. destruct (len <=? 256); rewrite ?app_nil_r; rewrite !cat_app, !cat_one;
      cbn [fmap list_fmap app fst snd String.concat];
      rewrite ?cat_cons; change (cat []) with ""; rewrite ?string_app_nil_l, ?string_app_nil_r, ?string_app_assoc;
      reflexivity.
Qed.

Lemma file_read_json target size modified data :
  is_u32 size → is_u64 modified → line_ok (line_text (file_read_line target size modified data)).
Proof.
  intros Hs Hm. destruct (file_read_renders target size modified data Hs Hm). by eapply json_line_renders.
Qed.

Lemma good_read_turn frsm s : good (read_turn depth frsm s).
Proof.
  unfold read_turn. destruct (_ && _); [|apply good_done]. apply good_request_bind.
  intros [[blocks more] err] c' _. apply good_done.
Qed.

Lemma good_file_read name position target c : good (file_read depth name position target c).
Proof.
  apply good_request_bind. intros [[[frsm size] modified] err] c' [Hs Hm].
  destruct (mms_ok err); cbn [negb]; [|apply good_bind; [apply good_emit_fail|intros; apply good_done]].
  apply good_bind; [apply good_repeat, good_read_turn|]. intros [[err' data] c2].
  apply good_bind; [|intros; apply good_done_or_fail].
  destruct (mms_ok err'); cbn [negb]; [|apply good_emit_fail]. by apply good_line, file_read_json.
Qed.

(** *** Journals *)

Lemma journal_variable_renders jv :
  printable depth jv.2 →
  ∃ texts t, journal_variable depth jv = Some texts ∧ Forall short texts ∧ renders (cat texts) t.
Proof.
  intros Hp. destruct (value_renders depth jv.2 Hp) as (texts & t & He & _ & Hr).
  pose proof (shorts_value depth _ texts He).
  unfold journal_variable. rewrite He. eexists _, _. split; [done|]. split; [shorts|].
  pose proof (object_renders [("tag", cat (sb_string jv.1)); ("value", cat texts)]
                [("tag", JString (default "" jv.1)); ("value", t)]) as Ho.
  cbn [fmap list_fmap fst snd String.concat] in Ho. rewrite !cat_app, !cat_one. rewrite !string_app_assoc in *.
  apply Ho; [done|]. constructor; [split; [done|]; split; [done|]; apply sb_string_renders|].
  by repeat constructor.
Qed.

Lemma mapM_texts {A} (f : A → option (list string)) (P : A → Prop) l :
  (∀ x, P x → ∃ ts t, f x = Some ts ∧ Forall short ts ∧ renders (cat ts) t) → Forall P l →
  ∃ tss trees, mapM f l = Some tss ∧ Forall (Forall short) tss ∧ Forall2 renders (cat <$> tss) trees.
Proof.
  intros Hf Hl. induction Hl as [|x l Hx _ (tss & trees & Hm & Hs & Hr)].
  { exists [], []. split; [done|]. split; constructor. }
  destruct (Hf x Hx) as (ts & t & He & Hts & Ht). exists (ts :: tss), (t :: trees).
  cbn [mapM]. rewrite He. simpl. rewrite Hm. split; [done|]. split; by constructor.
Qed.

Lemma journal_entry_renders je :
  journal_ok je →
  ∃ texts t, journal_entry_texts depth je = Some texts ∧ Forall short texts ∧ renders (cat texts) t.
Proof.
  intros (Hi & Ht & Hv). destruct (value_renders depth _ Hi) as (id & ti & Hid & _ & Hri).
  destruct (value_renders depth _ Ht) as (time & tt & Htime & _ & Hrt).
  destruct (mapM_texts (journal_variable depth) (λ jv, printable depth jv.2) (journalVariables je)
              journal_variable_renders Hv) as (vars & trees & Hvars & Hsv & Hrv).
  pose proof (shorts_value depth _ id Hid). pose proof (shorts_value depth _ time Htime).
  unfold journal_entry_texts. rewrite Hid, Htime, Hvars. eexists _, _. split; [done|].
  split; [shorts; by apply shorts_with_commas|].
  pose proof (object_renders
    [("id", cat id); ("time", cat time); ("variables", "[" +:+ String.concat "," (cat <$> vars) +:+ "]")]
    [("id", ti); ("time", tt); ("variables", JArray trees)]) as Ho.
  cbn [fmap list_fmap fst snd] in Ho. rewrite !concat_cons in Ho. cbn [String.concat] in Ho.
  rewrite !cat_app, cat_with_commas, !cat_one. rewrite !string_app_assoc in *. apply Ho; [done|].
  do 2 (constructor; [by split|]). constructor; [|constructor].
  split; [done|]. split; [done|]. by apply renders_array.
Qed.

Lemma good_emit_journal target err entries more :
  option_Forall (Forall journal_ok) entries → good (emit_journal depth target err entries more).
Proof.
  intros Hok. unfold emit_journal. destruct entries as [entries|]; [|apply good_emit_fail].
  destruct (mms_ok err); [|apply good_emit_fail]. cbn [negb].
  assert (Forall journal_ok entries) as Hj by by inversion Hok.
  destruct (mapM_texts (journal_entry_texts depth) journal_ok entries journal_entry_renders Hj)
    as (texts & trees & Ht & Hs & Hr).
  unfold rendered. rewrite Ht. apply good_line.
  eapply (json_line_object _ _ _ "value"
    [("moreFollows", if more then "true" else "false");
     ("entries", "[" +:+ String.concat "," (cat <$> texts) +:+ "]")]
    [("moreFollows", JBool more); ("entries", JArray trees)]);
    [shorts; by apply shorts_with_commas|done|done| |].
  - constructor; [split; [done|]; split; [done|apply renders_bool]|].
    constructor; [|constructor]. split; [done|]. split; [done|]. by apply renders_array.
  - rewrite !cat_app, cat_with_commas, !cat_one. rewrite !fmap_cons. cbn [fst snd fmap list_fmap].
    rewrite concat_cons. cbn [String.concat]. by rewrite !string_app_assoc.
Qed.

Lemma good_journal_with e target c :
  (∀ r, answer_ok (called e r) → option_Forall (Forall journal_ok) r.1.1) →
  good (journal_with depth e target c).
Proof.
  intros He. apply good_request_bind. intros [[entries more] err] c' Ha.
  apply good_bind; [|intros; apply good_done]. apply good_emit_journal. by apply (He (entries, more, err)).
Qed.

(** *** Waiting *)

Lemma good_wait_turn before s : good (wait_turn depth before s).
Proof.
  unfold wait_turn. destruct (_ && _); [|apply good_done]. apply good_request_bind. intros u n _. cbv zeta.
  destruct (negb _); [apply good_done|]. destruct (_ <? _); apply good_done.
Qed.

(** ** The sequence *)

Create HintDb services.
#[local] Hint Resolve good_name_list good_status good_type_spec good_write_with good_done_or_fail
  good_nvl_directory good_write_nvl good_delete_nvl good_file_directory good_file_read good_wait_turn : services.

Ltac good_steps :=
  repeat lazymatch goal with
  | |- good (pbind _ _) => apply good_bind; [|intros ?]
  | |- good (read_with _ _ _ _ _) => apply good_read_with; intros ? Ha; exact Ha
  | |- good (journal_with _ _ _ _) => apply good_journal_with; intros ? Ha; exact Ha
  | |- good (repeat_ _ _) => apply good_repeat; intros ?
  | |- good (let _ := _ in _) => cbv zeta
  | |- good _ => solve [auto with services nocore]
  end.

Lemma good_services c : good (run_services depth c).
Proof.
  unfold run_services, svc_status, svc_name_lists, svc_type_specs, svc_alternate_access,
    svc_named_variable_lists, svc_nvl_domain, svc_nvl_vmd, svc_nvl_association, svc_files, svc_journals,
    svc_reports.
  good_steps.
Qed.
End spec.
