(* ===== verification/ServicesRunSpec.v ===== *)
(** * Runs of mms_client_services.c

    The service sequence against servers: what it writes is JSON; the wait for
    reports is bounded; a directory that the server sends in pages is listed
    whole, and a file that it sends in blocks is read to its end. *)

From Stdlib Require Import ZArith Lia String Ascii SpecFloat.
From stdpp Require Import base tactics list strings numbers option.
From S2P Require Import Prelude CText CFloat JsonLines JsonText JsonRender Mms RefMms.
From S2P Require Import Interact MmsClientCommon ServiceText ServiceTextSpec RefMmsClient MmsServices ServiceLines.
From S2P Require Import MmsServicesSpec.

Local Open Scope Z_scope.

(** ** The lines *)

Section runs.
Context `{MmsApi} `{!MmsLaws}.
Context (depth : nat).

(** C8: Every line of the service sequence of the MMS client, information
    reports included, that is shorter than 2^59 characters is a JSON object with
    the members operation, target and ok first, whatever texts, types, files and
    journals the server sends: the values it sends are nested within the bound
    of the model and their floats are finite, and its integers are of their
    width. *)
Theorem services_lines_json c t c' :
  runs (run_services depth c) t c' → Forall (answer_ok depth) t →
  Forall (λ l, slen l < 2 ^ 59 → json_line l) (lines t).
Proof. apply good_services. Qed.

(** ** The wait for reports *)

(** The sleeps of a run. *)
Definition sleeps (t : list (event MmsClientE)) : Z :=
  Z.of_nat (length (omap (λ ev,
    match ev with
    | called e _ => match e with usleep _ => Some tt | _ => None end
    | printed _ => None
    end) t)).

Lemma sleeps_app t1 t2 : sleeps (t1 ++ t2) = sleeps t1 + sleeps t2.
Proof. unfold sleeps. rewrite omap_app, length_app. lia. Qed.

(** The lines of a run, as a change of the count of reports. *)
Definition counted (t : list (event MmsClientE)) : Z := Z.of_nat (length (lines t)).

Lemma counted_app t1 t2 : counted (t1 ++ t2) = counted t1 + counted t2.
Proof. unfold counted. rewrite lines_app, length_app. lia. Qed.

Lemma emit_value_runs op target v t u :
  runs (emit_value depth op target v) t u → counted t = 1 ∧ sleeps t = 0.
Proof.
  unfold emit_value, rendered. destruct (sb_value depth v); intros Hr; [|done].
  by apply runs_line in Hr as ->.
Qed.

Lemma i32_range z : is_i32 (i32 z).
Proof. unfold i32. lia. Qed.

Lemma i32_add a b : i32 (i32 a + b) = i32 (a + b).
Proof. unfold i32. lia. Qed.

Lemma handle_reports_runs rs c t c' :
  is_i32 c → runs (handle_reports depth rs c) t c' → c' = i32 (c + counted t) ∧ sleeps t = 0.
Proof.
  revert c t. induction rs as [|r rs IH]; intros c t Hc Hr.
  - destruct Hr as [-> ->]. unfold counted. simpl. rewrite i32_id by lia. split; [lia|done].
  - cbn [handle_reports] in Hr. apply runs_bind in Hr as (t1 & t2 & u & -> & H1 & H2).
    apply emit_value_runs in H1 as [H1 Hs1]. apply IH in H2 as [-> Hs2]; [|apply i32_range].
    rewrite i32_add, counted_app, sleeps_app, H1, Hs1, Hs2. split; [f_equal; lia|done].
Qed.

Lemma sleep_runs us c t b c' :
  is_i32 c → runs (request depth (usleep us) c) t (b, c') → c' = i32 (c + counted t) ∧ sleeps t = 1.
Proof.
  intros Hc Hr. unfold request in Hr.
  apply runs_bind in Hr as (t3 & t4 & rs & -> & H1 & Hr). apply runs_call in H1 as ->.
  apply runs_bind in Hr as (t5 & t6 & c'' & -> & Hh & Hr).
  apply runs_bind in Hr as (t7 & t8 & b' & -> & H2 & Hr). apply runs_call in H2 as ->.
  destruct Hr as [-> [= -> ->]]. apply handle_reports_runs in Hh as [-> Hs]; [|done].
  rewrite !sleeps_app, !counted_app, Hs. unfold counted at 2 4 5. simpl. split; [f_equal; lia|done].
Qed.

(** Quiet: a stretch of sleeps in which the count did not change, turn by turn. *)
Inductive unchanged : Z → list (event MmsClientE) → Prop :=
| unchanged_nil : unchanged 0 []
| unchanged_turn n t t1 :
    unchanged n t → sleeps t1 = 1 → counted t1 mod 4294967296 = 0 → unchanged (n + 1) (t ++ t1).

(** What the wait keeps: [t] is the run so far. *)
Definition waiting (before : Z) (t : list (event MmsClientE)) (s : wait_state) : Prop :=
  is_i32 (wait_count s) ∧ last_count s = wait_count s ∧ wait_count s = i32 (before + counted t) ∧
  waited s = 50 * sleeps t ∧ sleeps t <= 60 ∧
  ∃ n t1 t2, t = t1 ++ t2 ∧ unchanged n t2 ∧ quiet s = 50 * n ∧ n <= 6 ∧ (0 < n → before < wait_count s).

(** How the wait ends. *)
Definition waited_out (before : Z) (t : list (event MmsClientE)) (c : Z) : Prop :=
  c = i32 (before + counted t) ∧ sleeps t <= 60 ∧
  (sleeps t = 60 ∨ before < c ∧ ∃ t1 t2, t = t1 ++ t2 ∧ unchanged 6 t2).

Lemma unchanged_sleeps n t : unchanged n t → 0 <= n ∧ sleeps t = n.
Proof. intros Hu. induction Hu as [|n t t1 _ [Hn IH] H1 _]; [done|]. rewrite sleeps_app. lia. Qed.

Lemma wait_turn_exit before t0 s t c :
  waiting before t0 s → runs (wait_turn depth before s) t (inr c) → t = [] ∧ waited_out before t0 c.
Proof.
  intros (Hi & _ & Hc & Hw & Hle & n & t1 & t2 & -> & Hu & Hq & Hn6 & Hn) Hr. unfold wait_turn in Hr.
  destruct ((waited s <? 3000) && (quiet s <? 300)) eqn:Hb.
  { apply runs_bind in Hr as (t3 & t4 & [u m] & -> & _ & Hr).
    clear Hb. cbv beta iota in Hr. destruct (negb _); [by destruct Hr|]. destruct (_ <? _); by destruct Hr. }
  destruct Hr as [-> [= ->]]. do 3 (split; [done|]).
  apply andb_false_iff in Hb as [Hb%Z.ltb_ge|Hb%Z.ltb_ge]; [left; lia|].
  assert (n = 6) as -> by lia. right. split; [apply Hn; lia|]. by exists t1, t2.
Qed.

Lemma wait_turn_again before t0 s t s' :
  waiting before t0 s → runs (wait_turn depth before s) t (inl s') → waiting before (t0 ++ t) s'.
Proof.
  intros (Hi & Hl & Hc & Hw & Hle & n & t1 & t2 & -> & Hu & Hq & Hn6 & Hn) Hr. unfold wait_turn in Hr.
  destruct ((waited s <? 3000) && (quiet s <? 300)) eqn:Hb; [|by destruct Hr as [_ ?]].
  apply andb_true_iff in Hb as [Hb1%Z.ltb_lt Hb2%Z.ltb_lt].
  apply runs_bind in Hr as (t3 & t4 & [u m] & -> & Hs & Hr). apply sleep_runs in Hs as [Hm Hs1]; [|done].
  assert (is_i32 m) as Him by (rewrite Hm; apply i32_range).
  assert (m = i32 (before + counted ((t1 ++ t2) ++ t3))) as Hm'.
  { rewrite Hm, Hc, i32_add, (counted_app (t1 ++ t2) t3). f_equal. lia. }
  assert (sleeps ((t1 ++ t2) ++ t3) = sleeps (t1 ++ t2) + 1) as Hss by (rewrite (sleeps_app (t1 ++ t2) t3); lia).
  cbv beta iota in Hr. assert (t4 = []) as ->. { destruct (negb _); [by destruct Hr as [-> _]|]. destruct (_ <? _); by destruct Hr as [-> _]. }
  rewrite app_nil_r.
  destruct (m =? last_count s) eqn:Hml; cbn [negb] in Hr.
  - apply Z.eqb_eq in Hml. assert (m = wait_count s) as Hmc by lia.
    destruct (before <? m) eqn:Hbm; destruct Hr as [_ [= ->]]; unfold waiting; cbn [waited last_count quiet wait_count].
    + apply Z.ltb_lt in Hbm. do 5 (split; [done || lia|]). exists (n + 1), t1, (t2 ++ t3).
      rewrite app_assoc. split; [done|]. split; [|lia]. constructor; [done|done|].
      rewrite Hmc in Hm. revert Hm Hi. unfold i32. lia.
    + apply Z.ltb_ge in Hbm. do 5 (split; [done || lia|]). exists 0, ((t1 ++ t2) ++ t3), [].
      rewrite app_nil_r. split; [done|]. split; [constructor|]. pose proof (unchanged_sleeps _ _ Hu). lia.
  - destruct Hr as [_ [= ->]]. unfold waiting; cbn [waited last_count quiet wait_count].
    do 5 (split; [done || lia|]). exists 0, ((t1 ++ t2) ++ t3), []. rewrite app_nil_r.
    split; [done|]. split; [constructor|]. lia.
Qed.

Lemma start_waiting before : is_i32 before → waiting before [] (mk_wait 0 before 0 before).
Proof.
  intros Hb. unfold waiting, counted. cbn. rewrite Z.add_0_r, i32_id by done. do 5 (split; [done|]).
  exists 0, [], []. repeat split; [constructor|lia|lia].
Qed.

Lemma wait_loop before t0 s t c :
  loop_runs (λ s t x, runs (wait_turn depth before s) t x) s t c → waiting before t0 s →
  waited_out before (t0 ++ t) c.
Proof.
  intros Hl. revert t0. induction Hl as [s t c Hs|s t1 s' t2 c Hs _ IH]; intros t0 Hw.
  - destruct (wait_turn_exit before t0 s t c Hw Hs) as [-> Ho]. by rewrite app_nil_r.
  - rewrite app_assoc. by eapply IH, wait_turn_again.
Qed.

(** *** It ends *)

Context {St : Type} (h : ∀ B, MmsClientE B → St → B * St).

(** A server whose reports can be written. *)
Definition reports_printable : Prop :=
  ∀ st, Forall (λ r, printable depth (ir_value r)) (h _ reports st).1.

Lemma emit_value_ends fuel st op target v :
  printable depth v → ends fuel h st (emit_value depth op target v) tt st.
Proof.
  intros Hv. destruct (value_renders depth v Hv) as (texts & t & He & _).
  unfold emit_value, rendered. rewrite He. apply ends_line.
Qed.

Lemma handle_reports_ends fuel st rs c :
  Forall (λ r, printable depth (ir_value r)) rs → ∃ c', ends fuel h st (handle_reports depth rs c) c' st.
Proof.
  intros Hrs. revert c. induction Hrs as [|r rs Hr _ IH]; intros c; [eexists; apply ends_done|].
  destruct (IH (i32 (c + 1))) as [c' Hc]. exists c'. eapply ends_bind; [|exact Hc]. by apply emit_value_ends.
Qed.

Lemma request_ends fuel st {B} (e : MmsClientE B) c :
  reports_printable → ∃ b c' st', ends fuel h st (request depth e c) (b, c') st'.
Proof.
  intros Hp. pose proof (Hp st) as Hrs. destruct (h _ reports st) as [rs st1] eqn:Hr.
  destruct (handle_reports_ends fuel st1 rs c Hrs) as [c' Hc].
  destruct (h _ e st1) as [b st2] eqn:He. exists b, c', st2.
  eapply ends_bind; [by apply ends_call|]. eapply ends_bind; [exact Hc|].
  eapply ends_bind; [by apply ends_call|]. apply ends_done.
Qed.

Lemma wait_turn_ends fuel st before s :
  reports_printable →
  ∃ x st', ends fuel h st (wait_turn depth before s) x st' ∧
    match x with inl s' => waited s < 3000 ∧ waited s' = waited s + 50 | inr _ => True end.
Proof.
  intros Hp. unfold wait_turn. destruct ((waited s <? 3000) && _) eqn:Hb.
  - apply andb_true_iff in Hb as [Hb%Z.ltb_lt _].
    destruct (request_ends fuel st (usleep (50 * 1000)) (wait_count s) Hp) as (b & c' & st' & He).
    destruct (negb (c' =? last_count s)) eqn:Hn; [|destruct (before <? c') eqn:Hc];
      eexists (inl _), st'; 
      (split; [eapply ends_bind; [exact He|]; cbv beta iota zeta; rewrite Hn, ?Hc; apply ends_done|done]).
  - eexists (inr _), st. split; [apply ends_done|done].
Qed.

Lemma wait_loop_ends n st before s :
  reports_printable → 3000 - waited s <= 50 * Z.of_nat n →
  ∃ t r st', turns (λ s st, exec 61 h st (wait_turn depth before s)) (S n) s st = Some (t, r, st').
Proof.
  intros Hp. revert st s. induction n as [|n IH]; intros st s Hn;
    destruct (wait_turn_ends 61 st before s Hp) as ([s'|r] & st1 & [t Ht] & Hs).
  - lia.
  - simpl. rewrite Ht. eauto.
  - destruct (IH st1 s' ltac:(lia)) as (t' & r & st2 & Ht'). revert Ht'. cbn [turns]. intros Ht'.
    rewrite Ht, Ht'. eauto.
  - cbn [turns]. rewrite Ht. eauto.
Qed.

(** C28: The wait for information reports ends, within 60 sleeps of 50 ms, and
    before them only when reports have come and the last six sleeps brought
    none. *)
Theorem report_wait_ends before st :
  reports_printable → is_i32 before →
  ∃ t c st', exec 61 h st (repeat_ (wait_turn depth before) (mk_wait 0 before 0 before)) = Some (t, c, st') ∧
    waited_out before t c.
Proof.
  intros Hp Hb. destruct (wait_loop_ends 60 st before (mk_wait 0 before 0 before) Hp ltac:(simpl; lia))
    as (t & c & st' & Ht).
  assert (exec 61 h st (repeat_ (wait_turn depth before) (mk_wait 0 before 0 before)) = Some (t, c, st')) as He.
  { cbn [exec repeat_]. rewrite Ht. by rewrite app_nil_r. }
  exists t, c, st'. split; [done|]. apply exec_runs, runs_repeat in He.
  apply (wait_loop before [] _ _ _ He). by apply start_waiting.
Qed.

End runs.

(** ** A server that reports twice *)

Definition service_run := exec 70 ref_server reporting_start (run_services (H := ref_mms) 4 0).

(** The files and the reports it has left are in range. *)
Definition ref_files_ok (st : ref_files) : Prop :=
  Forall (Forall (λ e, is_u32 e.1.2 ∧ is_u64 e.2)) (rf_pages st) ∧
  Forall (Forall (λ r, printable 4 (@ir_value ref_mms r))) (rf_reports st).

Lemma ref_report_printable : printable 4 (@ir_value ref_mms ref_report).
Proof. repeat constructor. Qed.

Lemma ref_structure_printable : printable 4 (Some ref_structure : option (@MmsValue ref_mms)).
Proof. repeat constructor. Qed.

Lemma ref_start_ok rs :
  Forall (Forall (λ r, printable 4 (@ir_value ref_mms r))) rs → ref_files_ok (mk_ref_files ref_pages ref_blocks rs).
Proof. intros Hrs. split; [|done]. repeat constructor; simpl; lia. Qed.

Lemma ref_server_ok B (e : @MmsClientE ref_mms B) st :
  ref_files_ok st → answer_ok 4 (called e (ref_server B e st).1) ∧ ref_files_ok (ref_server B e st).2.
Proof.
  intros Hst. pose proof Hst as [Hp Hr]. pose proof ref_structure_printable as Hs.
  destruct e; try (split; [exact I|exact Hst]); try (split; [exact Hs|exact Hst]); cbn [ref_server].
  - split; [split; simpl; lia|exact Hst].
  - split; [|exact Hst]. repeat constructor; simpl; lia.
  - destruct (rf_pages st) as [|p ps]; [split; [constructor|exact Hst]|].
    inversion Hp; subst. by split; [|split].
  - split; [split; simpl; lia|exact Hst].
  - destruct (rf_blocks st) as [|b bs]; split; try done; by split.
  - split; [|exact Hst]. repeat constructor; simpl; lia.
  - split; [|exact Hst]. repeat constructor; simpl; lia.
  - destruct (rf_reports st) as [|r rs]; [split; [constructor|exact Hst]|].
    inversion Hr; subst. by split; [|split].
Qed.

Lemma service_run_eq : ∃ st, service_run = Some (trace_of service_run, 2, st).
Proof.
  assert (match service_run with Some (_, c, _) => c =? 2 | None => false end = true) as Hc
    by (vm_compute; reflexivity).
  revert Hc. destruct service_run as [[[t c] st]|]; [|done]. intros ->%Z.eqb_eq. by exists st.
Qed.

Lemma service_run_ok : Forall (answer_ok 4) (trace_of service_run).
Proof.
  destruct service_run_eq as [st Hst]. unfold service_run in Hst at 1.
  eapply (exec_events _ _ ref_files_ok); [done|apply ref_server_ok| |exact Hst].
  apply ref_start_ok. repeat constructor; apply ref_report_printable.
Qed.

Lemma services_lines_json_witness :
  Forall (λ l, slen l < 2 ^ 59 → json_line l) (lines (trace_of service_run)).
Proof.
  apply (services_lines_json (H := ref_mms) 4 0 (trace_of service_run) 2); [|apply service_run_ok].
  destruct service_run_eq as [st Hst]. by eapply exec_runs.
Defined.

(** The reports of two of the sleeps end the wait after 300 ms of quiet. *)
Definition reporting_server (B : Type) (e : @MmsClientE ref_mms B) (st : ref_files) : B * ref_files :=
  match e in MmsClientE B return B * ref_files with
  | reports => (match rf_reports st with [] => [] | _ :: _ => [ref_report] end,
                mk_ref_files (rf_pages st) (rf_blocks st) (tail (rf_reports st)))
  | e => ref_server _ e st
  end.

Lemma report_wait_ends_witness :
  ∃ t c st', exec 61 reporting_server reporting_start
      (repeat_ (wait_turn (H := ref_mms) 4 0) (mk_wait 0 0 0 0)) = Some (t, c, st') ∧ waited_out 0 t c.
Proof.
  apply (report_wait_ends (H := ref_mms) 4 reporting_server 0 reporting_start); [|lia].
  intros st. unfold reporting_server. cbn [fst]. destruct (rf_reports st); [constructor|].
  constructor; [apply ref_report_printable|constructor].
Defined.
