(* ===== verification/FileServicesSpec.v ===== *)
(** * Files

    A directory the server sends in pages is listed whole, and a file it sends
    in blocks is read to its end, whatever the number of pages and blocks. *)

From Stdlib Require Import ZArith Lia String Ascii SpecFloat.
From stdpp Require Import base tactics list strings numbers option.
From S2P Require Import Prelude CText CFloat JsonLines JsonText JsonRender JsonNumbers Mms RefMms.
From S2P Require Import Interact MmsClientCommon ServiceText ServiceTextSpec RefMmsClient MmsServices.
From S2P Require Import ServiceLines MmsServicesSpec.

Local Open Scope Z_scope.

Section files.
Context `{MmsApi}.
Context (depth : nat) {St : Type} (h : ∀ B, MmsClientE B → St → B * St).

(** A server that sends no information reports meanwhile. *)
Context (Hquiet : ∀ st, h _ reports st = ([], st)).

Lemma request_gives fuel st {B} (e : MmsClientE B) c b st' :
  h _ e st = (b, st') → gives fuel h st (request depth e c) [] (b, c) st'.
Proof.
  intros He. unfold request. eapply gives_call_bind; [apply Hquiet|].
  eapply (gives_bind _ _ _ _ _ _ _ _ _ [] []); [apply gives_done|].
  eapply gives_call_bind; [exact He|]. apply gives_done.
Qed.

(** ** Directories *)

(** The name the next page is asked after. *)
Definition last_name (after : string) (es : list (string * Z * Z)) : string :=
  match list.last es with Some e => snprintf_s 256 e.1.1 | None => after end.

(** The pages the server sends to a client that asks on after the last name;
    a page that brings no new last name is the last one asked for. *)
Inductive pages (spec : option string) : St → string → list (list (string * Z * Z)) → St → Prop :=
| last_page st after es st' :
    h _ (MmsConnection_getFileDirectory spec (if String.eqb after "" then None else Some after)) st
    = ((es, false, MMS_ERROR_NONE), st') →
    pages spec st after [es] st'
| stuck_page st after es st' :
    h _ (MmsConnection_getFileDirectory spec (if String.eqb after "" then None else Some after)) st
    = ((es, true, MMS_ERROR_NONE), st') →
    last_name after es = after → pages spec st after [es] st'
| next_page st after es st1 rest st' :
    h _ (MmsConnection_getFileDirectory spec (if String.eqb after "" then None else Some after)) st
    = ((es, true, MMS_ERROR_NONE), st1) →
    last_name after es ≠ after → pages spec st1 (last_name after es) rest st' →
    pages spec st after (es :: rest) st'.

Lemma collected_last target dc entries es :
  collected target dc entries → collected target (fold_left dir_handler es dc) (entries ++ es) ∧
  dc_last (fold_left dir_handler es dc) = last_name (dc_last dc) es.
Proof.
  intros Hc. pose proof (fold_dir_handler_collects target dc entries es Hc) as Hc'. split; [done|].
  destruct Hc' as (_ & _ & _ & ->). destruct Hc as (_ & _ & _ & ->). unfold last_name.
  rewrite last_app. by destruct (list.last es).
Qed.

Lemma snprintf_again n s : snprintf_s n (snprintf_s n s) = snprintf_s n s.
Proof.
  unfold snprintf_s. generalize (n - 1)%nat. intros m. revert m.
  induction s as [|x s IH]; intros [|m]; simpl; [done..|]. by rewrite IH.
Qed.

Lemma last_name_short after es : snprintf_s 256 after = after → snprintf_s 256 (last_name after es) = last_name after es.
Proof. unfold last_name. destruct (list.last es); [|done]. intros _. apply snprintf_again. Qed.

Lemma directory_loop spec target fuel n st after ps st' dc entries c :
  pages spec st after ps st' → (length ps < n)%nat → snprintf_s 256 after = after →
  dc_last dc = after → collected target dc entries →
  ∃ dc', collected target dc' (entries ++ concat ps) ∧
    loop_gives fuel h (directory_turn depth spec) n st (mk_dir_state true MMS_ERROR_NONE after dc c) []
      (MMS_ERROR_NONE, dc', c) st'.
Proof.
  intros Hp. revert n dc entries. induction Hp as [st after es st' He|st after es st' He Hl|st after es st1 rest st' He Hl Hp IH];
    intros n dc entries Hn Hs Hdc Hcol; (destruct n as [|n]; [simpl in Hn; lia|]);
    destruct (collected_last target dc entries es Hcol) as [Hcol' Hlast].
  - exists (fold_left dir_handler es dc). cbn [concat]. rewrite app_nil_r. split; [done|].
    destruct n as [|n]; [simpl in Hn; lia|].
    eapply (loop_gives_again _ _ _ _ _ _ _ _ _ [] []).
    + unfold directory_turn. cbn [ds_more ds_err ds_after ds_dc ds_count mms_ok andb].
      eapply (gives_bind _ _ _ _ _ _ _ _ _ [] []); [by apply request_gives|].
      cbv beta iota zeta. cbn [andb]. apply gives_done.
    + apply loop_gives_exit, gives_done.
  - exists (fold_left dir_handler es dc). cbn [concat]. rewrite app_nil_r. split; [done|].
    apply loop_gives_exit.
    unfold directory_turn. cbn [ds_more ds_err ds_after ds_dc ds_count mms_ok andb].
    eapply (gives_bind _ _ _ _ _ _ _ _ _ [] []); [by apply request_gives|].
    cbv beta iota zeta. rewrite Hlast, Hdc, Hl, String.eqb_refl. apply gives_done.
  - destruct (IH n (fold_left dir_handler es dc) (entries ++ es)) as (dc' & Hc' & Hg);
      [simpl in Hn; lia|by apply last_name_short|by rewrite Hlast, Hdc|done|].
    exists dc'. cbn [concat]. rewrite app_assoc. split; [done|].
    eapply (loop_gives_again _ _ _ _ _ _ _ _ _ [] []); [|exact Hg].
    unfold directory_turn. cbn [ds_more ds_err ds_after ds_dc ds_count mms_ok andb].
    eapply (gives_bind _ _ _ _ _ _ _ _ _ [] []); [by apply request_gives|].
    cbv beta iota zeta. rewrite Hlast, Hdc, last_name_short by done.
    assert (String.eqb after (last_name after es) = false) as -> by (apply String.eqb_neq; congruence).
    apply gives_done.
Qed.

(** The line of a directory with these entries. *)
Definition directory_text (target : string) (entries : list (string * Z * Z)) : string :=
  cat (begin "file-directory" target true) +:+ "," +:+ Q "value" +:+ ":[" +:+
  String.concat "," (file_text <$> entries) +:+ "]}" +:+ newline.

(** C10: A directory that the server sends in any number of pages is listed: the
    loop that continues after the last name ends, and its one line has the
    entries of all the pages in order, when their texts together are shorter
    than 2^59 characters. *)
Theorem directory_listed_whole spec target fuel st ps st' c :
  pages spec st "" ps st' → (length ps < fuel)%nat →
  slen (directory_text target (concat ps)) < 2 ^ 59 →
  gives fuel h st (file_directory depth spec target c) [directory_text target (concat ps)] c st'.
Proof.
  intros Hp Hn Hlen. destruct (directory_loop spec target fuel fuel st "" ps st' (start_dir target) [] c Hp Hn)
    as (dc' & (Hcat & Hsh & _) & Hg); [done|done|apply start_dir_collects|].
  unfold file_directory. fold (start_dir target). cbv zeta.
  eapply (gives_bind _ _ _ _ _ _ _ _ _ [] [_]); [by apply gives_repeat|].
  cbv beta iota. cbn [mms_ok negb].
  assert (directory_text target (concat ps) = line_text (dc_sb dc' ++ ["]}"])) as ->.
  { assert (directory_text target (concat ps) = cat (dc_sb dc' ++ ["]}"]) +:+ newline) as Hd.
    { unfold directory_text. rewrite cat_app, Hcat, cat_one. cbn [app]. by rewrite !string_app_assoc. }
    rewrite Hd in Hlen |- *. rewrite slen_app in Hlen. pose proof (slen_nonneg newline).
    unfold line_text. rewrite sb_prints_all; [done|shorts|unfold TEXT_MAX; lia]. }
  eapply (gives_line_bind _ _ _ _ _ []), gives_done.
Qed.

(** ** Reading *)

(** The blocks the server sends, some with each answer, until no more follow. *)
Inductive blocks (frsm : Z) : St → list (list (list Z)) → St → Prop :=
| last_blocks st bs st' :
    h _ (MmsConnection_fileRead frsm) st = ((bs, false, MMS_ERROR_NONE), st') →
    blocks frsm st [bs] st'
| more_blocks st bs st1 rest st' :
    h _ (MmsConnection_fileRead frsm) st = ((bs, true, MMS_ERROR_NONE), st1) →
    blocks frsm st1 rest st' → blocks frsm st (bs :: rest) st'.

Lemma fold_blocks bs data : fold_left file_read_handler bs data = data ++ concat bs.
Proof.
  revert data. induction bs as [|b bs IH]; intros data; [by rewrite app_nil_r|].
  cbn [fold_left concat]. rewrite IH. unfold file_read_handler. by rewrite app_assoc.
Qed.

Lemma read_loop frsm fuel n st bss st' data c :
  blocks frsm st bss st' → (length bss < n)%nat →
  loop_gives fuel h (read_turn depth frsm) n st (mk_read_state true MMS_ERROR_NONE data c) []
    (MMS_ERROR_NONE, data ++ concat (concat bss), c) st'.
Proof.
  intros Hb. revert n data. induction Hb as [st bs st' He|st bs st1 rest st' He Hb IH]; intros n data Hn;
    (destruct n as [|n]; [simpl in Hn; lia|]).
  - destruct n as [|n]; [simpl in Hn; lia|]. cbn [concat]. rewrite app_nil_r, <- (fold_blocks bs data).
    eapply (loop_gives_again _ _ _ _ _ _ _ _ _ [] []).
    + unfold read_turn. cbn [rs_more rs_err rs_data rs_count mms_ok andb].
      eapply (gives_bind _ _ _ _ _ _ _ _ _ [] []); [by apply request_gives|].
      cbv beta iota. apply gives_done.
    + apply loop_gives_exit, gives_done.
  - cbn [concat]. rewrite concat_app, app_assoc, <- (fold_blocks bs data).
    eapply (loop_gives_again _ _ _ _ _ _ _ _ _ [] []).
    + unfold read_turn. cbn [rs_more rs_err rs_data rs_count mms_ok andb].
      eapply (gives_bind _ _ _ _ _ _ _ _ _ [] []); [by apply request_gives|].
      cbv beta iota. apply gives_done.
    + apply IH. simpl in Hn. lia.
Qed.

(** The 64-bit FNV-1a hash: from the offset basis on, each octet is combined by
    exclusive or and the result multiplied by the prime 2^40 + 2^8 + 0xb3. *)
Inductive fnv1a : list Z → Z → Prop :=
| fnv1a_basis : fnv1a [] 0xcbf29ce484222325
| fnv1a_octet data d h :
    fnv1a data h → fnv1a (data ++ [d]) ((Z.lxor h d * (2 ^ 40 + 2 ^ 8 + 0xb3)) mod 2 ^ 64).

Lemma fnv1a64_hash data : fnv1a data (fnv1a64 data).
Proof.
  induction data as [|d data IH] using rev_ind; [constructor|].
  unfold fnv1a64 in *. rewrite fold_left_app. exact (fnv1a_octet data d _ IH).
Qed.

(** What a read file is in JSON: its octets are there when there are at most
    256 of them. *)
Definition read_tree (target : string) (size modified hash : Z) (data : list Z) : jtree :=
  JObject [("operation", JString "file-read"); ("target", JString target); ("ok", JBool true);
    ("value", JObject
      ([("size", JNumber (fmt_u size)); ("lastModified", JNumber (fmt_u modified));
        ("length", JNumber (fmt_u (Z.of_nat (length data))));
        ("fnv1a", JString (fmt_fixed 16 16 hash))] ++
       if Z.of_nat (length data) <=? 256 then [("data", JString (cat (fmt_02x <$> data)))] else []))].

Definition close_tree (target : string) (err : MmsError) : jtree :=
  JObject ([("operation", JString "file-close"); ("target", JString target); ("ok", JBool (mms_ok err))] ++
    if mms_ok err then [] else [("error", JString (mms_err_name err))]).

(** A line that a JSON reader reads so. *)
Definition reads_as (l : string) (t : jtree) : Prop :=
  ∃ text, l = text +:+ newline ∧ parses text t ∧ ∀ t', parses text t' → t' = t.

Definition close_texts (target : string) (err : MmsError) : list string :=
  if mms_ok err then begin "file-close" target true ++ ["}"]
  else begin "file-close" target false ++ ["," +:+ Q "error" +:+ ":"] ++
       sb_string (Some (mms_err_name err)) ++ ["}"].

Lemma file_read_lines name position target fuel st frsm size modified st1 bss st2 err st3 c :
  h _ (MmsConnection_fileOpen name position) st = ((frsm, size, modified, MMS_ERROR_NONE), st1) →
  blocks frsm st1 bss st2 → (length bss < fuel)%nat →
  h _ (MmsConnection_fileClose frsm) st2 = (err, st3) →
  gives fuel h st (file_read depth name position target c)
    [line_text (file_read_line target size modified (concat (concat bss)));
     line_text (close_texts target err)] c st3.
Proof.
  intros Ho Hb Hn Hc. unfold file_read.
  eapply (gives_bind _ _ _ _ _ _ _ _ _ [] [_; _]); [by apply request_gives|]. cbv beta iota. cbn [mms_ok negb].
  eapply (gives_bind _ _ _ _ _ _ _ _ _ [] [_; _]); [by eapply gives_repeat, read_loop|].
  cbv beta iota. cbn [mms_ok negb app]. eapply gives_line_bind. unfold done_or_fail.
  eapply (gives_bind _ _ _ _ _ _ _ _ _ [] [_]); [by apply request_gives|]. cbv beta iota.
  unfold close_texts. destruct (mms_ok err); cbn [negb]; eapply (gives_line_bind _ _ _ _ _ []), gives_done.
Qed.

(** Short texts, not too many of them, are printed whole. *)
Lemma slen_cat_shorts l : Forall short l → slen (cat l) <= 4096 * Z.of_nat (length l).
Proof.
  intros Hl. induction Hl as [|x l Hx _ IH]; [done|]. rewrite slen_cat_cons. unfold short in Hx.
  cbn [length]. lia.
Qed.

Lemma line_reads texts t :
  Forall short texts → Z.of_nat (length texts) < 2 ^ 46 → renders (cat texts) t → reads_as (line_text texts) t.
Proof.
  intros Hs Hn Hr. pose proof (slen_cat_shorts texts Hs). unfold line_text.
  rewrite sb_prints_all by (done || unfold TEXT_MAX; lia). exists (cat texts). split; [done|].
  apply renders_parses in Hr. split; [done|]. intros t' Ht'. by eapply parses_unique.
Qed.

Lemma length_sb_string s : Z.of_nat (length (sb_string (Some s))) = slen s + 2.
Proof.
  unfold sb_string, slen. rewrite !length_app, length_fmap. cbn [default length id from_option]; unfold id.
  assert (length (String.list_ascii_of_string s) = String.length s) as -> by (induction s as [|x s IH]; simpl; congruence).
  lia.
Qed.

Lemma length_begin op target ok : Z.of_nat (length (begin op target ok)) = slen op + slen target + 7.
Proof.
  unfold begin. rewrite !length_app, !Nat2Z.inj_add, !length_sb_string. simpl. lia.
Qed.

Lemma file_read_line_reads target size modified data :
  is_u32 size → is_u64 modified → slen target < 2 ^ 40 → Z.of_nat (length data) < 2 ^ 64 →
  reads_as (line_text (file_read_line target size modified data))
    (read_tree target size modified (fnv1a64 data) data).
Proof.
  intros Hs Hm Ht Hd. destruct (file_read_renders target size modified data Hs Hm) as [Hsh Hr].
  rewrite u64_id in Hr by lia. apply line_reads; [done| |exact Hr].
  unfold file_read_line. rewrite u64_id by lia. rewrite !length_app, !Nat2Z.inj_add, length_begin.
  change (slen "file-read") with 9. destruct (Z.leb_spec (Z.of_nat (length data)) 256).
  - unfold sb_hex. rewrite !length_app, length_fmap. simpl. lia.
  - simpl. lia.
Qed.

Lemma mms_err_name_short e : slen (mms_err_name e) <= 64.
Proof. by destruct e. Qed.

Lemma close_line_reads target err :
  slen target < 2 ^ 40 → reads_as (line_text (close_texts target err)) (close_tree target err).
Proof.
  intros Ht. pose proof (mms_err_name_short err) as He. unfold close_texts, close_tree.
  destruct (mms_ok err); (apply line_reads; [shorts|rewrite !length_app, !Nat2Z.inj_add, length_begin;
    rewrite ?length_sb_string; change (slen "file-close") with 10; simpl; lia|]).
  - rewrite cat_app. apply (line_renders "file-close" target true [] []), extra_nil.
  - rewrite cat_app, app_assoc, cat_app.
    apply (line_renders "file-close" target false _ [("error", JString (mms_err_name err))]).
    apply extra_member; [done|apply sb_string_renders].
Qed.

(** C14: A file of fewer than 2^64 octets that the server sends in any number of
    answers and blocks, and that is asked for under a name of fewer than 2^40
    characters, is read to its end and closed: the first line reads as a JSON
    object with the size and the time the server gave, the number of octets of
    all the blocks, their 64-bit FNV-1a hash and, when they are at most 256, the
    octets themselves in hexadecimal; the second one says how the close went. *)
Theorem file_read_whole name position target fuel st frsm size modified st1 bss st2 err st3 c :
  h _ (MmsConnection_fileOpen name position) st = ((frsm, size, modified, MMS_ERROR_NONE), st1) →
  is_u32 size → is_u64 modified → slen target < 2 ^ 40 →
  blocks frsm st1 bss st2 → (length bss < fuel)%nat →
  Z.of_nat (length (concat (concat bss))) < 2 ^ 64 →
  h _ (MmsConnection_fileClose frsm) st2 = (err, st3) →
  ∃ read close hash,
    gives fuel h st (file_read depth name position target c) [read; close] c st3 ∧
    fnv1a (concat (concat bss)) hash ∧
    reads_as read (read_tree target size modified hash (concat (concat bss))) ∧
    reads_as close (close_tree target err).
Proof.
  intros Ho Hs Hm Ht Hb Hn Hd Hc.
  exists (line_text (file_read_line target size modified (concat (concat bss)))),
    (line_text (close_texts target err)), (fnv1a64 (concat (concat bss))).
  split; [by eapply file_read_lines|]. split; [apply fnv1a64_hash|].
  split; [by apply file_read_line_reads|by apply close_line_reads].
Qed.

End files.

(** ** The server that sends two pages and three answers of blocks *)

Definition quiet_server (B : Type) (e : @MmsClientE ref_mms B) (st : ref_files) : B * ref_files :=
  match e in MmsClientE B return B * ref_files with
  | reports => ([], st)
  | e => ref_server _ e st
  end.

Lemma directory_listed_whole_witness :
  gives (E := @MmsClientE ref_mms) 3 quiet_server ref_start (file_directory (H := ref_mms) 4 None "" 0)
    [directory_text "" (concat ref_pages)] 0 (mk_ref_files [] ref_blocks []).
Proof.
  apply (directory_listed_whole (H := ref_mms) 4 quiet_server (λ st, eq_refl) None "" 3); [|simpl; lia|by vm_compute].
  eapply next_page; [reflexivity|done|]. eapply last_page. reflexivity.
Defined.

Lemma file_read_whole_witness :
  ∃ read close hash,
    gives (E := @MmsClientE ref_mms) 4 quiet_server ref_start
      (file_read (H := ref_mms) 4 "REC01.CFG" 0 "REC01.CFG" 0) [read; close] 0 (mk_ref_files ref_pages [] []) ∧
    fnv1a [1; 2; 3; 250; 255] hash ∧
    reads_as read (read_tree "REC01.CFG" 5 1704067200000 hash [1; 2; 3; 250; 255]) ∧
    reads_as close (close_tree "REC01.CFG" MMS_ERROR_NONE).
Proof.
  apply (file_read_whole (H := ref_mms) 4 quiet_server (λ st, eq_refl) "REC01.CFG" 0 "REC01.CFG" 4
           ref_start 1 5 1704067200000 ref_start ref_blocks (mk_ref_files ref_pages [] []) MMS_ERROR_NONE);
    [reflexivity|lia|lia|by vm_compute| |simpl; lia|by vm_compute|reflexivity].
  do 2 (eapply more_blocks; [reflexivity|]). eapply last_blocks. reflexivity.
Defined.
