(* ===== verification/MmsClient.v ===== *)
(** * mms_client.c

    The MMS client: the sequence of identification, name lists, reads, writes
    and named variable lists on the first association, with the services of
    MmsServices.v; a second association that reads once; and the two that are
    aborted. *)

From Stdlib Require Import ZArith Lia String Ascii SpecFloat.
From stdpp Require Import base tactics list strings numbers option.
From S2P Require Import Prelude CText CFloat JsonLines Mms Interact MmsClientCommon ServiceText MmsServices.

Local Open Scope Z_scope.
Local Open Scope prog_scope.

(** ** Lines *)

Definition ok_text (op : string) : string :=
  "{" +:+ member "operation" op +:+ "," +:+ Q "ok" +:+ ":true}" +:+ newline.

Definition ok_target_text (op target : string) : string :=
  "{" +:+ member "operation" op +:+ "," +:+ member "target" target +:+ "," +:+ Q "ok" +:+ ":true}"
  +:+ newline.

Definition fail_text (op error : string) : string :=
  "{" +:+ member "operation" op +:+ "," +:+ Q "ok" +:+ ":false," +:+ member "error" error +:+ "}"
  +:+ newline.

Definition fail_target_text (op target error : string) : string :=
  "{" +:+ member "operation" op +:+ "," +:+ member "target" target +:+ "," +:+ Q "ok" +:+ ":false," +:+
  member "error" error +:+ "}" +:+ newline.

(** A read line; [value] is the text of the value. *)
Definition read_text (target value : string) : string :=
  "{" +:+ member "operation" "read" +:+ "," +:+ member "target" target +:+ "," +:+ Q "ok" +:+ ":true," +:+
  Q "value" +:+ ":" +:+ value +:+ "}" +:+ newline.

(** The characters [jl_read_string] escapes. *)
Definition jl_char (c : ascii) : string :=
  if Ascii.eqb c "034" then String "\" dquote
  else if Ascii.eqb c "\" then "\\" else String c "".

Definition jl_string_text (s : string) : string :=
  String.concat "" (jl_char <$> String.list_ascii_of_string s).

Definition comma_list (l : list string) : string := "[" +:+ String.concat "," l +:+ "]".

(** ** Errors and types *)

Definition spec_type_str (spec : var_spec) : string :=
  match var_type spec with
  | MMS_BOOLEAN => "boolean"
  | MMS_INTEGER => "integer"
  | MMS_UNSIGNED => "unsigned"
  | MMS_FLOAT => "float32"
  | MMS_VISIBLE_STRING => "visible-string"
  | MMS_OCTET_STRING => "octet-string"
  | MMS_BIT_STRING => "bit-string"
  | MMS_UTC_TIME => "utc-time"
  | MMS_ARRAY => "array"
  | MMS_STRUCTURE => "structure"
  | _ => "unknown"
  end.

Section client.
Context `{MmsApi}.
Context (depth : nat).

Abbreviation program := (prog MmsClientE).

Definition jl_ok (op : string) : program unit := line (ok_text op).
Definition jl_ok_target (op target : string) : program unit := line (ok_target_text op target).
Definition jl_fail (op error : string) : program unit := line (fail_text op error).
Definition jl_fail_target (op target error : string) : program unit :=
  line (fail_target_text op target error).

Definition jl_identify (id : server_identity) : program unit :=
  line ("{" +:+ member "operation" "identify" +:+ "," +:+ Q "ok" +:+ ":true," +:+ Q "value" +:+ ":{" +:+
        member "vendor" (default "" (vendorName id)) +:+ "," +:+
        member "model" (default "" (modelName id)) +:+ "," +:+
        member "revision" (default "" (revision id)) +:+ "}}" +:+ newline).

Definition jl_namelist (target : string) (names : list string) : program unit :=
  line ("{" +:+ member "operation" "get-name-list" +:+
        (if String.eqb target "" then "" else "," +:+ member "target" target) +:+ "," +:+
        Q "ok" +:+ ":true," +:+ Q "names" +:+ ":" +:+ comma_list (Q <$> names) +:+ "}" +:+ newline).

(** The values of the reads, type by type. *)
Definition bool_value (v : MmsValue) : string := if MmsValue_getBoolean v then "true" else "false".
Definition int_value (v : MmsValue) : string := fmt_d (MmsValue_toInt32 v).
Definition uint_value (v : MmsValue) : string := fmt_u (MmsValue_toUint32 v).
Definition float_value (v : MmsValue) : string := fmt_g 6 (to_double (MmsValue_toFloat v)).
Definition string_value (v : MmsValue) : string := Q (jl_string_text (MmsValue_toString v)).
Definition bytes_value (v : MmsValue) : string :=
  Q (String.concat "" (fmt_02x <$> MmsValue_getOctetStringBuffer v)).
Definition bits_value (v : MmsValue) : string :=
  Q (String.concat "" ((λ b : bool, if b then "1" else "0") <$> mms_bits v)).
Definition utctime_value (v : MmsValue) : string := fmt_u (MmsValue_getUtcTimeInMs v).
Definition array_ints_value (v : MmsValue) : string :=
  comma_list ((λ e : option MmsValue,
                 fmt_d (match e with Some e => MmsValue_toInt32 e | None => 0 end)) <$> mms_elements v).
Definition structure_value (v : MmsValue) : string :=
  let e0 := MmsValue_getElement v 0 in
  let e1 := MmsValue_getElement v 1 in
  "[" +:+ (if match e0 with Some e => MmsValue_getBoolean e | None => false end
           then "true" else "false") +:+ "," +:+
  fmt_d (match e1 with Some e => MmsValue_toInt32 e | None => 0 end) +:+ "]".

Definition jl_read (target value : string) : program unit := line (read_text target value).

Definition jl_var_access_attr (target type_name : string) : program unit :=
  line ("{" +:+ member "operation" "get-var-access-attr" +:+ "," +:+ member "target" target +:+ "," +:+
        Q "ok" +:+ ":true," +:+ member "type" type_name +:+ "}" +:+ newline).

Definition element_text (v : option MmsValue) : string :=
  match v with
  | None => "null"
  | Some v =>
      match MmsValue_getType v with
      | MMS_BOOLEAN => bool_value v
      | MMS_INTEGER => int_value v
      | MMS_UNSIGNED => uint_value v
      | MMS_FLOAT => float_value v
      | _ => "null"
      end
  end.

Definition jl_values_array (op target : string) (arr : MmsValue) : program unit :=
  line ("{" +:+ member "operation" op +:+ "," +:+ member "target" target +:+ "," +:+ Q "ok" +:+ ":true," +:+
        Q "values" +:+ ":" +:+ comma_list (element_text <$> mms_elements arr) +:+ "}" +:+ newline).

(** ** Results *)

(** The value that was read; [None] after a failure line. *)
Definition check_read_val (val : option MmsValue) (mmsErr : MmsError) (target : string)
  : program (option MmsValue) :=
  match val with
  | Some v =>
      if negb (mms_ok mmsErr) then jl_fail_target "read" target (mms_error_str mmsErr);; done_ None
      else if bool_decide (MmsValue_getType v = MMS_DATA_ACCESS_ERROR) then
        jl_fail_target "read" target (dae_name (MmsValue_getDataAccessError v));; done_ None
      else done_ (Some v)
  | None => jl_fail_target "read" target (mms_error_str mmsErr);; done_ None
  end.

Definition emit_write_result (target : string) (mmsErr : MmsError) (dae : Z) : program unit :=
  if (dae =? DATA_ACCESS_ERROR_SUCCESS) && mms_ok mmsErr then jl_ok_target "write" target
  else if (0 <=? dae) && (dae <=? 11) then jl_fail_target "write" target (dae_name dae)
  else jl_fail_target "write" target (mms_error_str mmsErr).

(** ** Requests

    The handler of reports is installed on the full connection only. *)
Definition ask_server {B} (full : bool) (e : MmsClientE B) (c : Z) : program (B * Z) :=
  if full then request depth e c
  else let! b := call e in done_ (b, c).

(** A read whose value is shown whatever its type. *)
Definition read_show (full : bool) (item : string) (show : MmsValue → string) (c : Z) : program Z :=
  let! r := ask_server full (MmsConnection_readVariable "interop" item) c in
  let '((val, mmsError), c) := r in
  let target := "interop/" +:+ item in
  match val with
  | Some v =>
      if negb (mms_ok mmsError) then jl_fail_target "read" target (mms_error_str mmsError);; done_ c
      else jl_read target (show v);; done_ c
  | None => jl_fail_target "read" target (mms_error_str mmsError);; done_ c
  end.

(** A read that is meant to fail. *)
Definition read_negative (domain item : string) (c : Z) : program Z :=
  let! r := ask_server true (MmsConnection_readVariable domain item) c in
  let '((val, mmsError), c) := r in
  let target := domain +:+ "/" +:+ item in
  let! v := check_read_val val mmsError target in
  match v with
  | None => done_ c
  | Some _ => jl_ok_target "read" target;; done_ c
  end.

Definition write_item (item target : string) (wval : MmsValue) (c : Z) : program Z :=
  let! r := ask_server true (MmsConnection_writeVariable "interop" item wval) c in
  let '((dae, mmsError), c) := r in
  emit_write_result target mmsError dae;; done_ c.

(** A name list; [target] is empty for the domains. *)
Definition namelist_item (e : MmsClientE (option (list string) * MmsError)) (target : string) (c : Z)
  : program Z :=
  let! r := ask_server true e c in
  let '((l, mmsError), c) := r in
  match l with
  | Some names =>
      if mms_ok mmsError then jl_namelist target names;; done_ c
      else if String.eqb target "" then jl_fail "get-name-list" (mms_error_str mmsError);; done_ c
      else jl_fail_target "get-name-list" target (mms_error_str mmsError);; done_ c
  | None =>
      if String.eqb target "" then jl_fail "get-name-list" (mms_error_str mmsError);; done_ c
      else jl_fail_target "get-name-list" target (mms_error_str mmsError);; done_ c
  end.

(** *** Phase 1A *)

Definition identify (c : Z) : program Z :=
  let! r := ask_server true MmsConnection_identify c in
  let '((id, mmsError), c) := r in
  match id with
  | Some id =>
      if mms_ok mmsError then jl_identify id;; done_ c
      else jl_fail "identify" (mms_error_str mmsError);; done_ c
  | None => jl_fail "identify" (mms_error_str mmsError);; done_ c
  end.

Definition phase_1a_names (c : Z) : program Z :=
  let! c := identify c in
  let! c := namelist_item MmsConnection_getDomainNames "" c in
  namelist_item (MmsConnection_getDomainVariableNames "interop") "interop" c.

Definition phase_1a_values (c : Z) : program Z :=
  let! c := read_show true "integer" int_value c in
  let! c := read_show true "float32" float_value c in
  let! c := write_item "float32" "interop/float32" (MmsValue_newFloat (to_float (strtod "99.0"))) c in
  let! c := read_show true "float32" float_value c in
  let wval := MmsValue_setOctetString (MmsValue_newOctetString 2 2) [222; 173] in
  let! c := write_item "octet-string" "interop/octet-string" wval c in
  read_show true "boolean" bool_value c.

(** *** Phase 1C, steps 5 to 7 *)

Definition phase_1c_types (c : Z) : program Z :=
  let! c := read_show true "unsigned" uint_value c in
  let! c := read_show true "visible-string" string_value c in
  let! c := write_item "visible-string" "interop/visible-string" (MmsValue_newVisibleString "hello") c in
  let! c := read_show true "visible-string" string_value c in
  let! c := read_show true "octet-string" bytes_value c in
  let! c := read_show true "bit-string" bits_value c in
  let! c := read_show true "utc-time" utctime_value c in
  let! c := read_show true "array" array_ints_value c in
  read_show true "structure" structure_value c.

Definition access_attributes (c : Z) : program Z :=
  let! r := ask_server true (MmsConnection_getVariableAccessAttributes "interop" "boolean") c in
  let '((spec, mmsError), c) := r in
  match spec with
  | Some spec =>
      if mms_ok mmsError then jl_var_access_attr "interop/boolean" (spec_type_str spec);; done_ c
      else jl_fail_target "get-var-access-attr" "interop/boolean" (mms_error_str mmsError);; done_ c
  | None => jl_fail_target "get-var-access-attr" "interop/boolean" (mms_error_str mmsError);; done_ c
  end.

(** A read of several values. *)
Definition values_item (op target : string) (e : MmsClientE (option MmsValue * MmsError)) (c : Z)
  : program Z :=
  let! r := ask_server true e c in
  let '((result, mmsError), c) := r in
  match result with
  | Some result =>
      if mms_ok mmsError then jl_values_array op target result;; done_ c
      else jl_fail_target op target (mms_error_str mmsError);; done_ c
  | None => jl_fail_target op target (mms_error_str mmsError);; done_ c
  end.

(** A result of a write that is a failure. *)
Definition failed_result (rv : option MmsValue) : bool :=
  match rv with
  | Some v =>
      bool_decide (MmsValue_getType v = MMS_DATA_ACCESS_ERROR)
      && negb (MmsValue_getDataAccessError v =? DATA_ACCESS_ERROR_SUCCESS)
  | None => false
  end.

Definition write_multiple (c : Z) : program Z :=
  let vals := [MmsValue_newBoolean false; MmsValue_newIntegerFromInt32 0] in
  let! r := ask_server true
              (MmsConnection_writeMultipleVariables "interop" ["boolean"; "integer"] vals) c in
  let '((accessResults, mmsError), c) := r in
  if negb (mms_ok mmsError) then
    jl_fail_target "write-multiple" "interop" (mms_error_str mmsError);; done_ c
  else
    let ok := negb (existsb failed_result (default [] accessResults)) in
    (if ok then jl_ok_target "write-multiple" "interop"
     else jl_fail_target "write-multiple" "interop" "partial-failure");;
    done_ c.

Definition define_nvl (c : Z) : program Z :=
  let! r := ask_server true
              (MmsConnection_defineNamedVariableList (Some "interop") "testlist" member_specs) c in
  let '(mmsError, c) := r in
  (if negb (mms_ok mmsError)
   then jl_fail_target "define-nvl" "interop/testlist" (mms_error_str mmsError)
   else jl_ok_target "define-nvl" "interop/testlist");;
  done_ c.

Definition delete_testlist (c : Z) : program Z :=
  let! r := ask_server true (MmsConnection_deleteNamedVariableList (Some "interop") "testlist") c in
  let '((deleted, mmsError), c) := r in
  (if negb (mms_ok mmsError) || negb deleted
   then jl_fail_target "delete-nvl" "interop/testlist" (mms_error_str mmsError)
   else jl_ok_target "delete-nvl" "interop/testlist");;
  done_ c.

Definition phase_1c_model (c : Z) : program Z :=
  let! c := access_attributes c in
  let! c := values_item "read-multiple" "interop"
              (MmsConnection_readMultipleVariables "interop" ["boolean"; "integer"]) c in
  let! c := write_multiple c in
  let! c := define_nvl c in
  let! c := values_item "read-nvl" "interop/testlist"
              (MmsConnection_readNamedVariableListValues (Some "interop") "testlist" false) c in
  delete_testlist c.

Definition phase_1c_negative (c : Z) : program Z :=
  let! c := read_negative "unknown-domain" "boolean" c in
  let! c := read_negative "interop" "nonexistent" c in
  write_item "integer" "interop/integer-wrong-type" (MmsValue_newBoolean true) c.

(** *** Connections *)

(** What the full connection does after the first read. *)
Definition full_phases (c : Z) : program Z :=
  let! c := phase_1a_values c in
  let! c := phase_1c_types c in
  let! c := phase_1c_model c in
  let! c := phase_1c_negative c in
  run_services depth c.

Definition conclude (full : bool) (c : Z) : program Z :=
  let! r := ask_server full MmsConnection_conclude c in
  let '(mmsError, c) := r in
  (if negb (mms_ok mmsError) then jl_fail "conclude" (mms_error_str mmsError) else jl_ok "conclude");;
  call MmsConnection_destroy;;
  done_ 0.

(** [g_report_count] is 0 when the first connection is made, and no other
    connection reads it. *)
Definition run_sequence (host : string) (port : Z) (full : bool) : program Z :=
  let! conn := call MmsConnection_create in
  if negb conn then done_ 1
  else
    (if full then services_install_report_handler else done_ tt);;
    let! r := ask_server full (MmsConnection_connect host port) 0 in
    let '(mmsError, c) := r in
    if negb (mms_ok mmsError) then
      call MmsConnection_destroy;;
      done_ 2
    else
      let! c := (if full then phase_1a_names c else done_ c) in
      let! c := read_show full "boolean" bool_value c in
      let! c := (if full then full_phases c else done_ c) in
      conclude full c.

(** [for (int i = 1; i < argc - 1; i++)]: each argument with the next. *)
Fixpoint scan_pairs (args : list string) (host : string) (port : Z) : string * Z :=
  match args with
  | a :: ((b :: _) as rest) =>
      scan_pairs rest (if String.eqb a "--host" then b else host)
        (if String.eqb a "--port" then atoi b else port)
  | _ => (host, port)
  end.

(** The program; the result is the exit code. *)
Definition main (version : option string) (argv : list string) : program Z :=
  match jl_handle_meta_flags version argv "libiec61850" with
  | Some l => line l;; done_ 0
  | None =>
      let '(host, port) := scan_pairs (tail argv) "127.0.0.1" 1102 in
      let! rc := run_sequence host port true in
      if negb (rc =? 0) then done_ rc
      else
        let! rc := run_sequence host port false in
        if negb (rc =? 0) then done_ rc
        else
          run_abort depth host port;;
          run_server_abort host port;;
          done_ 0
  end.

End client.
