(* ===== verification/MmsClientSpec.v ===== *)
(** * Theorems about mms_client.c

    The program uses its connections in order: a request is made only on a
    connection that is established, and every connection it makes it also
    destroys; its exit code says how far it came. *)

From Stdlib Require Import ZArith Lia String Ascii SpecFloat.
From stdpp Require Import base tactics list strings numbers option.
From S2P Require Import Prelude CText CFloat JsonLines JsonText Mms RefMms.
From S2P Require Import Interact MmsClientCommon ServiceText RefMmsClient MmsServices MmsServicesSpec.
From S2P Require Import MmsClient.

Local Open Scope Z_scope.
Local Open Scope prog_scope.

Section spec.
Context `{MmsApi}.
Context (depth : nat).

(** ** Connections *)

(** No connection, one that was made, one that is established, one that was
    closed by the client. *)
Inductive phase := Absent | Created | Connected | Closed.

#[global] Instance phase_eq_dec : EqDecision phase.
Proof. solve_decision. Defined.

(** What an event makes of a connection; [None] when the library does not
    allow the call. *)
Definition phase_step (p : phase) (ev : event MmsClientE) : option phase :=
  match ev with
  | printed _ => Some p
  | called e b =>
      match e in MmsClientE B return B → option phase with
      | MmsConnection_create => λ made, if decide (p = Absent) then Some (if made then Created else Absent) else None
      | MmsConnection_setInformationReportHandler
      | MmsConnection_setRequestTimeout _
      | MmsConnection_setConnectionLostHandler => λ _, if decide (p = Created) then Some Created else None
      | MmsConnection_connect _ _ => λ err,
          if decide (p = Created) then Some (if mms_ok err then Connected else Created) else None
      | MmsConnection_conclude | MmsConnection_abort => λ _, if decide (p = Connected) then Some Closed else None
      | MmsConnection_destroy => λ _, if decide (p = Absent) then None else Some Absent
      | usleep _ | connection_lost => λ _, Some p
      | reports => λ _, if decide (p = Absent) then None else Some p
      | _ => λ _, if decide (p = Connected) then Some Connected else None
      end b
  end.

Definition phases (p : phase) (t : list (event MmsClientE)) : option phase :=
  fold_left (λ p ev, q ← p; phase_step q ev) t (Some p).

Lemma phases_none t : fold_left (λ p ev, q ← p; phase_step q ev) t None = None.
Proof. by induction t. Qed.

Lemma phases_app p t1 t2 : phases p (t1 ++ t2) = p' ← phases p t1; phases p' t2.
Proof.
  unfold phases. rewrite fold_left_app. destruct (fold_left _ t1 _); [done|]. apply phases_none.
Qed.

(** The results of the calls of connect. *)
Definition connects (t : list (event MmsClientE)) : list MmsError :=
  omap (λ ev,
    match ev with
    | called e b =>
        match e in MmsClientE B return B → option MmsError with
        | MmsConnection_connect _ _ => λ err, Some err
        | _ => λ _, None
        end b
    | printed _ => None
    end) t.

Lemma connects_app t1 t2 : connects (t1 ++ t2) = connects t1 ++ connects t2.
Proof. apply omap_app. Qed.

(** ** Requests *)

(** Events that neither make nor end a connection. *)
Definition within (ev : event MmsClientE) : Prop :=
  phase_step Connected ev = Some Connected ∧ connects [ev] = [].

Lemma within_phases t : Forall within t → phases Connected t = Some Connected ∧ connects t = [].
Proof.
  intros Ht. induction Ht as [|ev t [Hp Hc] _ [IHp IHc]]; [done|].
  change (ev :: t) with ([ev] ++ t). rewrite phases_app, connects_app, Hc, IHc.
  change (phases Connected [ev]) with (phase_step Connected ev). by rewrite Hp.
Qed.

Abbreviation inside := (all_runs within).

Lemma inside_line l : inside (line l).
Proof. by apply all_runs_line. Qed.

Lemma inside_undefined {A} : inside (undefined (A := A)).
Proof. by intros t a []. Qed.

Lemma inside_rendered {T} (x : option T) k : (∀ y, inside (k y)) → inside (rendered x k).
Proof. intros Hk. destruct x; [apply Hk|apply inside_undefined]. Qed.

Lemma inside_report r : inside (report_handler depth r).
Proof. apply inside_rendered. intros. apply inside_line. Qed.

Lemma inside_reports rs c : inside (handle_reports depth rs c).
Proof.
  revert c. induction rs as [|r rs IH]; intros c; [apply all_runs_done|].
  apply all_runs_bind; [apply inside_report|intros _; apply IH].
Qed.

Lemma inside_request {B} (e : MmsClientE B) c :
  (∀ b, within (called e b)) → inside (request depth e c).
Proof.
  intros He. apply all_runs_bind; [by apply all_runs_call|]. intros rs.
  apply all_runs_bind; [apply inside_reports|]. intros c'.
  apply all_runs_bind; [by apply all_runs_call|]. intros b. apply all_runs_done.
Qed.

Lemma inside_ask {B} full (e : MmsClientE B) c :
  (∀ b, within (called e b)) → inside (ask_server depth full e c).
Proof.
  intros He. destruct full; [by apply inside_request|].
  apply all_runs_bind; [by apply all_runs_call|]. intros b. apply all_runs_done.
Qed.

(** Take a program apart down to its calls and lines. *)
Ltac inside_steps :=
  repeat lazymatch goal with
  | |- inside (pbind _ _) => apply all_runs_bind; [|intros ?]
  | |- inside (done_ _) => apply all_runs_done
  | |- inside (line _) => apply inside_line
  | |- inside undefined => apply inside_undefined
  | |- inside (rendered _ _) => apply inside_rendered; intros ?
  | |- inside (request _ _ _) => apply inside_request; intros ?; split; reflexivity
  | |- inside (ask_server _ _ _ _) => apply inside_ask; intros ?; split; reflexivity
  | |- inside (repeat_ _ _) => apply all_runs_repeat; intros ?
  | |- inside (let _ := _ in _) => cbv zeta
  | |- inside (if ?b then _ else _) => destruct b
  | |- inside (match ?x with _ => _ end) => destruct x
  end.

Lemma inside_emit_ok op target : inside (emit_ok op target).
Proof. apply inside_line. Qed.

Lemma inside_emit_fail op target reason : inside (emit_fail op target reason).
Proof. apply inside_line. Qed.

Lemma inside_emit_read op target err v : inside (emit_read depth op target err v).
Proof. unfold emit_read, emit_value. inside_steps; apply inside_line. Qed.

(** Unfold the services down to the programs above. *)
Ltac inside_services_steps :=
  repeat (progress inside_steps ||
    lazymatch goal with
    | |- inside (emit_line _) => apply inside_line
    | |- inside (emit_ok _ _) => apply inside_emit_ok
    | |- inside (emit_fail _ _ _) => apply inside_emit_fail
    | |- inside (emit_read _ _ _ _ _) => apply inside_emit_read
    | |- inside (?f _ _ _ _ _ _ _ _ _ _) => unfold f
    | |- inside (?f _ _ _ _ _ _ _ _ _) => unfold f
    | |- inside (?f _ _ _ _ _ _ _ _) => unfold f
    | |- inside (?f _ _ _ _ _ _ _) => unfold f
    | |- inside (?f _ _ _ _ _ _) => unfold f
    | |- inside (?f _ _ _ _ _) => unfold f
    | |- inside (?f _ _ _ _) => unfold f
    | |- inside (?f _ _ _) => unfold f
    | |- inside (?f _ _) => unfold f
    end).

Lemma inside_services c : inside (run_services depth c).
Proof. inside_services_steps. Qed.

Lemma inside_names c : inside (phase_1a_names depth c).
Proof. inside_services_steps. Qed.

Lemma inside_phases c : inside (full_phases depth c).
Proof.
  apply all_runs_bind; [inside_services_steps|intros ?].
  apply all_runs_bind; [inside_services_steps|intros ?].
  apply all_runs_bind; [inside_services_steps|intros ?].
  apply all_runs_bind; [inside_services_steps|intros ?]. apply inside_services.
Qed.

(** ** The program *)

Lemma phases_called {B} p (e : MmsClientE B) b t :
  phases p (called e b :: t) = q ← phase_step p (called e b); phases q t.
Proof. change (called e b :: t) with ([called e b] ++ t). by rewrite phases_app. Qed.

Lemma phases_printed p l t : phases p (printed l :: t) = phases p t.
Proof. done. Qed.

Lemma phases_then p q t t' : phases p t = Some q → phases p (t ++ t') = phases q t'.
Proof. intros Ht. rewrite phases_app, Ht. done. Qed.

(** Reports keep whatever connection there is. *)
Lemma reports_keep p rs c t c' :
  runs (handle_reports depth rs c) t c' → phases p t = Some p ∧ connects t = [].
Proof.
  revert c t. induction rs as [|r rs IH]; intros c t Hr; [by destruct Hr as [-> _]|].
  cbn [handle_reports] in Hr. apply runs_bind in Hr as (t1 & t2 & u & -> & H1 & H2).
  assert (∃ l, t1 = [printed l]) as [l ->].
  { unfold report_handler, emit_value, rendered in H1. destruct (sb_value _ _).
    - apply runs_line in H1 as ->. eauto.
    - done. }
  apply (IH _ _ H2).
Qed.

(** A request: what happens before it keeps the connection. *)
Lemma ask_runs {B} full (e : MmsClientE B) c t b c' p :
  p ≠ Absent → runs (ask_server depth full e c) t (b, c') →
  phases p t = phase_step p (called e b) ∧ connects t = connects [called e b].
Proof.
  intros Hp Hr. destruct full; cbn [ask_server] in Hr.
  - unfold request in Hr.
    apply runs_bind in Hr as (t3 & t4 & rs & -> & Hc & H1). apply runs_call in Hc as ->.
    apply runs_bind in H1 as (t5 & t6 & c'' & -> & Hh & H1).
    apply runs_bind in H1 as (t7 & t8 & b' & -> & Hc & H1). apply runs_call in Hc as ->.
    destruct H1 as [-> [= -> ->]]. apply (reports_keep p) in Hh as [Hph Hc].
    rewrite !connects_app, Hc, (phases_then p p), (phases_then p p _ _ Hph); [by rewrite !app_nil_r|].
    change (phases p [called reports rs]) with (if decide (p = Absent) then None else Some p).
    by rewrite decide_False.
  - apply runs_bind in Hr as (t1 & t2 & b' & -> & Hc & H1). apply runs_call in Hc as ->.
    by destruct H1 as [-> [= -> ->]].
Qed.

Lemma inside_show full item show c : inside (read_show depth full item show c).
Proof. unfold read_show, jl_fail_target, jl_read. inside_steps. Qed.

(** A connection that is made: until it is destroyed, and whether it was
    established. *)
Lemma run_sequence_runs host port full t rc :
  runs (run_sequence depth host port full) t rc →
  phases Absent t = Some Absent ∧
  (rc = 1 ∧ connects t = [] ∨ ∃ err, connects t = [err] ∧ rc = if mms_ok err then 0 else 2).
Proof.
  intros Hr. unfold run_sequence in Hr.
  apply runs_bind in Hr as (t1 & t2 & made & -> & Hc & Hr). apply runs_call in Hc as ->.
  destruct made; cbn [negb] in Hr; [|destruct Hr as [-> ->]; split; [done|by left]].
  apply runs_bind in Hr as (t3 & t4 & u & -> & H1 & Hr).
  assert (phases Created t3 = Some Created ∧ connects t3 = []) as [Hp3 Hc3].
  { destruct full; [by apply runs_call in H1 as ->|by destruct H1 as [-> _]]. }
  apply runs_bind in Hr as (t5 & t6 & [err c] & -> & H2 & Hr).
  apply (ask_runs _ _ _ _ _ _ Created) in H2 as [Hp5 Hc5]; [|done].
  change (phases Created t5 = Some (if mms_ok err then Connected else Created)) in Hp5.
  cbv beta iota in Hr. destruct (mms_ok err) eqn:Herr; cbn [negb] in Hr.
  - apply runs_bind in Hr as (t7 & t8 & c7 & -> & H7 & Hr).
    apply runs_bind in Hr as (t9 & t10 & c9 & -> & H9 & Hr).
    apply runs_bind in Hr as (t11 & t12 & c11 & -> & H11 & Hr).
    assert (phases Connected (t7 ++ t9 ++ t11) = Some Connected ∧ connects (t7 ++ t9 ++ t11) = []) as [Hpi Hci].
    { apply within_phases. rewrite !Forall_app. split; [|split].
      - revert H7. destruct full; [apply inside_names|apply all_runs_done].
      - revert H9. apply inside_show.
      - revert H11. destruct full; [apply inside_phases|apply all_runs_done]. }
    unfold conclude in Hr. apply runs_bind in Hr as (t13 & t14 & [cerr c13] & -> & H13 & Hr).
    apply (ask_runs _ _ _ _ _ _ Connected) in H13 as [Hp13 Hc13]; [|done].
    change (phases Connected t13 = Some Closed) in Hp13.
    apply runs_bind in Hr as (t15 & t16 & u' & -> & H15 & Hr).
    assert (∃ l, t15 = [printed l]) as [l ->]. { destruct (negb _); apply runs_line in H15 as ->; eauto. }
    apply runs_bind in Hr as (t17 & t18 & u'' & -> & H17 & Hr). apply runs_call in H17 as ->.
    destruct Hr as [-> ->]. split.
    + rewrite (phases_then Absent Created), (phases_then _ _ _ _ Hp3), (phases_then _ _ _ _ Hp5) by done.
      rewrite (app_assoc t9), (app_assoc t7), (phases_then _ _ _ _ Hpi), (phases_then _ _ _ _ Hp13). done.
    + right. exists err. rewrite Herr. rewrite !connects_app in Hci. rewrite !connects_app, Hc3, Hc5, Hc13.
      apply app_nil in Hci as [-> [-> ->]%app_nil]. done.
  - apply runs_bind in Hr as (t7 & t8 & u' & -> & H7 & Hr). apply runs_call in H7 as ->.
    destruct Hr as [-> ->]. split.
    + rewrite (phases_then Absent Created), (phases_then _ _ _ _ Hp3), (phases_then _ _ _ _ Hp5) by done. done.
    + right. exists err. rewrite Herr. rewrite !connects_app, Hc3, Hc5. done.
Qed.

(** The last two connections are used without a look at whether they were
    made. *)
Definition made_ok (ev : event MmsClientE) : Prop :=
  match ev with
  | called e b =>
      match e in MmsClientE B return B → Prop with
      | MmsConnection_create => λ made, made = true
      | _ => λ _, True
      end b
  | printed _ => True
  end.

Definition all_made (t : list (event MmsClientE)) : Prop := Forall made_ok t.

Lemma made_first made t : all_made ([called MmsConnection_create made] ++ t) → made = true.
Proof. intros Ha. apply Forall_app in Ha as [Hm _]. by apply (proj1 (list.Forall_singleton _ _)) in Hm. Qed.

Ltac next_call Hr :=
  let t := fresh "t" in let t' := fresh "t" in let b := fresh "b" in let Hc := fresh "Hc" in
  apply runs_bind in Hr as (t & t' & b & -> & Hc & Hr); apply runs_call in Hc as ->.

Lemma ask_directly {B A} (e : MmsClientE B) c (f : B * Z → prog MmsClientE A) t a :
  runs (pbind (ask_server depth false e c) f) t a →
  ∃ b t', t = called e b :: t' ∧ runs (f (b, c)) t' a.
Proof.
  intros Hr. apply runs_bind in Hr as (t1 & t2 & r & -> & H1 & Hr). cbn [ask_server] in H1.
  next_call H1. destruct H1 as [-> ->]. by exists b, t2.
Qed.

Lemma run_abort_runs host port t u :
  runs (run_abort depth host port) t u →
  (∃ err, connects t = [err]) ∧ (all_made t → phases Absent t = Some Absent).
Proof.
  intros Hr. unfold run_abort in Hr. next_call Hr. next_call Hr.
  destruct (mms_ok b0) eqn:Hok; cbn [negb] in Hr.
  - next_call Hr. destruct b1 as [v err]. cbv beta iota in Hr.
    apply runs_bind in Hr as (t6 & t7 & u6 & -> & H6 & Hr). apply inside_emit_read, within_phases in H6 as [Hp6 Hc6].
    next_call Hr. apply runs_bind in Hr as (t9 & t10 & u9 & -> & H9 & Hr).
    assert (∃ l, t9 = [printed l]) as [l ->]. { destruct (negb _); apply runs_line in H9 as ->; eauto. }
    apply runs_call in Hr as ->. split; [exists b0; by rewrite !connects_app, Hc6|].
    intros ->%made_first. rewrite (phases_then Absent Created) by done.
    rewrite (phases_then Created Connected) by (cbn; by rewrite Hok).
    rewrite (phases_then Connected Connected) by done. by rewrite (phases_then _ _ _ _ Hp6).
  - apply runs_bind in Hr as (t3 & t4 & u3 & -> & H3 & Hr). apply runs_line in H3 as ->.
    apply runs_call in Hr as ->. split; [by exists b0|]. intros ->%made_first.
    rewrite (phases_then Absent Created) by done.
    by rewrite (phases_then Created Created) by (cbn; by rewrite Hok).
Qed.

Lemma run_server_abort_runs host port t u :
  runs (run_server_abort host port) t u →
  (∃ err, connects t = [err]) ∧ (all_made t → phases Absent t = Some Absent).
Proof.
  intros Hr. unfold run_server_abort in Hr. do 4 next_call Hr.
  destruct (mms_ok b2) eqn:Hok; cbn [negb] in Hr.
  - next_call Hr. destruct b3 as [dae err]. cbv beta iota in Hr. next_call Hr.
    apply runs_bind in Hr as (t9 & t10 & u9 & -> & H9 & Hr).
    assert (∃ l, t9 = [printed l]) as [l ->].
    { destruct (_ && _); [apply runs_line in H9 as ->; eauto|].
      destruct (negb _); apply runs_line in H9 as ->; eauto. }
    apply runs_call in Hr as ->. split; [by exists b2|]. intros ->%made_first.
    do 3 rewrite (phases_then _ Created) by done.
    by rewrite (phases_then Created Connected) by (cbn; by rewrite Hok).
  - apply runs_bind in Hr as (t3 & t4 & u3 & -> & H3 & Hr). apply runs_line in H3 as ->.
    apply runs_call in Hr as ->. split; [by exists b2|]. intros ->%made_first.
    do 3 rewrite (phases_then _ Created) by done.
    by rewrite (phases_then Created Created) by (cbn; by rewrite Hok).
Qed.

(** The connections of a run of the program, as the results of connecting say
    and as the exit code says. *)
Inductive exit_status : list MmsError → Z → Prop :=
| not_made : exit_status [] 1
| not_established err : mms_ok err = false → exit_status [err] 2
| not_made_again : exit_status [MMS_ERROR_NONE] 1
| not_reconnected err : mms_ok err = false → exit_status [MMS_ERROR_NONE; err] 2
| all_four err err' : exit_status [MMS_ERROR_NONE; MMS_ERROR_NONE; err; err'] 0.

(** C4: Whatever the servers answer, the MMS client makes requests only on an
    established connection and destroys every connection it makes, provided that
    every MmsConnection_create succeeds; and its exit code says how far it came:
    1 for a connection that could not be made, 2 when the first or the second
    could not be established, and 0 when both were, whether or not the third and
    the fourth, which are the ones to be aborted, were established. *)
Theorem client_uses_connections version argv t code :
  runs (main depth version argv) t code →
  (∃ l, t = [printed l] ∧ code = 0) ∨
  (exit_status (connects t) code ∧ (all_made t → phases Absent t = Some Absent)).
Proof.
  intros Hr. unfold main in Hr. destruct (jl_handle_meta_flags _ _ _) as [l|].
  { left. exists l. apply runs_bind in Hr as (t1 & t2 & u & -> & Hl & Hr).
    apply runs_line in Hl as ->. by destruct Hr as [-> ->]. }
  right. destruct (scan_pairs _ _ _) as [host port]. cbv beta iota in Hr.
  apply runs_bind in Hr as (t1 & t2 & rc & -> & H1 & Hr).
  apply run_sequence_runs in H1 as [Hp1 Hc1].
  destruct Hc1 as [[-> Hc1]|(e1 & Hc1 & ->)].
  { destruct Hr as [-> ->]. rewrite app_nil_r, Hc1. split; [constructor|done]. }
  destruct (mms_ok e1) eqn:He1; cbn [negb Z.eqb] in Hr; cycle 1.
  { destruct Hr as [-> ->]. rewrite app_nil_r, Hc1. split; [by constructor|done]. }
  assert (e1 = MMS_ERROR_NONE) as -> by by destruct e1.
  apply runs_bind in Hr as (t3 & t4 & rc & -> & H3 & Hr).
  apply run_sequence_runs in H3 as [Hp3 Hc3].
  rewrite !connects_app, Hc1, (phases_then _ _ _ _ Hp1), (phases_then _ _ _ _ Hp3).
  destruct Hc3 as [[-> Hc3]|(e3 & Hc3 & ->)].
  { destruct Hr as [-> ->]. rewrite Hc3. split; [constructor|done]. }
  destruct (mms_ok e3) eqn:He3; cbn [negb Z.eqb] in Hr; cycle 1.
  { destruct Hr as [-> ->]. rewrite Hc3. split; [by constructor|done]. }
  assert (e3 = MMS_ERROR_NONE) as -> by by destruct e3.
  apply runs_bind in Hr as (t5 & t6 & u5 & -> & H5 & Hr).
  apply runs_bind in Hr as (t7 & t8 & u7 & -> & H7 & Hr). destruct Hr as [-> ->].
  apply run_abort_runs in H5 as [[e5 Hc5] Hp5]. apply run_server_abort_runs in H7 as [[e7 Hc7] Hp7].
  rewrite !connects_app, Hc3, Hc5, Hc7. split; [constructor|]. rewrite app_nil_r.
  intros Ha. apply Forall_app in Ha as [_ Ha]. apply Forall_app in Ha as [_ Ha].
  apply Forall_app in Ha as [Ha5 Ha7].
  rewrite (phases_then Absent Absent); [by apply Hp7|by apply Hp5].
Qed.

(** The connection that reads once. *)
Definition boolean_line (r : option MmsValue * MmsError) : string :=
  match r.1 with
  | Some v => if mms_ok r.2 then read_text "interop/boolean" (bool_value v)
              else fail_target_text "read" "interop/boolean" (mms_error_str r.2)
  | None => fail_target_text "read" "interop/boolean" (mms_error_str r.2)
  end.

Definition conclude_line (err : MmsError) : string :=
  if mms_ok err then ok_text "conclude" else fail_text "conclude" (mms_error_str err).

(** The second connection of the MMS client reads one variable, prints what
    was answered, and concludes; when it cannot be established it is destroyed
    and nothing is printed. *)
Theorem reconnect_reads_once host port t rc :
  runs (run_sequence depth host port false) t rc →
  (rc = 1 ∧ t = [called MmsConnection_create false]) ∨
  (∃ err, rc = 2 ∧ mms_ok err = false ∧
     t = [called MmsConnection_create true; called (MmsConnection_connect host port) err;
          called MmsConnection_destroy tt]) ∨
  (∃ r err, rc = 0 ∧
     t = [called MmsConnection_create true; called (MmsConnection_connect host port) MMS_ERROR_NONE;
          called (MmsConnection_readVariable "interop" "boolean") r; printed (boolean_line r);
          called MmsConnection_conclude err; printed (conclude_line err);
          called MmsConnection_destroy tt]).
Proof.
  intros Hr. unfold run_sequence in Hr. next_call Hr.
  destruct b; cbn [negb] in Hr; [|left; by destruct Hr as [-> ->]].
  right. apply runs_bind in Hr as (s1 & s2 & u1 & -> & [-> _] & Hr).
  apply ask_directly in Hr as (err & s3 & -> & Hr). cbv beta iota in Hr.
  destruct (mms_ok err) eqn:Herr; cbn [negb] in Hr; cycle 1.
  { left. next_call Hr. destruct Hr as [-> ->]. exists err. by destruct b. }
  right. assert (err = MMS_ERROR_NONE) as -> by by destruct err.
  apply runs_bind in Hr as (s4 & s5 & c4 & -> & [-> ->] & Hr).
  apply runs_bind in Hr as (s6 & s7 & c6 & -> & H6 & Hr). unfold read_show in H6.
  apply ask_directly in H6 as (r & s8 & -> & H6). destruct r as [v rerr].
  assert (s8 = [printed (boolean_line (v, rerr))]) as ->.
  { unfold boolean_line. cbn [fst snd]. cbv beta iota zeta in H6.
    destruct v as [v|]; [destruct (mms_ok rerr); cbn [negb] in H6|];
      apply runs_bind in H6 as (s9 & s10 & u9 & -> & H9 & H6); apply runs_line in H9 as ->;
      by destruct H6 as [-> _]. }
  apply runs_bind in Hr as (s11 & s12 & c11 & -> & [-> ->] & Hr). unfold conclude in Hr.
  apply ask_directly in Hr as (cerr & s13 & -> & Hr). cbv beta iota in Hr.
  apply runs_bind in Hr as (s14 & s15 & u14 & -> & H14 & Hr).
  assert (s14 = [printed (conclude_line cerr)]) as ->.
  { unfold conclude_line. by destruct (mms_ok cerr); apply runs_line in H14 as ->. }
  next_call Hr. destruct Hr as [-> ->]. exists (v, rerr), cerr. by destruct b.
Qed.

End spec.

(** ** Runs against a server *)

Definition client_run := exec 70 ref_server reporting_start (main (H := ref_mms) 4 None ["mms_client"]).

Lemma client_run_eq : ∃ st, client_run = Some (trace_of client_run, 0, st).
Proof.
  assert (match client_run with Some (_, c, _) => c =? 0 | None => false end = true) as Hc
    by (vm_compute; reflexivity).
  revert Hc. destruct client_run as [[[t c] st]|]; [|done]. intros ->%Z.eqb_eq. by exists st.
Qed.

Lemma client_uses_connections_witness :
  (∃ l, trace_of client_run = [printed l] ∧ 0 = 0) ∨
  (exit_status (connects (trace_of client_run)) 0 ∧
   (all_made (trace_of client_run) → phases Absent (trace_of client_run) = Some Absent)).
Proof.
  apply (client_uses_connections (H := ref_mms) 4 None ["mms_client"]).
  destruct client_run_eq as [st Hst]. by eapply exec_runs.
Defined.

Definition reconnect_run :=
  exec 1 ref_server ref_start (run_sequence (H := ref_mms) 4 "127.0.0.1" 1102 false).

Lemma reconnect_reads_once_witness :
  (0 = 1 ∧ trace_of reconnect_run = [called MmsConnection_create false]) ∨
  (∃ err, 0 = 2 ∧ mms_ok err = false ∧
     trace_of reconnect_run =
       [called MmsConnection_create true; called (MmsConnection_connect "127.0.0.1" 1102) err;
        called MmsConnection_destroy tt]) ∨
  (∃ r err, 0 = 0 ∧
     trace_of reconnect_run =
       [called MmsConnection_create true; called (MmsConnection_connect "127.0.0.1" 1102) MMS_ERROR_NONE;
        called (MmsConnection_readVariable "interop" "boolean") r; printed (boolean_line r);
        called MmsConnection_conclude err; printed (conclude_line err);
        called MmsConnection_destroy tt]).
Proof.
  apply (reconnect_reads_once (H := ref_mms) 4 "127.0.0.1" 1102).
  by eapply (exec_runs 1 ref_server ref_start _ _ 0 ref_start).
Defined.

(** ** What the lines leave open *)

(** A read the server denies with a data access error is reported as read. *)
Lemma denied_read_reported :
  boolean_line (H := ref_mms) (Some (VError 3), MMS_ERROR_NONE) = read_text "interop/boolean" "false".
Proof. reflexivity. Qed.

(** A control character of a visible string is not escaped. *)
Lemma control_character_kept t :
  ¬ parses (string_value (H := ref_mms) (VVisible (String "009" ""))) t.
Proof. intros [[|fuel] Hp]; [done|]. revert Hp. by vm_compute. Qed.
